(** * flexSensorArray_control: whisker-array firmware

    A shallow embedding of [flexSensorArray_control.ino] (Arduino Mega,
    ATmega2560): the line parser, the bring-up and run-time command
    dispatchers, the whisking state machine of the main cycle, the homing
    routine, the sampling interrupt handler and the stepping callbacks,
    and of the two sample windows of [controller_notebook.ipynb], followed
    by the properties established about them.

    Conventions.
    - C [int] is 16 bits and [long] 32 bits on the target; values are kept
      in [Z] and the conversions that can wrap are written out
      ([to_int], [to_long], [to_uint8], [to_ulong]).
    - Global arrays are lists of their declared size.  An access outside the
      storage, or through a null pointer, has no defined behaviour in C++:
      the embedding stops with a [Fault] naming the array and the index.
    - The objects of the external libraries are kept symbolic.  An
      [AccelStepper] is the chronological list of the calls made on it; the
      board is the chronological [trace] of the calls made on it.  What the
      libraries and the hardware answer ([distanceToGo], [currentPosition],
      [runSpeed], [digitalRead], [analogRead], [millis]) is read from an
      [Env], a function of those histories. *)

From Stdlib Require Import ZArith List Ascii String Lia Bool.
From stdpp Require Import base tactics option list numbers strings relations.

Local Open Scope Z_scope.

(** ** Constants *)

Definition ALL_FLAG : Z := 999.
Definition BAUD : Z := 921600.
Definition STEPS_PER_REVOLUTION : Z := 400.

Definition motorShield_addresses : list Z :=
  [ 0x60; 0x61; 0x62; 0x63; 0x64; 0x65; 0x66; 0x67; 0x68; 0x69; 0x6A; 0x6B; 0x6C; 0x6D;
    0x6E; 0x6F; 0x70; 0x71; 0x72; 0x73; 0x74; 0x75; 0x76; 0x77; 0x78; 0x79; 0x7A; 0x7B;
    0x7C; 0x7D; 0x7E; 0x7F ].

(** [A0] .. [A15] are the digital pin numbers 54 .. 69 on the Mega. *)
Definition analogPins : list Z :=
  [ 54; 55; 56; 57; 58; 59; 60; 61; 62; 63; 64; 65; 66; 67; 68; 69 ].
Definition limit_pins : list Z :=
  [ 22; 24; 26; 28; 30; 32; 34; 36; 38; 40; 42; 44; 46; 48; 50; 52 ].

Definition MAX_SHIELDS : Z := 16.
Definition MAX_STEPPERS : Z := 16.
Definition MAX_WHISKERS : Z := 16.
Definition MAX_STEPS : Z := 200.

Definition default_prot : Z := 133.
Definition default_ret : Z := 22.
Definition default_speed : Z := 1500.
Definition default_accel : Z := 500.

(** [debug] is initialised to 0 and never assigned. *)
Definition debug : Z := 0.

(** ** Machine integers *)

Definition wrap_signed (bits : Z) (z : Z) : Z :=
  (z + 2 ^ (bits - 1)) mod 2 ^ bits - 2 ^ (bits - 1).

Definition to_int (z : Z) : Z := wrap_signed 16 z.
Definition to_long (z : Z) : Z := wrap_signed 32 z.
Definition to_uint8 (z : Z) : Z := z mod 2 ^ 8.
Definition to_ulong (z : Z) : Z := z mod 2 ^ 32.

Definition INT_MIN : Z := - 32768.
Definition INT_MAX : Z := 32767.

(** A C condition: any non-zero value is true. *)
Definition truthy (z : Z) : bool := negb (z =? 0).

(** ** Outcomes *)

Inductive fault : Type :=
| OutOfBounds (array : string) (index : Z)
| NullPointer (array : string) (index : Z)
| AtoiRange (text : string).

(** [Blocked] is a loop that has not left after the fuel given to it. *)
Inductive outcome (A : Type) : Type :=
| Done (a : A)
| Fault (f : fault)
| Blocked.
Arguments Done {A} a.
Arguments Fault {A} f.
Arguments Blocked {A}.

#[global] Instance outcome_ret : MRet outcome := fun A a => Done a.
#[global] Instance outcome_bind : MBind outcome := fun A B k m =>
  match m with
  | Done a => k a
  | Fault f => Fault f
  | Blocked => Blocked
  end.

(** ** Arrays *)

Definition in_bounds {A} (a : list A) (i : Z) : bool :=
  (0 <=? i) && (i <? Z.of_nat (length a)).

Definition aget {A} (name : string) (a : list A) (i : Z) : outcome A :=
  if 0 <=? i then
    match a !! Z.to_nat i with
    | Some x => Done x
    | None => Fault (OutOfBounds name i)
    end
  else Fault (OutOfBounds name i).

Definition aset {A} (name : string) (a : list A) (i : Z) (v : A) : outcome (list A) :=
  if in_bounds a i then Done (<[Z.to_nat i := v]> a) else Fault (OutOfBounds name i).

(** [a[i]->...] : the entry must exist and must not be null. *)
Definition deref {A} (name : string) (a : list (option A)) (i : Z) : outcome A :=
  p ← aget name a i;
  match p with
  | Some x => Done x
  | None => Fault (NullPointer name i)
  end.

(** [for (int i = 0; i < bound; i++) body] *)
Fixpoint for_range {T} (i : Z) (n : nat) (body : Z -> T -> outcome T) (s : T) : outcome T :=
  match n with
  | O => Done s
  | S n' => s' ← body i s; for_range (i + 1) n' body s'
  end.

Definition for_upto {T} (bound : Z) (body : Z -> T -> outcome T) (s : T) : outcome T :=
  for_range 0 (Z.to_nat bound) body s.

(** ** External objects *)

(** Calls on one [AccelStepper], oldest first. *)
Inductive call : Type :=
| MoveTo (absolute : Z)
| Run
| Stop
| SetMaxSpeed (speed : Z)
| SetAcceleration (acceleration : Z)
| SetCurrentPosition (position : Z).

Abbreviation AccelStepper := (list call) (only parsing).

(** An [Adafruit_StepperMotor]: the shield slot it was taken from and its port. *)
Record StepperMotor : Type := { shield : Z; port : Z }.

Inductive direction : Type := FORWARD | BACKWARD.
Inductive step_style : Type := SINGLE | DOUBLE | INTERLEAVE | MICROSTEP.
Inductive pin_mode : Type := INPUT | INPUT_PULLUP.

(** Calls on the board, oldest first. *)
Inductive event : Type :=
| SerialBegin (baud : Z)
| SerialPrint (v : Z)
| SerialPrintChar (c : ascii)
| SerialPrintln
| SerialPrintlnChar (c : ascii)
| SerialPrintlnText (text : string)
| Delay (ms : Z)
| AnalogReferenceInternal1V1
| ShieldBegin (address : Z)
| PinMode (pin : Z) (mode : pin_mode)
| Onestep (motor : Z) (dir : direction) (style : step_style)
| TimerInitialize (period : Z)
| TimerAttachInterrupt.

(** What the libraries and the hardware report.  [runSpeed] is the
    decision [AccelStepper::run] takes through [runSpeed()] when it is
    called on an object with the given history at the given point of the
    board trace: no step is due, or one step in the given direction. *)
Record Env : Type := {
  distanceToGo : AccelStepper -> Z;
  currentPosition : AccelStepper -> Z;
  runSpeed : AccelStepper -> list event -> option direction;
  digitalRead : Z -> list event -> bool;  (* [true] is HIGH *)
  analogRead : Z -> list event -> Z;
  millis : list event -> Z
}.

(** ** Firmware state: the globals of the sketch *)

Record State : Type := MkState {
  prot_steps : list Z;
  ret_steps : list Z;
  is_left : list Z;
  whisker_col_id : list Z;
  whisking_status : list Z;
  motor_shields : list (option Z);
  steppers : list (option StepperMotor);
  accel_steppers : list (option AccelStepper);
  num_shields : Z;
  num_steppers : Z;
  num_whiskers : Z;
  output_buffer : list Z;
  buff_idx : Z;
  sampling : Z;
  sampling_period : Z;
  stepper_id : Z;
  user_command_buffer : list ascii;
  user_command_buffer_index : Z;
  argument_words : list (option Z);
  trace : list event
}.

Definition set_prot_steps (v : list Z) (s : State) : State :=
  {| prot_steps := v; ret_steps := ret_steps s; is_left := is_left s;
     whisker_col_id := whisker_col_id s; whisking_status := whisking_status s;
     motor_shields := motor_shields s; steppers := steppers s;
     accel_steppers := accel_steppers s; num_shields := num_shields s;
     num_steppers := num_steppers s; num_whiskers := num_whiskers s;
     output_buffer := output_buffer s; buff_idx := buff_idx s; sampling := sampling s;
     sampling_period := sampling_period s; stepper_id := stepper_id s;
     user_command_buffer := user_command_buffer s;
     user_command_buffer_index := user_command_buffer_index s;
     argument_words := argument_words s; trace := trace s |}.

Definition set_ret_steps (v : list Z) (s : State) : State :=
  {| prot_steps := prot_steps s; ret_steps := v; is_left := is_left s;
     whisker_col_id := whisker_col_id s; whisking_status := whisking_status s;
     motor_shields := motor_shields s; steppers := steppers s;
     accel_steppers := accel_steppers s; num_shields := num_shields s;
     num_steppers := num_steppers s; num_whiskers := num_whiskers s;
     output_buffer := output_buffer s; buff_idx := buff_idx s; sampling := sampling s;
     sampling_period := sampling_period s; stepper_id := stepper_id s;
     user_command_buffer := user_command_buffer s;
     user_command_buffer_index := user_command_buffer_index s;
     argument_words := argument_words s; trace := trace s |}.

Definition set_is_left (v : list Z) (s : State) : State :=
  {| prot_steps := prot_steps s; ret_steps := ret_steps s; is_left := v;
     whisker_col_id := whisker_col_id s; whisking_status := whisking_status s;
     motor_shields := motor_shields s; steppers := steppers s;
     accel_steppers := accel_steppers s; num_shields := num_shields s;
     num_steppers := num_steppers s; num_whiskers := num_whiskers s;
     output_buffer := output_buffer s; buff_idx := buff_idx s; sampling := sampling s;
     sampling_period := sampling_period s; stepper_id := stepper_id s;
     user_command_buffer := user_command_buffer s;
     user_command_buffer_index := user_command_buffer_index s;
     argument_words := argument_words s; trace := trace s |}.

Definition set_whisker_col_id (v : list Z) (s : State) : State :=
  {| prot_steps := prot_steps s; ret_steps := ret_steps s; is_left := is_left s;
     whisker_col_id := v; whisking_status := whisking_status s;
     motor_shields := motor_shields s; steppers := steppers s;
     accel_steppers := accel_steppers s; num_shields := num_shields s;
     num_steppers := num_steppers s; num_whiskers := num_whiskers s;
     output_buffer := output_buffer s; buff_idx := buff_idx s; sampling := sampling s;
     sampling_period := sampling_period s; stepper_id := stepper_id s;
     user_command_buffer := user_command_buffer s;
     user_command_buffer_index := user_command_buffer_index s;
     argument_words := argument_words s; trace := trace s |}.

Definition set_whisking_status (v : list Z) (s : State) : State :=
  {| prot_steps := prot_steps s; ret_steps := ret_steps s; is_left := is_left s;
     whisker_col_id := whisker_col_id s; whisking_status := v;
     motor_shields := motor_shields s; steppers := steppers s;
     accel_steppers := accel_steppers s; num_shields := num_shields s;
     num_steppers := num_steppers s; num_whiskers := num_whiskers s;
     output_buffer := output_buffer s; buff_idx := buff_idx s; sampling := sampling s;
     sampling_period := sampling_period s; stepper_id := stepper_id s;
     user_command_buffer := user_command_buffer s;
     user_command_buffer_index := user_command_buffer_index s;
     argument_words := argument_words s; trace := trace s |}.

Definition set_motor_shields (v : list (option Z)) (s : State) : State :=
  {| prot_steps := prot_steps s; ret_steps := ret_steps s; is_left := is_left s;
     whisker_col_id := whisker_col_id s; whisking_status := whisking_status s;
     motor_shields := v; steppers := steppers s; accel_steppers := accel_steppers s;
     num_shields := num_shields s; num_steppers := num_steppers s;
     num_whiskers := num_whiskers s; output_buffer := output_buffer s; buff_idx := buff_idx s;
     sampling := sampling s; sampling_period := sampling_period s; stepper_id := stepper_id s;
     user_command_buffer := user_command_buffer s;
     user_command_buffer_index := user_command_buffer_index s;
     argument_words := argument_words s; trace := trace s |}.

Definition set_steppers (v : list (option StepperMotor)) (s : State) : State :=
  {| prot_steps := prot_steps s; ret_steps := ret_steps s; is_left := is_left s;
     whisker_col_id := whisker_col_id s; whisking_status := whisking_status s;
     motor_shields := motor_shields s; steppers := v; accel_steppers := accel_steppers s;
     num_shields := num_shields s; num_steppers := num_steppers s;
     num_whiskers := num_whiskers s; output_buffer := output_buffer s; buff_idx := buff_idx s;
     sampling := sampling s; sampling_period := sampling_period s; stepper_id := stepper_id s;
     user_command_buffer := user_command_buffer s;
     user_command_buffer_index := user_command_buffer_index s;
     argument_words := argument_words s; trace := trace s |}.

Definition set_accel_steppers (v : list (option AccelStepper)) (s : State) : State :=
  {| prot_steps := prot_steps s; ret_steps := ret_steps s; is_left := is_left s;
     whisker_col_id := whisker_col_id s; whisking_status := whisking_status s;
     motor_shields := motor_shields s; steppers := steppers s; accel_steppers := v;
     num_shields := num_shields s; num_steppers := num_steppers s;
     num_whiskers := num_whiskers s; output_buffer := output_buffer s; buff_idx := buff_idx s;
     sampling := sampling s; sampling_period := sampling_period s; stepper_id := stepper_id s;
     user_command_buffer := user_command_buffer s;
     user_command_buffer_index := user_command_buffer_index s;
     argument_words := argument_words s; trace := trace s |}.

Definition set_num_shields (v : Z) (s : State) : State :=
  {| prot_steps := prot_steps s; ret_steps := ret_steps s; is_left := is_left s;
     whisker_col_id := whisker_col_id s; whisking_status := whisking_status s;
     motor_shields := motor_shields s; steppers := steppers s;
     accel_steppers := accel_steppers s; num_shields := v; num_steppers := num_steppers s;
     num_whiskers := num_whiskers s; output_buffer := output_buffer s; buff_idx := buff_idx s;
     sampling := sampling s; sampling_period := sampling_period s; stepper_id := stepper_id s;
     user_command_buffer := user_command_buffer s;
     user_command_buffer_index := user_command_buffer_index s;
     argument_words := argument_words s; trace := trace s |}.

Definition set_num_steppers (v : Z) (s : State) : State :=
  {| prot_steps := prot_steps s; ret_steps := ret_steps s; is_left := is_left s;
     whisker_col_id := whisker_col_id s; whisking_status := whisking_status s;
     motor_shields := motor_shields s; steppers := steppers s;
     accel_steppers := accel_steppers s; num_shields := num_shields s; num_steppers := v;
     num_whiskers := num_whiskers s; output_buffer := output_buffer s; buff_idx := buff_idx s;
     sampling := sampling s; sampling_period := sampling_period s; stepper_id := stepper_id s;
     user_command_buffer := user_command_buffer s;
     user_command_buffer_index := user_command_buffer_index s;
     argument_words := argument_words s; trace := trace s |}.

Definition set_num_whiskers (v : Z) (s : State) : State :=
  {| prot_steps := prot_steps s; ret_steps := ret_steps s; is_left := is_left s;
     whisker_col_id := whisker_col_id s; whisking_status := whisking_status s;
     motor_shields := motor_shields s; steppers := steppers s;
     accel_steppers := accel_steppers s; num_shields := num_shields s;
     num_steppers := num_steppers s; num_whiskers := v; output_buffer := output_buffer s;
     buff_idx := buff_idx s; sampling := sampling s; sampling_period := sampling_period s;
     stepper_id := stepper_id s; user_command_buffer := user_command_buffer s;
     user_command_buffer_index := user_command_buffer_index s;
     argument_words := argument_words s; trace := trace s |}.

Definition set_output_buffer (v : list Z) (s : State) : State :=
  {| prot_steps := prot_steps s; ret_steps := ret_steps s; is_left := is_left s;
     whisker_col_id := whisker_col_id s; whisking_status := whisking_status s;
     motor_shields := motor_shields s; steppers := steppers s;
     accel_steppers := accel_steppers s; num_shields := num_shields s;
     num_steppers := num_steppers s; num_whiskers := num_whiskers s; output_buffer := v;
     buff_idx := buff_idx s; sampling := sampling s; sampling_period := sampling_period s;
     stepper_id := stepper_id s; user_command_buffer := user_command_buffer s;
     user_command_buffer_index := user_command_buffer_index s;
     argument_words := argument_words s; trace := trace s |}.

Definition set_buff_idx (v : Z) (s : State) : State :=
  {| prot_steps := prot_steps s; ret_steps := ret_steps s; is_left := is_left s;
     whisker_col_id := whisker_col_id s; whisking_status := whisking_status s;
     motor_shields := motor_shields s; steppers := steppers s;
     accel_steppers := accel_steppers s; num_shields := num_shields s;
     num_steppers := num_steppers s; num_whiskers := num_whiskers s;
     output_buffer := output_buffer s; buff_idx := v; sampling := sampling s;
     sampling_period := sampling_period s; stepper_id := stepper_id s;
     user_command_buffer := user_command_buffer s;
     user_command_buffer_index := user_command_buffer_index s;
     argument_words := argument_words s; trace := trace s |}.

Definition set_sampling (v : Z) (s : State) : State :=
  {| prot_steps := prot_steps s; ret_steps := ret_steps s; is_left := is_left s;
     whisker_col_id := whisker_col_id s; whisking_status := whisking_status s;
     motor_shields := motor_shields s; steppers := steppers s;
     accel_steppers := accel_steppers s; num_shields := num_shields s;
     num_steppers := num_steppers s; num_whiskers := num_whiskers s;
     output_buffer := output_buffer s; buff_idx := buff_idx s; sampling := v;
     sampling_period := sampling_period s; stepper_id := stepper_id s;
     user_command_buffer := user_command_buffer s;
     user_command_buffer_index := user_command_buffer_index s;
     argument_words := argument_words s; trace := trace s |}.

Definition set_sampling_period (v : Z) (s : State) : State :=
  {| prot_steps := prot_steps s; ret_steps := ret_steps s; is_left := is_left s;
     whisker_col_id := whisker_col_id s; whisking_status := whisking_status s;
     motor_shields := motor_shields s; steppers := steppers s;
     accel_steppers := accel_steppers s; num_shields := num_shields s;
     num_steppers := num_steppers s; num_whiskers := num_whiskers s;
     output_buffer := output_buffer s; buff_idx := buff_idx s; sampling := sampling s;
     sampling_period := v; stepper_id := stepper_id s;
     user_command_buffer := user_command_buffer s;
     user_command_buffer_index := user_command_buffer_index s;
     argument_words := argument_words s; trace := trace s |}.

Definition set_stepper_id (v : Z) (s : State) : State :=
  {| prot_steps := prot_steps s; ret_steps := ret_steps s; is_left := is_left s;
     whisker_col_id := whisker_col_id s; whisking_status := whisking_status s;
     motor_shields := motor_shields s; steppers := steppers s;
     accel_steppers := accel_steppers s; num_shields := num_shields s;
     num_steppers := num_steppers s; num_whiskers := num_whiskers s;
     output_buffer := output_buffer s; buff_idx := buff_idx s; sampling := sampling s;
     sampling_period := sampling_period s; stepper_id := v;
     user_command_buffer := user_command_buffer s;
     user_command_buffer_index := user_command_buffer_index s;
     argument_words := argument_words s; trace := trace s |}.

Definition set_user_command_buffer (v : list ascii) (s : State) : State :=
  {| prot_steps := prot_steps s; ret_steps := ret_steps s; is_left := is_left s;
     whisker_col_id := whisker_col_id s; whisking_status := whisking_status s;
     motor_shields := motor_shields s; steppers := steppers s;
     accel_steppers := accel_steppers s; num_shields := num_shields s;
     num_steppers := num_steppers s; num_whiskers := num_whiskers s;
     output_buffer := output_buffer s; buff_idx := buff_idx s; sampling := sampling s;
     sampling_period := sampling_period s; stepper_id := stepper_id s;
     user_command_buffer := v; user_command_buffer_index := user_command_buffer_index s;
     argument_words := argument_words s; trace := trace s |}.

Definition set_user_command_buffer_index (v : Z) (s : State) : State :=
  {| prot_steps := prot_steps s; ret_steps := ret_steps s; is_left := is_left s;
     whisker_col_id := whisker_col_id s; whisking_status := whisking_status s;
     motor_shields := motor_shields s; steppers := steppers s;
     accel_steppers := accel_steppers s; num_shields := num_shields s;
     num_steppers := num_steppers s; num_whiskers := num_whiskers s;
     output_buffer := output_buffer s; buff_idx := buff_idx s; sampling := sampling s;
     sampling_period := sampling_period s; stepper_id := stepper_id s;
     user_command_buffer := user_command_buffer s; user_command_buffer_index := v;
     argument_words := argument_words s; trace := trace s |}.

Definition set_argument_words (v : list (option Z)) (s : State) : State :=
  {| prot_steps := prot_steps s; ret_steps := ret_steps s; is_left := is_left s;
     whisker_col_id := whisker_col_id s; whisking_status := whisking_status s;
     motor_shields := motor_shields s; steppers := steppers s;
     accel_steppers := accel_steppers s; num_shields := num_shields s;
     num_steppers := num_steppers s; num_whiskers := num_whiskers s;
     output_buffer := output_buffer s; buff_idx := buff_idx s; sampling := sampling s;
     sampling_period := sampling_period s; stepper_id := stepper_id s;
     user_command_buffer := user_command_buffer s;
     user_command_buffer_index := user_command_buffer_index s; argument_words := v;
     trace := trace s |}.

Definition set_trace (v : list event) (s : State) : State :=
  {| prot_steps := prot_steps s; ret_steps := ret_steps s; is_left := is_left s;
     whisker_col_id := whisker_col_id s; whisking_status := whisking_status s;
     motor_shields := motor_shields s; steppers := steppers s;
     accel_steppers := accel_steppers s; num_shields := num_shields s;
     num_steppers := num_steppers s; num_whiskers := num_whiskers s;
     output_buffer := output_buffer s; buff_idx := buff_idx s; sampling := sampling s;
     sampling_period := sampling_period s; stepper_id := stepper_id s;
     user_command_buffer := user_command_buffer s;
     user_command_buffer_index := user_command_buffer_index s;
     argument_words := argument_words s; trace := v |}.

Definition emit (e : event) (s : State) : State := set_trace (trace s ++ [e]) s.

(** [long prot_steps[MAX_STEPPERS] = { default_prot }] sets the first entry
    and zero-initialises the others. *)
Definition init_state : State :=
  {| prot_steps := default_prot :: replicate 15 0;
     ret_steps := default_ret :: replicate 15 0;
     is_left := replicate 16 0;
     whisker_col_id := replicate 16 0;
     whisking_status := replicate 16 0;
     motor_shields := replicate 16 None;
     steppers := replicate 16 None;
     accel_steppers := replicate 16 None;
     num_shields := 0;
     num_steppers := 0;
     num_whiskers := 0;
     output_buffer := replicate 7 0;
     buff_idx := 0;
     sampling := 0;
     sampling_period := 20000;
     stepper_id := 0;
     user_command_buffer := replicate 64 "000"%char;
     user_command_buffer_index := 0;
     argument_words := replicate 8 None;
     trace := [] |}.

(** ** Command lines *)

Definition NUL : ascii := "000"%char.
Definition TAB : ascii := "009"%char.
Definition LF : ascii := "010"%char.
Definition CR : ascii := "013"%char.
Definition BS : ascii := "008"%char.
Definition DEL : ascii := "127"%char.

Definition code (c : ascii) : Z := Z.of_nat (nat_of_ascii c).

(** The characters [parse] replaces by 0. *)
Definition is_separator (c : ascii) : bool :=
  (c =? ",")%char || (c =? " ")%char || (c =? TAB)%char || (c =? LF)%char.

(** The first inner loop of [parse]: every leading separator is
    overwritten by 0 and stepped over. *)
Fixpoint blank_separators (fuel : nat) (buf : list ascii) (line : Z)
  : outcome (list ascii * Z) :=
  match fuel with
  | O => Blocked
  | S fuel' =>
      c ← aget "user_command_buffer" buf line;
      if is_separator c then
        buf' ← aset "user_command_buffer" buf line NUL;
        blank_separators fuel' buf' (line + 1)
      else Done (buf, line)
  end.

(** The second inner loop of [parse]: step to the end of the argument. *)
Fixpoint skip_argument (fuel : nat) (buf : list ascii) (line : Z) : outcome Z :=
  match fuel with
  | O => Blocked
  | S fuel' =>
      c ← aget "user_command_buffer" buf line;
      if negb (c =? NUL)%char && negb (is_separator c)
      then skip_argument fuel' buf (line + 1)
      else Done line
  end.

(** The outer loop of [parse].  The pointers it stores through
    [argument_words], advancing it each time, are returned in the order they are stored: the k-th
    one lands in entry k of the table the caller passed. *)
Fixpoint parse_loop (fuel : nat) (maxArgs : Z) (buf : list ascii) (line : Z) (argCount : Z)
  : outcome (list ascii * list (option Z)) :=
  match fuel with
  | O => Blocked
  | S fuel' =>
      c ← aget "user_command_buffer" buf line;
      if (c =? NUL)%char then Done (buf, [])
      else
        '(buf1, line1) ← blank_separators (S (length buf)) buf line;
        let argCount1 := to_uint8 (argCount + 1) in
        if argCount1 =? maxArgs - 1 then Done (buf1, [Some line1])
        else
          line2 ← skip_argument (S (length buf)) buf1 line1;
          '(buf2, words) ← parse_loop fuel' maxArgs buf1 line2 argCount1;
          Done (buf2, Some line1 :: words)
  end.

(** [parse(line, argument_words, maxArgs)]: the line after the separators
    were blanked, and the entries written from [argument_words[0]] on, the
    last one being the null that marks the end of the list. *)
Definition parse (buf : list ascii) (maxArgs : Z) : outcome (list ascii * list (option Z)) :=
  '(buf', words) ← parse_loop (S (length buf)) maxArgs buf 0 0;
  Done (buf', words ++ [None]).

(** The callers pass [sizeof(argument_words)]: eight pointers of two bytes. *)
Definition sizeof_pointer : Z := 2.
Definition sizeof_argument_words : Z := 8 * sizeof_pointer.

(** The entries [parse] wrote, laid over the table.  The table has room for
    [length table] entries; a write beyond it leaves the array. *)
Definition store_words (table words : list (option Z)) : outcome (list (option Z)) :=
  if (length words <=? length table)%nat
  then Done (words ++ drop (length words) table)
  else Fault (OutOfBounds "argument_words" (Z.of_nat (length table))).

(** The C string that starts at offset [p] of the buffer. *)
Fixpoint cstr (fuel : nat) (buf : list ascii) (p : Z) : outcome string :=
  match fuel with
  | O => Blocked
  | S fuel' =>
      c ← aget "user_command_buffer" buf p;
      if (c =? NUL)%char then Done EmptyString
      else s ← cstr fuel' buf (p + 1); Done (String c s)
  end.

(** [atoi] of avr-libc: leading white space, an optional sign, then decimal
    digits.  Its result is not specified when the number does not fit an
    [int]; that case is a [Fault]. *)
Definition isspace (c : ascii) : bool :=
  (c =? " ")%char || ((9 <=? code c) && (code c <=? 13)).

Fixpoint skip_spaces (s : string) : string :=
  match s with
  | String c s' => if isspace c then skip_spaces s' else s
  | EmptyString => s
  end.

Definition digit (c : ascii) : option Z :=
  if (48 <=? code c) && (code c <=? 57) then Some (code c - 48) else None.

Fixpoint atoi_digits (acc : Z) (s : string) : Z :=
  match s with
  | String c s' =>
      match digit c with
      | Some d => atoi_digits (10 * acc + d) s'
      | None => acc
      end
  | EmptyString => acc
  end.

Definition atoi (s : string) : outcome Z :=
  let v :=
    match skip_spaces s with
    | String "-" r => - atoi_digits 0 r
    | String "+" r => atoi_digits 0 r
    | r => atoi_digits 0 r
    end in
  if (INT_MIN <=? v) && (v <=? INT_MAX) then Done v else Fault (AtoiRange s).

(** [argument_words[i]] read as a string, and through [atoi]. *)
Definition arg_text (s : State) (i : Z) : outcome string :=
  p ← deref "argument_words" (argument_words s) i;
  cstr (S (length (user_command_buffer s))) (user_command_buffer s) p.

Definition arg_int (s : State) (i : Z) : outcome Z :=
  t ← arg_text s i; atoi t.

(** ** AccelStepper and board calls *)

(** [accel_steppers[i]->c(...)] *)
Definition stepper_call (i : Z) (c : call) (s : State) : outcome State :=
  h ← deref "accel_steppers" (accel_steppers s) i;
  a ← aset "accel_steppers" (accel_steppers s) i (Some (h ++ [c]));
  Done (set_accel_steppers a s).

(** [Adafruit_MotorShield::getStepper]: ports 1 and 2 exist, any other
    number gives a null pointer.  The port is passed as a [uint8_t]. *)
Definition getStepper (shield_index : Z) (num : Z) : option StepperMotor :=
  let n := to_uint8 num in
  if (1 <=? n) && (n <=? 2) then Some {| shield := shield_index; port := n |} else None.

(** ** The stepping callbacks

    [steppers[i]->onestep(dir, style)], the thirty-two functions
    [forwardStep0] .. [backwardStep15] that call it, the two tables as
    [initializeSteppers] fills them, and the pair of callbacks the
    [AccelStepper] of axis [i] is constructed with. *)
Definition onestep (i : Z) (dir : direction) (style : step_style) (s : State)
  : outcome State :=
  _ ← deref "steppers" (steppers s) i; Done (emit (Onestep i dir style) s).
Definition forwardStep0 : State -> outcome State := onestep 0 FORWARD INTERLEAVE.
Definition backwardStep0 : State -> outcome State := onestep 0 BACKWARD INTERLEAVE.
Definition forwardStep1 : State -> outcome State := onestep 1 FORWARD INTERLEAVE.
Definition backwardStep1 : State -> outcome State := onestep 1 BACKWARD INTERLEAVE.
Definition forwardStep2 : State -> outcome State := onestep 2 FORWARD INTERLEAVE.
Definition backwardStep2 : State -> outcome State := onestep 2 BACKWARD INTERLEAVE.
Definition forwardStep3 : State -> outcome State := onestep 3 FORWARD INTERLEAVE.
Definition backwardStep3 : State -> outcome State := onestep 3 BACKWARD INTERLEAVE.
Definition forwardStep4 : State -> outcome State := onestep 4 FORWARD INTERLEAVE.
Definition backwardStep4 : State -> outcome State := onestep 4 BACKWARD INTERLEAVE.
Definition forwardStep5 : State -> outcome State := onestep 5 FORWARD INTERLEAVE.
Definition backwardStep5 : State -> outcome State := onestep 5 BACKWARD INTERLEAVE.
Definition forwardStep6 : State -> outcome State := onestep 6 FORWARD INTERLEAVE.
Definition backwardStep6 : State -> outcome State := onestep 6 BACKWARD INTERLEAVE.
Definition forwardStep7 : State -> outcome State := onestep 7 FORWARD INTERLEAVE.
Definition backwardStep7 : State -> outcome State := onestep 7 BACKWARD INTERLEAVE.
Definition forwardStep8 : State -> outcome State := onestep 8 FORWARD INTERLEAVE.
Definition backwardStep8 : State -> outcome State := onestep 8 BACKWARD INTERLEAVE.
Definition forwardStep9 : State -> outcome State := onestep 9 FORWARD INTERLEAVE.
Definition backwardStep9 : State -> outcome State := onestep 9 BACKWARD INTERLEAVE.
Definition forwardStep10 : State -> outcome State := onestep 10 FORWARD INTERLEAVE.
Definition backwardStep10 : State -> outcome State := onestep 10 BACKWARD INTERLEAVE.
Definition forwardStep11 : State -> outcome State := onestep 11 FORWARD INTERLEAVE.
Definition backwardStep11 : State -> outcome State := onestep 11 BACKWARD INTERLEAVE.
Definition forwardStep12 : State -> outcome State := onestep 12 FORWARD INTERLEAVE.
Definition backwardStep12 : State -> outcome State := onestep 12 BACKWARD INTERLEAVE.
Definition forwardStep13 : State -> outcome State := onestep 13 FORWARD INTERLEAVE.
Definition backwardStep13 : State -> outcome State := onestep 13 BACKWARD INTERLEAVE.
Definition forwardStep14 : State -> outcome State := onestep 14 FORWARD INTERLEAVE.
Definition backwardStep14 : State -> outcome State := onestep 14 BACKWARD INTERLEAVE.
Definition forwardStep15 : State -> outcome State := onestep 15 FORWARD INTERLEAVE.
Definition backwardStep15 : State -> outcome State := onestep 15 BACKWARD INTERLEAVE.

Definition forwardSteps : list (State -> outcome State) :=
  [ forwardStep0; forwardStep1; forwardStep2; forwardStep3;
    forwardStep4; forwardStep5; forwardStep6; forwardStep7;
    forwardStep8; forwardStep9; forwardStep10; forwardStep11;
    forwardStep12; forwardStep13; forwardStep14; forwardStep15 ].

Definition backwardSteps : list (State -> outcome State) :=
  [ backwardStep0; backwardStep1; backwardStep2; backwardStep3;
    backwardStep4; backwardStep5; backwardStep6; backwardStep7;
    backwardStep8; backwardStep9; backwardStep10; backwardStep11;
    backwardStep12; backwardStep13; backwardStep14; backwardStep15 ].

(** [new AccelStepper(forwardSteps[i], backwardSteps[i])] *)
Definition callbacks (i : Z)
  : outcome ((State -> outcome State) * (State -> outcome State)) :=
  forward ← aget "forwardSteps" forwardSteps i;
  backward ← aget "backwardSteps" backwardSteps i;
  Done (forward, backward).

(** [accel_steppers[i]->run()]: the call is recorded, and when the driver
    finds a step due it makes it through the callback the object was
    constructed with for that direction. *)
Definition stepper_run (env : Env) (i : Z) (s : State) : outcome State :=
  h ← deref "accel_steppers" (accel_steppers s) i;
  s' ← stepper_call i Run s;
  match runSpeed env h (trace s) with
  | None => Done s'
  | Some dir =>
      '(forward, backward) ← callbacks i;
      match dir with
      | FORWARD => forward s'
      | BACKWARD => backward s'
      end
  end.

(** ** Sampling interrupt *)

(** [output_buffer[buff_idx] = v; buff_idx++;] *)
Definition push_field (v : Z) (s : State) : outcome State :=
  ob ← aset "output_buffer" (output_buffer s) (buff_idx s) v;
  Done (set_buff_idx (to_int (buff_idx s + 1)) (set_output_buffer ob s)).

(** [Serial.print(output_buffer[j]); Serial.print(' ');] *)
Definition print_field (j : Z) (s : State) : outcome State :=
  v ← aget "output_buffer" (output_buffer s) j;
  Done (emit (SerialPrintChar " ") (emit (SerialPrint v) s)).

(** The body of the [for] of [timerIsr] for channel [i].  [millis] gives an
    [unsigned long], which the [long] buffer takes converted; the other
    fields are [int] or [long] values. *)
Definition sample_channel (env : Env) (i : Z) (s : State) : outcome State :=
  let s := set_buff_idx 0 s in
  s ← push_field (to_long (millis env (trace s))) s;
  s ← push_field i s;
  col ← aget "whisker_col_id" (whisker_col_id s) i;
  let s := set_stepper_id col s in
  s ← push_field (stepper_id s) s;
  status ← aget "whisking_status" (whisking_status s) (stepper_id s);
  s ← push_field status s;
  h ← deref "accel_steppers" (accel_steppers s) (stepper_id s);
  s ← push_field (currentPosition env h) s;
  pin ← aget "analogPins" analogPins i;
  s ← push_field (analogRead env pin (trace s)) s;
  s ← for_upto (buff_idx s) print_field s;
  Done (emit SerialPrintln s).

Definition timerIsr (env : Env) (s : State) : outcome State :=
  if truthy (sampling s) then for_upto (num_whiskers s) (sample_channel env) s
  else Done s.

(** ** Homing *)

Fixpoint home_stepper_loop (env : Env) (fuel : nat) (stepper_id : Z) (s : State)
  : outcome State :=
  match fuel with
  | O => Blocked
  | S fuel' =>
      pin ← aget "limit_pins" limit_pins stepper_id;
      if digitalRead env pin (trace s) then
        left ← aget "is_left" (is_left s) stepper_id;
        _ ← deref "steppers" (steppers s) stepper_id;
        let s1 :=
          if truthy left then emit (Onestep stepper_id FORWARD SINGLE) s
          else emit (Onestep stepper_id BACKWARD SINGLE) s in
        home_stepper_loop env fuel' stepper_id (emit (Delay 25) s1)
      else Done s
  end.

Definition home_stepper (env : Env) (fuel : nat) (stepper_id : Z) (s : State)
  : outcome State :=
  s1 ← home_stepper_loop env fuel stepper_id s;
  stepper_call stepper_id (SetCurrentPosition 0) s1.

(** ** Bring-up *)

(** The body of the [s] command. *)
Definition setup_shield (sidx midx numw side : Z) (s : State) : outcome State :=
  let mone := Z.rem midx 10 in
  let mten := Z.rem (Z.quot midx 10) 10 in
  let wone := Z.rem numw 10 in
  let wten := Z.rem (Z.quot numw 10) 10 in
  let sone := Z.rem side 10 in
  let sten := Z.rem (Z.quot side 10) 10 in
  addr ← aget "motorShield_addresses" motorShield_addresses sidx;
  ms ← aset "motor_shields" (motor_shields s) (num_shields s) (Some addr);
  let s := emit (ShieldBegin addr) (set_motor_shields ms s) in
  s ← (if truthy mten then
         s ← (if truthy wten then
                s ← for_upto wten (fun i s =>
                      w ← aset "whisker_col_id" (whisker_col_id s) i (num_steppers s);
                      Done (set_whisker_col_id w s)) s;
                Done (set_num_whiskers (to_int (num_whiskers s + wten)) s)
              else Done s);
         l ← aset "is_left" (is_left s) (num_steppers s) sten;
         let s := set_is_left l s in
         m ← aset "steppers" (steppers s) (num_steppers s)
               (getStepper (num_shields s) mten);
         let s := set_steppers m s in
         Done (set_num_steppers (to_int (num_steppers s + 1)) s)
       else Done s);
  s ← (if truthy mone then
         s ← (if truthy wone then
                s ← for_upto wone (fun i s =>
                      w ← aset "whisker_col_id" (whisker_col_id s) i (num_steppers s);
                      Done (set_whisker_col_id w s)) s;
                Done (set_num_whiskers (to_int (num_whiskers s + wone)) s)
              else Done s);
         l ← aset "is_left" (is_left s) (num_steppers s) sone;
         let s := set_is_left l s in
         m ← aset "steppers" (steppers s) (num_steppers s)
               (getStepper (num_shields s) mone);
         let s := set_steppers m s in
         Done (set_num_steppers (to_int (num_steppers s + 1)) s)
       else Done s);
  Done (set_num_shields (to_int (num_shields s + 1)) s).

(** The three bring-up commands; the flag is [setup_complete]. *)
Definition setup_command (s : State) (setup_complete : Z) : outcome (State * Z) :=
  w ← arg_text s 0;
  if (w =? "s")%string then
    sidx ← arg_int s 1;
    midx ← arg_int s 2;
    numw ← arg_int s 3;
    side ← arg_int s 4;
    s' ← setup_shield sidx midx numw side s;
    Done (s', setup_complete)
  else if (w =? "p")%string then
    period ← arg_int s 1;
    Done (set_sampling_period (to_ulong period) s, setup_complete)
  else if (w =? "c")%string then Done (s, 1)
  else Done (s, setup_complete).

(** A carriage return closes the line: the buffer is terminated and parsed
    into [argument_words]. *)
Definition end_of_line (s : State) : outcome State :=
  buf ← aset "user_command_buffer" (user_command_buffer s)
          (user_command_buffer_index s) NUL;
  '(buf', words) ← parse buf (to_uint8 sizeof_argument_words);
  table ← store_words (argument_words s) words;
  Done (set_argument_words table (set_user_command_buffer buf' s)).

(** Any other character: backspace and delete drop the last character, a
    printable character is appended while there is room. *)
Definition edit_char (c : ascii) (s : State) : outcome State :=
  let index := user_command_buffer_index s in
  if ((c =? BS)%char || (c =? DEL)%char) && (0 <? index) then
    Done (set_user_command_buffer_index (to_uint8 (index - 1)) s)
  else if (code " " <=? code c) && (index <? 64 - 1) then
    buf ← aset "user_command_buffer" (user_command_buffer s) index c;
    Done (set_user_command_buffer_index (to_uint8 (index + 1))
            (set_user_command_buffer buf s))
  else Done s.

Definition setup_char (c : ascii) (sc : State * Z) : outcome (State * Z) :=
  let '(s, setup_complete) := sc in
  if (c =? CR)%char then
    s ← end_of_line s;
    '(s, setup_complete) ← setup_command s setup_complete;
    Done (set_user_command_buffer_index 0 s, setup_complete)
  else s ← edit_char c s; Done (s, setup_complete).

(** [while (Serial.available() > 0)] over the characters that are there. *)
Fixpoint drain {T} (step : ascii -> T -> outcome T) (input : list ascii) (s : T)
  : outcome T :=
  match input with
  | [] => Done s
  | c :: rest => s' ← step c s; drain step rest s'
  end.

(** [while (!setup_complete)]: one pass per burst of available characters;
    [Blocked] while the [c] command has not come. *)
Fixpoint setup_wait (bursts : list (list ascii)) (sc : State * Z) : outcome State :=
  if truthy (snd sc) then Done (fst sc)
  else
    match bursts with
    | [] => Blocked
    | b :: rest => sc' ← drain setup_char b sc; setup_wait rest sc'
    end.

(** Each [AccelStepper] is constructed with the callbacks of its slot,
    [callbacks i]; they are not part of the state. *)
Definition initializeSteppers (s : State) : outcome State :=
  for_upto (num_steppers s) (fun i s =>
    a ← aset "accel_steppers" (accel_steppers s) i (Some []);
    let s := set_accel_steppers a s in
    s ← stepper_call i (SetMaxSpeed default_speed) s;
    stepper_call i (SetAcceleration default_accel) s) s.

Definition setup (bursts : list (list ascii)) (s : State) : outcome State :=
  let s := emit (SerialBegin BAUD) s in
  let s := emit (Delay 250) s in
  let s := emit (SerialPrintlnChar "!") s in
  let s := emit AnalogReferenceInternal1V1 s in
  let s := set_num_whiskers 0 s in
  s ← setup_wait bursts (s, 0);
  s ← for_upto (num_whiskers s) (fun i s =>
        pin ← aget "analogPins" analogPins i; Done (emit (PinMode pin INPUT) s)) s;
  s ← for_upto (num_steppers s) (fun i s =>
        pin ← aget "limit_pins" limit_pins i; Done (emit (PinMode pin INPUT_PULLUP) s)) s;
  s ← initializeSteppers s;
  let s := if truthy debug then emit (SerialPrintlnText "setup complete") s else s in
  let s := emit (TimerInitialize (sampling_period s)) s in
  Done (emit TimerAttachInterrupt s).

(** ** Run-time commands *)

Definition cmd_set_prot (sid steps : Z) (s : State) : outcome State :=
  if (steps <? MAX_STEPS) && (1 <? steps) then
    if sid =? ALL_FLAG then
      for_upto (num_steppers s) (fun i s =>
        a ← aset "prot_steps" (prot_steps s) i steps;
        Done (set_prot_steps a s)) s
    else
      a ← aset "prot_steps" (prot_steps s) sid steps;
      Done (set_prot_steps a s)
  else Done s.

Definition cmd_set_ret (sid steps : Z) (s : State) : outcome State :=
  if (steps <? MAX_STEPS) && (1 <? steps) then
    if sid =? ALL_FLAG then
      for_upto (num_steppers s) (fun i s =>
        a ← aset "ret_steps" (ret_steps s) i steps;
        Done (set_ret_steps a s)) s
    else
      a ← aset "ret_steps" (ret_steps s) sid steps;
      Done (set_ret_steps a s)
  else Done s.

Definition cmd_set_speed (sid speed : Z) (s : State) : outcome State :=
  if sid =? ALL_FLAG then
    for_upto (num_steppers s) (fun i s => stepper_call i (SetMaxSpeed speed) s) s
  else stepper_call sid (SetMaxSpeed speed) s.

Definition cmd_set_accel (sid accel : Z) (s : State) : outcome State :=
  if sid =? ALL_FLAG then
    for_upto (num_steppers s) (fun i s => stepper_call i (SetAcceleration accel) s) s
  else stepper_call sid (SetAcceleration accel) s.

Definition cmd_whisk (sid : Z) (s : State) : outcome State :=
  if sid =? ALL_FLAG then
    for_upto (num_steppers s) (fun i s =>
      w ← aset "whisking_status" (whisking_status s) i 2;
      let s := set_whisking_status w s in
      target ← aget "prot_steps" (prot_steps s) i;
      stepper_call i (MoveTo target) s) s
  else
    w ← aset "whisking_status" (whisking_status s) sid 2;
    let s := set_whisking_status w s in
    target ← aget "prot_steps" (prot_steps s) sid;
    stepper_call sid (MoveTo target) s.

Definition cmd_set_sampling (flag : Z) (s : State) : outcome State :=
  Done (set_sampling flag s).

Definition cmd_home_stepper (env : Env) (fuel : nat) (sid : Z) (s : State)
  : outcome State :=
  if sid =? ALL_FLAG then
    for_upto (num_steppers s) (fun i s => home_stepper env fuel i s) s
  else home_stepper env fuel sid s.

Definition cmd_halt_whisk (sid : Z) (s : State) : outcome State :=
  if sid =? ALL_FLAG then
    for_upto (num_steppers s) (fun i s =>
      s ← stepper_call i Stop s;
      w ← aset "whisking_status" (whisking_status s) i 1;
      Done (set_whisking_status w s)) s
  else
    s ← stepper_call sid Stop s;
    w ← aset "whisking_status" (whisking_status s) sid 1;
    Done (set_whisking_status w s).

Definition cmd_retract (sid : Z) (s : State) : outcome State :=
  if sid =? ALL_FLAG then
    for_upto (num_steppers s) (fun i s =>
      target ← aget "ret_steps" (ret_steps s) i;
      s ← stepper_call i (MoveTo target) s;
      w ← aset "whisking_status" (whisking_status s) i 1;
      Done (set_whisking_status w s)) s
  else
    target ← aget "ret_steps" (ret_steps s) sid;
    s ← stepper_call sid (MoveTo target) s;
    w ← aset "whisking_status" (whisking_status s) sid 1;
    Done (set_whisking_status w s).

(** The chain of [strcmp] tests of [loop]. *)
Definition run_command (env : Env) (fuel : nat) (s : State) : outcome State :=
  w ← arg_text s 0;
  if (w =? "set_prot")%string then
    sid ← arg_int s 1; steps ← arg_int s 2; cmd_set_prot sid steps s
  else if (w =? "set_ret")%string then
    sid ← arg_int s 1; steps ← arg_int s 2; cmd_set_ret sid steps s
  else if (w =? "set_speed")%string then
    sid ← arg_int s 1; speed ← arg_int s 2; cmd_set_speed sid speed s
  else if (w =? "set_accel")%string then
    sid ← arg_int s 1; accel ← arg_int s 2; cmd_set_accel sid accel s
  else if (w =? "whisk")%string then
    sid ← arg_int s 1; cmd_whisk sid s
  else if (w =? "set_sampling")%string then
    flag ← arg_int s 1; cmd_set_sampling flag s
  else if (w =? "home_stepper")%string then
    sid ← arg_int s 1; cmd_home_stepper env fuel sid s
  else if (w =? "halt_whisk")%string then
    sid ← arg_int s 1; cmd_halt_whisk sid s
  else if (w =? "retract")%string then
    sid ← arg_int s 1; cmd_retract sid s
  else Done s.

Definition loop_char (env : Env) (fuel : nat) (c : ascii) (s : State) : outcome State :=
  if (c =? CR)%char then
    s ← end_of_line s;
    s ← run_command env fuel s;
    Done (set_user_command_buffer_index 0 s)
  else edit_char c s.

(** ** Main cycle *)

(** The body of the closing [for] of [loop] for axis [i]. *)
Definition advance_axis (env : Env) (i : Z) (s : State) : outcome State :=
  status ← aget "whisking_status" (whisking_status s) i;
  s ← (if truthy status then
         h ← deref "accel_steppers" (accel_steppers s) i;
         if distanceToGo env h =? 0 then
           w ← aset "whisking_status" (whisking_status s) i (to_int (status - 1));
           let s := set_whisking_status w s in
           status ← aget "whisking_status" (whisking_status s) i;
           if truthy status then
             target ← aget "ret_steps" (ret_steps s) i;
             stepper_call i (MoveTo target) s
           else Done s
         else Done s
       else Done s);
  stepper_run env i s.

Definition motion_pass (env : Env) (s : State) : outcome State :=
  for_upto (num_steppers s) (advance_axis env) s.

(** One pass of [loop]: [input] is what the serial port holds while the
    commands are read. *)
Definition loop (env : Env) (fuel : nat) (input : list ascii) (s : State)
  : outcome State :=
  s ← drain (loop_char env fuel) input s;
  motion_pass env s.

(** [n] passes of [loop] with nothing to read. *)
Fixpoint cycles (env : Env) (n : nat) (s : State) : outcome State :=
  match n with
  | O => Done s
  | S n' => s' ← loop env 0 [] s; cycles env n' s'
  end.

(** ** Well-formed states *)

Definition is_allocated {A} (a : list (option A)) (i : Z) : bool :=
  match a !! Z.to_nat i with Some (Some _) => true | _ => false end.

Definition is_null {A} (a : list (option A)) (i : Z) : bool :=
  match a !! Z.to_nat i with Some None => true | _ => false end.

Definition slots : list Z := map Z.of_nat (seq 0 16).

(** The shape the globals have once bring-up is over: arrays of their
    declared size, at most [MAX_STEPPERS] axes, an [AccelStepper] behind
    each declared axis and null pointers in the unused slots. *)
Definition well_formed (s : State) : bool :=
  (length (prot_steps s) =? 16)%nat && (length (ret_steps s) =? 16)%nat
  && (length (is_left s) =? 16)%nat && (length (whisking_status s) =? 16)%nat
  && (length (steppers s) =? 16)%nat && (length (accel_steppers s) =? 16)%nat
  && (0 <=? num_steppers s) && (num_steppers s <=? MAX_STEPPERS)
  && forallb (fun i =>
       if i <? num_steppers s then is_allocated (accel_steppers s) i
       else is_null (accel_steppers s) i && is_null (steppers s) i) slots.

Definition declared (s : State) (a : Z) : bool := (0 <=? a) && (a <? num_steppers s).

(** What [timerIsr] needs: at most [MAX_WHISKERS] channels, each bound to
    an axis that has an [AccelStepper]. *)
Definition sampling_ready (s : State) : bool :=
  (length (whisker_col_id s) =? 16)%nat && (length (output_buffer s) =? 7)%nat
  && (0 <=? num_whiskers s) && (num_whiskers s <=? MAX_WHISKERS)
  && forallb (fun i =>
       if i <? num_whiskers s then
         match whisker_col_id s !! Z.to_nat i with
         | Some col =>
             (0 <=? col) && in_bounds (whisking_status s) col
             && is_allocated (accel_steppers s) col
         | None => false
         end
       else true) slots.

(** The per-axis commands of the dispatcher, by name. *)
Inductive axis_command : Type :=
| SetProt | SetRet | SetSpeed | SetAccel | Whisk | HomeStepper | HaltWhisk | Retract.

(** The effect of per-axis command [c] on axis argument [sid] with value
    argument [v] (ignored by the commands that take none). *)
Definition axis_effect (env : Env) (fuel : nat) (c : axis_command) (sid v : Z) (s : State)
  : outcome State :=
  match c with
  | SetProt => cmd_set_prot sid v s
  | SetRet => cmd_set_ret sid v s
  | SetSpeed => cmd_set_speed sid v s
  | SetAccel => cmd_set_accel sid v s
  | Whisk => cmd_whisk sid s
  | HomeStepper => cmd_home_stepper env fuel sid s
  | HaltWhisk => cmd_halt_whisk sid s
  | Retract => cmd_retract sid s
  end.

(** ** A reference environment

    A unit-step motion driver (each [run] takes one step towards the
    target, [stop] makes the present position the target), a limit switch
    that closes after three single steps, a constant sensor and a stopped
    clock.
    It serves the worked examples. *)
Module Bench.

Definition drive (pt : Z * Z) (c : call) : Z * Z :=
  let '(position, target) := pt in
  match c with
  | MoveTo t => (position, t)
  | Run => (position + Z.sgn (target - position), target)
  | Stop => (position, position)
  | SetCurrentPosition p => (p, p)
  | SetMaxSpeed _ | SetAcceleration _ => (position, target)
  end.

Definition replay (h : AccelStepper) : Z * Z := fold_left drive h (0, 0).

Definition is_single_step (e : event) : bool :=
  match e with Onestep _ _ SINGLE => true | _ => false end.

Definition env : Env :=
  {| distanceToGo := fun h => snd (replay h) - fst (replay h);
     currentPosition := fun h => fst (replay h);
     runSpeed := fun h _ =>
       if fst (replay h) <? snd (replay h) then Some FORWARD
       else if snd (replay h) <? fst (replay h) then Some BACKWARD
       else None;
     digitalRead := fun _ tr => (length (List.filter is_single_step tr) <? 3)%nat;
     analogRead := fun pin _ => 500 + pin;
     millis := fun _ => 1000 |}.

Definition chars (s : string) : list ascii := list_ascii_of_string s.

(** A line as the host sends it: the text and a carriage return. *)
Definition line (s : string) : list ascii := chars s ++ [CR].

End Bench.

(** The words of the line just parsed: the command name and its first two
    arguments as [atoi] reads them. *)
Definition receives (s : State) (name : string) (a b : Z) : Prop :=
  arg_text s 0 = Done name /\ arg_int s 1 = Done a /\ arg_int s 2 = Done b.

(** The same for a command of one argument. *)
Definition receives1 (s : State) (name : string) (a : Z) : Prop :=
  arg_text s 0 = Done name /\ arg_int s 1 = Done a.


(** The per-axis commands as they are written on the line: the name, and
    whether a value argument follows the axis argument. *)
Definition command_name (c : axis_command) : string :=
  match c with
  | SetProt => "set_prot"
  | SetRet => "set_ret"
  | SetSpeed => "set_speed"
  | SetAccel => "set_accel"
  | Whisk => "whisk"
  | HomeStepper => "home_stepper"
  | HaltWhisk => "halt_whisk"
  | Retract => "retract"
  end.

Definition takes_value (c : axis_command) : bool :=
  match c with
  | SetProt | SetRet | SetSpeed | SetAccel => true
  | Whisk | HomeStepper | HaltWhisk | Retract => false
  end.

(** The line just parsed is command [c] with axis argument [sid] and, where
    the command takes one, value argument [v]. *)
Definition received (s : State) (c : axis_command) (sid v : Z) : Prop :=
  if takes_value c then receives s (command_name c) sid v
  else receives1 s (command_name c) sid.

Module Scenario.
Import Bench.

(** Bring-up of one shield with two axes of two whiskers each. *)
Definition bring_up : list (list ascii) := [ line "s 0 12 22 00" ++ line "c" ].

Definition two_axes : State :=
  Eval vm_compute in
    match setup bring_up init_state with
    | Done s => s
    | _ => init_state
    end.

(** The state once the characters of [text] have come in, before the
    carriage return. *)
Definition typed (text : string) : State :=
  match drain edit_char (chars text) two_axes with
  | Done s => s
  | _ => two_axes
  end.

(** The command buffer as [parse] gets it for the line [text]. *)
Definition terminated (text : string) : list ascii :=
  <[Z.to_nat (user_command_buffer_index (typed text)) := NUL]>
    (user_command_buffer (typed text)).

(** The state once the carriage return that closes [text] has been taken
    and the line parsed, as [run_command] finds it. *)
Definition closed (text : string) : State :=
  match end_of_line (typed text) with
  | Done s => s
  | _ => two_axes
  end.

End Scenario.

(** ** One axis of the main cycle

    Of the globals [advance_axis] touches the phase and the [AccelStepper]
    of its own axis only; the step [run] may make goes to the board trace.
    [axis_step] is the effect on the pair, given the retraction target of
    the axis; [axis_run] repeats it. *)
Definition axis_step (env : Env) (ret : Z) (st : Z * AccelStepper) : Z * AccelStepper :=
  let '(status, h) := st in
  if truthy status then
    if distanceToGo env h =? 0 then
      if truthy (to_int (status - 1))
      then (to_int (status - 1), h ++ [MoveTo ret; Run])
      else (to_int (status - 1), h ++ [Run])
    else (status, h ++ [Run])
  else (status, h ++ [Run]).

Fixpoint axis_run (env : Env) (ret : Z) (n : nat) (st : Z * AccelStepper)
  : Z * AccelStepper :=
  match n with
  | O => st
  | S n' => axis_run env ret n' (axis_step env ret st)
  end.

(** [s'] is [s] but for the phases and the [AccelStepper] objects. *)
Definition moved (s s' : State) : Prop :=
  set_whisking_status (whisking_status s) (set_accel_steppers (accel_steppers s) s') = s.

(** The steps [run] makes through the callbacks. *)
Definition running_step (e : event) : bool :=
  match e with Onestep _ _ INTERLEAVE => true | _ => false end.

(** [s'] is [s] but for the phases, the [AccelStepper] objects and the
    steps the motion driver added to the board trace. *)
Definition driven (s s' : State) : Prop :=
  set_whisking_status (whisking_status s)
    (set_accel_steppers (accel_steppers s) (set_trace (trace s) s')) = s
  /\ exists steps, trace s' = trace s ++ steps /\ forallb running_step steps = true.

(** Every declared axis has a motor behind it: [getStepper] gave no null
    pointer when the axis was declared. *)
Definition motorised (s : State) : bool :=
  forallb (fun i => if i <? num_steppers s then is_allocated (steppers s) i else true) slots.

(** The same as a statement about the motor table. *)
Definition motors (s : State) : Prop :=
  forall i, 0 <= i < num_steppers s -> i < 16 ->
    exists m, steppers s !! Z.to_nat i = Some (Some m).

(** The phase and the call history of axis [a]. *)
Definition phase (s : State) (a : Z) : option Z := whisking_status s !! Z.to_nat a.
Definition history (s : State) (a : Z) : option AccelStepper :=
  match accel_steppers s !! Z.to_nat a with
  | Some (Some h) => Some h
  | _ => None
  end.

(** ** What is assumed of the motion driver *)

(** Left to run, the driver brings the distance to go to zero. *)
Definition arrives (env : Env) : Prop :=
  forall h, exists n, distanceToGo env (h ++ replicate n Run) = 0.

(** The same of the motion last asked for in the history [h] only. *)
Definition completes (env : Env) (h : AccelStepper) : Prop :=
  exists n, distanceToGo env (h ++ replicate n Run) = 0.

(** [n] calls of [run] after [h] is the first time the distance to go is
    found at zero. *)
Definition first_at (env : Env) (h : AccelStepper) (n : nat) : Prop :=
  distanceToGo env (h ++ replicate n Run) = 0
  /\ forall m, (m < n)%nat -> distanceToGo env (h ++ replicate m Run) <> 0.

(** The two moves of a whisk of an axis whose history was [h0] are brought
    to their end: the protraction, and the retraction issued by the pass
    that first finds the protraction over and followed by the [run] of
    that pass. *)
Definition whisk_completes (env : Env) (h0 : AccelStepper) (prot ret : Z) : Prop :=
  completes env (h0 ++ [MoveTo prot])
  /\ forall n1, first_at env (h0 ++ [MoveTo prot]) n1 ->
       completes env (h0 ++ MoveTo prot :: replicate n1 Run ++ [MoveTo ret; Run]).

(** What [stop] is for: after it the motor comes to rest within [brake]
    calls of [run], and is never more than [brake] steps away from where it
    was when [stop] was called. *)
Definition stops_within (env : Env) (h : AccelStepper) (brake : nat) : Prop :=
  (exists n, (n <= brake)%nat /\ distanceToGo env (h ++ Stop :: replicate n Run) = 0)
  /\ forall j, Z.abs (currentPosition env (h ++ Stop :: replicate j Run)
                      - currentPosition env h) <= Z.of_nat brake.

(** When nothing but [run] followed a [moveTo] and the distance to go is
    zero, the position is the target of that move. *)
Definition rests_on_target (env : Env) : Prop :=
  forall h t n,
    distanceToGo env (h ++ MoveTo t :: replicate n Run) = 0 ->
    currentPosition env (h ++ MoveTo t :: replicate n Run) = t.

(** The same of the retraction of a whisk only, on an axis whose history
    was [h0]. *)
Definition whisk_rests (env : Env) (h0 : AccelStepper) (prot ret : Z) : Prop :=
  forall n1 n,
    first_at env (h0 ++ [MoveTo prot]) n1 ->
    distanceToGo env ((h0 ++ MoveTo prot :: replicate n1 Run) ++ MoveTo ret :: replicate n Run)
    = 0 ->
    currentPosition env
      ((h0 ++ MoveTo prot :: replicate n1 Run) ++ MoveTo ret :: replicate n Run) = ret.

(** [setCurrentPosition] sets the position. *)
Definition zeroes (env : Env) : Prop :=
  forall h p, currentPosition env (h ++ [SetCurrentPosition p]) = p.

(** ** The course of one whisk

    After [whisk] on an axis whose history was [h0], with [n1] passes of
    the main cycle before the protraction target is reached and [n2]
    further passes before the retraction target is: the phase and the
    history after [k] passes. *)
Definition whisk_phase (n1 n2 k : nat) : Z :=
  if (k <=? n1)%nat then 2 else if (k <=? n1 + 1 + n2)%nat then 1 else 0.

Definition whisk_history (h0 : AccelStepper) (prot ret : Z) (n1 k : nat) : AccelStepper :=
  if (k <=? n1)%nat then h0 ++ MoveTo prot :: replicate k Run
  else h0 ++ MoveTo prot :: replicate n1 Run ++ MoveTo ret :: replicate (k - n1) Run.

Definition is_move (c : call) : bool :=
  match c with MoveTo _ => true | _ => false end.

(** After [halt_whisk] on an axis whose history was [h0]: has one of the
    first [k] passes found the distance to go at zero? *)
Definition halted_arrived (env : Env) (h0 : AccelStepper) (k : nat) : bool :=
  existsb (fun j => distanceToGo env (h0 ++ Stop :: replicate j Run) =? 0) (seq 0 k).

(** ** The course of homing

    The board calls of [k] passes of the homing loop on axis [a], and the
    direction the orientation flag of the axis selects. *)
Definition homing_steps (a : Z) (dir : direction) (k : nat) : list event :=
  concat (replicate k [Onestep a dir SINGLE; Delay 25]).

Definition homing_direction (left : Z) : direction :=
  if truthy left then FORWARD else BACKWARD.

(** ** Samples

    One line of telemetry, in the order of the fields: 'timestamp',
    'whisker_id', 'stepper_id', 'whisking_status', 'curr_steps',
    'sensor_out'; and the serial calls that print it, each field followed by
    a space and the line closed by [println]. *)
Record sample : Type := {
  s_timestamp : Z;
  s_whisker : Z;
  s_stepper : Z;
  s_status : Z;
  s_steps : Z;
  s_sensor : Z
}.

Definition print_sample (r : sample) : list event :=
  [ SerialPrint (s_timestamp r); SerialPrintChar " ";
    SerialPrint (s_whisker r); SerialPrintChar " ";
    SerialPrint (s_stepper r); SerialPrintChar " ";
    SerialPrint (s_status r); SerialPrintChar " ";
    SerialPrint (s_steps r); SerialPrintChar " ";
    SerialPrint (s_sensor r); SerialPrintChar " ";
    SerialPrintln ].

(** The sample of channel [i] taken when the board trace is [tr]. *)
Definition sample_of (env : Env) (s : State) (tr : list event) (i : Z) : option sample :=
  match whisker_col_id s !! Z.to_nat i, analogPins !! Z.to_nat i with
  | Some col, Some pin =>
      match whisking_status s !! Z.to_nat col, history s col with
      | Some status, Some h =>
          if 0 <=? col then
            Some {| s_timestamp := to_long (millis env tr);
                    s_whisker := i;
                    s_stepper := col;
                    s_status := status;
                    s_steps := currentPosition env h;
                    s_sensor := analogRead env pin tr |}
          else None
      | _, _ => None
      end
  | _, _ => None
  end.

(** The samples of the channels [i], [i + 1], ... ([n] of them), each taken
    after the lines of the channels before it were printed. *)
Fixpoint frame (env : Env) (s : State) (tr : list event) (i : Z) (n : nat) : list sample :=
  match n with
  | O => []
  | S n' =>
      match sample_of env s tr i with
      | Some r => r :: frame env s (tr ++ print_sample r) (i + 1) n'
      | None => []
      end
  end.

(** The fields [j], [j + 1], ... of [output_buffer] printed, [n] of them. *)
Definition printed (ob : list Z) (j : Z) (n : nat) : list event :=
  concat (map (fun v => [SerialPrint v; SerialPrintChar " "]) (take n (drop (Z.to_nat j) ob))).

(** The clock does not advance, whatever is done after [tr]. *)
Definition frozen (env : Env) (tr : list event) : Prop :=
  forall evs, millis env (tr ++ evs) = millis env tr.

(** [s'] is [s] but for the trace and the scratch globals of [timerIsr]. *)
Definition sampled (s s' : State) : Prop :=
  set_output_buffer (output_buffer s)
    (set_buff_idx (buff_idx s) (set_stepper_id (stepper_id s) (set_trace (trace s) s'))) = s.

(** ** Bring-up, axis by axis

    The [s] command declares its two axes by the same block, written once
    for the tens digits and once for the ones digits.  [declare_axis] is
    that block, with the motor digit [m], the whisker digit [w] and the
    side digit [side]; [setup_shield_blocks] is [setup_shield] written
    with it. *)
Definition declare_axis (m w side : Z) (s : State) : outcome State :=
  if truthy m then
    s ← (if truthy w then
           s ← for_upto w (fun i s =>
                 a ← aset "whisker_col_id" (whisker_col_id s) i (num_steppers s);
                 Done (set_whisker_col_id a s)) s;
           Done (set_num_whiskers (to_int (num_whiskers s + w)) s)
         else Done s);
    l ← aset "is_left" (is_left s) (num_steppers s) side;
    let s := set_is_left l s in
    a ← aset "steppers" (steppers s) (num_steppers s) (getStepper (num_shields s) m);
    let s := set_steppers a s in
    Done (set_num_steppers (to_int (num_steppers s + 1)) s)
  else Done s.

Definition setup_shield_blocks (sidx midx numw side : Z) (s : State) : outcome State :=
  addr ← aget "motorShield_addresses" motorShield_addresses sidx;
  ms ← aset "motor_shields" (motor_shields s) (num_shields s) (Some addr);
  let s := emit (ShieldBegin addr) (set_motor_shields ms s) in
  s ← declare_axis (Z.rem (Z.quot midx 10) 10) (Z.rem (Z.quot numw 10) 10)
        (Z.rem (Z.quot side 10) 10) s;
  s ← declare_axis (Z.rem midx 10) (Z.rem numw 10) (Z.rem side 10) s;
  Done (set_num_shields (to_int (num_shields s + 1)) s).

(** What bring-up keeps of the per-axis globals while it reads its
    commands: the targets and the phases it never writes, the
    [AccelStepper] table still empty, and null motor pointers from
    [num_steppers] on. *)
Record brought_up (s : State) : Prop := {
  bu_prot : prot_steps s = prot_steps init_state;
  bu_ret : ret_steps s = ret_steps init_state;
  bu_status : whisking_status s = whisking_status init_state;
  bu_accel : accel_steppers s = accel_steppers init_state;
  bu_left : length (is_left s) = 16%nat;
  bu_steppers : length (steppers s) = 16%nat;
  bu_num : 0 <= num_steppers s <= 16;
  bu_unused : forall i, num_steppers s <= i < 16 -> steppers s !! Z.to_nat i = Some None
}.

(** The globals bring-up reads or writes per axis. *)
Definition axis_globals (s : State)
  : list Z * list Z * list Z * list Z * list (option StepperMotor)
    * list (option (list call)) * Z :=
  (prot_steps s, ret_steps s, whisking_status s, is_left s, steppers s,
   accel_steppers s, num_steppers s).

(** What bring-up keeps of the channel table: every entry is 0 or a
    declared axis, and channels are counted only once an axis exists. *)
Record channels_bound (s : State) : Prop := {
  cb_length : length (whisker_col_id s) = 16%nat;
  cb_buffer : length (output_buffer s) = 7%nat;
  cb_axis : forall i col, whisker_col_id s !! i = Some col ->
              0 <= col /\ (col < num_steppers s \/ col = 0);
  cb_count : num_whiskers s <> 0 -> 0 < num_steppers s
}.

(** The globals the channel table depends on. *)
Definition channel_globals (s : State) : list Z * list Z * Z * Z :=
  (whisker_col_id s, output_buffer s, num_whiskers s, num_steppers s).

(** ** The writes of the run-time code

    Every assignment and every library call [loop] can make, as one step
    [update s s'] each: a target within the accepted range stored in a slot
    of its table, a phase set by a command or counted down by the main
    cycle, a call on an [AccelStepper] that exists (a move only to a target
    of the axis in the tables, a position reset only to 0), the sampling
    flag, a step of a motor that exists (single while homing, interleaved
    when the motion driver makes it), the pause that follows a step while
    homing, and the three globals of the line editor.  The properties of
    the run-time code are read off this list. *)
Definition issued (s : State) (a : Z) (c : call) : Prop :=
  match c with
  | MoveTo t => prot_steps s !! Z.to_nat a = Some t \/ ret_steps s !! Z.to_nat a = Some t
  | SetCurrentPosition p => p = 0
  | Run | Stop | SetMaxSpeed _ | SetAcceleration _ => True
  end.

Inductive update (s : State) : State -> Prop :=
| update_prot (a v : Z) :
    0 <= a < Z.of_nat (length (prot_steps s)) -> 1 < v < MAX_STEPS ->
    update s (set_prot_steps (<[Z.to_nat a := v]> (prot_steps s)) s)
| update_ret (a v : Z) :
    0 <= a < Z.of_nat (length (ret_steps s)) -> 1 < v < MAX_STEPS ->
    update s (set_ret_steps (<[Z.to_nat a := v]> (ret_steps s)) s)
| update_phase (a old v : Z) :
    0 <= a -> whisking_status s !! Z.to_nat a = Some old ->
    v = 2 \/ v = 1 \/ (old <> 0 /\ v = to_int (old - 1)) ->
    update s (set_whisking_status (<[Z.to_nat a := v]> (whisking_status s)) s)
| update_call (a : Z) (h : AccelStepper) (c : call) :
    0 <= a -> accel_steppers s !! Z.to_nat a = Some (Some h) -> issued s a c ->
    update s (set_accel_steppers (<[Z.to_nat a := Some (h ++ [c])]> (accel_steppers s)) s)
| update_sampling (v : Z) :
    update s (set_sampling v s)
| update_step (a : Z) (m : StepperMotor) (dir : direction) (style : step_style) :
    0 <= a -> steppers s !! Z.to_nat a = Some (Some m) ->
    style = SINGLE \/ style = INTERLEAVE ->
    update s (emit (Onestep a dir style) s)
| update_delay :
    update s (emit (Delay 25) s)
| update_line (buf : list ascii) (index : Z) (words : list (option Z)) :
    length buf = length (user_command_buffer s) ->
    length words = length (argument_words s) ->
    update s (set_argument_words words
                (set_user_command_buffer_index index (set_user_command_buffer buf s))).

(** ** Power-on

    The Arduino core calls [setup] once and [loop] for ever after.
    [passes] is a run of passes of [loop], pass [k] finding the characters
    [inputs !! k] on the serial port; [power_on] is the whole run from
    reset. *)
Fixpoint passes (env : Env) (fuel : nat) (inputs : list (list ascii)) (s : State)
  : outcome State :=
  match inputs with
  | [] => Done s
  | input :: rest => s' ← loop env fuel input s; passes env fuel rest s'
  end.

Definition power_on (env : Env) (fuel : nat) (bursts inputs : list (list ascii))
  : outcome State :=
  s ← setup bursts init_state; passes env fuel inputs s.

(** The two tables of targets. *)
Definition targets (s : State) : list Z * list Z := (prot_steps s, ret_steps s).

(** The commands that write them. *)
Definition sets_target (w : string) : bool :=
  (w =? "set_prot")%string || (w =? "set_ret")%string.

(** The command word of the line a carriage return closes in state [s];
    the command words of the lines closed while the characters [input] are
    read from state [s]; those of the lines closed in the passes [inputs];
    and those of all the lines closed since reset. *)
Definition command_word (s : State) : list string :=
  match s1 ← end_of_line s; arg_text s1 0 with
  | Done w => [w]
  | _ => []
  end.

Fixpoint words_read (env : Env) (fuel : nat) (input : list ascii) (s : State)
  : list string :=
  match input with
  | [] => []
  | c :: rest =>
      (if (c =? CR)%char then command_word s else [])
        ++ match loop_char env fuel c s with
           | Done s' => words_read env fuel rest s'
           | _ => []
           end
  end.

Fixpoint commands_read (env : Env) (fuel : nat) (inputs : list (list ascii)) (s : State)
  : list string :=
  match inputs with
  | [] => []
  | input :: rest =>
      words_read env fuel input s
        ++ match loop env fuel input s with
           | Done s' => commands_read env fuel rest s'
           | _ => []
           end
  end.

Definition commands_received (env : Env) (fuel : nat) (bursts inputs : list (list ascii))
  : list string :=
  match setup bursts init_state with
  | Done s => commands_read env fuel inputs s
  | _ => []
  end.

(** What bring-up registers and the run-time code only reads: the
    orientation flags, the channel table, the shields and motors, the
    counts and the sampling period. *)
Definition topology (s : State)
  : list Z * list Z * list (option Z) * list (option StepperMotor) * Z * Z * Z * Z :=
  (is_left s, whisker_col_id s, motor_shields s, steppers s,
   num_shields s, num_steppers s, num_whiskers s, sampling_period s).

(** The scratch globals of [timerIsr]. *)
Definition scratch (s : State) : list Z * Z * Z :=
  (output_buffer s, buff_idx s, stepper_id s).

(** The board calls of homing: single steps and pauses of 25 ms. *)
Definition homing_call (e : event) : bool :=
  match e with
  | Onestep _ _ SINGLE => true
  | Delay ms => ms =? 25
  | _ => false
  end.

(** The calls on the serial port. *)
Definition serial_call (e : event) : bool :=
  match e with
  | SerialBegin _ | SerialPrint _ | SerialPrintChar _ | SerialPrintln
  | SerialPrintlnChar _ | SerialPrintlnText _ => true
  | _ => false
  end.

(** The board calls of the run-time code: those of homing, and the
    interleaved steps the motion driver makes through the callbacks. *)
Definition motor_call (e : event) : bool := homing_call e || running_step e.

(** Targets and moves inside the travel the firmware accepts. *)
Definition within_travel (t : Z) : Prop := 0 <= t < MAX_STEPS.

Definition moves_within_travel (s : State) : Prop :=
  forall a h t, accel_steppers s !! a = Some (Some h) -> In (MoveTo t) h -> within_travel t.

Definition travel_bounded (s : State) : Prop :=
  Forall within_travel (prot_steps s) /\ Forall within_travel (ret_steps s)
  /\ moves_within_travel s.

Definition phases_in_range (s : State) : Prop :=
  Forall (fun v => 0 <= v <= 2) (whisking_status s).

Module Session.
Import Bench.

(** A short session after the bring-up of [Scenario.bring_up]: new
    targets, a whisk of every axis, idle passes, homing, a halt, sampling
    switched on, a line that is no command. *)
Definition inputs : list (list ascii) :=
  [ line "set_prot 999 150" ++ line "set_ret 1 30"; line "whisk 999"; []; [];
    line "home_stepper 0"; line "halt_whisk 1" ++ line "set_sampling 1"; line "what now"; [] ].

End Session.

(** ** Lines of words

    A command line as the host writes it: words, each after a run of
    separators.  The run before the first word may be empty, the others are
    not; a word is not empty and holds neither a separator nor the
    terminator.  [written] is the text of the line, [blanked] the same text
    once [parse] has overwritten the separators it stepped over, and
    [starts p] are the offsets of the words in a text that begins at
    offset [p]. *)
Definition word_char (c : ascii) : bool := negb (c =? NUL)%char && negb (is_separator c).

Definition spaced_word (rw : list ascii * list ascii) : Prop :=
  forallb is_separator rw.1 = true /\ rw.2 <> [] /\ forallb word_char rw.2 = true.

Definition well_spaced (ws : list (list ascii * list ascii)) : Prop :=
  Forall spaced_word ws /\ Forall (fun rw => rw.1 <> []) (tail ws).

Definition written (ws : list (list ascii * list ascii)) : list ascii :=
  concat (map (fun rw => rw.1 ++ rw.2) ws).

Definition blanked (ws : list (list ascii * list ascii)) : list ascii :=
  concat (map (fun rw => replicate (length rw.1) NUL ++ rw.2) ws).

Fixpoint starts (p : Z) (ws : list (list ascii * list ascii)) : list Z :=
  match ws with
  | [] => []
  | rw :: rest =>
      (p + Z.of_nat (length rw.1))
        :: starts (p + Z.of_nat (length rw.1) + Z.of_nat (length rw.2)) rest
  end.

(** ** The line editor *)

(** The characters the editor stores: those from the space on. *)
Definition printable (c : ascii) : bool := code " " <=? code c.

(** [s'] is [s] but for the command buffer and its index. *)
Definition edited (s s' : State) : Prop :=
  set_user_command_buffer_index (user_command_buffer_index s)
    (set_user_command_buffer (user_command_buffer s) s') = s.

(** ** The course of a retraction

    Has one of the first [k] passes of the main cycle found the distance
    to go at zero, on an axis whose history was [h] before them? *)
Definition arrived (env : Env) (h : AccelStepper) (k : nat) : bool :=
  existsb (fun j => distanceToGo env (h ++ replicate j Run) =? 0) (seq 0 k).

(** ** The board calls of bring-up *)

(** What [setup] does before it reads its first command. *)
Definition prologue : list event :=
  [ SerialBegin BAUD; Delay 250; SerialPrintlnChar "!"; AnalogReferenceInternal1V1 ].

(** [s'] is [s] but for the globals of the line editor and the word table. *)
Definition line_written (s s' : State) : Prop :=
  exists buf index words,
    s' = set_argument_words words
           (set_user_command_buffer_index index (set_user_command_buffer buf s)).

(** The shields registered so far were begun, in the order of their
    slots, after the calls [before]. *)
Definition shields_begun (before : list event) (s : State) : Prop :=
  length (motor_shields s) = 16%nat /\ 0 <= num_shields s <= 16
  /\ exists addresses,
       take (Z.to_nat (num_shields s)) (motor_shields s) = map Some addresses
       /\ trace s = before ++ map ShieldBegin addresses.

(** The count a C condition adds: 1 when it holds. *)
Definition counted (z : Z) : Z := if truthy z then 1 else 0.

(** What the firmware keeps for axis slot [b]: its two targets, its phase
    and its [AccelStepper]. *)
Definition axis_view (s : State) (b : nat)
  : option Z * option Z * option Z * option (option AccelStepper) :=
  (prot_steps s !! b, ret_steps s !! b, whisking_status s !! b, accel_steppers s !! b).

(** ** The controller notebook: windows on the sample log

    The two places of [controller_notebook.ipynb] that cut a window out of
    the samples received: the example that prints
    [ctrl.whisker_vals[i][-11:-1]], and [update_plot], which displays the
    whole log while it holds fewer than [disp_samples] samples and
    [ctrl.whisker_vals[i][-301:-1]] afterwards.  [slice] is Python's
    [l[start:stop]] on a list: a negative index counts from the end, and
    both indices are clamped to the list. *)
Module Notebook.

Definition clamp (len i : Z) : Z :=
  let j := if i <? 0 then i + len else i in
  Z.max 0 (Z.min len j).

Definition slice {A} (l : list A) (start stop : Z) : list A :=
  let len := Z.of_nat (length l) in
  take (Z.to_nat (clamp len stop - clamp len start)) (drop (Z.to_nat (clamp len start)) l).

Definition disp_samples : Z := 300.

Definition displayed (whisker_vals : list Z) : list Z :=
  if Z.of_nat (length whisker_vals) <? disp_samples then whisker_vals
  else slice whisker_vals (-301) (-1).

Definition printed_values (whisker_vals : list Z) : list Z := slice whisker_vals (-11) (-1).

End Notebook.

(** * Properties *)

(** ** Outcomes, arrays and loops *)

Lemma bind_Done {A B} (m : outcome A) (k : A -> outcome B) (a : A) :
  m = Done a -> m ≫= k = k a.
Proof. intros ->. reflexivity. Qed.

Lemma bind_inv_Done {A B} (m : outcome A) (k : A -> outcome B) (b : B) :
  m ≫= k = Done b -> exists a, m = Done a /\ k a = Done b.
Proof. destruct m as [a| |]; simpl; intros H; try discriminate. eauto. Qed.

(** Run the binds whose first computation is known. *)
Ltac run := cbn [mbind outcome_bind].

Lemma in_bounds_spec {A} (a : list A) (i : Z) :
  in_bounds a i = true <-> 0 <= i < Z.of_nat (length a).
Proof. unfold in_bounds. rewrite andb_true_iff, Z.leb_le, Z.ltb_lt. tauto. Qed.

Lemma aget_lookup {A} name (a : list A) (i : Z) (x : A) :
  0 <= i -> a !! Z.to_nat i = Some x -> aget name a i = Done x.
Proof.
  intros Hi Hx. unfold aget.
  destruct (0 <=? i) eqn:E; [ now rewrite Hx | apply Z.leb_gt in E; lia ].
Qed.

Lemma aget_Done {A} name (a : list A) (i : Z) (x : A) :
  aget name a i = Done x -> 0 <= i /\ a !! Z.to_nat i = Some x.
Proof.
  unfold aget. destruct (0 <=? i) eqn:E; [ | discriminate ].
  apply Z.leb_le in E. destruct (a !! Z.to_nat i); [ | discriminate ].
  intros [= ->]. auto.
Qed.

Lemma aget_out {A} name (a : list A) (i : Z) :
  ~ (0 <= i < Z.of_nat (length a)) -> aget name a i = Fault (OutOfBounds name i).
Proof.
  intros Hi. unfold aget. destruct (0 <=? i) eqn:E; [ | reflexivity ].
  apply Z.leb_le in E. rewrite (proj2 (lookup_ge_None a (Z.to_nat i))); [ reflexivity | lia ].
Qed.

Lemma aset_in {A} name (a : list A) (i : Z) (v : A) :
  0 <= i < Z.of_nat (length a) -> aset name a i v = Done (<[Z.to_nat i := v]> a).
Proof. intros Hi. unfold aset. now rewrite (proj2 (in_bounds_spec a i) Hi). Qed.

Lemma aset_out {A} name (a : list A) (i : Z) (v : A) :
  ~ (0 <= i < Z.of_nat (length a)) -> aset name a i v = Fault (OutOfBounds name i).
Proof.
  intros Hi. unfold aset. destruct (in_bounds a i) eqn:E; [ | reflexivity ].
  apply in_bounds_spec in E. contradiction.
Qed.

Lemma deref_lookup {A} name (a : list (option A)) (i : Z) (x : A) :
  0 <= i -> a !! Z.to_nat i = Some (Some x) -> deref name a i = Done x.
Proof. intros Hi Hx. unfold deref. now rewrite (aget_lookup name a i (Some x)). Qed.

Lemma deref_null {A} name (a : list (option A)) (i : Z) :
  0 <= i -> a !! Z.to_nat i = Some None -> deref name a i = Fault (NullPointer name i).
Proof. intros Hi Hx. unfold deref. now rewrite (aget_lookup name a i None). Qed.

Lemma deref_out {A} name (a : list (option A)) (i : Z) :
  ~ (0 <= i < Z.of_nat (length a)) -> deref name a i = Fault (OutOfBounds name i).
Proof. intros Hi. unfold deref. now rewrite aget_out. Qed.

(** Two loop bodies that agree on the range give the same loop. *)
Lemma for_range_ext {T} (f g : Z -> T -> outcome T) (n : nat) :
  forall (i : Z) (s : T),
    (forall j t, i <= j < i + Z.of_nat n -> f j t = g j t) ->
    for_range i n f s = for_range i n g s.
Proof.
  induction n as [|n IH]; intros i s Hfg; [ reflexivity | ].
  simpl. rewrite (Hfg i s) by lia.
  destruct (g i s) as [s'| |]; simpl; try reflexivity.
  apply IH. intros j t Hj. apply Hfg. lia.
Qed.

Lemma for_range_skip {T} (n : nat) (i : Z) (s : T) :
  for_range i n (fun _ t => Done t) s = Done s.
Proof. revert i. induction n as [|n IH]; intros i; simpl; auto. Qed.

(** A loop whose body keeps an invariant indexed by the position. *)
Lemma for_range_invariant {T} (body : Z -> T -> outcome T) (P : Z -> T -> Prop) (n : nat) :
  forall (i : Z) (s : T),
    P i s ->
    (forall j t, i <= j < i + Z.of_nat n -> P j t ->
       exists t', body j t = Done t' /\ P (j + 1) t') ->
    exists s', for_range i n body s = Done s' /\ P (i + Z.of_nat n) s'.
Proof.
  induction n as [|n IH]; intros i s HP Hstep.
  - exists s. simpl. rewrite Z.add_0_r. auto.
  - destruct (Hstep i s) as (t' & Hb & HP'); [ lia | assumption | ].
    destruct (IH (i + 1) t' HP') as (s' & Hr & HP'').
    { intros j t Hj. apply Hstep. lia. }
    exists s'. simpl. rewrite Hb. simpl. rewrite Hr. split; [ reflexivity | ].
    replace (i + Z.of_nat (S n)) with (i + 1 + Z.of_nat n) by lia. assumption.
Qed.

(** ** Well-formed states *)

Lemma slots_spec (i : Z) : In i slots <-> 0 <= i < 16.
Proof.
  unfold slots. rewrite in_map_iff. split.
  - intros (n & <- & Hn). apply in_seq in Hn. lia.
  - intros Hi. exists (Z.to_nat i). split; [ lia | apply in_seq; lia ].
Qed.

Record shaped (s : State) : Prop := {
  shaped_prot : length (prot_steps s) = 16%nat;
  shaped_ret : length (ret_steps s) = 16%nat;
  shaped_left : length (is_left s) = 16%nat;
  shaped_status : length (whisking_status s) = 16%nat;
  shaped_steppers : length (steppers s) = 16%nat;
  shaped_accel : length (accel_steppers s) = 16%nat;
  shaped_num : 0 <= num_steppers s <= 16;
  shaped_declared : forall i, 0 <= i < num_steppers s ->
    exists h, accel_steppers s !! Z.to_nat i = Some (Some h);
  shaped_unused : forall i, num_steppers s <= i < 16 ->
    accel_steppers s !! Z.to_nat i = Some None /\ steppers s !! Z.to_nat i = Some None
}.

Lemma well_formed_shaped (s : State) : well_formed s = true <-> shaped s.
Proof.
  unfold well_formed. rewrite !andb_true_iff, !Nat.eqb_eq, Z.leb_le, Z.leb_le, forallb_forall.
  unfold MAX_STEPPERS, is_allocated, is_null. split.
  - intros ((((((((H1 & H2) & H3) & H4) & H5) & H6) & H7) & H8) & H9).
    split; try assumption; try lia.
    + intros i Hi. specialize (H9 i (proj2 (slots_spec i) ltac:(lia))).
      rewrite (proj2 (Z.ltb_lt _ _)) in H9 by lia.
      destruct (accel_steppers s !! Z.to_nat i) as [[h|]|]; try discriminate. eauto.
    + intros i Hi. specialize (H9 i (proj2 (slots_spec i) ltac:(lia))).
      rewrite (proj2 (Z.ltb_ge _ _)) in H9 by lia.
      apply andb_true_iff in H9 as [Ha Hb].
      destruct (accel_steppers s !! Z.to_nat i) as [[h|]|]; try discriminate.
      destruct (steppers s !! Z.to_nat i) as [[m|]|]; try discriminate. auto.
  - intros [H1 H2 H3 H4 H5 H6 H7 H8 H9].
    repeat split; try assumption; try lia.
    intros i Hi%slots_spec. destruct (i <? num_steppers s) eqn:E.
    + apply Z.ltb_lt in E. destruct (H8 i) as [h ->]; [ lia | reflexivity ].
    + apply Z.ltb_ge in E. destruct (H9 i) as [-> ->]; [ lia | reflexivity ].
Qed.

Lemma declared_spec (s : State) (a : Z) : declared s a = true <-> 0 <= a < num_steppers s.
Proof. unfold declared. rewrite andb_true_iff, Z.leb_le, Z.ltb_lt. tauto. Qed.

(** ** Targets *)

Lemma set_prot_steps_id (s : State) : set_prot_steps (prot_steps s) s = s.
Proof. destruct s; reflexivity. Qed.

Lemma set_ret_steps_id (s : State) : set_ret_steps (ret_steps s) s = s.
Proof. destruct s; reflexivity. Qed.

(** A loop that stores [v] in the entries [0 .. n-1] of one global array,
    the array being read and written through [get] and [set]. *)
Section Fill.
Context {A : Type} (get : State -> list A) (set : list A -> State -> State).
Hypothesis get_set : forall a s, get (set a s) = a.
Hypothesis set_set : forall a b s, set a (set b s) = set a s.
Hypothesis set_get : forall s, set (get s) s = s.

Lemma fill_all (name : string) (v : A) (s : State) (n : Z) :
  n <= Z.of_nat (length (get s)) ->
  exists l,
    for_upto n (fun i s => a ← aset name (get s) i v; Done (set a s)) s = Done (set l s)
    /\ length l = length (get s)
    /\ (forall i, 0 <= i < n -> l !! Z.to_nat i = Some v)
    /\ (forall i, 0 <= i -> n <= i -> l !! Z.to_nat i = get s !! Z.to_nat i).
Proof.
  intros Hn. unfold for_upto.
  destruct (for_range_invariant
    (fun i s => a ← aset name (get s) i v; Done (set a s))
    (fun j t => set (get s) t = s
                /\ length (get t) = length (get s)
                /\ (forall i, 0 <= i < j -> get t !! Z.to_nat i = Some v)
                /\ (forall i, 0 <= i -> j <= i -> get t !! Z.to_nat i = get s !! Z.to_nat i))
    (Z.to_nat n) 0 s) as (s' & Hrun & Heq & Hlen & Hlo & Hhi).
  - rewrite set_get. repeat split; auto. intros i Hi. lia.
  - intros j t Hj (Ht & Hlen & Hlo & Hhi).
    rewrite aset_in by lia. simpl. eexists. split; [ reflexivity | ].
    rewrite set_set, !get_set. repeat split.
    + assumption.
    + rewrite length_insert. assumption.
    + intros i Hi. destruct (Z.eq_dec i j) as [->|Hne].
      * apply list_lookup_insert_eq. lia.
      * rewrite list_lookup_insert_ne by lia. apply Hlo. lia.
    + intros i Hi Hji. rewrite list_lookup_insert_ne by lia. apply Hhi; lia.
  - exists (get s'). rewrite Hrun. rewrite <- Heq at 1. rewrite set_set, set_get.
    repeat split; auto.
    + intros i Hi. apply Hlo. lia.
    + intros i Hi Hni. apply Hhi; lia.
Qed.
End Fill.

Lemma set_prot_all (v : Z) (s : State) (n : Z) :
  n <= Z.of_nat (length (prot_steps s)) ->
  exists l,
    for_upto n (fun i s => a ← aset "prot_steps" (prot_steps s) i v;
                           Done (set_prot_steps a s)) s = Done (set_prot_steps l s)
    /\ length l = length (prot_steps s)
    /\ (forall i, 0 <= i < n -> l !! Z.to_nat i = Some v)
    /\ (forall i, 0 <= i -> n <= i -> l !! Z.to_nat i = prot_steps s !! Z.to_nat i).
Proof.
  apply (fill_all prot_steps set_prot_steps); [ reflexivity | reflexivity | ].
  apply set_prot_steps_id.
Qed.

Lemma set_ret_all (v : Z) (s : State) (n : Z) :
  n <= Z.of_nat (length (ret_steps s)) ->
  exists l,
    for_upto n (fun i s => a ← aset "ret_steps" (ret_steps s) i v;
                           Done (set_ret_steps a s)) s = Done (set_ret_steps l s)
    /\ length l = length (ret_steps s)
    /\ (forall i, 0 <= i < n -> l !! Z.to_nat i = Some v)
    /\ (forall i, 0 <= i -> n <= i -> l !! Z.to_nat i = ret_steps s !! Z.to_nat i).
Proof.
  apply (fill_all ret_steps set_ret_steps); [ reflexivity | reflexivity | ].
  apply set_ret_steps_id.
Qed.

Lemma run_command_set_prot env fuel s a b :
  receives s "set_prot" a b -> run_command env fuel s = cmd_set_prot a b s.
Proof. intros (H0 & H1 & H2). unfold run_command. rewrite H0. simpl. now rewrite H1, H2. Qed.

Lemma run_command_set_ret env fuel s a b :
  receives s "set_ret" a b -> run_command env fuel s = cmd_set_ret a b s.
Proof. intros (H0 & H1 & H2). unfold run_command. rewrite H0. simpl. now rewrite H1, H2. Qed.

Lemma target_guard_false (steps : Z) :
  steps <= 1 \/ MAX_STEPS <= steps -> (steps <? MAX_STEPS) && (1 <? steps) = false.
Proof.
  intros H. apply andb_false_iff. rewrite Z.ltb_ge, Z.ltb_ge. lia.
Qed.

Lemma target_guard_true (steps : Z) :
  1 < steps < MAX_STEPS -> (steps <? MAX_STEPS) && (1 <? steps) = true.
Proof. intros H. apply andb_true_iff. rewrite !Z.ltb_lt. lia. Qed.

Lemma declared_not_all (s : State) (a : Z) :
  num_steppers s <= 16 -> declared s a = true -> (a =? ALL_FLAG) = false.
Proof. intros Hn Ha%declared_spec. apply Z.eqb_neq. unfold ALL_FLAG. lia. Qed.

(** C2.  [set_prot] and [set_ret] take a target only when
    [1 < steps < MAX_STEPS].  A line whose words are [set_prot a steps]
    (or [set_ret a steps]) runs the command's body; with [steps <= 1] or
    [steps >= MAX_STEPS] the body returns the state as it was, so no target
    changes and nothing is written to the serial port, for a declared axis
    and for the ALL sentinel alike; with [1 < steps < MAX_STEPS] the target
    of the declared axis [a] becomes [steps] and nothing else changes.
    After [set_prot ALL 150], [set_prot 0 5000] changes nothing and every
    declared axis has protraction target 150. *)
Theorem set_target_bounds (env : Env) (fuel : nat) (s : State) (a steps : Z) :
  well_formed s = true ->
  declared s a = true \/ a = ALL_FLAG ->
  (receives s "set_prot" a steps -> run_command env fuel s = cmd_set_prot a steps s)
  /\ (receives s "set_ret" a steps -> run_command env fuel s = cmd_set_ret a steps s)
  /\ (steps <= 1 \/ MAX_STEPS <= steps ->
        cmd_set_prot a steps s = Done s /\ cmd_set_ret a steps s = Done s)
  /\ (1 < steps < MAX_STEPS -> declared s a = true ->
        cmd_set_prot a steps s
          = Done (set_prot_steps (<[Z.to_nat a := steps]> (prot_steps s)) s)
        /\ <[Z.to_nat a := steps]> (prot_steps s) !! Z.to_nat a = Some steps
        /\ cmd_set_ret a steps s
          = Done (set_ret_steps (<[Z.to_nat a := steps]> (ret_steps s)) s)
        /\ <[Z.to_nat a := steps]> (ret_steps s) !! Z.to_nat a = Some steps)
  /\ (exists s1,
        cmd_set_prot ALL_FLAG 150 s = Done s1
        /\ cmd_set_prot 0 5000 s1 = Done s1
        /\ trace s1 = trace s
        /\ ret_steps s1 = ret_steps s
        /\ forall i, declared s i = true -> prot_steps s1 !! Z.to_nat i = Some 150).
Proof.
  intros Hwf%well_formed_shaped Ha.
  destruct Hwf as [Hp Hr _ _ _ _ Hn _ _].
  split; [ apply run_command_set_prot | ].
  split; [ apply run_command_set_ret | ].
  split; [ | split ].
  - intros Hs. unfold cmd_set_prot, cmd_set_ret. now rewrite target_guard_false.
  - intros Hs Hd. unfold cmd_set_prot, cmd_set_ret.
    rewrite target_guard_true by assumption.
    rewrite (declared_not_all s a) by (assumption || lia).
    apply declared_spec in Hd.
    rewrite !aset_in by lia. simpl.
    rewrite !list_lookup_insert_eq by lia. auto.
  - destruct (set_prot_all 150 s (num_steppers s)) as (l & Hrun & Hlen & Hlo & _); [ lia | ].
    exists (set_prot_steps l s). unfold cmd_set_prot at 1.
    rewrite target_guard_true by (unfold MAX_STEPS; lia).
    change (ALL_FLAG =? ALL_FLAG) with true. cbv iota. rewrite Hrun.
    split; [ reflexivity | ]. split; [ | split; [ reflexivity | split; [ reflexivity | ] ] ].
    + unfold cmd_set_prot. rewrite target_guard_false; [ reflexivity | unfold MAX_STEPS; lia ].
    + intros i Hi%declared_spec. simpl. apply Hlo. assumption.
Qed.

Lemma set_target_bounds_witness :
  well_formed Scenario.two_axes = true
  /\ declared Scenario.two_axes 0 = true
  /\ cmd_set_prot 0 5000 Scenario.two_axes = Done Scenario.two_axes.
Proof.
  split; [ reflexivity | split; [ reflexivity | ] ].
  destruct (set_target_bounds Bench.env 0 Scenario.two_axes 0 5000) as (_ & _ & H & _).
  - reflexivity.
  - left. reflexivity.
  - apply H. right. unfold MAX_STEPS. lia.
Defined.

(** The scenario of C2 on the wire: after bring-up with two axes, the lines
    [set_prot 999 150] and [set_prot 0 5000] leave both protraction targets
    at 150, write nothing to the serial port and leave the retraction
    targets alone. *)
Example set_prot_scenario :
  exists s1 s2,
    loop Bench.env 0 (Bench.line "set_prot 999 150") Scenario.two_axes = Done s1
    /\ loop Bench.env 0 (Bench.line "set_prot 0 5000") s1 = Done s2
    /\ prot_steps s1 = [150; 150; 0; 0; 0; 0; 0; 0; 0; 0; 0; 0; 0; 0; 0; 0]
    /\ prot_steps s2 = prot_steps s1
    /\ ret_steps s2 = ret_steps Scenario.two_axes
    /\ trace s2 = trace Scenario.two_axes.
Proof.
  eexists. eexists. split; [ vm_compute; reflexivity | ].
  split; [ vm_compute; reflexivity | ]. repeat split.
Qed.

(** ** The main cycle, axis by axis *)

Lemma moved_refl (s : State) : moved s s.
Proof. unfold moved. destruct s; reflexivity. Qed.

Lemma moved_trans (s t u : State) : moved s t -> moved t u -> moved s u.
Proof. unfold moved. intros Hst Htu. rewrite <- Htu in Hst. exact Hst. Qed.

Lemma moved_fields (s s' : State) :
  moved s s' ->
  prot_steps s' = prot_steps s /\ ret_steps s' = ret_steps s
  /\ is_left s' = is_left s /\ steppers s' = steppers s
  /\ num_steppers s' = num_steppers s /\ trace s' = trace s
  /\ whisker_col_id s' = whisker_col_id s /\ num_whiskers s' = num_whiskers s
  /\ sampling s' = sampling s.
Proof.
  unfold moved. intros H.
  repeat split.
  - now apply (f_equal prot_steps) in H.
  - now apply (f_equal ret_steps) in H.
  - now apply (f_equal is_left) in H.
  - now apply (f_equal steppers) in H.
  - now apply (f_equal num_steppers) in H.
  - now apply (f_equal trace) in H.
  - now apply (f_equal whisker_col_id) in H.
  - now apply (f_equal num_whiskers) in H.
  - now apply (f_equal sampling) in H.
Qed.

Lemma stepper_call_spec (i : Z) (c : call) (s : State) (h : AccelStepper) :
  0 <= i -> accel_steppers s !! Z.to_nat i = Some (Some h) ->
  stepper_call i c s
    = Done (set_accel_steppers (<[Z.to_nat i := Some (h ++ [c])]> (accel_steppers s)) s).
Proof.
  intros Hi Hh. unfold stepper_call. rewrite (deref_lookup _ _ _ h) by assumption. simpl.
  apply lookup_lt_Some in Hh. rewrite aset_in by lia. reflexivity.
Qed.

Lemma driven_refl (s : State) : driven s s.
Proof.
  split; [ destruct s; reflexivity | ].
  exists []. now rewrite app_nil_r.
Qed.

Lemma driven_trans (s t u : State) : driven s t -> driven t u -> driven s u.
Proof.
  intros [Hst (e1 & E1 & F1)] [Htu (e2 & E2 & F2)]. split.
  - rewrite <- Htu in Hst. exact Hst.
  - exists (e1 ++ e2). rewrite E2, E1, <- app_assoc. split; [ reflexivity | ].
    rewrite forallb_app, F1, F2. reflexivity.
Qed.

Lemma moved_driven (s s' : State) : moved s s' -> driven s s'.
Proof.
  unfold moved. intros H.
  assert (Ht : trace s' = trace s) by (now apply (f_equal trace) in H).
  split.
  - replace (set_trace (trace s) s') with s'; [ exact H | ].
    rewrite <- Ht. destruct s'; reflexivity.
  - exists []. now rewrite app_nil_r.
Qed.

Lemma driven_fields (s s' : State) :
  driven s s' ->
  prot_steps s' = prot_steps s /\ ret_steps s' = ret_steps s
  /\ is_left s' = is_left s /\ steppers s' = steppers s
  /\ num_steppers s' = num_steppers s
  /\ whisker_col_id s' = whisker_col_id s /\ num_whiskers s' = num_whiskers s
  /\ sampling s' = sampling s.
Proof.
  intros [H _].
  repeat split.
  - now apply (f_equal prot_steps) in H.
  - now apply (f_equal ret_steps) in H.
  - now apply (f_equal is_left) in H.
  - now apply (f_equal steppers) in H.
  - now apply (f_equal num_steppers) in H.
  - now apply (f_equal whisker_col_id) in H.
  - now apply (f_equal num_whiskers) in H.
  - now apply (f_equal sampling) in H.
Qed.

Lemma motorised_motors (s : State) : motorised s = true <-> motors s.
Proof.
  unfold motorised, motors, is_allocated. rewrite forallb_forall. split.
  - intros H i Hi Hi'. specialize (H i (proj2 (slots_spec i) ltac:(lia))).
    rewrite (proj2 (Z.ltb_lt _ _)) in H by lia.
    destruct (steppers s !! Z.to_nat i) as [[m|]|]; try discriminate. eauto.
  - intros H i Hi%slots_spec. destruct (i <? num_steppers s) eqn:E; [ | reflexivity ].
    apply Z.ltb_lt in E. destruct (H i) as [m ->]; [ lia | lia | reflexivity ].
Qed.

Lemma motors_steppers (s s' : State) :
  steppers s' = steppers s -> num_steppers s' = num_steppers s -> motors s -> motors s'.
Proof. unfold motors. intros -> ->. auto. Qed.

Lemma callbacks_slot (i : Z) :
  0 <= i < 16 ->
  callbacks i = Done (onestep i FORWARD INTERLEAVE, onestep i BACKWARD INTERLEAVE).
Proof.
  intros Hi.
  assert (Hcases : i = 0 \/ i = 1 \/ i = 2 \/ i = 3 \/ i = 4 \/ i = 5 \/ i = 6 \/ i = 7
                   \/ i = 8 \/ i = 9 \/ i = 10 \/ i = 11 \/ i = 12 \/ i = 13 \/ i = 14
                   \/ i = 15) by lia.
  repeat (destruct Hcases as [->|Hcases]); try subst i; reflexivity.
Qed.

(** [run] on an axis that has its motor: the call is recorded and at most
    one interleaved step of that motor is added to the trace. *)
Lemma stepper_run_spec (env : Env) (i : Z) (s : State) (h : AccelStepper) (m : StepperMotor) :
  0 <= i < 16 ->
  accel_steppers s !! Z.to_nat i = Some (Some h) ->
  steppers s !! Z.to_nat i = Some (Some m) ->
  exists steps,
    stepper_run env i s
    = Done (set_trace (trace s ++ steps)
              (set_accel_steppers (<[Z.to_nat i := Some (h ++ [Run])]> (accel_steppers s)) s))
    /\ forallb running_step steps = true
    /\ steps = match runSpeed env h (trace s) with
               | Some dir => [Onestep i dir INTERLEAVE]
               | None => []
               end.
Proof.
  intros Hi Hh Hm. unfold stepper_run.
  rewrite (deref_lookup _ _ _ h) by (lia || assumption). run.
  rewrite (stepper_call_spec _ _ _ h) by (lia || assumption). run.
  destruct (runSpeed env h (trace s)) as [dir|].
  - rewrite callbacks_slot by lia. run.
    exists [Onestep i dir INTERLEAVE]. split; [ | split; reflexivity ].
    destruct dir; unfold onestep;
      rewrite (deref_lookup _ _ _ m) by (lia || exact Hm); reflexivity.
  - exists []. split; [ | split; reflexivity ]. rewrite app_nil_r. destruct s; reflexivity.
Qed.

(** [run] on an axis whose motor pointer is null, when a step is due. *)
Lemma stepper_run_null (env : Env) (i : Z) (s : State) (h : AccelStepper) (dir : direction) :
  0 <= i < 16 ->
  accel_steppers s !! Z.to_nat i = Some (Some h) ->
  steppers s !! Z.to_nat i = Some None ->
  runSpeed env h (trace s) = Some dir ->
  stepper_run env i s = Fault (NullPointer "steppers" i).
Proof.
  intros Hi Hh Hm Hdue. unfold stepper_run.
  rewrite (deref_lookup _ _ _ h) by (lia || assumption). run.
  rewrite (stepper_call_spec _ _ _ h) by (lia || assumption). run.
  rewrite Hdue, callbacks_slot by lia. run.
  destruct dir; unfold onestep; rewrite deref_null by (lia || exact Hm); reflexivity.
Qed.

Lemma advance_axis_spec (env : Env) (i : Z) (s : State) (status ret : Z)
    (h : AccelStepper) (m : StepperMotor) :
  0 <= i < 16 ->
  whisking_status s !! Z.to_nat i = Some status ->
  accel_steppers s !! Z.to_nat i = Some (Some h) ->
  ret_steps s !! Z.to_nat i = Some ret ->
  steppers s !! Z.to_nat i = Some (Some m) ->
  exists s',
    advance_axis env i s = Done s' /\ driven s s'
    /\ whisking_status s'
       = <[Z.to_nat i := fst (axis_step env ret (status, h))]> (whisking_status s)
    /\ accel_steppers s'
       = <[Z.to_nat i := Some (snd (axis_step env ret (status, h)))]> (accel_steppers s).
Proof.
  intros Hi Hst Hh Hret Hm.
  pose proof (lookup_lt_Some _ _ _ Hst) as Hlen.
  pose proof (lookup_lt_Some _ _ _ Hh) as Hlen'.
  assert (Hdriven : forall steps w a,
            forallb running_step steps = true ->
            driven s (set_trace (trace s ++ steps)
                        (set_accel_steppers a (set_whisking_status w s)))).
  { intros steps w a Hsteps. split; [ destruct s; reflexivity | ].
    exists steps. split; [ reflexivity | exact Hsteps ]. }
  unfold advance_axis, axis_step.
  rewrite (aget_lookup "whisking_status" _ _ status) by (lia || assumption). run.
  destruct (truthy status) eqn:Et.
  - rewrite (deref_lookup _ _ _ h) by (lia || assumption). run.
    destruct (distanceToGo env h =? 0) eqn:Ed.
    + rewrite aset_in by lia. run.
      rewrite (aget_lookup "whisking_status" _ _ (to_int (status - 1)))
        by (try lia; apply list_lookup_insert_eq; lia).
      run. destruct (truthy (to_int (status - 1))) eqn:Et'.
      * rewrite (aget_lookup "ret_steps" _ _ ret) by (lia || assumption). run.
        rewrite (stepper_call_spec _ _ _ h) by (simpl; lia || assumption). run.
        match goal with
        | |- context [stepper_run env i ?t] =>
            destruct (stepper_run_spec env i t (h ++ [MoveTo ret]) m Hi)
              as (steps & -> & Hsteps & _);
              [ simpl; apply list_lookup_insert_eq; lia | exact Hm | ]
        end.
        eexists. split; [ reflexivity | ]. simpl.
        rewrite list_insert_insert_eq, <- app_assoc. simpl.
        split; [ | split; reflexivity ]. now apply Hdriven.
      * run. destruct (stepper_run_spec env i
                         (set_whisking_status
                            (<[Z.to_nat i := to_int (status - 1)]> (whisking_status s)) s)
                         h m Hi Hh Hm) as (steps & -> & Hsteps & _).
        eexists. split; [ reflexivity | ]. simpl.
        split; [ | split; reflexivity ]. now apply Hdriven.
    + run. destruct (stepper_run_spec env i s h m Hi Hh Hm) as (steps & -> & Hsteps & _).
      eexists. split; [ reflexivity | ]. simpl.
      rewrite (list_insert_id (whisking_status s) _ status) by assumption.
      split; [ | split; reflexivity ].
      split; [ destruct s; reflexivity | ]. exists steps. auto.
  - run. destruct (stepper_run_spec env i s h m Hi Hh Hm) as (steps & -> & Hsteps & _).
    eexists. split; [ reflexivity | ]. simpl.
    rewrite (list_insert_id (whisking_status s) _ status) by assumption.
    split; [ | split; reflexivity ].
    split; [ destruct s; reflexivity | ]. exists steps. auto.
Qed.

(** One pass over the axes: every declared axis takes its [axis_step], the
    unused slots and every other global but the trace stay as they are. *)
Lemma motion_pass_spec (env : Env) (s : State) :
  shaped s -> motors s ->
  exists s',
    motion_pass env s = Done s' /\ driven s s' /\ shaped s' /\ motors s'
    /\ (forall a status h ret,
          0 <= a < num_steppers s ->
          whisking_status s !! Z.to_nat a = Some status ->
          accel_steppers s !! Z.to_nat a = Some (Some h) ->
          ret_steps s !! Z.to_nat a = Some ret ->
          whisking_status s' !! Z.to_nat a = Some (fst (axis_step env ret (status, h)))
          /\ accel_steppers s' !! Z.to_nat a
             = Some (Some (snd (axis_step env ret (status, h))))).
Proof.
  intros Hs Hmot. pose proof Hs as [Hp Hr Hl Hw Hm Ha Hn Hd Hu].
  unfold motion_pass, for_upto.
  destruct (for_range_invariant (advance_axis env)
    (fun j t =>
       driven s t
       /\ length (whisking_status t) = 16%nat /\ length (accel_steppers t) = 16%nat
       /\ (forall a status h ret,
             0 <= a < j ->
             whisking_status s !! Z.to_nat a = Some status ->
             accel_steppers s !! Z.to_nat a = Some (Some h) ->
             ret_steps s !! Z.to_nat a = Some ret ->
             whisking_status t !! Z.to_nat a = Some (fst (axis_step env ret (status, h)))
             /\ accel_steppers t !! Z.to_nat a
                = Some (Some (snd (axis_step env ret (status, h)))))
       /\ (forall a, j <= a ->
             whisking_status t !! Z.to_nat a = whisking_status s !! Z.to_nat a
             /\ accel_steppers t !! Z.to_nat a = accel_steppers s !! Z.to_nat a))
    (Z.to_nat (num_steppers s)) 0 s) as (s' & Hrun & Hmv & Hlw & Hla & Hlo & Hhi).
  - split; [ apply driven_refl | ]. repeat split; auto. lia. lia.
  - intros j t Hj (Hmv & Hlw & Hla & Hlo & Hhi).
    destruct (Hd j) as [h Hh]; [ lia | ].
    destruct (Hmot j) as [m Hmj]; [ lia | lia | ].
    destruct (lookup_lt_is_Some_2 (whisking_status s) (Z.to_nat j)) as [status Hst]; [ lia | ].
    destruct (lookup_lt_is_Some_2 (ret_steps s) (Z.to_nat j)) as [ret Hret]; [ lia | ].
    destruct (Hhi j) as [Hwj Haj]; [ lia | ].
    pose proof (driven_fields _ _ Hmv) as (_ & Hrt & _ & Hmt & _).
    destruct (advance_axis_spec env j t status ret h m) as (t' & Hadv & Hmv' & Hw' & Ha').
    { lia. } { congruence. } { congruence. } { congruence. } { congruence. }
    exists t'. split; [ assumption | ].
    split; [ eapply driven_trans; eassumption | ].
    rewrite Hw', Ha', !length_insert.
    split; [ assumption | ]. split; [ assumption | ]. split.
    + intros a status0 h0 ret0 Haj' Hst0 Hh0 Hret0.
      destruct (Z.eq_dec a j) as [->|Hne].
      * rewrite !list_lookup_insert_eq by lia.
        replace status0 with status by congruence.
        replace h0 with h by congruence.
        replace ret0 with ret by congruence. auto.
      * rewrite !list_lookup_insert_ne by lia. apply Hlo; auto. lia.
    + intros a Haj'. rewrite !list_lookup_insert_ne by lia. apply Hhi. lia.
  - exists s'. split; [ assumption | ]. split; [ assumption | ].
    pose proof (driven_fields _ _ Hmv) as (Ep & Er & El & Em & En & _).
    split; [ | split ].
    + split; try congruence; try lia.
      * intros i Hi. rewrite En in Hi.
        destruct (Hd i) as [h Hh]; [ lia | ].
        destruct (lookup_lt_is_Some_2 (whisking_status s) (Z.to_nat i)) as [st Hst]; [ lia | ].
        destruct (lookup_lt_is_Some_2 (ret_steps s) (Z.to_nat i)) as [ret Hret]; [ lia | ].
        destruct (Hlo i st h ret) as [_ Hx]; auto; [ lia | ]. eauto.
      * intros i Hi. rewrite En in Hi. rewrite Em.
        destruct (Hhi i) as [_ ->]; [ lia | ]. apply Hu. lia.
    + exact (motors_steppers _ _ Em En Hmot).
    + intros a status h ret Ha0. apply Hlo. lia.
Qed.

Lemma loop_idle (env : Env) (s : State) : loop env 0 [] s = motion_pass env s.
Proof. reflexivity. Qed.

Lemma axis_run_add (env : Env) (ret : Z) (n m : nat) (st : Z * AccelStepper) :
  axis_run env ret (n + m) st = axis_run env ret m (axis_run env ret n st).
Proof. revert st. induction n as [|n IH]; intros st; simpl; auto. Qed.

(** [n] idle passes of [loop]: every declared axis takes [n] steps. *)
Lemma cycles_spec (env : Env) (n : nat) :
  forall s, shaped s -> motors s ->
  exists s',
    cycles env n s = Done s' /\ driven s s' /\ shaped s' /\ motors s'
    /\ (forall a status h ret,
          0 <= a < num_steppers s ->
          whisking_status s !! Z.to_nat a = Some status ->
          accel_steppers s !! Z.to_nat a = Some (Some h) ->
          ret_steps s !! Z.to_nat a = Some ret ->
          whisking_status s' !! Z.to_nat a = Some (fst (axis_run env ret n (status, h)))
          /\ accel_steppers s' !! Z.to_nat a
             = Some (Some (snd (axis_run env ret n (status, h))))).
Proof.
  induction n as [|n IH]; intros s Hs Hmot.
  - exists s. simpl. split; [ reflexivity | ]. split; [ apply driven_refl | ].
    split; [ assumption | ]. split; [ assumption | ]. intros a status h ret _ -> ->. auto.
  - destruct (motion_pass_spec env s Hs Hmot) as (t & Hpass & Hmv & Ht & Hmt & Hstep).
    destruct (IH t Ht Hmt) as (s' & Hrun & Hmv' & Hs' & Hms' & Hrest).
    exists s'. simpl cycles. rewrite loop_idle, Hpass. run.
    split; [ assumption | ]. split; [ eapply driven_trans; eassumption | ].
    split; [ assumption | ]. split; [ assumption | ].
    intros a status h ret Ha Hst Hh Hret.
    pose proof (driven_fields _ _ Hmv) as (_ & Er & _ & _ & En & _).
    destruct (Hstep a status h ret) as [Hst' Hh']; auto.
    change (axis_run env ret (S n) (status, h))
      with (axis_run env ret n (axis_step env ret (status, h))).
    destruct (axis_step env ret (status, h)) as [status' h'] eqn:E.
    apply Hrest; simpl in *; try congruence; lia.
Qed.

(** An axis declared on a port the shield does not have ([s 0 3 1 0]: motor
    number 3) has an [AccelStepper] and a null motor pointer.  It can be
    commanded and idles through the main cycle, but the first [run] that
    finds a step due calls the callback, which goes through the null
    pointer. *)
Example null_motor_scenario :
  exists s s3,
    setup [Bench.line "s 0 3 1 0" ++ Bench.line "c"] init_state = Done s
    /\ well_formed s = true /\ declared s 0 = true /\ motorised s = false
    /\ steppers s !! 0%nat = Some None
    /\ cycles Bench.env 3 s = Done s3 /\ trace s3 = trace s
    /\ loop Bench.env 0 (Bench.line "whisk 0") s = Fault (NullPointer "steppers" 0).
Proof.
  do 2 eexists. split; [ vm_compute; reflexivity | ].
  do 4 (split; [ vm_compute; reflexivity | ]).
  split; [ vm_compute; reflexivity | ].
  split; vm_compute; reflexivity.
Qed.

(** ** The whisking state machine on one axis *)

Lemma classic_bounded (P : nat -> Prop) :
  (forall n, {P n} + {~ P n}) ->
  forall n, (exists m, P m /\ (m < n)%nat) \/ (forall m, (m < n)%nat -> ~ P m).
Proof.
  intros Hdec n. induction n as [|n [(m & Hm & Hlt)|Hnone]].
  - right. intros m Hm. lia.
  - left. exists m. split; [ assumption | lia ].
  - destruct (Hdec n) as [Hn|Hn].
    + left. exists n. split; [ assumption | lia ].
    + right. intros m Hm. destruct (Nat.eq_dec m n) as [->|Hne]; [ assumption | ].
      apply Hnone. lia.
Qed.

Lemma first_such (P : nat -> Prop) :
  (forall n, {P n} + {~ P n}) -> (exists n, P n) ->
  exists n, P n /\ forall m, (m < n)%nat -> ~ P m.
Proof.
  intros Hdec [n Hn]. induction n as [n IH] using lt_wf_ind.
  destruct (classic_bounded P Hdec n) as [(m & Hm & Hlt)|Hnone].
  - exact (IH m Hlt Hm).
  - exists n. auto.
Qed.

Lemma first_arrival (env : Env) (h : AccelStepper) :
  completes env h -> exists n, first_at env h n.
Proof.
  intros Hc. apply (first_such (fun n => distanceToGo env (h ++ replicate n Run) = 0)).
  - intros n. apply Z.eq_dec.
  - exact Hc.
Qed.

Lemma arrives_whisk_completes (env : Env) (h0 : AccelStepper) (prot ret : Z) :
  arrives env -> whisk_completes env h0 prot ret.
Proof. intros Harr. split; [ apply Harr | intros n1 _; apply Harr ]. Qed.

Lemma replicate_snoc (n : nat) (h : AccelStepper) :
  (h ++ [Run]) ++ replicate n Run = h ++ replicate (S n) Run.
Proof. rewrite <- app_assoc. reflexivity. Qed.

Lemma replicate_run_S (n : nat) : replicate (S n) Run = replicate n Run ++ [Run].
Proof. induction n as [|n IH]; simpl; [ reflexivity | ]. f_equal. exact IH. Qed.

(** While the distance to go is not zero a whisking axis only runs. *)
Lemma axis_run_moving (env : Env) (ret status : Z) (k : nat) :
  truthy status = true ->
  forall h,
    (forall m, (m < k)%nat -> distanceToGo env (h ++ replicate m Run) <> 0) ->
    axis_run env ret k (status, h) = (status, h ++ replicate k Run).
Proof.
  intros Ht. induction k as [|k IH]; intros h Hmove.
  - simpl. now rewrite app_nil_r.
  - assert (Hd : (distanceToGo env h =? 0) = false).
    { apply Z.eqb_neq. specialize (Hmove 0%nat). simpl in Hmove.
      rewrite app_nil_r in Hmove. apply Hmove. lia. }
    change (axis_run env ret (S k) (status, h))
      with (axis_run env ret k (axis_step env ret (status, h))).
    unfold axis_step. rewrite Ht, Hd. rewrite IH.
    + now rewrite replicate_snoc.
    + intros m Hm. rewrite replicate_snoc. apply Hmove. lia.
Qed.

(** An idle axis only runs. *)
Lemma axis_run_idle (env : Env) (ret : Z) (k : nat) :
  forall h, axis_run env ret k (0, h) = (0, h ++ replicate k Run).
Proof.
  induction k as [|k IH]; intros h.
  - simpl. now rewrite app_nil_r.
  - change (axis_run env ret (S k) (0, h)) with (axis_run env ret k (0, h ++ [Run])).
    rewrite IH. now rewrite replicate_snoc.
Qed.

Lemma axis_step_protracted (env : Env) (ret : Z) (h : AccelStepper) :
  distanceToGo env h = 0 -> axis_step env ret (2, h) = (1, h ++ [MoveTo ret; Run]).
Proof. intros Hd. unfold axis_step. rewrite Hd. reflexivity. Qed.

Lemma axis_step_retracted (env : Env) (ret : Z) (h : AccelStepper) :
  distanceToGo env h = 0 -> axis_step env ret (1, h) = (0, h ++ [Run]).
Proof. intros Hd. unfold axis_step. rewrite Hd. reflexivity. Qed.

(** The whole course of a whisk on the pair of one axis. *)
Lemma axis_run_whisk (env : Env) (prot ret : Z) (h0 : AccelStepper) :
  whisk_completes env h0 prot ret ->
  exists n1 n2 : nat,
    (forall k, axis_run env ret k (2, h0 ++ [MoveTo prot])
               = (whisk_phase n1 n2 k, whisk_history h0 prot ret n1 k))
    /\ distanceToGo env (whisk_history h0 prot ret n1 n1) = 0
    /\ distanceToGo env (whisk_history h0 prot ret n1 (n1 + 1 + n2)) = 0
    /\ first_at env (h0 ++ [MoveTo prot]) n1.
Proof.
  intros [Hc1 Hc2].
  destruct (first_arrival env (h0 ++ [MoveTo prot]) Hc1) as (n1 & Hz1 & Hm1).
  assert (Hc : completes env (((h0 ++ [MoveTo prot]) ++ replicate n1 Run)
                                ++ [MoveTo ret; Run])).
  { rewrite <- !app_assoc. exact (Hc2 n1 (conj Hz1 Hm1)). }
  set (h1 := (h0 ++ [MoveTo prot]) ++ replicate n1 Run) in *.
  destruct (first_arrival env (h1 ++ [MoveTo ret; Run]) Hc) as (n2 & Hz2 & Hm2).
  assert (Hh : forall j, (h1 ++ [MoveTo ret; Run]) ++ replicate j Run
                         = whisk_history h0 prot ret n1 (n1 + 1 + j)).
  { intros j. unfold whisk_history, h1.
    rewrite (proj2 (Nat.leb_gt _ _)) by lia.
    replace (n1 + 1 + j - n1)%nat with (S j) by lia.
    rewrite <- !app_assoc. simpl. reflexivity. }
  assert (Hlow : forall k, (k <= n1)%nat ->
            axis_run env ret k (2, h0 ++ [MoveTo prot])
            = (2, whisk_history h0 prot ret n1 k)).
  { intros k Hk. rewrite axis_run_moving; [ | reflexivity | ].
    - unfold whisk_history. rewrite (proj2 (Nat.leb_le _ _)) by lia.
      rewrite <- app_assoc. reflexivity.
    - intros m Hm. apply Hm1. lia. }
  assert (Hmid : forall j, (j <= n2)%nat ->
            axis_run env ret (n1 + 1 + j) (2, h0 ++ [MoveTo prot])
            = (1, whisk_history h0 prot ret n1 (n1 + 1 + j))).
  { intros j Hj. rewrite !axis_run_add.
    rewrite axis_run_moving; [ | reflexivity | intros m Hm; apply Hm1; lia ].
    fold h1. change (axis_run env ret 1 (2, h1)) with (axis_step env ret (2, h1)).
    rewrite axis_step_protracted by exact Hz1.
    rewrite axis_run_moving; [ | reflexivity | intros m Hm; apply Hm2; lia ].
    now rewrite Hh. }
  exists n1, n2. split; [ | split; [ | split; [ | exact (conj Hz1 Hm1) ] ] ].
  - intros k. unfold whisk_phase.
    destruct (k <=? n1)%nat eqn:E1.
    + apply Nat.leb_le in E1. now apply Hlow.
    + apply Nat.leb_gt in E1. destruct (k <=? n1 + 1 + n2)%nat eqn:E2.
      * apply Nat.leb_le in E2.
        replace k with (n1 + 1 + (k - n1 - 1))%nat at 1 2 by lia.
        replace (whisk_history h0 prot ret n1 k)
          with (whisk_history h0 prot ret n1 (n1 + 1 + (k - n1 - 1)))
          by (f_equal; lia).
        apply Hmid. lia.
      * apply Nat.leb_gt in E2.
        replace k with ((n1 + 1 + n2) + (1 + (k - (n1 + 1 + n2) - 1)))%nat at 1 by lia.
        rewrite (axis_run_add env ret (n1 + 1 + n2)).
        rewrite Hmid by lia. rewrite axis_run_add.
        change (axis_run env ret 1 (1, ?h)) with (axis_step env ret (1, h)).
        rewrite axis_step_retracted by (rewrite <- Hh; exact Hz2).
        rewrite axis_run_idle. f_equal.
        rewrite <- Hh, replicate_snoc, <- app_assoc, <- replicate_add.
        replace k with (n1 + 1 + (S n2 + (k - (n1 + 1 + n2) - 1)))%nat at 2 by lia.
        rewrite <- Hh. f_equal. f_equal. lia.
  - unfold whisk_history. rewrite Nat.leb_refl.
    unfold h1 in Hz1. rewrite <- app_assoc in Hz1. exact Hz1.
  - rewrite <- Hh. exact Hz2.
Qed.

Lemma history_spec (s : State) (a : Z) (h : AccelStepper) :
  history s a = Some h <-> accel_steppers s !! Z.to_nat a = Some (Some h).
Proof.
  unfold history. destruct (accel_steppers s !! Z.to_nat a) as [[h'|]|]; split; congruence.
Qed.

(** A state that differs from a well-formed one in phases and histories
    only, and keeps an [AccelStepper] behind each declared axis, is
    well-formed. *)
Lemma shaped_moved (s s' : State) :
  shaped s -> moved s s' ->
  length (whisking_status s') = 16%nat ->
  length (accel_steppers s') = 16%nat ->
  (forall i, 0 <= i < num_steppers s ->
     exists h, accel_steppers s' !! Z.to_nat i = Some (Some h)) ->
  (forall i, num_steppers s <= i < 16 -> accel_steppers s' !! Z.to_nat i = Some None) ->
  shaped s'.
Proof.
  intros [Hp Hr Hl Hw Hm Ha Hn Hd Hu] Hmv Hw' Ha' Hd' Hu'.
  pose proof (moved_fields _ _ Hmv) as (Ep & Er & El & Em & En & _).
  split; try congruence; try lia.
  - intros i Hi. apply Hd'. lia.
  - intros i Hi. rewrite En in Hi. split; [ apply Hu'; lia | ].
    rewrite Em. apply Hu. lia.
Qed.

(** [whisk a] on a declared axis. *)
Lemma cmd_whisk_spec (s : State) (a prot : Z) (h0 : AccelStepper) :
  shaped s -> 0 <= a < num_steppers s ->
  prot_steps s !! Z.to_nat a = Some prot ->
  accel_steppers s !! Z.to_nat a = Some (Some h0) ->
  exists s1,
    cmd_whisk a s = Done s1 /\ moved s s1 /\ shaped s1
    /\ whisking_status s1 = <[Z.to_nat a := 2]> (whisking_status s)
    /\ accel_steppers s1 = <[Z.to_nat a := Some (h0 ++ [MoveTo prot])]> (accel_steppers s).
Proof.
  intros Hs Ha Hprot Hh. pose proof Hs as [Hp Hr Hl Hw Hm Hacc Hn Hd Hu].
  unfold cmd_whisk. rewrite (declared_not_all s a) by (lia || now apply declared_spec).
  rewrite aset_in by lia. run.
  rewrite (aget_lookup "prot_steps" _ _ prot) by (simpl; lia || assumption). run.
  rewrite (stepper_call_spec _ _ _ h0) by (simpl; lia || assumption).
  eexists. split; [ reflexivity | ]. simpl.
  assert (Hmv : moved s
    (set_accel_steppers (<[Z.to_nat a:=Some (h0 ++ [MoveTo prot])]> (accel_steppers s))
       (set_whisking_status (<[Z.to_nat a:=2]> (whisking_status s)) s))).
  { unfold moved. destruct s; reflexivity. }
  split; [ exact Hmv | ]. split; [ | split; reflexivity ].
  apply (shaped_moved s); try assumption; simpl; rewrite ?length_insert; try assumption.
  - intros i Hi. destruct (Z.eq_dec i a) as [->|Hne].
    + rewrite list_lookup_insert_eq by lia. eauto.
    + rewrite list_lookup_insert_ne by lia. apply Hd. lia.
  - intros i Hi. rewrite list_lookup_insert_ne by lia. apply Hu. lia.
Qed.

Lemma run_command_whisk env fuel s a :
  receives1 s "whisk" a -> run_command env fuel s = cmd_whisk a s.
Proof. intros (H0 & H1). unfold run_command. rewrite H0. simpl. now rewrite H1. Qed.

Lemma run_command_halt_whisk env fuel s a :
  receives1 s "halt_whisk" a -> run_command env fuel s = cmd_halt_whisk a s.
Proof. intros (H0 & H1). unfold run_command. rewrite H0. simpl. now rewrite H1. Qed.

Lemma run_command_retract env fuel s a :
  receives1 s "retract" a -> run_command env fuel s = cmd_retract a s.
Proof. intros (H0 & H1). unfold run_command. rewrite H0. simpl. now rewrite H1. Qed.

(** [whisk a] and the passes of the main cycle that follow it. *)
Lemma whisk_course (env : Env) (s : State) (a prot ret : Z) (h0 : AccelStepper) :
  shaped s -> motors s -> 0 <= a < num_steppers s ->
  whisk_completes env h0 prot ret ->
  prot_steps s !! Z.to_nat a = Some prot ->
  ret_steps s !! Z.to_nat a = Some ret ->
  accel_steppers s !! Z.to_nat a = Some (Some h0) ->
  exists s1,
    cmd_whisk a s = Done s1
    /\ phase s1 a = Some 2
    /\ history s1 a = Some (h0 ++ [MoveTo prot])
    /\ exists n1 n2 : nat,
         (forall k, exists sk,
            cycles env k s1 = Done sk
            /\ phase sk a = Some (whisk_phase n1 n2 k)
            /\ history sk a = Some (whisk_history h0 prot ret n1 k))
         /\ distanceToGo env (whisk_history h0 prot ret n1 n1) = 0
         /\ distanceToGo env (whisk_history h0 prot ret n1 (n1 + 1 + n2)) = 0
         /\ first_at env (h0 ++ [MoveTo prot]) n1.
Proof.
  intros Hwf Hmot Ha Harr Hprot Hret Hh.
  destruct (cmd_whisk_spec s a prot h0 Hwf Ha Hprot Hh) as (s1 & Hcmd & Hmv & Hs1 & Hw1 & Ha1).
  pose proof Hwf as [Hp Hr Hl Hw Hm Hacc Hn Hd Hu].
  pose proof (moved_fields _ _ Hmv) as (_ & Er & _ & Em & En & _).
  assert (Hm1 : motors s1) by exact (motors_steppers _ _ Em En Hmot).
  assert (Hph : whisking_status s1 !! Z.to_nat a = Some 2).
  { rewrite Hw1. apply list_lookup_insert_eq. lia. }
  assert (Hhi : accel_steppers s1 !! Z.to_nat a = Some (Some (h0 ++ [MoveTo prot]))).
  { rewrite Ha1. apply list_lookup_insert_eq. lia. }
  exists s1. split; [ exact Hcmd | ]. split; [ exact Hph | ].
  split; [ now apply history_spec | ].
  destruct (axis_run_whisk env prot ret h0 Harr) as (n1 & n2 & Hrun & Hz1 & Hz2 & Hfirst).
  exists n1, n2. split; [ | split; [ exact Hz1 | split; [ exact Hz2 | exact Hfirst ] ] ].
  intros k. destruct (cycles_spec env k s1 Hs1 Hm1) as (sk & Hck & _ & _ & _ & Hax).
  exists sk. split; [ exact Hck | ].
  destruct (Hax a 2 (h0 ++ [MoveTo prot]) ret) as [Hphk Hhk]; try assumption.
  - lia.
  - congruence.
  - rewrite Hrun in Hphk, Hhk. split; [ exact Hphk | now apply history_spec ].
Qed.

(** C1.  The line [whisk a] for a declared axis [a] with protraction
    target [prot], retraction target [ret] and call history [h0], every
    declared axis having its motor, and a motion driver that brings the two
    moves the firmware issues to their end, the distance to go of the
    retraction being zero only at its target: processing the command sets the
    phase to 2 and issues [moveTo(prot)]; there are [n1] and [n2] such that
    after [k] passes of the main cycle the phase is 2 for [k <= n1], then 1
    for [k <= n1 + 1 + n2], then 0 for ever, and the calls on the axis are
    the [moveTo(prot)], one [run] per pass and a single [moveTo(ret)],
    issued in pass [n1 + 1] where the phase goes from 2 to 1; the pass that
    sets the phase to 0 issues no move, and finds the axis at position
    [ret].  This holds whatever the phase and the distance to go were
    before the command, so in particular for an idle axis at rest. *)
Theorem whisk_cycle (env : Env) (fuel : nat) (s : State) (a prot ret : Z)
    (h0 : AccelStepper) :
  well_formed s = true -> motorised s = true -> declared s a = true ->
  receives1 s "whisk" a ->
  prot_steps s !! Z.to_nat a = Some prot ->
  ret_steps s !! Z.to_nat a = Some ret ->
  history s a = Some h0 ->
  whisk_completes env h0 prot ret -> whisk_rests env h0 prot ret ->
  exists s1,
    run_command env fuel s = Done s1
    /\ phase s1 a = Some 2
    /\ history s1 a = Some (h0 ++ [MoveTo prot])
    /\ exists n1 n2 : nat,
         (forall k, exists sk,
            cycles env k s1 = Done sk
            /\ phase sk a = Some (whisk_phase n1 n2 k)
            /\ history sk a = Some (whisk_history h0 prot ret n1 k))
         /\ distanceToGo env (whisk_history h0 prot ret n1 n1) = 0
         /\ distanceToGo env (whisk_history h0 prot ret n1 (n1 + 1 + n2)) = 0
         /\ currentPosition env (whisk_history h0 prot ret n1 (n1 + 1 + n2)) = ret.
Proof.
  intros Hwf%well_formed_shaped Hmot%motorised_motors Ha%declared_spec Hline
    Hprot Hret Hh%history_spec Harr Hrest.
  rewrite (run_command_whisk env fuel s a Hline).
  destruct (whisk_course env s a prot ret h0 Hwf Hmot Ha Harr Hprot Hret Hh)
    as (s1 & Hcmd & Hph & Hhi & n1 & n2 & Hall & Hz1 & Hz2 & Hfirst).
  exists s1. split; [ exact Hcmd | ]. split; [ exact Hph | ]. split; [ exact Hhi | ].
  exists n1, n2. split; [ exact Hall | ]. split; [ exact Hz1 | ]. split; [ exact Hz2 | ].
  revert Hz2. unfold whisk_history.
  rewrite (proj2 (Nat.leb_gt _ _)) by lia.
  replace (h0 ++ MoveTo prot :: replicate n1 Run
              ++ MoveTo ret :: replicate (n1 + 1 + n2 - n1) Run)
    with ((h0 ++ MoveTo prot :: replicate n1 Run)
            ++ MoveTo ret :: replicate (n1 + 1 + n2 - n1) Run)
    by (rewrite <- app_assoc; reflexivity).
  apply Hrest. exact Hfirst.
Qed.

(** ** The reference driver *)

Lemma replay_app (h l : list call) :
  Bench.replay (h ++ l) = fold_left Bench.drive l (Bench.replay h).
Proof. unfold Bench.replay. apply fold_left_app. Qed.

Lemma bench_runs (n : nat) :
  forall p t,
    fold_left Bench.drive (replicate n Run) (p, t)
    = (if p <=? t then Z.min t (p + Z.of_nat n) else Z.max t (p - Z.of_nat n), t).
Proof.
  induction n as [|n IH]; intros p t.
  - simpl. destruct (p <=? t) eqn:E; [ apply Z.leb_le in E | apply Z.leb_gt in E ];
      f_equal; lia.
  - change (fold_left Bench.drive (replicate (S n) Run) (p, t))
      with (fold_left Bench.drive (replicate n Run) (p + Z.sgn (t - p), t)).
    rewrite IH.
    destruct (p <=? t) eqn:E; [ apply Z.leb_le in E | apply Z.leb_gt in E ];
      destruct (p + Z.sgn (t - p) <=? t) eqn:E';
      [ apply Z.leb_le in E' | apply Z.leb_gt in E' | apply Z.leb_le in E'
      | apply Z.leb_gt in E' ]; f_equal; lia.
Qed.

Lemma bench_arrives : arrives Bench.env.
Proof.
  intros h. unfold Bench.env, distanceToGo.
  destruct (Bench.replay h) as [p t] eqn:E.
  exists (Z.to_nat (Z.abs (t - p))).
  rewrite replay_app, E, bench_runs. simpl.
  destruct (p <=? t) eqn:E'; [ apply Z.leb_le in E' | apply Z.leb_gt in E' ]; lia.
Qed.

Lemma bench_rests_on_target : rests_on_target Bench.env.
Proof.
  intros h t n. unfold Bench.env, distanceToGo, currentPosition.
  rewrite replay_app. destruct (Bench.replay h) as [p t0].
  change (fold_left Bench.drive (MoveTo t :: replicate n Run) (p, t0))
    with (fold_left Bench.drive (replicate n Run) (p, t)).
  rewrite bench_runs. simpl. lia.
Qed.

Lemma rests_on_target_whisk (env : Env) (h0 : AccelStepper) (prot ret : Z) :
  rests_on_target env -> whisk_rests env h0 prot ret.
Proof. intros Hrest n1 n _. apply Hrest. Qed.

Lemma bench_zeroes : zeroes Bench.env.
Proof.
  intros h p. unfold Bench.env, currentPosition. rewrite replay_app.
  destruct (Bench.replay h) as [p0 t0]. reflexivity.
Qed.

Lemma bench_stops (h : AccelStepper) : stops_within Bench.env h 0.
Proof.
  unfold stops_within, Bench.env, distanceToGo, currentPosition. split.
  - exists 0%nat. split; [ lia | ]. rewrite replay_app.
    destruct (Bench.replay h) as [p t]. simpl. lia.
  - intros j. rewrite replay_app. destruct (Bench.replay h) as [p t].
    change (fold_left Bench.drive (Stop :: replicate j Run) (p, t))
      with (fold_left Bench.drive (replicate j Run) (p, p)).
    rewrite bench_runs. simpl. rewrite Z.leb_refl. simpl. lia.
Qed.

Lemma whisk_cycle_witness :
  well_formed (Scenario.closed "whisk 0") = true
  /\ motorised (Scenario.closed "whisk 0") = true
  /\ declared (Scenario.closed "whisk 0") 0 = true
  /\ receives1 (Scenario.closed "whisk 0") "whisk" 0
  /\ exists s1,
       run_command Bench.env 0 (Scenario.closed "whisk 0") = Done s1
       /\ phase s1 0 = Some 2
       /\ history s1 0 = Some ([SetMaxSpeed 1500; SetAcceleration 500] ++ [MoveTo 133])
       /\ exists n1 n2 : nat,
            (forall k, exists sk,
               cycles Bench.env k s1 = Done sk
               /\ phase sk 0 = Some (whisk_phase n1 n2 k)
               /\ history sk 0
                  = Some (whisk_history [SetMaxSpeed 1500; SetAcceleration 500] 133 22 n1 k))
            /\ distanceToGo Bench.env
                 (whisk_history [SetMaxSpeed 1500; SetAcceleration 500] 133 22 n1 n1) = 0
            /\ distanceToGo Bench.env
                 (whisk_history [SetMaxSpeed 1500; SetAcceleration 500] 133 22 n1
                    (n1 + 1 + n2)) = 0
            /\ currentPosition Bench.env
                 (whisk_history [SetMaxSpeed 1500; SetAcceleration 500] 133 22 n1
                    (n1 + 1 + n2)) = 22.
Proof.
  split; [ reflexivity | split; [ reflexivity | split; [ reflexivity | ] ] ].
  split; [ split; reflexivity | ].
  apply (whisk_cycle Bench.env 0 (Scenario.closed "whisk 0") 0 133 22
           [SetMaxSpeed 1500; SetAcceleration 500]).
  - reflexivity.
  - reflexivity.
  - reflexivity.
  - split; reflexivity.
  - reflexivity.
  - reflexivity.
  - reflexivity.
  - apply arrives_whisk_completes. exact bench_arrives.
  - apply rests_on_target_whisk. exact bench_rests_on_target.
Defined.

(** The scenario of C1 on the wire: after bring-up, the line [whisk 0]
    starts the cycle; with the unit-step driver the axis protracts for 133
    passes, retracts for 111 and is idle at position 22 from then on. *)
Example whisk_0_scenario :
  exists s1 s2 s3 h,
    loop Bench.env 0 (Bench.line "whisk 0") Scenario.two_axes = Done s1
    /\ phase s1 0 = Some 2
    /\ cycles Bench.env 132 s1 = Done s2
    /\ phase s2 0 = Some 2
    /\ cycles Bench.env 112 s2 = Done s3
    /\ phase s3 0 = Some 0
    /\ history s3 0 = Some h
    /\ currentPosition Bench.env h = 22
    /\ List.filter is_move h = [MoveTo 133; MoveTo 22].
Proof.
  do 4 eexists.
  split; [ vm_compute; reflexivity | ].
  split; [ reflexivity | ].
  split; [ vm_compute; reflexivity | ].
  split; [ reflexivity | ].
  split; [ vm_compute; reflexivity | ].
  split; [ reflexivity | ].
  split; [ vm_compute; reflexivity | ].
  split; vm_compute; reflexivity.
Qed.

(** ** halt_whisk *)

Lemma existsb_seq_shift (f : nat -> bool) (k : nat) :
  forall a, existsb f (seq (S a) k) = existsb (fun j => f (S j)) (seq a k).
Proof.
  induction k as [|k IH]; intros a; simpl; [ reflexivity | ]. now rewrite IH.
Qed.

Lemma existsb_pointwise {A} (f g : A -> bool) (l : list A) :
  (forall x, f x = g x) -> existsb f l = existsb g l.
Proof. intros Hfg. induction l as [|x l IH]; simpl; [ reflexivity | ]. now rewrite Hfg, IH. Qed.

(** A retracting axis that is given no move: it runs, and turns idle in
    the first pass that finds the distance to go at zero. *)
Lemma axis_run_retracting (env : Env) (ret : Z) (k : nat) :
  forall h,
    axis_run env ret k (1, h)
    = (if existsb (fun j => distanceToGo env (h ++ replicate j Run) =? 0) (seq 0 k)
       then 0 else 1,
       h ++ replicate k Run).
Proof.
  induction k as [|k IH]; intros h.
  - simpl. now rewrite app_nil_r.
  - change (axis_run env ret (S k) (1, h))
      with (axis_run env ret k (axis_step env ret (1, h))).
    change (seq 0 (S k)) with (0%nat :: seq 1 k).
    cbn [existsb replicate]. rewrite app_nil_r.
    destruct (distanceToGo env h =? 0) eqn:E.
    + apply Z.eqb_eq in E. rewrite axis_step_retracted by exact E.
      rewrite axis_run_idle, replicate_snoc. reflexivity.
    + unfold axis_step. change (truthy 1) with true. cbv iota. rewrite E.
      rewrite IH, replicate_snoc, existsb_seq_shift. cbn [orb].
      rewrite (existsb_pointwise _
                 (fun j => distanceToGo env (h ++ replicate (S j) Run) =? 0));
        [ reflexivity | ].
      intros j. now rewrite replicate_snoc.
Qed.

(** C3.  The line [halt_whisk a] for a declared axis, whatever its phase
    was, every declared axis having its motor: processing the command calls
    [stop] on the axis and sets its phase to 1, touching nothing else.
    From then on the main cycle issues no move at all on the axis: after
    [k] passes the calls that followed the [stop] are [k] [run]s, and the
    phase is 1 until the first pass that finds the distance to go at zero,
    which sets it to 0.  With a driver whose [stop] brings the motor to
    rest within [brake] calls of [run] and [brake] steps, the axis is idle
    after more than [brake] passes, it is never further than [brake] steps
    from where it was halted, and so never at a protraction target that was
    further away than that. *)
Theorem halt_whisk_retracts (env : Env) (fuel : nat) (s : State) (a : Z)
    (h0 : AccelStepper) (brake : nat) :
  well_formed s = true -> motorised s = true -> declared s a = true ->
  receives1 s "halt_whisk" a ->
  history s a = Some h0 ->
  stops_within env h0 brake ->
  exists s1,
    run_command env fuel s = Done s1
    /\ phase s1 a = Some 1
    /\ history s1 a = Some (h0 ++ [Stop])
    /\ moved s s1
    /\ forall k, exists sk,
         cycles env k s1 = Done sk
         /\ history sk a = Some (h0 ++ Stop :: replicate k Run)
         /\ phase sk a = Some (if halted_arrived env h0 k then 0 else 1)
         /\ ((brake < k)%nat -> phase sk a = Some 0)
         /\ Z.abs (currentPosition env (h0 ++ Stop :: replicate k Run)
                   - currentPosition env h0) <= Z.of_nat brake
         /\ forall prot,
              Z.of_nat brake < Z.abs (prot - currentPosition env h0) ->
              currentPosition env (h0 ++ Stop :: replicate k Run) <> prot.
Proof.
  intros Hwf%well_formed_shaped Hmot%motorised_motors Ha%declared_spec Hline
    Hh%history_spec [(n & Hn & Hz) Hnear].
  rewrite (run_command_halt_whisk env fuel s a Hline).
  pose proof Hwf as [Hp Hr Hl Hw Hm Hacc Hnum Hd Hu].
  set (s1 := set_whisking_status (<[Z.to_nat a := 1]> (whisking_status s))
               (set_accel_steppers (<[Z.to_nat a := Some (h0 ++ [Stop])]> (accel_steppers s)) s)).
  assert (Hcmd : cmd_halt_whisk a s = Done s1).
  { unfold cmd_halt_whisk. rewrite (declared_not_all s a) by (lia || now apply declared_spec).
    rewrite (stepper_call_spec _ _ _ h0) by (lia || assumption). run.
    rewrite aset_in by (simpl; lia). reflexivity. }
  assert (Hmv : moved s s1) by (unfold moved, s1; destruct s; reflexivity).
  assert (Hs1 : shaped s1).
  { apply (shaped_moved s); try assumption; simpl; rewrite ?length_insert; try assumption.
    - intros i Hi. destruct (Z.eq_dec i a) as [->|Hne].
      + rewrite list_lookup_insert_eq by lia. eauto.
      + rewrite list_lookup_insert_ne by lia. apply Hd. lia.
    - intros i Hi. rewrite list_lookup_insert_ne by lia. apply Hu. lia. }
  assert (Hm1 : motors s1) by exact Hmot.
  assert (Hph : whisking_status s1 !! Z.to_nat a = Some 1).
  { simpl. apply list_lookup_insert_eq. lia. }
  assert (Hhi : accel_steppers s1 !! Z.to_nat a = Some (Some (h0 ++ [Stop]))).
  { simpl. apply list_lookup_insert_eq. lia. }
  exists s1. split; [ exact Hcmd | ]. split; [ exact Hph | ].
  split; [ now apply history_spec | ]. split; [ exact Hmv | ].
  intros k. destruct (cycles_spec env k s1 Hs1 Hm1) as (sk & Hck & _ & _ & _ & Hax).
  exists sk. split; [ exact Hck | ].
  destruct (lookup_lt_is_Some_2 (ret_steps s) (Z.to_nat a)) as [ret Hret]; [ lia | ].
  destruct (Hax a 1 (h0 ++ [Stop]) ret) as [Hphk Hhk]; try assumption.
  rewrite axis_run_retracting in Hphk, Hhk. simpl fst in Hphk. simpl snd in Hhk.
  assert (Hphase : phase sk a = Some (if halted_arrived env h0 k then 0 else 1)).
  { unfold phase, halted_arrived. rewrite Hphk. f_equal.
    erewrite existsb_pointwise; [ reflexivity | ].
    intros j. cbv beta. now rewrite <- app_assoc. }
  split; [ | split; [ exact Hphase | split; [ | split ] ] ].
  - apply history_spec. rewrite Hhk, <- app_assoc. reflexivity.
  - intros Hk. rewrite Hphase. f_equal.
    assert (Harr : halted_arrived env h0 k = true).
    { unfold halted_arrived. apply existsb_exists. exists n. split.
      - apply in_seq. lia.
      - apply Z.eqb_eq. exact Hz. }
    now rewrite Harr.
  - apply Hnear.
  - intros prot Hfar. specialize (Hnear k). lia.
Qed.

Lemma halt_whisk_retracts_witness :
  well_formed (Scenario.closed "halt_whisk 1") = true
  /\ motorised (Scenario.closed "halt_whisk 1") = true
  /\ declared (Scenario.closed "halt_whisk 1") 1 = true
  /\ receives1 (Scenario.closed "halt_whisk 1") "halt_whisk" 1
  /\ stops_within Bench.env [SetMaxSpeed 1500; SetAcceleration 500] 0
  /\ exists s1,
       run_command Bench.env 0 (Scenario.closed "halt_whisk 1") = Done s1
       /\ phase s1 1 = Some 1
       /\ history s1 1 = Some ([SetMaxSpeed 1500; SetAcceleration 500] ++ [Stop])
       /\ moved (Scenario.closed "halt_whisk 1") s1
       /\ forall k, exists sk,
            cycles Bench.env k s1 = Done sk
            /\ history sk 1
               = Some ([SetMaxSpeed 1500; SetAcceleration 500] ++ Stop :: replicate k Run)
            /\ phase sk 1
               = Some (if halted_arrived Bench.env [SetMaxSpeed 1500; SetAcceleration 500] k
                       then 0 else 1)
            /\ ((0 < k)%nat -> phase sk 1 = Some 0)
            /\ Z.abs (currentPosition Bench.env
                        ([SetMaxSpeed 1500; SetAcceleration 500] ++ Stop :: replicate k Run)
                      - currentPosition Bench.env [SetMaxSpeed 1500; SetAcceleration 500])
               <= Z.of_nat 0
            /\ forall prot,
                 Z.of_nat 0
                 < Z.abs (prot
                          - currentPosition Bench.env [SetMaxSpeed 1500; SetAcceleration 500]) ->
                 currentPosition Bench.env
                   ([SetMaxSpeed 1500; SetAcceleration 500] ++ Stop :: replicate k Run)
                 <> prot.
Proof.
  split; [ reflexivity | split; [ reflexivity | split; [ reflexivity | ] ] ].
  split; [ split; reflexivity | ].
  split; [ apply bench_stops | ].
  apply (halt_whisk_retracts Bench.env 0 (Scenario.closed "halt_whisk 1") 1
           [SetMaxSpeed 1500; SetAcceleration 500] 0).
  - reflexivity.
  - reflexivity.
  - reflexivity.
  - split; reflexivity.
  - reflexivity.
  - apply bench_stops.
Defined.

(** A halt in the middle of a protraction, on the wire: forty passes after
    [whisk 0] the line [halt_whisk 0] arrives; the axis never reaches 133
    and no further move is issued. *)
Example halt_mid_protraction :
  exists s1 s2 s3 s4 h,
    loop Bench.env 0 (Bench.line "whisk 0") Scenario.two_axes = Done s1
    /\ cycles Bench.env 40 s1 = Done s2
    /\ phase s2 0 = Some 2
    /\ loop Bench.env 0 (Bench.line "halt_whisk 0") s2 = Done s3
    /\ cycles Bench.env 5 s3 = Done s4
    /\ phase s4 0 = Some 0
    /\ history s4 0 = Some h
    /\ currentPosition Bench.env h = 41
    /\ List.filter is_move h = [MoveTo 133].
Proof.
  do 5 eexists.
  split; [ vm_compute; reflexivity | ].
  split; [ vm_compute; reflexivity | ].
  split; [ reflexivity | ].
  split; [ vm_compute; reflexivity | ].
  split; [ vm_compute; reflexivity | ].
  split; [ reflexivity | ].
  split; [ vm_compute; reflexivity | ].
  split; vm_compute; reflexivity.
Qed.

(** ** Homing *)

Lemma set_trace_id (s : State) : set_trace (trace s) s = s.
Proof. destruct s; reflexivity. Qed.

Lemma homing_steps_S (a : Z) (dir : direction) (k : nat) :
  homing_steps a dir (S k) = [Onestep a dir SINGLE; Delay 25] ++ homing_steps a dir k.
Proof. reflexivity. Qed.

Section HomingLoop.
Context (env : Env) (a pin left : Z) (m : StepperMotor).
Hypothesis Hpin : limit_pins !! Z.to_nat a = Some pin.
Hypothesis Ha : 0 <= a.

(** One pass of the loop while the switch reads HIGH. *)
Lemma home_stepper_loop_step (fuel : nat) (s : State) :
  is_left s !! Z.to_nat a = Some left ->
  steppers s !! Z.to_nat a = Some (Some m) ->
  digitalRead env pin (trace s) = true ->
  home_stepper_loop env (S fuel) a s
  = home_stepper_loop env fuel a
      (set_trace (trace s ++ [Onestep a (homing_direction left) SINGLE; Delay 25]) s).
Proof.
  intros Hl Hm Hread. cbn [home_stepper_loop].
  rewrite (aget_lookup "limit_pins" _ _ pin) by assumption. run. rewrite Hread.
  rewrite (aget_lookup "is_left" _ _ left) by assumption. run.
  rewrite (deref_lookup "steppers" _ _ m) by assumption. run.
  unfold homing_direction. f_equal.
  destruct (truthy left); unfold emit; simpl; rewrite <- app_assoc; reflexivity.
Qed.

Lemma home_stepper_loop_stop (fuel : nat) (s : State) :
  digitalRead env pin (trace s) = false ->
  home_stepper_loop env (S fuel) a s = Done s.
Proof.
  intros Hread. cbn [home_stepper_loop].
  rewrite (aget_lookup "limit_pins" _ _ pin) by assumption. run. now rewrite Hread.
Qed.

(** The switch opens after [k] steps: with more fuel than [k] the loop
    leaves, having issued [k] steps. *)
Lemma home_stepper_loop_done (k : nat) :
  forall (s : State) (fuel : nat),
    is_left s !! Z.to_nat a = Some left ->
    steppers s !! Z.to_nat a = Some (Some m) ->
    (forall j, (j < k)%nat -> digitalRead env pin (trace s ++ homing_steps a (homing_direction left) j) = true) ->
    digitalRead env pin (trace s ++ homing_steps a (homing_direction left) k) = false ->
    (k < fuel)%nat ->
    home_stepper_loop env fuel a s
    = Done (set_trace (trace s ++ homing_steps a (homing_direction left) k) s).
Proof.
  induction k as [|k IH]; intros s fuel Hl Hm Hhigh Hlow Hfuel;
    (destruct fuel as [|fuel]; [ lia | ]).
  - simpl in Hlow. rewrite app_nil_r in Hlow.
    rewrite home_stepper_loop_stop by assumption.
    simpl. now rewrite app_nil_r, set_trace_id.
  - rewrite home_stepper_loop_step; try assumption.
    + rewrite IH; try assumption; try lia.
      * simpl. rewrite <- app_assoc. reflexivity.
      * intros j Hj. simpl. rewrite <- app_assoc. apply (Hhigh (S j)). lia.
      * simpl. rewrite <- app_assoc. exact Hlow.
    + specialize (Hhigh 0%nat). simpl in Hhigh. rewrite app_nil_r in Hhigh.
      apply Hhigh. lia.
Qed.

(** The switch stays closed for [fuel] steps: the loop is still running. *)
Lemma home_stepper_loop_blocked (fuel : nat) :
  forall (s : State),
    is_left s !! Z.to_nat a = Some left ->
    steppers s !! Z.to_nat a = Some (Some m) ->
    (forall j, (j < fuel)%nat ->
       digitalRead env pin (trace s ++ homing_steps a (homing_direction left) j) = true) ->
    home_stepper_loop env fuel a s = Blocked.
Proof.
  induction fuel as [|fuel IH]; intros s Hl Hm Hhigh; [ reflexivity | ].
  rewrite home_stepper_loop_step; try assumption.
  - apply IH; try assumption.
    intros j Hj. simpl. rewrite <- app_assoc. apply (Hhigh (S j)). lia.
  - specialize (Hhigh 0%nat). simpl in Hhigh. rewrite app_nil_r in Hhigh.
    apply Hhigh. lia.
Qed.

(** When the loop leaves, the switch has opened after some [k] steps. *)
Lemma home_stepper_loop_inv (fuel : nat) :
  forall (s s' : State),
    is_left s !! Z.to_nat a = Some left ->
    steppers s !! Z.to_nat a = Some (Some m) ->
    home_stepper_loop env fuel a s = Done s' ->
    exists k,
      (k < fuel)%nat
      /\ (forall j, (j < k)%nat ->
            digitalRead env pin (trace s ++ homing_steps a (homing_direction left) j) = true)
      /\ digitalRead env pin (trace s ++ homing_steps a (homing_direction left) k) = false
      /\ s' = set_trace (trace s ++ homing_steps a (homing_direction left) k) s.
Proof.
  induction fuel as [|fuel IH]; intros s s' Hl Hm Hrun; [ discriminate | ].
  destruct (digitalRead env pin (trace s)) eqn:Hread.
  - rewrite home_stepper_loop_step in Hrun by assumption.
    apply IH in Hrun as (k & Hk & Hhigh & Hlow & ->); try assumption.
    exists (S k). split; [ lia | ]. simpl in *. rewrite <- app_assoc in Hlow.
    split; [ | split; [ exact Hlow | rewrite <- app_assoc; reflexivity ] ].
    intros [|j] Hj.
    + simpl. now rewrite app_nil_r.
    + specialize (Hhigh j). rewrite <- app_assoc in Hhigh. apply Hhigh. lia.
  - rewrite home_stepper_loop_stop in Hrun by assumption. injection Hrun as <-.
    exists 0%nat. split; [ lia | ]. simpl. rewrite app_nil_r.
    split; [ intros j Hj; lia | ]. split; [ assumption | ]. now rewrite set_trace_id.
Qed.
End HomingLoop.

(** C7.  Homing a declared axis [a] that has a motor, with orientation
    flag [left] and limit switch on [pin].  Each pass of the loop issues one
    [onestep] of style SINGLE in the direction the flag selects (FORWARD
    when it is non-zero, BACKWARD otherwise) and a delay of 25 ms.  The
    routine returns exactly when the switch reads LOW after some finite
    number [k] of such passes; it has then issued [k] steps, all in that
    direction, and its last act is [setCurrentPosition(0)], which leaves the
    position at 0.  When the switch reads HIGH after every number of
    passes, the routine has not returned after any number of passes. *)
Theorem homing_returns_iff_triggered
  (env : Env) (s : State) (a pin left : Z) (m : StepperMotor) (h0 : AccelStepper) :
  well_formed s = true -> declared s a = true ->
  limit_pins !! Z.to_nat a = Some pin ->
  is_left s !! Z.to_nat a = Some left ->
  steppers s !! Z.to_nat a = Some (Some m) ->
  history s a = Some h0 ->
  zeroes env ->
  let after k := trace s ++ homing_steps a (homing_direction left) k in
  ((exists fuel s', home_stepper env fuel a s = Done s')
     <-> (exists k, digitalRead env pin (after k) = false))
  /\ (forall fuel s', home_stepper env fuel a s = Done s' ->
        exists k,
          (k < fuel)%nat
          /\ (forall j, (j < k)%nat -> digitalRead env pin (after j) = true)
          /\ digitalRead env pin (after k) = false
          /\ s' = set_accel_steppers
                    (<[Z.to_nat a := Some (h0 ++ [SetCurrentPosition 0])]> (accel_steppers s))
                    (set_trace (after k) s)
          /\ history s' a = Some (h0 ++ [SetCurrentPosition 0])
          /\ currentPosition env (h0 ++ [SetCurrentPosition 0]) = 0)
  /\ ((forall k, digitalRead env pin (after k) = true) ->
        forall fuel, home_stepper env fuel a s = Blocked).
Proof.
  intros Hwf%well_formed_shaped Ha%declared_spec Hpin Hl Hm Hh%history_spec Hz after.
  pose proof Hwf as [_ _ _ _ _ Hacc Hn _ _].
  assert (Ha0 : 0 <= a) by lia.
  assert (Hcall : forall k,
            stepper_call a (SetCurrentPosition 0) (set_trace (after k) s)
            = Done (set_accel_steppers
                      (<[Z.to_nat a := Some (h0 ++ [SetCurrentPosition 0])]> (accel_steppers s))
                      (set_trace (after k) s))).
  { intros k. now rewrite (stepper_call_spec _ _ _ h0) by assumption. }
  assert (Hinv : forall fuel s', home_stepper env fuel a s = Done s' ->
            exists k,
              (k < fuel)%nat
              /\ (forall j, (j < k)%nat -> digitalRead env pin (after j) = true)
              /\ digitalRead env pin (after k) = false
              /\ s' = set_accel_steppers
                        (<[Z.to_nat a := Some (h0 ++ [SetCurrentPosition 0])]>
                           (accel_steppers s))
                        (set_trace (after k) s)
              /\ history s' a = Some (h0 ++ [SetCurrentPosition 0])
              /\ currentPosition env (h0 ++ [SetCurrentPosition 0]) = 0).
  { intros fuel s' Hrun. unfold home_stepper in Hrun.
    apply bind_inv_Done in Hrun as (s1 & Hloop & Hcall1).
    apply (home_stepper_loop_inv env a pin left m Hpin Ha0) in Hloop
      as (k & Hk & Hhigh & Hlow & ->); try assumption.
    fold (after k) in Hcall1. rewrite Hcall in Hcall1. injection Hcall1 as <-.
    exists k. repeat (split; [ assumption || reflexivity | ]).
    split; [ | apply Hz ].
    apply history_spec. simpl. apply list_lookup_insert_eq. lia. }
  split; [ split | split; [ exact Hinv | ] ].
  - intros (fuel & s' & Hrun). destruct (Hinv fuel s' Hrun) as (k & _ & _ & Hlow & _).
    exists k. exact Hlow.
  - intros Hex.
    apply (first_such (fun k => digitalRead env pin (after k) = false)) in Hex
      as (k & Hlow & Hhigh); [ | intros k; apply bool_dec ].
    exists (S k). eexists. unfold home_stepper.
    rewrite (home_stepper_loop_done env a pin left m Hpin Ha0 k); try assumption; try lia.
    + run. apply Hcall.
    + intros j Hj. apply not_false_iff_true. apply Hhigh. exact Hj.
  - intros Hhigh fuel. unfold home_stepper.
    rewrite (home_stepper_loop_blocked env a pin left m Hpin Ha0); try assumption.
    + reflexivity.
    + intros j _. apply Hhigh.
Qed.

Lemma homing_returns_iff_triggered_witness :
  well_formed Scenario.two_axes = true
  /\ declared Scenario.two_axes 0 = true
  /\ digitalRead Bench.env 22 (trace Scenario.two_axes ++ homing_steps 0 BACKWARD 3) = false
  /\ exists fuel s', home_stepper Bench.env fuel 0 Scenario.two_axes = Done s'.
Proof.
  split; [ reflexivity | split; [ reflexivity | split; [ reflexivity | ] ] ].
  destruct (homing_returns_iff_triggered Bench.env Scenario.two_axes 0 22 0
              {| shield := 0; port := 1 |} [SetMaxSpeed 1500; SetAcceleration 500])
    as ([_ Hreturns] & _ & _); try reflexivity.
  - exact bench_zeroes.
  - apply Hreturns. exists 3%nat. reflexivity.
Defined.

(** Homing both axes on the wire: the switch of the reference environment
    opens after three steps. *)
Example home_all_scenario :
  exists s',
    loop Bench.env 4 (Bench.line "home_stepper 999") Scenario.two_axes = Done s'
    /\ trace s' = trace Scenario.two_axes ++ homing_steps 0 BACKWARD 3
    /\ (forall fuel, (fuel < 4)%nat ->
          loop Bench.env fuel (Bench.line "home_stepper 999") Scenario.two_axes = Blocked).
Proof.
  eexists. split; [ vm_compute; reflexivity | split; [ reflexivity | ] ].
  intros fuel Hfuel.
  destruct fuel as [|[|[|[|fuel]]]]; [ reflexivity | reflexivity | reflexivity | reflexivity | lia ].
Qed.

(** ** Sampling *)

Lemma to_int_small (z : Z) : INT_MIN <= z <= INT_MAX -> to_int z = z.
Proof.
  unfold INT_MIN, INT_MAX, to_int, wrap_signed. intros Hz.
  change (2 ^ (16 - 1)) with 32768. change (2 ^ 16) with 65536.
  rewrite Z.mod_small by lia. lia.
Qed.

Lemma sampled_refl (s : State) : sampled s s.
Proof. unfold sampled. destruct s; reflexivity. Qed.

Lemma sampled_fields (s s' : State) :
  sampled s s' ->
  whisker_col_id s' = whisker_col_id s /\ whisking_status s' = whisking_status s
  /\ accel_steppers s' = accel_steppers s /\ num_whiskers s' = num_whiskers s
  /\ length (output_buffer s') = length (output_buffer s') /\ sampling s' = sampling s.
Proof.
  unfold sampled. intros H. repeat split.
  - now apply (f_equal whisker_col_id) in H.
  - now apply (f_equal whisking_status) in H.
  - now apply (f_equal accel_steppers) in H.
  - now apply (f_equal num_whiskers) in H.
  - now apply (f_equal sampling) in H.
Qed.

Lemma sampled_emit (s t : State) (e : event) : sampled s t -> sampled s (emit e t).
Proof. unfold sampled. destruct t. exact id. Qed.

Lemma sampled_set_buff_idx (s t : State) (v : Z) :
  sampled s t -> sampled s (set_buff_idx v t).
Proof. unfold sampled. destruct t. exact id. Qed.

Lemma sampled_set_output_buffer (s t : State) (v : list Z) :
  sampled s t -> sampled s (set_output_buffer v t).
Proof. unfold sampled. destruct t. exact id. Qed.

Lemma sampled_set_stepper_id (s t : State) (v : Z) :
  sampled s t -> sampled s (set_stepper_id v t).
Proof. unfold sampled. destruct t. exact id. Qed.

Lemma sampled_trans_fields (s t : State) :
  sampled s t ->
  whisker_col_id t = whisker_col_id s /\ whisking_status t = whisking_status s
  /\ accel_steppers t = accel_steppers s.
Proof. intros H. destruct (sampled_fields _ _ H) as (H1 & H2 & H3 & _). auto. Qed.

(** One field stored in [output_buffer]. *)
Lemma push_field_step (s t1 : State) (tr : list event) (k : Z) (ob : list Z) (v : Z) :
  sampled s t1 -> trace t1 = tr -> buff_idx t1 = k -> output_buffer t1 = ob ->
  0 <= k < Z.of_nat (length ob) -> k < INT_MAX ->
  exists t2,
    push_field v t1 = Done t2 /\ sampled s t2 /\ trace t2 = tr
    /\ buff_idx t2 = k + 1 /\ output_buffer t2 = <[Z.to_nat k := v]> ob
    /\ stepper_id t2 = stepper_id t1.
Proof.
  intros Hs Htr Hk Hob Hin Hmax. unfold push_field. rewrite Hk, Hob.
  rewrite aset_in by assumption. run.
  rewrite to_int_small by (unfold INT_MIN, INT_MAX in *; lia).
  eexists. split; [ reflexivity | ].
  split; [ now apply sampled_set_buff_idx, sampled_set_output_buffer | ].
  split; [ exact Htr | ]. repeat split; reflexivity.
Qed.

Lemma print_field_spec (j v : Z) (t : State) :
  0 <= j -> output_buffer t !! Z.to_nat j = Some v ->
  print_field j t = Done (emit (SerialPrintChar " ") (emit (SerialPrint v) t)).
Proof.
  intros Hj Hv. unfold print_field.
  now rewrite (aget_lookup "output_buffer" _ _ v) by assumption.
Qed.

Lemma print_fields (s : State) (ob : list Z) (n : nat) :
  forall (j : Z) (t1 : State),
    sampled s t1 -> output_buffer t1 = ob ->
    0 <= j -> j + Z.of_nat n <= Z.of_nat (length ob) ->
    exists t2,
      for_range j n print_field t1 = Done t2 /\ sampled s t2
      /\ output_buffer t2 = ob
      /\ buff_idx t2 = buff_idx t1
      /\ trace t2 = trace t1 ++ printed ob j n.
Proof.
  induction n as [|n IH]; intros j t1 Hs Hob Hj Hlen.
  - exists t1. unfold printed. simpl. rewrite app_nil_r. auto.
  - destruct (lookup_lt_is_Some_2 ob (Z.to_nat j)) as [v Hv]; [ lia | ].
    cbn [for_range]. rewrite (print_field_spec j v) by (rewrite ?Hob; assumption). run.
    destruct (IH (j + 1) (emit (SerialPrintChar " ") (emit (SerialPrint v) t1)))
      as (t2 & Hrun & Hs2 & Hob2 & Hbi2 & Htr2).
    + now apply sampled_emit, sampled_emit.
    + exact Hob.
    + lia.
    + lia.
    + exists t2. split; [ exact Hrun | ]. split; [ exact Hs2 | ].
      split; [ exact Hob2 | ]. split; [ exact Hbi2 | ].
      rewrite Htr2. unfold printed, emit. simpl trace.
      rewrite <- !app_assoc. f_equal.
      rewrite (drop_S ob v (Z.to_nat j)) by exact Hv.
      replace (Z.to_nat (j + 1)) with (S (Z.to_nat j)) by lia.
      reflexivity.
Qed.

(** One channel: its sample is printed, nothing but the trace and the
    scratch globals changes. *)
Lemma sample_channel_spec (env : Env) (s t : State) (i : Z) (r : sample) :
  sampled s t -> length (output_buffer t) = 7%nat ->
  0 <= i ->
  sample_of env s (trace t) i = Some r ->
  exists t',
    sample_channel env i t = Done t' /\ sampled s t'
    /\ length (output_buffer t') = 7%nat
    /\ trace t' = trace t ++ print_sample r.
Proof.
  intros Hst Hlen Hi Hr.
  unfold sample_of in Hr.
  destruct (whisker_col_id s !! Z.to_nat i) as [col|] eqn:Hcol; [ | discriminate ].
  destruct (analogPins !! Z.to_nat i) as [pin|] eqn:Hpin; [ | discriminate ].
  destruct (whisking_status s !! Z.to_nat col) as [status|] eqn:Hstatus; [ | discriminate ].
  destruct (history s col) as [h|] eqn:Hh; [ | discriminate ].
  destruct (0 <=? col) eqn:Hc0; [ | discriminate ].
  apply Z.leb_le in Hc0. injection Hr as <-.
  apply history_spec in Hh.
  destruct (output_buffer t) as [|o0 [|o1 [|o2 [|o3 [|o4 [|o5 [|o6 [|]]]]]]]] eqn:Hob;
    try discriminate.
  unfold sample_channel. cbv zeta.
  change (trace (set_buff_idx 0 t)) with (trace t).
  assert (Hs0 : sampled s (set_buff_idx 0 t)) by now apply sampled_set_buff_idx.
  assert (Ht0 : trace (set_buff_idx 0 t) = trace t) by reflexivity.
  assert (Hk0 : buff_idx (set_buff_idx 0 t) = 0) by reflexivity.
  assert (Hb0 : output_buffer (set_buff_idx 0 t) = [o0; o1; o2; o3; o4; o5; o6]) by exact Hob.
  revert Hs0 Ht0 Hk0 Hb0. generalize (set_buff_idx 0 t). intros t0 Hs0 Ht0 Hk0 Hb0.
  destruct (push_field_step s t0 _ _ _ (to_long (millis env (trace t))) Hs0 Ht0 Hk0 Hb0)
    as (t1 & E1 & Hs1 & Ht1 & Hk1 & Hb1 & _); [ simpl; lia | unfold INT_MAX; lia | ].
  rewrite E1. run. simpl in Hk1, Hb1.
  destruct (push_field_step s t1 _ _ _ i Hs1 Ht1 Hk1 Hb1)
    as (t2 & E2 & Hs2 & Ht2 & Hk2 & Hb2 & _); [ simpl; lia | unfold INT_MAX; lia | ].
  rewrite E2. run. simpl in Hk2, Hb2.
  destruct (sampled_trans_fields _ _ Hs2) as (Ec & _ & _). rewrite Ec.
  rewrite (aget_lookup "whisker_col_id" _ _ col) by assumption. run. cbv zeta.
  change (stepper_id (set_stepper_id col t2)) with col.
  assert (Hs2' : sampled s (set_stepper_id col t2)) by now apply sampled_set_stepper_id.
  assert (Ht2' : trace (set_stepper_id col t2) = trace t) by exact Ht2.
  assert (Hk2' : buff_idx (set_stepper_id col t2) = 2) by exact Hk2.
  assert (Hb2' : output_buffer (set_stepper_id col t2)
                 = [to_long (millis env (trace t)); i; o2; o3; o4; o5; o6]) by exact Hb2.
  assert (Hid2 : stepper_id (set_stepper_id col t2) = col) by reflexivity.
  revert Hs2' Ht2' Hk2' Hb2' Hid2. generalize (set_stepper_id col t2).
  clear t0 Hs0 Ht0 Hk0 Hb0 t1 E1 Hs1 Ht1 Hk1 Hb1 t2 E2 Hs2 Ht2 Hk2 Hb2 Ec.
  intros t2 Hs2 Ht2 Hk2 Hb2 Hid2.
  destruct (push_field_step s t2 _ _ _ col Hs2 Ht2 Hk2 Hb2)
    as (t3 & E3 & Hs3 & Ht3 & Hk3 & Hb3 & Hid3); [ simpl; lia | unfold INT_MAX; lia | ].
  rewrite E3. run. simpl in Hk3, Hb3.
  destruct (sampled_trans_fields _ _ Hs3) as (_ & Ew & Ea).
  rewrite Hid2 in Hid3.
  rewrite Hid3, Ew.
  rewrite (aget_lookup "whisking_status" _ _ status) by assumption. run.
  destruct (push_field_step s t3 _ _ _ status Hs3 Ht3 Hk3 Hb3)
    as (t4 & E4 & Hs4 & Ht4 & Hk4 & Hb4 & Hid4); [ simpl; lia | unfold INT_MAX; lia | ].
  rewrite E4. run. simpl in Hk4, Hb4. rewrite Hid3 in Hid4.
  destruct (sampled_trans_fields _ _ Hs4) as (_ & _ & Ea4).
  rewrite Hid4, Ea4.
  rewrite (deref_lookup "accel_steppers" _ _ h) by assumption. run.
  destruct (push_field_step s t4 _ _ _ (currentPosition env h) Hs4 Ht4 Hk4 Hb4)
    as (t5 & E5 & Hs5 & Ht5 & Hk5 & Hb5 & _); [ simpl; lia | unfold INT_MAX; lia | ].
  rewrite E5. run. simpl in Hk5, Hb5.
  rewrite (aget_lookup "analogPins" _ _ pin) by assumption. run. rewrite Ht5.
  destruct (push_field_step s t5 _ _ _ (analogRead env pin (trace t)) Hs5 Ht5 Hk5 Hb5)
    as (t6 & E6 & Hs6 & Ht6 & Hk6 & Hb6 & _); [ simpl; lia | unfold INT_MAX; lia | ].
  rewrite E6. run. simpl in Hk6, Hb6.
  rewrite Hk6. unfold for_upto.
  match goal with |- context [Z.to_nat ?z] => change (Z.to_nat z) with 6%nat end.
  destruct (print_fields s _ 6 0 t6 Hs6 Hb6) as (t7 & E7 & Hs7 & Hb7 & _ & Ht7);
    [ lia | simpl; lia | ].
  rewrite E7. run. eexists. split; [ reflexivity | ].
  split; [ now apply sampled_emit | ].
  split; [ change (length (output_buffer t7) = 7%nat); now rewrite Hb7 | ].
  unfold emit. simpl trace. rewrite Ht7, Ht6. unfold printed, print_sample. simpl.
  rewrite <- app_assoc. reflexivity.
Qed.

Lemma sampling_ready_spec (s : State) :
  sampling_ready s = true ->
  length (whisker_col_id s) = 16%nat /\ length (output_buffer s) = 7%nat
  /\ 0 <= num_whiskers s <= 16
  /\ forall i, 0 <= i < num_whiskers s ->
       exists col status h pin,
         whisker_col_id s !! Z.to_nat i = Some col /\ 0 <= col
         /\ whisking_status s !! Z.to_nat col = Some status
         /\ history s col = Some h
         /\ analogPins !! Z.to_nat i = Some pin.
Proof.
  unfold sampling_ready, MAX_WHISKERS.
  rewrite !andb_true_iff, !Nat.eqb_eq, !Z.leb_le, forallb_forall.
  intros ((((Hc & Ho) & Hn0) & Hn1) & Hall).
  split; [ exact Hc | ]. split; [ exact Ho | ]. split; [ lia | ].
  intros i Hi. specialize (Hall i (proj2 (slots_spec i) ltac:(lia))).
  rewrite (proj2 (Z.ltb_lt _ _)) in Hall by lia.
  destruct (whisker_col_id s !! Z.to_nat i) as [col|]; [ | discriminate ].
  apply andb_true_iff in Hall as [Hall Halloc].
  apply andb_true_iff in Hall as [Hc0 Hin]. apply Z.leb_le in Hc0.
  apply in_bounds_spec in Hin.
  destruct (lookup_lt_is_Some_2 (whisking_status s) (Z.to_nat col)) as [status Hst]; [ lia | ].
  destruct (lookup_lt_is_Some_2 analogPins (Z.to_nat i)) as [pin Hpin]; [ simpl; lia | ].
  unfold is_allocated in Halloc.
  destruct (accel_steppers s !! Z.to_nat col) as [[h|]|] eqn:Hh; try discriminate.
  exists col, status, h, pin. repeat split; auto. now apply history_spec.
Qed.

Lemma sample_of_ready (env : Env) (s : State) (tr : list event) (i : Z) :
  sampling_ready s = true -> 0 <= i < num_whiskers s ->
  exists r, sample_of env s tr i = Some r.
Proof.
  intros Hr Hi. destruct (sampling_ready_spec s Hr) as (_ & _ & _ & Hall).
  destruct (Hall i Hi) as (col & status & h & pin & Hcol & Hc0 & Hst & Hh & Hpin).
  unfold sample_of. rewrite Hcol, Hpin, Hst, Hh, (proj2 (Z.leb_le _ _) Hc0). eauto.
Qed.

(** What each sample of a frame holds. *)
Lemma frame_lookup (env : Env) (s : State) (n : nat) :
  forall (tr : list event) (i : Z) (k : nat) (r : sample),
    frame env s tr i n !! k = Some r ->
    s_whisker r = i + Z.of_nat k
    /\ whisker_col_id s !! Z.to_nat (s_whisker r) = Some (s_stepper r)
    /\ whisking_status s !! Z.to_nat (s_stepper r) = Some (s_status r)
    /\ (exists h, history s (s_stepper r) = Some h /\ s_steps r = currentPosition env h)
    /\ exists evs pin,
         analogPins !! Z.to_nat (s_whisker r) = Some pin
         /\ s_timestamp r = to_long (millis env (tr ++ evs))
         /\ s_sensor r = analogRead env pin (tr ++ evs).
Proof.
  induction n as [|n IH]; intros tr i k r Hk; [ discriminate | ].
  cbn [frame] in Hk. destruct (sample_of env s tr i) as [r0|] eqn:Hr0; [ | discriminate ].
  destruct k as [|k].
  - injection Hk as ->. unfold sample_of in Hr0.
    destruct (whisker_col_id s !! Z.to_nat i) as [col|] eqn:Hcol; [ | discriminate ].
    destruct (analogPins !! Z.to_nat i) as [pin|] eqn:Hpin; [ | discriminate ].
    destruct (whisking_status s !! Z.to_nat col) as [status|] eqn:Hst; [ | discriminate ].
    destruct (history s col) as [h|] eqn:Hh; [ | discriminate ].
    destruct (0 <=? col); [ | discriminate ]. injection Hr0 as <-. simpl.
    rewrite Z.add_0_r. repeat split; try assumption.
    + exists h. auto.
    + exists [], pin. rewrite app_nil_r. auto.
  - apply IH in Hk as (Hw & Hc & Hst & Hh & evs & pin & Hpin & Ht & Hsens).
    split; [ lia | ]. repeat split; try assumption.
    exists (print_sample r0 ++ evs), pin. rewrite app_assoc. auto.
Qed.

(** The loop of [timerIsr] from channel [i] on. *)
Lemma sample_channels (env : Env) (s : State) (n : nat) :
  sampling_ready s = true ->
  forall (i : Z) (t : State),
    sampled s t -> length (output_buffer t) = 7%nat ->
    0 <= i -> i + Z.of_nat n <= num_whiskers s ->
    exists t',
      for_range i n (sample_channel env) t = Done t' /\ sampled s t'
      /\ trace t' = trace t ++ concat (map print_sample (frame env s (trace t) i n))
      /\ length (frame env s (trace t) i n) = n.
Proof.
  intros Hready. induction n as [|n IH]; intros i t Hs Hlen Hi Hn.
  - exists t. simpl. rewrite app_nil_r. auto.
  - destruct (sample_of_ready env s (trace t) i Hready) as [r Hr]; [ lia | ].
    destruct (sample_channel_spec env s t i r Hs Hlen Hi Hr) as (t1 & E1 & Hs1 & Hl1 & Ht1).
    destruct (IH (i + 1) t1 Hs1 Hl1) as (t' & E' & Hs' & Ht' & Hfl); [ lia | lia | ].
    rewrite Ht1 in Ht', Hfl.
    exists t'. cbn [for_range frame]. rewrite E1, Hr. run.
    split; [ exact E' | ]. split; [ exact Hs' | ].
    cbn [map concat length]. rewrite Hfl, Ht', <- app_assoc. auto.
Qed.

(** C4.  One firing of the sampling interrupt, in a state whose channels
    are bound to axes that exist.  With the sampling flag at 0 the handler
    returns the state as it was: nothing is written, nothing changes.  With
    the flag non-zero it writes one line per sensor channel, [num_whiskers]
    lines in channel order, each line being six numbers, every one followed
    by a space, then the end of line: the time stamp read from [millis],
    the channel, the axis bound to the channel, the phase of that axis, the
    position of its driver, the reading of the channel's analog pin.
    Besides the trace only the scratch globals of the handler change.  If
    the clock stands still while the handler runs, every line carries the
    time stamp [millis] had when the handler started. *)
Theorem sampling_tick (env : Env) (s : State) :
  sampling_ready s = true ->
  (sampling s = 0 -> timerIsr env s = Done s)
  /\ (sampling s <> 0 ->
        exists s' samples,
          timerIsr env s = Done s'
          /\ sampled s s'
          /\ trace s' = trace s ++ concat (map print_sample samples)
          /\ samples = frame env s (trace s) 0 (Z.to_nat (num_whiskers s))
          /\ Z.of_nat (length samples) = num_whiskers s
          /\ (forall k r, samples !! k = Some r ->
                s_whisker r = Z.of_nat k
                /\ whisker_col_id s !! k = Some (s_stepper r)
                /\ whisking_status s !! Z.to_nat (s_stepper r) = Some (s_status r)
                /\ (exists h, history s (s_stepper r) = Some h
                              /\ s_steps r = currentPosition env h)
                /\ (exists evs pin,
                      analogPins !! k = Some pin
                      /\ s_timestamp r = to_long (millis env (trace s ++ evs))
                      /\ s_sensor r = analogRead env pin (trace s ++ evs)))
          /\ (frozen env (trace s) ->
                forall k r, samples !! k = Some r ->
                  s_timestamp r = to_long (millis env (trace s)))).
Proof.
  intros Hready. unfold timerIsr, truthy. split.
  - intros ->. reflexivity.
  - intros Hon. rewrite (proj2 (Z.eqb_neq _ _) Hon). cbn [negb].
    destruct (sampling_ready_spec s Hready) as (_ & Hob & Hn & _).
    destruct (sample_channels env s (Z.to_nat (num_whiskers s)) Hready 0 s)
      as (s' & Hrun & Hs' & Htr & Hlen); [ apply sampled_refl | exact Hob | lia | lia | ].
    exists s', (frame env s (trace s) 0 (Z.to_nat (num_whiskers s))).
    split; [ exact Hrun | ]. split; [ exact Hs' | ]. split; [ exact Htr | ].
    split; [ reflexivity | ]. split; [ rewrite Hlen; lia | ]. split.
    + intros k r Hk.
      destruct (frame_lookup env s _ _ _ _ _ Hk)
        as (Hw & Hc & Hst & Hh & evs & pin & Hpin & Ht & Hsens).
      rewrite Z.add_0_l in Hw. rewrite Hw, Nat2Z.id in Hc, Hpin.
      split; [ exact Hw | ]. split; [ exact Hc | ]. split; [ exact Hst | ].
      split; [ exact Hh | ]. exists evs, pin. auto.
    + intros Hfrozen k r Hk.
      destruct (frame_lookup env s _ _ _ _ _ Hk) as (_ & _ & _ & _ & evs & _ & _ & Ht & _).
      rewrite Ht. f_equal. apply Hfrozen.
Qed.

Lemma sampling_tick_witness :
  sampling_ready (set_sampling 1 Scenario.two_axes) = true
  /\ exists s' samples,
       timerIsr Bench.env (set_sampling 1 Scenario.two_axes) = Done s'
       /\ Z.of_nat (length samples) = 4
       /\ trace s' = trace Scenario.two_axes ++ concat (map print_sample samples).
Proof.
  split; [ reflexivity | ].
  destruct (sampling_tick Bench.env (set_sampling 1 Scenario.two_axes)) as [_ Hon];
    [ reflexivity | ].
  destruct Hon as (s' & samples & Hrun & _ & Htr & _ & Hlen & _); [ discriminate | ].
  exists s', samples. auto.
Defined.

(** One tick on the wire, after bring-up with two axes of two whiskers and
    [set_sampling 1]: four lines.  The channels 0 and 1 carry axis 1 and
    the channels 2 and 3 axis 0, as bring-up bound them. *)
Example sampling_scenario :
  exists s1 s2,
    drain (loop_char Bench.env 0) (Bench.line "set_sampling 1") Scenario.two_axes = Done s1
    /\ timerIsr Bench.env s1 = Done s2
    /\ trace s2
       = trace s1
         ++ concat (map print_sample
              [ {| s_timestamp := 1000; s_whisker := 0; s_stepper := 1; s_status := 0;
                   s_steps := 0; s_sensor := 554 |};
                {| s_timestamp := 1000; s_whisker := 1; s_stepper := 1; s_status := 0;
                   s_steps := 0; s_sensor := 555 |};
                {| s_timestamp := 1000; s_whisker := 2; s_stepper := 0; s_status := 0;
                   s_steps := 0; s_sensor := 556 |};
                {| s_timestamp := 1000; s_whisker := 3; s_stepper := 0; s_status := 0;
                   s_steps := 0; s_sensor := 557 |} ]).
Proof.
  do 2 eexists. split; [ vm_compute; reflexivity | ].
  split; [ vm_compute; reflexivity | ]. reflexivity.
Qed.

(** ** The broadcast sentinel *)

Lemma for_upto_ext {T} (f g : Z -> T -> outcome T) (n : Z) (s : T) :
  (forall j t, 0 <= j < n -> f j t = g j t) -> for_upto n f s = for_upto n g s.
Proof. intros Hfg. unfold for_upto. apply for_range_ext. intros j t Hj. apply Hfg. lia. Qed.

Lemma not_all (n j : Z) : n <= MAX_STEPPERS -> 0 <= j < n -> (j =? ALL_FLAG) = false.
Proof. unfold MAX_STEPPERS, ALL_FLAG. intros Hn Hj. apply Z.eqb_neq. lia. Qed.

(** For each per-axis command the sentinel does what the command does on
    the axes 0, 1, ... in turn. *)
Lemma broadcast_unfolds (env : Env) (fuel : nat) (c : axis_command) (v : Z) (s : State) :
  num_steppers s <= MAX_STEPPERS ->
  axis_effect env fuel c ALL_FLAG v s
  = for_upto (num_steppers s) (fun i t => axis_effect env fuel c i v t) s.
Proof.
  intros Hn. destruct c; cbn [axis_effect].
  - unfold cmd_set_prot at 1. destruct ((v <? MAX_STEPS) && (1 <? v)) eqn:Hg.
    + change (ALL_FLAG =? ALL_FLAG) with true. cbv iota. apply for_upto_ext.
      intros j t Hj. unfold cmd_set_prot. now rewrite Hg, (not_all (num_steppers s)).
    + rewrite (for_upto_ext _ (fun _ t => Done t)).
      * unfold for_upto. now rewrite for_range_skip.
      * intros j t Hj. unfold cmd_set_prot. now rewrite Hg.
  - unfold cmd_set_ret at 1. destruct ((v <? MAX_STEPS) && (1 <? v)) eqn:Hg.
    + change (ALL_FLAG =? ALL_FLAG) with true. cbv iota. apply for_upto_ext.
      intros j t Hj. unfold cmd_set_ret. now rewrite Hg, (not_all (num_steppers s)).
    + rewrite (for_upto_ext _ (fun _ t => Done t)).
      * unfold for_upto. now rewrite for_range_skip.
      * intros j t Hj. unfold cmd_set_ret. now rewrite Hg.
  - unfold cmd_set_speed at 1. change (ALL_FLAG =? ALL_FLAG) with true. cbv iota.
    apply for_upto_ext. intros j t Hj. unfold cmd_set_speed.
    now rewrite (not_all (num_steppers s)).
  - unfold cmd_set_accel at 1. change (ALL_FLAG =? ALL_FLAG) with true. cbv iota.
    apply for_upto_ext. intros j t Hj. unfold cmd_set_accel.
    now rewrite (not_all (num_steppers s)).
  - unfold cmd_whisk at 1. change (ALL_FLAG =? ALL_FLAG) with true. cbv iota.
    apply for_upto_ext. intros j t Hj. unfold cmd_whisk.
    now rewrite (not_all (num_steppers s)).
  - unfold cmd_home_stepper at 1. change (ALL_FLAG =? ALL_FLAG) with true. cbv iota.
    apply for_upto_ext. intros j t Hj. unfold cmd_home_stepper.
    now rewrite (not_all (num_steppers s)).
  - unfold cmd_halt_whisk at 1. change (ALL_FLAG =? ALL_FLAG) with true. cbv iota.
    apply for_upto_ext. intros j t Hj. unfold cmd_halt_whisk.
    now rewrite (not_all (num_steppers s)).
  - unfold cmd_retract at 1. change (ALL_FLAG =? ALL_FLAG) with true. cbv iota.
    apply for_upto_ext. intros j t Hj. unfold cmd_retract.
    now rewrite (not_all (num_steppers s)).
Qed.

(** [set_speed ALL v]: every declared axis gets the call, nothing else
    changes. *)
Lemma set_speed_all (v : Z) (s : State) :
  shaped s ->
  exists s1,
    cmd_set_speed ALL_FLAG v s = Done s1
    /\ set_accel_steppers (accel_steppers s) s1 = s
    /\ shaped s1
    /\ forall i h, 0 <= i < num_steppers s ->
         accel_steppers s !! Z.to_nat i = Some (Some h) ->
         accel_steppers s1 !! Z.to_nat i = Some (Some (h ++ [SetMaxSpeed v])).
Proof.
  intros Hs. pose proof Hs as [Hp Hr Hl Hw Hm Hacc Hn Hd Hu].
  unfold cmd_set_speed. change (ALL_FLAG =? ALL_FLAG) with true. cbv iota. unfold for_upto.
  destruct (for_range_invariant (fun i t => stepper_call i (SetMaxSpeed v) t)
    (fun j t =>
       set_accel_steppers (accel_steppers s) t = s
       /\ length (accel_steppers t) = 16%nat
       /\ (forall i h, 0 <= i < j ->
             accel_steppers s !! Z.to_nat i = Some (Some h) ->
             accel_steppers t !! Z.to_nat i = Some (Some (h ++ [SetMaxSpeed v])))
       /\ (forall i, j <= i ->
             accel_steppers t !! Z.to_nat i = accel_steppers s !! Z.to_nat i))
    (Z.to_nat (num_steppers s)) 0 s) as (s1 & Hrun & Heq & Hlen & Hlo & Hhi).
  - split; [ destruct s; reflexivity | ]. split; [ assumption | ]. split; [ | auto ].
    intros i h Hi. lia.
  - intros j t Hj (Heq & Hlen & Hlo & Hhi).
    destruct (Hd j) as [h Hh]; [ lia | ].
    rewrite (stepper_call_spec j _ t h) by (try lia; rewrite Hhi by lia; exact Hh).
    eexists. split; [ reflexivity | ]. cbn [accel_steppers set_accel_steppers].
    split; [ exact Heq | ]. rewrite length_insert. split; [ exact Hlen | ]. split.
    + intros i h' Hi Hh'. destruct (Z.eq_dec i j) as [->|Hne].
      * rewrite list_lookup_insert_eq by lia. congruence.
      * rewrite list_lookup_insert_ne by lia. apply Hlo; [ lia | exact Hh' ].
    + intros i Hi. rewrite list_lookup_insert_ne by lia. apply Hhi. lia.
  - exists s1. split; [ exact Hrun | ]. split; [ exact Heq | ].
    assert (En : num_steppers s1 = num_steppers s) by now apply (f_equal num_steppers) in Heq.
    split.
    + rewrite <- Heq in Hp, Hr, Hl, Hw, Hm. cbn in Hp, Hr, Hl, Hw, Hm.
      split; try assumption; try lia.
      * intros i Hi. destruct (Hd i) as [h Hh]; [ lia | ]. exists (h ++ [SetMaxSpeed v]).
        apply Hlo; [ lia | exact Hh ].
      * intros i Hi. rewrite Hhi by lia.
        replace (steppers s1) with (steppers s)
          by (now apply (f_equal steppers) in Heq).
        apply Hu. lia.
    + intros i h Hi Hh. apply Hlo; [ lia | exact Hh ].
Qed.

Lemma axis_step_tail (env : Env) (ret status : Z) (h : AccelStepper) :
  exists tail,
    snd (axis_step env ret (status, h)) = h ++ tail
    /\ (tail = [Run] \/ tail = [MoveTo ret; Run]).
Proof.
  unfold axis_step.
  destruct (truthy status); [ destruct (distanceToGo env h =? 0);
                              [ destruct (truthy (to_int (status - 1))) | ] | ];
    simpl; eauto.
Qed.

(** The dispatcher runs the per-axis command the line names. *)
Lemma run_command_axis (env : Env) (fuel : nat) (c : axis_command) (sid v : Z) (s : State) :
  received s c sid v -> run_command env fuel s = axis_effect env fuel c sid v s.
Proof.
  unfold received, receives, receives1.
  destruct c; cbn [takes_value command_name axis_effect];
    [ intros (H0 & H1 & H2) | intros (H0 & H1 & H2) | intros (H0 & H1 & H2)
    | intros (H0 & H1 & H2) | intros (H0 & H1) | intros (H0 & H1) | intros (H0 & H1)
    | intros (H0 & H1) ];
    unfold run_command; rewrite H0; simpl; rewrite H1; try rewrite H2; reflexivity.
Qed.

Lemma shaped_line_index (v : Z) (s : State) :
  shaped s -> shaped (set_user_command_buffer_index v s).
Proof. intros [Hp Hr Hl Hw Hm Hacc Hn Hd Hu]. split; assumption. Qed.

(** C6.  For each of the eight per-axis commands and every value argument
    [v], processing the line that names the command with the sentinel 999
    in place of the axis reaches exactly the outcome of applying the effect
    of the command with argument [v] to the axes 0, 1, ...,
    [num_steppers - 1] one after the other, that effect being what
    processing the line with the axis in place of the sentinel does.  For
    [set_speed] that is a [setMaxSpeed(v)] on every declared axis and no
    other change; and in the pass of [loop] that takes the carriage return
    of the line, every declared axis having its motor, the [run] of that
    pass and the move it may issue come after that call on every axis. *)
Theorem broadcast_reaches_every_axis
  (env : Env) (fuel : nat) (c : axis_command) (v : Z) (s : State) :
  well_formed s = true ->
  received s c ALL_FLAG v ->
  run_command env fuel s
  = for_upto (num_steppers s) (fun i t => axis_effect env fuel c i v t) s
  /\ (forall i t, received t c i v -> run_command env fuel t = axis_effect env fuel c i v t)
  /\ (c = SetSpeed ->
      exists s1,
        run_command env fuel s = Done s1
        /\ set_accel_steppers (accel_steppers s) s1 = s
        /\ (forall i h, declared s i = true -> history s i = Some h ->
              history s1 i = Some (h ++ [SetMaxSpeed v]))
        /\ (forall s0,
              end_of_line s0 = Done s -> motorised s = true ->
              exists s2,
                loop env fuel [CR] s0 = Done s2
                /\ forall i h, declared s i = true -> history s i = Some h ->
                     exists tail,
                       history s2 i = Some (h ++ SetMaxSpeed v :: tail)
                       /\ (tail = [Run] \/ exists ret, tail = [MoveTo ret; Run]))).
Proof.
  intros Hwf%well_formed_shaped Hline.
  rewrite (run_command_axis env fuel c ALL_FLAG v s Hline).
  split; [ | split ].
  - apply broadcast_unfolds. destruct Hwf. unfold MAX_STEPPERS. lia.
  - intros i t. apply run_command_axis.
  - intros ->. cbn [axis_effect].
    destruct (set_speed_all v s Hwf) as (s1 & Hcmd & Heq & Hs1 & Hall).
    assert (En : num_steppers s1 = num_steppers s) by now apply (f_equal num_steppers) in Heq.
    assert (Em : steppers s1 = steppers s) by now apply (f_equal steppers) in Heq.
    exists s1. split; [ exact Hcmd | ]. split; [ exact Heq | ]. split.
    + intros i h Hi%declared_spec Hh%history_spec. apply history_spec. now apply Hall.
    + intros s0 Hparse Hmot%motorised_motors.
      pose proof (shaped_line_index 0 s1 Hs1) as Hs1'.
      assert (Hm1 : motors (set_user_command_buffer_index 0 s1))
        by exact (motors_steppers s (set_user_command_buffer_index 0 s1) Em En Hmot).
      destruct (motion_pass_spec env _ Hs1' Hm1) as (s2 & Hpass & _ & _ & _ & Hax).
      exists s2. split.
      * unfold loop. cbn [drain]. unfold loop_char.
        change (CR =? CR)%char with true. cbv iota. rewrite Hparse. run.
        rewrite (run_command_axis env fuel SetSpeed ALL_FLAG v s Hline).
        cbn [axis_effect]. rewrite Hcmd. run. exact Hpass.
      * intros i h Hi%declared_spec Hh%history_spec.
        destruct Hs1 as [_ Hr1 _ Hw1 _ _ _ _ _].
        destruct Hwf as [_ _ _ _ _ _ Hn _ _].
        destruct (lookup_lt_is_Some_2 (whisking_status s1) (Z.to_nat i)) as [st Hst];
          [ lia | ].
        destruct (lookup_lt_is_Some_2 (ret_steps s1) (Z.to_nat i)) as [ret Hret]; [ lia | ].
        destruct (Hax i st (h ++ [SetMaxSpeed v]) ret) as [_ Hh2]; try assumption.
        { cbn [num_steppers set_user_command_buffer_index]. lia. }
        { cbn [accel_steppers set_user_command_buffer_index]. now apply Hall. }
        destruct (axis_step_tail env ret st (h ++ [SetMaxSpeed v])) as (tail & Etail & Htail).
        exists tail. split.
        -- apply history_spec. rewrite Hh2, Etail, <- app_assoc. reflexivity.
        -- destruct Htail as [->| ->]; [ left; reflexivity | right; eauto ].
Qed.

Lemma broadcast_reaches_every_axis_witness :
  well_formed (Scenario.closed "set_speed 999 1200") = true
  /\ received (Scenario.closed "set_speed 999 1200") SetSpeed ALL_FLAG 1200
  /\ exists s2,
       loop Bench.env 0 [CR] (Scenario.typed "set_speed 999 1200") = Done s2
       /\ forall i h,
            declared (Scenario.closed "set_speed 999 1200") i = true ->
            history (Scenario.closed "set_speed 999 1200") i = Some h ->
            exists tail,
              history s2 i = Some (h ++ SetMaxSpeed 1200 :: tail)
              /\ (tail = [Run] \/ exists ret, tail = [MoveTo ret; Run]).
Proof.
  assert (Hline : received (Scenario.closed "set_speed 999 1200") SetSpeed ALL_FLAG 1200).
  { split; [ | split ]; vm_compute; reflexivity. }
  split; [ vm_compute; reflexivity | ].
  split; [ exact Hline | ].
  destruct (broadcast_reaches_every_axis Bench.env 0 SetSpeed 1200
              (Scenario.closed "set_speed 999 1200"))
    as (_ & _ & Hspeed).
  - vm_compute. reflexivity.
  - exact Hline.
  - destruct (Hspeed eq_refl) as (s1 & _ & _ & _ & Hpass).
    apply (Hpass (Scenario.typed "set_speed 999 1200")); vm_compute; reflexivity.
Defined.

(** [set_speed 999 1200] on the wire: both axes get the new limit, then the
    [run] of the same pass. *)
Example set_speed_scenario :
  exists s1,
    loop Bench.env 0 (Bench.line "set_speed 999 1200") Scenario.two_axes = Done s1
    /\ history s1 0
       = Some [SetMaxSpeed 1500; SetAcceleration 500; SetMaxSpeed 1200; Run]
    /\ history s1 1
       = Some [SetMaxSpeed 1500; SetAcceleration 500; SetMaxSpeed 1200; Run].
Proof. eexists. split; [ vm_compute; reflexivity | split; reflexivity ]. Qed.

(** ** Axis arguments outside the declared range *)

Lemma stepper_call_null (i : Z) (c : call) (s : State) :
  0 <= i -> accel_steppers s !! Z.to_nat i = Some None ->
  stepper_call i c s = Fault (NullPointer "accel_steppers" i).
Proof. intros Hi Hn. unfold stepper_call. now rewrite deref_null. Qed.

Lemma stepper_call_out (i : Z) (c : call) (s : State) :
  ~ (0 <= i < Z.of_nat (length (accel_steppers s))) ->
  stepper_call i c s = Fault (OutOfBounds "accel_steppers" i).
Proof. intros Hi. unfold stepper_call. now rewrite deref_out. Qed.

(** C9, as the code has it.  No per-axis command compares its axis
    argument with [num_steppers].  With an argument [sid] that is neither
    the sentinel nor a declared axis, and for [set_prot] and [set_ret] a
    value inside [1 < v < MAX_STEPS], the command goes to index [sid] of the
    per-axis arrays all the same: inside the storage (0 .. 15), [set_prot]
    and [set_ret] store [v] in the unused slot [sid] and every other command
    calls through the null pointer of that slot; outside the storage the
    first array the command indexes is accessed out of bounds at [sid]. *)
Theorem undeclared_axis_is_indexed
  (env : Env) (fuel : nat) (c : axis_command) (sid v : Z) (s : State) :
  well_formed s = true ->
  sid <> ALL_FLAG -> declared s sid = false ->
  (0 < fuel)%nat ->
  (c = SetProt \/ c = SetRet -> 1 < v < MAX_STEPS) ->
  match axis_effect env fuel c sid v s with
  | Done s' =>
      0 <= sid < 16
      /\ (c = SetProt /\ s' = set_prot_steps (<[Z.to_nat sid := v]> (prot_steps s)) s
          \/ c = SetRet /\ s' = set_ret_steps (<[Z.to_nat sid := v]> (ret_steps s)) s)
  | Fault (OutOfBounds _ i) => i = sid /\ ~ (0 <= sid < 16)
  | Fault (NullPointer _ i) => i = sid /\ 0 <= sid < 16 /\ c <> SetProt /\ c <> SetRet
  | _ => False
  end.
Proof.
  intros Hwf%well_formed_shaped Hall Hund Hfuel Hv.
  destruct Hwf as [Hp Hr Hl Hw Hm Hacc Hn Hd Hu].
  assert (Hnot : (sid =? ALL_FLAG) = false) by now apply Z.eqb_neq.
  assert (Hsid : ~ (0 <= sid < num_steppers s)).
  { intros H%declared_spec. congruence. }
  destruct (Z_lt_dec sid 0) as [Hneg|Hpos];
    [ | destruct (Z_lt_dec sid 16) as [Hin|Hbig] ].
  - (* below the arrays *)
    destruct c; cbn [axis_effect];
      unfold cmd_set_prot, cmd_set_ret, cmd_set_speed, cmd_set_accel, cmd_whisk,
        cmd_home_stepper, cmd_halt_whisk, cmd_retract;
      rewrite ?Hnot, ?target_guard_true by auto.
    + rewrite aset_out by lia. run. split; [ reflexivity | lia ].
    + rewrite aset_out by lia. run. split; [ reflexivity | lia ].
    + rewrite stepper_call_out by lia. run. split; [ reflexivity | lia ].
    + rewrite stepper_call_out by lia. run. split; [ reflexivity | lia ].
    + rewrite aset_out by lia. run. split; [ reflexivity | lia ].
    + destruct fuel as [|fuel]; [ lia | ]. unfold home_stepper. cbn [home_stepper_loop].
      rewrite (aget_out "limit_pins") by (simpl; lia). run. split; [ reflexivity | lia ].
    + rewrite stepper_call_out by lia. run. split; [ reflexivity | lia ].
    + rewrite aget_out by lia. run. split; [ reflexivity | lia ].
  - (* an unused slot *)
    destruct (Hu sid) as [Hnull Hmotor]; [ lia | ].
    destruct c; cbn [axis_effect];
      unfold cmd_set_prot, cmd_set_ret, cmd_set_speed, cmd_set_accel, cmd_whisk,
        cmd_home_stepper, cmd_halt_whisk, cmd_retract;
      rewrite ?Hnot, ?target_guard_true by auto.
    + rewrite aset_in by lia. run. split; [ lia | left; auto ].
    + rewrite aset_in by lia. run. split; [ lia | right; auto ].
    + rewrite stepper_call_null by (lia || assumption). run.
      repeat split; try lia; discriminate.
    + rewrite stepper_call_null by (lia || assumption). run.
      repeat split; try lia; discriminate.
    + rewrite aset_in by lia. run.
      destruct (lookup_lt_is_Some_2 (prot_steps s) (Z.to_nat sid)) as [p Hpt]; [ lia | ].
      rewrite (aget_lookup "prot_steps" _ _ p) by (simpl; lia || assumption). run.
      rewrite stepper_call_null by (simpl; lia || assumption). run.
      repeat split; try lia; discriminate.
    + destruct fuel as [|fuel]; [ lia | ]. unfold home_stepper. cbn [home_stepper_loop].
      destruct (lookup_lt_is_Some_2 limit_pins (Z.to_nat sid)) as [pin Hpin]; [ simpl; lia | ].
      rewrite (aget_lookup "limit_pins" _ _ pin) by (lia || assumption). run.
      destruct (digitalRead env pin (trace s)).
      * destruct (lookup_lt_is_Some_2 (is_left s) (Z.to_nat sid)) as [l Hleft]; [ lia | ].
        rewrite (aget_lookup "is_left" _ _ l) by (lia || assumption). run.
        rewrite deref_null by (lia || assumption). simpl.
        repeat split; try lia; discriminate.
      * run. rewrite stepper_call_null by (lia || assumption). run.
        repeat split; try lia; discriminate.
    + rewrite stepper_call_null by (lia || assumption). simpl.
      repeat split; try lia; discriminate.
    + destruct (lookup_lt_is_Some_2 (ret_steps s) (Z.to_nat sid)) as [p Hpt]; [ lia | ].
      rewrite (aget_lookup "ret_steps" _ _ p) by (lia || assumption). run.
      rewrite stepper_call_null by (lia || assumption). simpl.
      repeat split; try lia; discriminate.
  - (* above the arrays *)
    destruct c; cbn [axis_effect];
      unfold cmd_set_prot, cmd_set_ret, cmd_set_speed, cmd_set_accel, cmd_whisk,
        cmd_home_stepper, cmd_halt_whisk, cmd_retract;
      rewrite ?Hnot, ?target_guard_true by auto.
    + rewrite aset_out by lia. run. split; [ reflexivity | lia ].
    + rewrite aset_out by lia. run. split; [ reflexivity | lia ].
    + rewrite stepper_call_out by lia. run. split; [ reflexivity | lia ].
    + rewrite stepper_call_out by lia. run. split; [ reflexivity | lia ].
    + rewrite aset_out by lia. run. split; [ reflexivity | lia ].
    + destruct fuel as [|fuel]; [ lia | ]. unfold home_stepper. cbn [home_stepper_loop].
      rewrite (aget_out "limit_pins") by (simpl; lia). run. split; [ reflexivity | lia ].
    + rewrite stepper_call_out by lia. run. split; [ reflexivity | lia ].
    + rewrite aget_out by lia. run. split; [ reflexivity | lia ].
Qed.

Lemma undeclared_axis_is_indexed_witness :
  well_formed Scenario.two_axes = true
  /\ declared Scenario.two_axes 5 = false
  /\ match axis_effect Bench.env 1 Whisk 5 0 Scenario.two_axes with
     | Done s' =>
         0 <= 5 < 16
         /\ (Whisk = SetProt
             /\ s' = set_prot_steps (<[Z.to_nat 5 := 0]> (prot_steps Scenario.two_axes))
                       Scenario.two_axes
             \/ Whisk = SetRet
                /\ s' = set_ret_steps (<[Z.to_nat 5 := 0]> (ret_steps Scenario.two_axes))
                          Scenario.two_axes)
     | Fault (OutOfBounds _ i) => i = 5 /\ ~ (0 <= 5 < 16)
     | Fault (NullPointer _ i) => i = 5 /\ 0 <= 5 < 16 /\ Whisk <> SetProt /\ Whisk <> SetRet
     | _ => False
     end.
Proof.
  split; [ reflexivity | split; [ reflexivity | ] ].
  apply (undeclared_axis_is_indexed Bench.env 1 Whisk 5 0 Scenario.two_axes).
  - reflexivity.
  - discriminate.
  - reflexivity.
  - lia.
  - intros [H|H]; discriminate.
Defined.

(** The claim C9 as worded fails on [set_prot 5 5000] with two declared
    axes: axis 5 is not declared and 5 is not the sentinel, yet the command
    is dropped, no array being indexed at 5: the guard on the value comes
    first. *)
Lemma undeclared_axis_dropped :
  declared Scenario.two_axes 5 = false
  /\ 5 <> ALL_FLAG
  /\ axis_effect Bench.env 1 SetProt 5 5000 Scenario.two_axes = Done Scenario.two_axes
  /\ exists s',
       drain (loop_char Bench.env 1) (Bench.line "set_prot 5 5000") Scenario.two_axes
       = Done s'
       /\ prot_steps s' = prot_steps Scenario.two_axes
       /\ ret_steps s' = ret_steps Scenario.two_axes
       /\ whisking_status s' = whisking_status Scenario.two_axes
       /\ accel_steppers s' = accel_steppers Scenario.two_axes
       /\ trace s' = trace Scenario.two_axes.
Proof.
  split; [ reflexivity | ]. split; [ discriminate | ]. split; [ reflexivity | ].
  eexists. split; [ vm_compute; reflexivity | ]. repeat split.
Qed.

(** The same arguments with a value inside the bounds, and [whisk], on the
    wire. *)
Example undeclared_axis_scenario :
  (exists s',
     drain (loop_char Bench.env 1) (Bench.line "set_prot 5 150") Scenario.two_axes = Done s'
     /\ prot_steps s' = [133; 0; 0; 0; 0; 150; 0; 0; 0; 0; 0; 0; 0; 0; 0; 0])
  /\ drain (loop_char Bench.env 1) (Bench.line "whisk 5") Scenario.two_axes
     = Fault (NullPointer "accel_steppers" 5)
  /\ drain (loop_char Bench.env 1) (Bench.line "whisk 16") Scenario.two_axes
     = Fault (OutOfBounds "whisking_status" 16)
  /\ drain (loop_char Bench.env 1) (Bench.line "retract -1") Scenario.two_axes
     = Fault (OutOfBounds "ret_steps" (-1)).
Proof.
  split; [ eexists; split; [ vm_compute; reflexivity | reflexivity ] | ].
  repeat split; vm_compute; reflexivity.
Qed.

(** ** parse *)

Lemma aget_in_bounds {A} name (a : list A) (i : Z) (x : A) :
  aget name a i = Done x -> 0 <= i < Z.of_nat (length a).
Proof. intros [Hi Hx]%aget_Done. apply lookup_lt_Some in Hx. lia. Qed.

Lemma aget_not_blocked {A} name (a : list A) (i : Z) : aget name a i <> Blocked.
Proof.
  unfold aget. destruct (0 <=? i); [ destruct (a !! Z.to_nat i) | ]; discriminate.
Qed.

(** The first inner loop: it stops, and moves on exactly when the
    character under the pointer is a separator. *)
Lemma blank_separators_spec (fuel : nat) :
  forall (buf : list ascii) (line : Z),
    (length buf - Z.to_nat line < fuel)%nat ->
    match blank_separators fuel buf line with
    | Done (buf', line') =>
        length buf' = length buf /\ line <= line' < Z.of_nat (length buf)
        /\ (forall c, aget "user_command_buffer" buf line = Done c ->
              if is_separator c then line < line' else buf' = buf /\ line' = line)
    | Fault _ => True
    | Blocked => False
    end.
Proof.
  induction fuel as [|fuel IH]; intros buf line Hfuel; [ lia | ].
  cbn [blank_separators].
  destruct (aget "user_command_buffer" buf line) as [c| |] eqn:Hc; run; try exact I.
  - pose proof (aget_in_bounds _ _ _ _ Hc) as Hin.
    destruct (is_separator c) eqn:Hsep.
    + rewrite aset_in by lia. run.
      specialize (IH (<[Z.to_nat line := NUL]> buf) (line + 1)).
      rewrite length_insert in IH.
      destruct (blank_separators fuel (<[Z.to_nat line := NUL]> buf) (line + 1))
        as [[buf' line']| |]; try exact I.
      * destruct IH as (Hlen & Hrange & _); [ lia | ].
        split; [ exact Hlen | ]. split; [ lia | ].
        intros c' [= <-]. rewrite Hsep. lia.
      * apply IH. lia.
    + split; [ reflexivity | ]. split; [ lia | ].
      intros c' [= <-]. rewrite Hsep. auto.
  - exact (aget_not_blocked _ _ _ Hc).
Qed.

(** The second inner loop: it stops, and moves on when the character
    under the pointer belongs to an argument. *)
Lemma skip_argument_spec (fuel : nat) (buf : list ascii) :
  forall (line : Z),
    (length buf - Z.to_nat line < fuel)%nat ->
    match skip_argument fuel buf line with
    | Done line' =>
        line <= line' < Z.of_nat (length buf)
        /\ (forall c, aget "user_command_buffer" buf line = Done c ->
              (c =? NUL)%char = false -> is_separator c = false -> line < line')
    | Fault _ => True
    | Blocked => False
    end.
Proof.
  induction fuel as [|fuel IH]; intros line Hfuel; [ lia | ].
  cbn [skip_argument].
  destruct (aget "user_command_buffer" buf line) as [c| |] eqn:Hc; run; try exact I.
  - pose proof (aget_in_bounds _ _ _ _ Hc) as Hin.
    destruct (negb (c =? NUL)%char && negb (is_separator c)) eqn:Hgo.
    + specialize (IH (line + 1)).
      destruct (skip_argument fuel buf (line + 1)) as [line'| |]; try exact I.
      * destruct IH as (Hrange & _); [ lia | ]. split; [ lia | ]. intros; lia.
      * apply IH. lia.
    + split; [ lia | ]. intros c' [= <-] Hnul Hsep. now rewrite Hnul, Hsep in Hgo.
  - exact (aget_not_blocked _ _ _ Hc).
Qed.

Lemma to_uint8_small (z : Z) : 0 <= z < 256 -> to_uint8 z = z.
Proof. intros Hz. unfold to_uint8. change (2 ^ 8) with 256. now apply Z.mod_small. Qed.

(** The outer loop of [parse]: it stops, and stores at most
    [maxArgs - 1 - argCount] pointers, none of them null. *)
Lemma parse_loop_spec (fuel : nat) :
  forall (maxArgs : Z) (buf : list ascii) (line argCount : Z),
    0 <= line -> (length buf - Z.to_nat line < fuel)%nat ->
    0 <= argCount -> argCount + 1 <= maxArgs - 1 -> maxArgs - 1 <= 255 ->
    match parse_loop fuel maxArgs buf line argCount with
    | Done (buf', words) =>
        length buf' = length buf
        /\ Z.of_nat (length words) <= maxArgs - 1 - argCount
        /\ Forall (fun w => exists p, w = Some p /\ line <= p < Z.of_nat (length buf)) words
    | Fault _ => True
    | Blocked => False
    end.
Proof.
  induction fuel as [|fuel IH]; intros maxArgs buf line argCount Hline Hfuel Hc0 Hc1 Hmax;
    [ lia | ].
  cbn [parse_loop].
  destruct (aget "user_command_buffer" buf line) as [c| |] eqn:Hc; run; try exact I;
    [ | exact (aget_not_blocked _ _ _ Hc) ].
  pose proof (aget_in_bounds _ _ _ _ Hc) as Hin.
  destruct (c =? NUL)%char eqn:Hnul.
  { split; [ reflexivity | ]. split; [ simpl; lia | constructor ]. }
  pose proof (blank_separators_spec (S (length buf)) buf line ltac:(lia)) as Hblank.
  destruct (blank_separators (S (length buf)) buf line) as [[buf1 line1]| |];
    run; try exact I; [ | contradiction ].
  destruct Hblank as (Hlen1 & Hrange1 & Hsep1). specialize (Hsep1 c Hc).
  rewrite to_uint8_small by lia.
  destruct (argCount + 1 =? maxArgs - 1) eqn:Hlast.
  { split; [ exact Hlen1 | ]. split; [ simpl; lia | ].
    constructor; [ | constructor ]. exists line1. split; [ reflexivity | lia ]. }
  apply Z.eqb_neq in Hlast.
  pose proof (skip_argument_spec (S (length buf)) buf1 line1 ltac:(lia)) as Hskip.
  destruct (skip_argument (S (length buf)) buf1 line1) as [line2| |];
    run; try exact I; [ | contradiction ].
  destruct Hskip as (Hrange2 & Hadv).
  assert (Hprogress : line < line2).
  { destruct (is_separator c) eqn:Hsep; [ lia | ].
    destruct Hsep1 as [-> ->]. apply (Hadv c Hc Hnul Hsep). }
  specialize (IH maxArgs buf1 line2 (argCount + 1)).
  destruct (parse_loop fuel maxArgs buf1 line2 (argCount + 1)) as [[buf2 words]| |];
    run; try exact I.
  - destruct IH as (Hlen2 & Hcount & Hall); try lia.
    split; [ congruence | ]. split; [ simpl; lia | ].
    constructor.
    + exists line1. split; [ reflexivity | lia ].
    + eapply Forall_impl; [ exact Hall | ].
      intros w (p & -> & Hp). exists p. split; [ reflexivity | ]. rewrite Hlen1 in Hp. lia.
  - apply IH; lia.
Qed.

Lemma all_some {A} (P : A -> Prop) (words : list (option A)) :
  Forall (fun w => exists p, w = Some p /\ P p) words ->
  exists tokens, words = map Some tokens /\ Forall P tokens.
Proof.
  induction 1 as [|w words (p & -> & Hp) _ (tokens & -> & Hall)].
  - exists []. split; [ reflexivity | constructor ].
  - exists (p :: tokens). split; [ reflexivity | now constructor ].
Qed.

(** [parse] returns or faults, it does not hang; it writes at most
    [maxArgs] entries: at most [maxArgs - 1] pointers into the line, then
    the null that ends the list. *)
Lemma parse_spec (buf : list ascii) (maxArgs : Z) :
  2 <= maxArgs <= 256 ->
  match parse buf maxArgs with
  | Done (buf', words) =>
      length buf' = length buf
      /\ Z.of_nat (length words) <= maxArgs
      /\ exists tokens,
           words = map Some tokens ++ [None]
           /\ Z.of_nat (length tokens) <= maxArgs - 1
           /\ Forall (fun p => 0 <= p < Z.of_nat (length buf)) tokens
  | Fault _ => True
  | Blocked => False
  end.
Proof.
  intros Hmax. unfold parse.
  pose proof (parse_loop_spec (S (length buf)) maxArgs buf 0 0) as Hloop.
  destruct (parse_loop (S (length buf)) maxArgs buf 0 0) as [[buf' words]| |];
    run; try exact I; [ | apply Hloop; simpl; lia ].
  destruct Hloop as (Hlen & Hcount & Hall); try (simpl; lia).
  destruct (all_some _ _ Hall) as (tokens & -> & Htok).
  rewrite length_map in Hcount.
  split; [ exact Hlen | ]. split; [ rewrite length_app, length_map; simpl; lia | ].
  exists tokens. split; [ reflexivity | ]. split; [ lia | exact Htok ].
Qed.

Lemma store_words_overflow (table words : list (option Z)) :
  length table = 8%nat ->
  store_words table words = Fault (OutOfBounds "argument_words" 8)
  <-> (8 < length words)%nat.
Proof.
  intros Hlen. unfold store_words. rewrite Hlen.
  destruct (length words <=? 8)%nat eqn:E.
  - apply Nat.leb_le in E. split; [ discriminate | lia ].
  - apply Nat.leb_gt in E. split; [ intros _; exact E | reflexivity ].
Qed.








(** With the number of entries of the table as the bound, a line of ten
    words is cut after seven: seven pointers and the end mark fill the
    eight entries and none is written beyond them. *)
Example parse_bound_eight :
  exists buf',
    parse (Scenario.terminated "a b c d e f g h i j") 8
    = Done (buf', map Some [0; 2; 4; 6; 8; 10; 12] ++ [None]).
Proof. eexists. vm_compute. reflexivity. Qed.

(** Both callers pass [sizeof(argument_words)], the size of the table in
    bytes, where [parse] expects a number of entries: 16 for a table of 8.
    The table is overrun as soon as more than 8 entries are written, which a
    line of eight words does; a line is cut only after fifteen words. *)
Example parse_bound_in_bytes :
  to_uint8 sizeof_argument_words = 16
  /\ (exists buf',
        parse (Scenario.terminated "a b c d e f g h") (to_uint8 sizeof_argument_words)
        = Done (buf', map Some [0; 2; 4; 6; 8; 10; 12; 14] ++ [None]))
  /\ end_of_line (Scenario.typed "a b c d e f g h") = Fault (OutOfBounds "argument_words" 8)
  /\ (exists buf',
        parse (Scenario.terminated "a b c d e f g h i j k l m n o p q")
          (to_uint8 sizeof_argument_words)
        = Done (buf', map Some [0; 2; 4; 6; 8; 10; 12; 14; 16; 18; 20; 22; 24; 26; 28]
                      ++ [None])).
Proof.
  split; [ reflexivity | ].
  split; [ eexists; vm_compute; reflexivity | ].
  split; [ vm_compute; reflexivity | ].
  eexists. vm_compute. reflexivity.
Qed.


(** ** Bring-up *)

Lemma setup_shield_by_blocks (sidx midx numw side : Z) (s : State) :
  setup_shield sidx midx numw side s = setup_shield_blocks sidx midx numw side s.
Proof. reflexivity. Qed.

(** A loop whose body keeps a projection of the state keeps it. *)
Lemma for_range_keeps {T X} (g : T -> X) (body : Z -> T -> outcome T) (n : nat) :
  (forall j t t', body j t = Done t' -> g t' = g t) ->
  forall i s s', for_range i n body s = Done s' -> g s' = g s.
Proof.
  intros Hbody. induction n as [|n IH]; intros i s s' Hrun.
  - now injection Hrun as <-.
  - cbn [for_range] in Hrun. apply bind_inv_Done in Hrun as (t & Ht & Hrest).
    rewrite (IH _ _ _ Hrest). eapply Hbody. exact Ht.
Qed.

Lemma drain_keeps {T X} (g : T -> X) (step : ascii -> T -> outcome T) :
  (forall c t t', step c t = Done t' -> g t' = g t) ->
  forall input s s', drain step input s = Done s' -> g s' = g s.
Proof.
  intros Hstep input. induction input as [|c input IH]; intros s s' Hrun.
  - now injection Hrun as <-.
  - cbn [drain] in Hrun. apply bind_inv_Done in Hrun as (t & Ht & Hrest).
    rewrite (IH _ _ Hrest). eapply Hstep. exact Ht.
Qed.

Lemma brought_up_globals (s s' : State) :
  axis_globals s' = axis_globals s -> brought_up s -> brought_up s'.
Proof.
  unfold axis_globals. intros [= Hp Hr Hw Hl Hm Ha Hn] [Bp Br Bw Ba Bl Bm Bn Bu].
  split; try congruence.
  intros i Hi. rewrite Hm. apply Bu. lia.
Qed.

Lemma edit_char_globals (c : ascii) (s s' : State) :
  edit_char c s = Done s' -> axis_globals s' = axis_globals s.
Proof.
  unfold edit_char. intros H.
  destruct (((c =? BS)%char || (c =? DEL)%char) && (0 <? user_command_buffer_index s)).
  - now injection H as <-.
  - destruct ((code " " <=? code c) && (user_command_buffer_index s <? 64 - 1)).
    + apply bind_inv_Done in H as (buf & _ & H). now injection H as <-.
    + now injection H as <-.
Qed.

Lemma end_of_line_globals (s s' : State) :
  end_of_line s = Done s' -> axis_globals s' = axis_globals s.
Proof.
  unfold end_of_line. intros H.
  apply bind_inv_Done in H as (buf & _ & H).
  apply bind_inv_Done in H as ([buf' words] & _ & H).
  apply bind_inv_Done in H as (table & _ & H). now injection H as <-.
Qed.

(** One axis declared: the invariant of bring-up holds on. *)
Lemma declare_axis_brought_up (m w side : Z) (s s' : State) :
  declare_axis m w side s = Done s' -> brought_up s -> brought_up s'.
Proof.
  unfold declare_axis. intros H Hs. destruct (truthy m); [ | now injection H as <- ].
  apply bind_inv_Done in H as (s1 & H1 & H).
  assert (G1 : axis_globals s1 = axis_globals s).
  { destruct (truthy w); [ | now injection H1 as <- ].
    apply bind_inv_Done in H1 as (s0 & H0 & H1). injection H1 as <-.
    unfold for_upto in H0.
    apply (for_range_keeps axis_globals) in H0; [ exact H0 | ].
    intros j t t' Hb. apply bind_inv_Done in Hb as (a & _ & Hb). now injection Hb as <-. }
  apply (brought_up_globals _ _ G1) in Hs. clear G1 H1 s.
  destruct Hs as [Bp Br Bw Ba Bl Bm Bn Bu].
  apply bind_inv_Done in H as (l & Hl & H). cbv zeta in H.
  apply bind_inv_Done in H as (a & Ha & H). injection H as <-.
  unfold aset in Hl, Ha. cbn [steppers set_is_left num_steppers] in Ha.
  destruct (in_bounds (is_left s1) (num_steppers s1)) eqn:Hin; [ | discriminate ].
  apply in_bounds_spec in Hin. injection Hl as <-.
  destruct (in_bounds (steppers s1) (num_steppers s1)); [ | discriminate ].
  injection Ha as <-.
  split; cbn; rewrite ?length_insert; try assumption.
  - rewrite to_int_small by (unfold INT_MIN, INT_MAX; lia). lia.
  - intros i Hi. rewrite to_int_small in Hi by (unfold INT_MIN, INT_MAX; lia).
    rewrite list_lookup_insert_ne by lia. apply Bu. lia.
Qed.

Lemma setup_command_brought_up (s s' : State) (flag flag' : Z) :
  setup_command s flag = Done (s', flag') -> brought_up s -> brought_up s'.
Proof.
  unfold setup_command. intros H Hs.
  apply bind_inv_Done in H as (w & _ & H).
  destruct (w =? "s")%string.
  - apply bind_inv_Done in H as (sidx & _ & H).
    apply bind_inv_Done in H as (midx & _ & H).
    apply bind_inv_Done in H as (numw & _ & H).
    apply bind_inv_Done in H as (side & _ & H).
    apply bind_inv_Done in H as (s1 & H1 & H). injection H as <- <-.
    rewrite setup_shield_by_blocks in H1. unfold setup_shield_blocks in H1.
    apply bind_inv_Done in H1 as (addr & _ & H1).
    apply bind_inv_Done in H1 as (ms & _ & H1). cbv zeta in H1.
    apply bind_inv_Done in H1 as (t1 & Ht1 & H1).
    apply bind_inv_Done in H1 as (t2 & Ht2 & H1). injection H1 as <-.
    apply declare_axis_brought_up in Ht1.
    + apply declare_axis_brought_up in Ht2; [ | exact Ht1 ].
      revert Ht2. apply brought_up_globals. reflexivity.
    + revert Hs. apply brought_up_globals. reflexivity.
  - destruct (w =? "p")%string.
    + apply bind_inv_Done in H as (period & _ & H). injection H as <- <-.
      revert Hs. apply brought_up_globals. reflexivity.
    + destruct (w =? "c")%string; injection H as <- <-; exact Hs.
Qed.

Lemma setup_char_brought_up (c : ascii) (sc sc' : State * Z) :
  setup_char c sc = Done sc' -> brought_up (fst sc) -> brought_up (fst sc').
Proof.
  destruct sc as [s flag], sc' as [s' flag']. unfold setup_char. cbn [fst]. intros H Hs.
  destruct (c =? CR)%char.
  - apply bind_inv_Done in H as (s1 & H1 & H).
    apply bind_inv_Done in H as ([s2 flag2] & H2 & H). injection H as <- <-.
    apply end_of_line_globals in H1. apply (brought_up_globals _ _ H1) in Hs.
    apply (setup_command_brought_up _ _ _ _ H2) in Hs.
    revert Hs. apply brought_up_globals. reflexivity.
  - apply bind_inv_Done in H as (s1 & H1 & H). injection H as <- <-.
    apply edit_char_globals in H1. exact (brought_up_globals _ _ H1 Hs).
Qed.

Lemma setup_wait_brought_up (bursts : list (list ascii)) :
  forall (sc : State * Z) (s' : State),
    setup_wait bursts sc = Done s' -> brought_up (fst sc) -> brought_up s'.
Proof.
  induction bursts as [|b bursts IH]; intros sc s' H Hs; cbn [setup_wait] in H.
  - destruct (truthy (snd sc)); [ now injection H as <- | discriminate ].
  - destruct (truthy (snd sc)); [ now injection H as <- | ].
    apply bind_inv_Done in H as (sc1 & H1 & H). apply (IH _ _ H).
    clear H IH. revert sc sc1 H1 Hs. induction b as [|c b IHb]; intros sc sc1 H1 Hs.
    + now injection H1 as <-.
    + cbn [drain] in H1. apply bind_inv_Done in H1 as (sc0 & H0 & H1).
      apply (IHb _ _ H1). exact (setup_char_brought_up _ _ _ H0 Hs).
Qed.

Lemma init_state_brought_up : brought_up init_state.
Proof.
  split; try reflexivity; try (simpl; lia).
  intros i Hi. change (steppers init_state) with (replicate 16 (@None StepperMotor)).
  apply lookup_replicate_2. change (num_steppers init_state) with 0 in Hi. lia.
Qed.

(** [initializeSteppers] puts a fresh [AccelStepper], with the default
    speed and acceleration, behind each declared axis. *)
Lemma initializeSteppers_spec (s : State) :
  brought_up s ->
  exists s',
    initializeSteppers s = Done s'
    /\ set_accel_steppers (accel_steppers s) s' = s
    /\ length (accel_steppers s') = 16%nat
    /\ (forall i, 0 <= i < num_steppers s ->
          accel_steppers s' !! Z.to_nat i
          = Some (Some [SetMaxSpeed default_speed; SetAcceleration default_accel]))
    /\ (forall i, num_steppers s <= i < 16 -> accel_steppers s' !! Z.to_nat i = Some None).
Proof.
  intros [Bp Br Bw Ba Bl Bm Bn Bu]. unfold initializeSteppers, for_upto.
  destruct (for_range_invariant
    (fun i s =>
       a ← aset "accel_steppers" (accel_steppers s) i (Some []);
       let s := set_accel_steppers a s in
       s ← stepper_call i (SetMaxSpeed default_speed) s;
       stepper_call i (SetAcceleration default_accel) s)
    (fun j t =>
       set_accel_steppers (accel_steppers s) t = s
       /\ length (accel_steppers t) = 16%nat
       /\ (forall i, 0 <= i < j ->
             accel_steppers t !! Z.to_nat i
             = Some (Some [SetMaxSpeed default_speed; SetAcceleration default_accel]))
       /\ (forall i, j <= i < 16 -> accel_steppers t !! Z.to_nat i = Some None))
    (Z.to_nat (num_steppers s)) 0 s) as (s' & Hrun & Heq & Hlen & Hlo & Hhi).
  - split; [ destruct s; reflexivity | ]. split; [ now rewrite Ba | ].
    split; [ intros i Hi; lia | ].
    intros i Hi. rewrite Ba.
    change (accel_steppers init_state) with (replicate 16 (@None (list call))).
    apply lookup_replicate_2. lia.
  - intros j t Hj (Heq & Hlen & Hlo & Hhi).
    rewrite aset_in by lia. run. cbv zeta.
    rewrite (stepper_call_spec j _ _ [])
      by (try lia; simpl; apply list_lookup_insert_eq; lia).
    run. cbn [accel_steppers set_accel_steppers]. rewrite list_insert_insert_eq.
    rewrite (stepper_call_spec j _ _ [SetMaxSpeed default_speed])
      by (try lia; simpl; apply list_lookup_insert_eq; lia).
    eexists. split; [ reflexivity | ].
    cbn [accel_steppers set_accel_steppers]. rewrite list_insert_insert_eq, length_insert.
    split; [ exact Heq | ]. split; [ exact Hlen | ]. split.
    + intros i Hi. destruct (Z.eq_dec i j) as [->|Hne].
      * rewrite list_lookup_insert_eq by lia. reflexivity.
      * rewrite list_lookup_insert_ne by lia. apply Hlo. lia.
    + intros i Hi. rewrite list_lookup_insert_ne by lia. apply Hhi. lia.
  - exists s'. split; [ exact Hrun | ]. split; [ exact Heq | ]. split; [ exact Hlen | ].
    split.
    + intros i Hi. apply Hlo. lia.
    + intros i Hi. apply Hhi. lia.
Qed.

(** Bring-up that completes leaves a well-formed state, with the targets
    and the phases as the initialisers of the globals set them. *)
Lemma setup_well_formed (bursts : list (list ascii)) (s : State) :
  setup bursts init_state = Done s ->
  well_formed s = true
  /\ prot_steps s = prot_steps init_state
  /\ ret_steps s = ret_steps init_state
  /\ whisking_status s = whisking_status init_state.
Proof.
  unfold setup. cbv zeta. intros H.
  apply bind_inv_Done in H as (s1 & H1 & H).
  apply bind_inv_Done in H as (s2 & H2 & H).
  apply bind_inv_Done in H as (s3 & H3 & H).
  apply bind_inv_Done in H as (s4 & H4 & H). injection H as <-.
  apply setup_wait_brought_up in H1;
    [ | cbn [fst]; apply (brought_up_globals init_state);
        [ reflexivity | exact init_state_brought_up ] ].
  unfold for_upto in H2, H3.
  apply (for_range_keeps axis_globals) in H2;
    [ | intros j t t' Hb; apply bind_inv_Done in Hb as (pin & _ & Hb); now injection Hb as <- ].
  apply (for_range_keeps axis_globals) in H3;
    [ | intros j t t' Hb; apply bind_inv_Done in Hb as (pin & _ & Hb); now injection Hb as <- ].
  apply (brought_up_globals _ _ H2) in H1. apply (brought_up_globals _ _ H3) in H1.
  destruct (initializeSteppers_spec s3 H1) as (s4' & H4' & Heq & Hlen & Hlo & Hhi).
  rewrite H4 in H4'. injection H4' as <-.
  destruct H1 as [Bp Br Bw Ba Bl Bm Bn Bu].
  assert (Hfin : forall t, axis_globals t = axis_globals s4 ->
            well_formed t = true /\ prot_steps t = prot_steps init_state
            /\ ret_steps t = ret_steps init_state
            /\ whisking_status t = whisking_status init_state).
  { intros t [= Hp Hr Hw Hl Hm Ha Hn].
    assert (Ep : prot_steps s4 = prot_steps s3) by now apply (f_equal prot_steps) in Heq.
    assert (Er : ret_steps s4 = ret_steps s3) by now apply (f_equal ret_steps) in Heq.
    assert (Ew : whisking_status s4 = whisking_status s3)
      by now apply (f_equal whisking_status) in Heq.
    assert (El : is_left s4 = is_left s3) by now apply (f_equal is_left) in Heq.
    assert (Em : steppers s4 = steppers s3) by now apply (f_equal steppers) in Heq.
    assert (En : num_steppers s4 = num_steppers s3) by now apply (f_equal num_steppers) in Heq.
    split; [ | repeat split; congruence ].
    apply well_formed_shaped. split.
    - rewrite Hp, Ep, Bp. reflexivity.
    - rewrite Hr, Er, Br. reflexivity.
    - congruence.
    - rewrite Hw, Ew, Bw. reflexivity.
    - congruence.
    - congruence.
    - lia.
    - intros i Hi. rewrite Ha. eexists. apply Hlo. lia.
    - intros i Hi. rewrite Ha, Hm, Em. split; [ apply Hhi; lia | apply Bu; lia ]. }
  apply Hfin. destruct (truthy debug); reflexivity.
Qed.

(** ** Channels and axes *)

(** C5 does not hold on the code.  The loops that bind the channels of a
    new axis run from channel 0, not from the first free channel.  With two
    axes of two whiskers each ([s 0 12 22 00]) the channels 0 and 1, declared
    with axis 0, end up bound to axis 1, and the channels 2 and 3, declared
    with axis 1, are never written and read 0.  With three whiskers and one
    ([s 0 12 31 00]) channel 0 goes to axis 1 and channel 3 reads 0. *)
Theorem bring_up_binds_from_channel_0 :
  setup Scenario.bring_up init_state = Done Scenario.two_axes
  /\ num_steppers Scenario.two_axes = 2
  /\ num_whiskers Scenario.two_axes = 4
  /\ whisker_col_id Scenario.two_axes = [1; 1; 0; 0; 0; 0; 0; 0; 0; 0; 0; 0; 0; 0; 0; 0]
  /\ exists s,
       setup [Bench.line "s 0 12 31 00" ++ Bench.line "c"] init_state = Done s
       /\ num_steppers s = 2
       /\ num_whiskers s = 4
       /\ whisker_col_id s = [1; 0; 0; 0; 0; 0; 0; 0; 0; 0; 0; 0; 0; 0; 0; 0].
Proof.
  split; [ vm_compute; reflexivity | ]. split; [ reflexivity | ].
  split; [ reflexivity | ]. split; [ reflexivity | ].
  eexists. split; [ vm_compute; reflexivity | ]. repeat split.
Qed.

(** ** The channel table after bring-up *)

(** A loop that returned has kept what each pass of its body keeps. *)
Lemma for_range_post {T} (body : Z -> T -> outcome T) (P : Z -> T -> Prop) (n : nat) :
  (forall j t t', body j t = Done t' -> P j t -> P (j + 1) t') ->
  forall i s s', for_range i n body s = Done s' -> P i s -> P (i + Z.of_nat n) s'.
Proof.
  intros Hbody. induction n as [|n IH]; intros i s s' Hrun HP.
  - injection Hrun as <-. now rewrite Z.add_0_r.
  - cbn [for_range] in Hrun. apply bind_inv_Done in Hrun as (t & Ht & Hrest).
    replace (i + Z.of_nat (S n)) with (i + 1 + Z.of_nat n) by lia.
    apply (IH _ _ _ Hrest). exact (Hbody _ _ _ Ht HP).
Qed.

(** The loop that binds the [w] channels of a new axis: it writes the
    entries 0 .. [w - 1], wherever the channels of the axes before it
    were. *)
Lemma bind_channels (w : Z) (s s' : State) :
  for_upto w (fun i s =>
    a ← aset "whisker_col_id" (whisker_col_id s) i (num_steppers s);
    Done (set_whisker_col_id a s)) s = Done s' ->
  set_whisker_col_id (whisker_col_id s) s' = s
  /\ length (whisker_col_id s') = length (whisker_col_id s)
  /\ (forall i, 0 <= i < w -> whisker_col_id s' !! Z.to_nat i = Some (num_steppers s))
  /\ (forall i, (Z.to_nat w <= i)%nat -> whisker_col_id s' !! i = whisker_col_id s !! i).
Proof.
  unfold for_upto. intros Hrun.
  apply (for_range_post _
    (fun j t =>
       set_whisker_col_id (whisker_col_id s) t = s
       /\ length (whisker_col_id t) = length (whisker_col_id s)
       /\ (forall i, 0 <= i < j -> whisker_col_id t !! Z.to_nat i = Some (num_steppers s))
       /\ (forall i, (Z.to_nat j <= i)%nat -> whisker_col_id t !! i = whisker_col_id s !! i)))
    in Hrun.
  - destruct Hrun as (Heq & Hlen & Hlo & Hhi). split; [ exact Heq | ].
    split; [ exact Hlen | ]. split.
    + intros i Hi. apply Hlo. lia.
    + intros i Hi. apply Hhi. lia.
  - intros j t t' Hb (Heq & Hlen & Hlo & Hhi).
    apply bind_inv_Done in Hb as (a & Ha & Hb). injection Hb as <-.
    unfold aset in Ha. destruct (in_bounds (whisker_col_id t) j) eqn:Hin; [ | discriminate ].
    apply in_bounds_spec in Hin. injection Ha as <-.
    cbn [whisker_col_id set_whisker_col_id]. rewrite length_insert.
    assert (En : num_steppers t = num_steppers s)
      by now apply (f_equal num_steppers) in Heq.
    split; [ exact Heq | ]. split; [ exact Hlen | ]. split.
    + intros i Hi. destruct (Z.eq_dec i j) as [->|Hne].
      * rewrite list_lookup_insert_eq by lia. now rewrite En.
      * rewrite list_lookup_insert_ne by lia. apply Hlo. lia.
    + intros i Hi. rewrite list_lookup_insert_ne by lia. apply Hhi. lia.
  - split; [ destruct s; reflexivity | ]. split; [ reflexivity | ].
    split; [ intros i Hi; lia | reflexivity ].
Qed.

(** The block that declares an axis binds its channels from channel 0. *)
Lemma declare_axis_binds_from_channel_0 (m w side : Z) (s s' : State) :
  declare_axis m w side s = Done s' -> truthy m = true -> 0 < w ->
  forall i, 0 <= i < w -> whisker_col_id s' !! Z.to_nat i = Some (num_steppers s).
Proof.
  unfold declare_axis. intros H Hm Hw i Hi. rewrite Hm in H.
  assert (Htw : truthy w = true) by (unfold truthy; apply negb_true_iff, Z.eqb_neq; lia).
  rewrite Htw in H.
  apply bind_inv_Done in H as (s1 & H1 & H).
  apply bind_inv_Done in H1 as (s0 & H0 & H1). injection H1 as <-.
  apply bind_channels in H0 as (_ & _ & Hlo & _).
  apply bind_inv_Done in H as (l & _ & H). cbv zeta in H.
  apply bind_inv_Done in H as (a & _ & H). injection H as <-.
  cbn. now apply Hlo.
Qed.

Lemma channels_bound_globals (s s' : State) :
  channel_globals s' = channel_globals s -> channels_bound s -> channels_bound s'.
Proof.
  unfold channel_globals. intros [= Hc Ho Hw Hn] [Cl Cb Ca Cc].
  split; try congruence.
  - intros i col Hi. rewrite Hn. apply (Ca i). congruence.
  - rewrite Hw, Hn. exact Cc.
Qed.

Lemma edit_char_channels (c : ascii) (s s' : State) :
  edit_char c s = Done s' -> channel_globals s' = channel_globals s.
Proof.
  unfold edit_char. intros H.
  destruct (((c =? BS)%char || (c =? DEL)%char) && (0 <? user_command_buffer_index s)).
  - now injection H as <-.
  - destruct ((code " " <=? code c) && (user_command_buffer_index s <? 64 - 1)).
    + apply bind_inv_Done in H as (buf & _ & H). now injection H as <-.
    + now injection H as <-.
Qed.

Lemma end_of_line_channels (s s' : State) :
  end_of_line s = Done s' -> channel_globals s' = channel_globals s.
Proof.
  unfold end_of_line. intros H.
  apply bind_inv_Done in H as (buf & _ & H).
  apply bind_inv_Done in H as ([buf' words] & _ & H).
  apply bind_inv_Done in H as (table & _ & H). now injection H as <-.
Qed.

Lemma declare_axis_channels_bound (m w side : Z) (s s' : State) :
  declare_axis m w side s = Done s' ->
  0 <= num_steppers s < INT_MAX -> channels_bound s -> channels_bound s'.
Proof.
  unfold declare_axis. intros H Hn [Cl Cb Ca Cc].
  destruct (truthy m); [ | injection H as <-; now split ].
  apply bind_inv_Done in H as (s1 & H1 & H).
  assert (H1' : length (whisker_col_id s1) = 16%nat
                /\ length (output_buffer s1) = 7%nat
                /\ num_steppers s1 = num_steppers s
                /\ forall i col, whisker_col_id s1 !! i = Some col ->
                     0 <= col /\ (col < num_steppers s + 1 \/ col = 0)).
  { destruct (truthy w).
    - apply bind_inv_Done in H1 as (s0 & H0 & H1). injection H1 as <-.
      apply bind_channels in H0 as (Heq & Hlen & Hlo & Hhi).
      assert (En : num_steppers s0 = num_steppers s)
        by now apply (f_equal num_steppers) in Heq.
      assert (Eo : output_buffer s0 = output_buffer s)
        by now apply (f_equal output_buffer) in Heq.
      cbn. split; [ congruence | ]. split; [ congruence | ]. split; [ exact En | ].
      intros i col Hcol. destruct (Nat.lt_ge_cases i (Z.to_nat w)) as [Hlt|Hge].
      + rewrite <- (Nat2Z.id i) in Hcol. rewrite Hlo in Hcol by lia.
        injection Hcol as <-. lia.
      + rewrite Hhi in Hcol by exact Hge. destruct (Ca i col Hcol). lia.
    - injection H1 as <-. split; [ exact Cl | ]. split; [ exact Cb | ].
      split; [ reflexivity | ]. intros i col Hcol. destruct (Ca i col Hcol). lia. }
  destruct H1' as (Hl1 & Ho1 & En1 & Ha1).
  apply bind_inv_Done in H as (l & _ & H). cbv zeta in H.
  apply bind_inv_Done in H as (a & _ & H). injection H as <-.
  split; cbn; try assumption.
  - rewrite En1, to_int_small by (unfold INT_MIN, INT_MAX in *; lia). exact Ha1.
  - intros _. rewrite En1, to_int_small by (unfold INT_MIN, INT_MAX in *; lia). lia.
Qed.

Lemma setup_command_channels_bound (s s' : State) (flag flag' : Z) :
  setup_command s flag = Done (s', flag') ->
  brought_up s -> channels_bound s -> channels_bound s'.
Proof.
  unfold setup_command. intros H Hb Hs.
  apply bind_inv_Done in H as (w & _ & H).
  destruct (w =? "s")%string.
  - apply bind_inv_Done in H as (sidx & _ & H).
    apply bind_inv_Done in H as (midx & _ & H).
    apply bind_inv_Done in H as (numw & _ & H).
    apply bind_inv_Done in H as (side & _ & H).
    apply bind_inv_Done in H as (s1 & H1 & H). injection H as <- <-.
    rewrite setup_shield_by_blocks in H1. unfold setup_shield_blocks in H1.
    apply bind_inv_Done in H1 as (addr & _ & H1).
    apply bind_inv_Done in H1 as (ms & _ & H1). cbv zeta in H1.
    apply bind_inv_Done in H1 as (t1 & Ht1 & H1).
    apply bind_inv_Done in H1 as (t2 & Ht2 & H1). injection H1 as <-.
    assert (Hb0 : brought_up (emit (ShieldBegin addr) (set_motor_shields ms s)))
      by (revert Hb; apply brought_up_globals; reflexivity).
    assert (Hs0 : channels_bound (emit (ShieldBegin addr) (set_motor_shields ms s)))
      by (revert Hs; apply channels_bound_globals; reflexivity).
    pose proof (declare_axis_brought_up _ _ _ _ _ Ht1 Hb0) as Hb1.
    apply (declare_axis_channels_bound _ _ _ _ _ Ht1) in Hs0;
      [ | destruct Hb0; unfold INT_MAX; lia ].
    apply (declare_axis_channels_bound _ _ _ _ _ Ht2) in Hs0;
      [ | destruct Hb1; unfold INT_MAX; lia ].
    revert Hs0. apply channels_bound_globals. reflexivity.
  - destruct (w =? "p")%string.
    + apply bind_inv_Done in H as (period & _ & H). injection H as <- <-.
      revert Hs. apply channels_bound_globals. reflexivity.
    + destruct (w =? "c")%string; injection H as <- <-; exact Hs.
Qed.

Lemma setup_char_channels_bound (c : ascii) (sc sc' : State * Z) :
  setup_char c sc = Done sc' ->
  brought_up (fst sc) -> channels_bound (fst sc) -> channels_bound (fst sc').
Proof.
  destruct sc as [s flag], sc' as [s' flag']. unfold setup_char. cbn [fst].
  intros H Hb Hs. destruct (c =? CR)%char.
  - apply bind_inv_Done in H as (s1 & H1 & H).
    apply bind_inv_Done in H as ([s2 flag2] & H2 & H). injection H as <- <-.
    pose proof (end_of_line_globals _ _ H1) as G1.
    apply end_of_line_channels in H1.
    apply (brought_up_globals _ _ G1) in Hb. apply (channels_bound_globals _ _ H1) in Hs.
    apply (setup_command_channels_bound _ _ _ _ H2 Hb) in Hs.
    revert Hs. apply channels_bound_globals. reflexivity.
  - apply bind_inv_Done in H as (s1 & H1 & H). injection H as <- <-.
    apply edit_char_channels in H1. exact (channels_bound_globals _ _ H1 Hs).
Qed.

Lemma setup_wait_channels_bound (bursts : list (list ascii)) :
  forall (sc : State * Z) (s' : State),
    setup_wait bursts sc = Done s' ->
    brought_up (fst sc) -> channels_bound (fst sc) -> channels_bound s'.
Proof.
  induction bursts as [|b bursts IH]; intros sc s' H Hb Hs; cbn [setup_wait] in H.
  - destruct (truthy (snd sc)); [ now injection H as <- | discriminate ].
  - destruct (truthy (snd sc)); [ now injection H as <- | ].
    apply bind_inv_Done in H as (sc1 & H1 & H).
    assert (Hboth : brought_up (fst sc1) /\ channels_bound (fst sc1)).
    { clear H IH. revert sc sc1 H1 Hb Hs.
      induction b as [|c b IHb]; intros sc sc1 H1 Hb Hs.
      - injection H1 as <-. auto.
      - cbn [drain] in H1. apply bind_inv_Done in H1 as (sc0 & H0 & H1).
        apply (IHb _ _ H1).
        + exact (setup_char_brought_up _ _ _ H0 Hb).
        + exact (setup_char_channels_bound _ _ _ H0 Hb Hs). }
    destruct Hboth as [Hb1 Hs1]. exact (IH _ _ H Hb1 Hs1).
Qed.

Lemma init_state_channels_bound : channels_bound init_state.
Proof.
  split; try reflexivity.
  - intros i col Hi. change (whisker_col_id init_state) with (replicate 16 0) in Hi.
    apply lookup_replicate in Hi as [-> _]. lia.
  - intros H. exfalso. apply H. reflexivity.
Qed.

(** A loop that reads entry [i] of a table in pass [i] and returned has
    stayed inside the table. *)
Lemma table_loop_bound name (table : list Z) (f : Z -> State -> State) (n : nat) :
  forall i s s',
    for_range i n (fun i s => pin ← aget name table i; Done (f pin s)) s = Done s' ->
    n = 0%nat \/ i + Z.of_nat n <= Z.of_nat (length table).
Proof.
  induction n as [|n IH]; intros i s s' Hrun; [ now left | right ].
  cbn [for_range] in Hrun. apply bind_inv_Done in Hrun as (t & Ht & Hrest).
  apply bind_inv_Done in Ht as (pin & Hpin%aget_in_bounds & _).
  destruct (IH _ _ _ Hrest) as [-> | Hle]; lia.
Qed.

Lemma sampling_ready_intro (s : State) :
  length (whisker_col_id s) = 16%nat -> length (output_buffer s) = 7%nat ->
  0 <= num_whiskers s <= 16 ->
  (forall i, 0 <= i < num_whiskers s ->
     exists col h,
       whisker_col_id s !! Z.to_nat i = Some col /\ 0 <= col
       /\ col < Z.of_nat (length (whisking_status s))
       /\ accel_steppers s !! Z.to_nat col = Some (Some h)) ->
  sampling_ready s = true.
Proof.
  intros Hc Ho Hn Hall. unfold sampling_ready, MAX_WHISKERS.
  rewrite !andb_true_iff, !Nat.eqb_eq, !Z.leb_le, forallb_forall.
  repeat split; try assumption; try lia.
  intros i Hi%slots_spec. destruct (i <? num_whiskers s) eqn:E; [ | reflexivity ].
  apply Z.ltb_lt in E. destruct (Hall i) as (col & h & -> & Hc0 & Hin & Hh); [ lia | ].
  unfold is_allocated. rewrite Hh, andb_true_r, andb_true_iff, Z.leb_le.
  split; [ exact Hc0 | ]. apply in_bounds_spec. lia.
Qed.

(** Bring-up that completes with a channel count that is not negative
    leaves every channel bound to an axis that exists: the state the
    sampling interrupt needs. *)
Lemma setup_sampling_ready (bursts : list (list ascii)) (s : State) :
  setup bursts init_state = Done s ->
  0 <= num_whiskers s ->
  sampling_ready s = true.
Proof.
  unfold setup. cbv zeta. intros H Hcount.
  apply bind_inv_Done in H as (s1 & H1 & H).
  apply bind_inv_Done in H as (s2 & H2 & H).
  apply bind_inv_Done in H as (s3 & H3 & H).
  apply bind_inv_Done in H as (s4 & H4 & H). injection H as <-.
  pose proof H1 as Hb1. apply setup_wait_brought_up in Hb1;
    [ | cbn [fst]; apply (brought_up_globals init_state);
        [ reflexivity | exact init_state_brought_up ] ].
  apply setup_wait_channels_bound in H1; cbn [fst];
    [ | apply (brought_up_globals init_state);
        [ reflexivity | exact init_state_brought_up ]
      | apply (channels_bound_globals init_state);
        [ reflexivity | exact init_state_channels_bound ] ].
  unfold for_upto in H2, H3.
  pose proof (table_loop_bound _ _ _ _ _ _ _ H2) as Hbound.
  pose proof H2 as G2. apply (for_range_keeps axis_globals) in G2;
    [ | intros j t t' Hb; apply bind_inv_Done in Hb as (pin & _ & Hb); now injection Hb as <- ].
  apply (for_range_keeps channel_globals) in H2;
    [ | intros j t t' Hb; apply bind_inv_Done in Hb as (pin & _ & Hb); now injection Hb as <- ].
  pose proof H3 as G3. apply (for_range_keeps axis_globals) in G3;
    [ | intros j t t' Hb; apply bind_inv_Done in Hb as (pin & _ & Hb); now injection Hb as <- ].
  apply (for_range_keeps channel_globals) in H3;
    [ | intros j t t' Hb; apply bind_inv_Done in Hb as (pin & _ & Hb); now injection Hb as <- ].
  assert (Hbound1 : num_whiskers s1 <= 16) by (simpl in Hbound; lia).
  apply (brought_up_globals _ _ G2) in Hb1. apply (brought_up_globals _ _ G3) in Hb1.
  apply (channels_bound_globals _ _ H2) in H1. apply (channels_bound_globals _ _ H3) in H1.
  assert (Ew3 : num_whiskers s3 = num_whiskers s1).
  { unfold channel_globals in H2, H3. congruence. }
  destruct (initializeSteppers_spec s3 Hb1) as (s4' & H4' & Heq & Hlen & Hlo & Hhi).
  rewrite H4 in H4'. injection H4' as <-.
  destruct Hb1 as [Bp Br Bw Ba Bl Bm Bn Bu]. destruct H1 as [Cl Cb Ca Cc].
  assert (Ec : whisker_col_id s4 = whisker_col_id s3)
    by now apply (f_equal whisker_col_id) in Heq.
  assert (Eo : output_buffer s4 = output_buffer s3)
    by now apply (f_equal output_buffer) in Heq.
  assert (Ew : num_whiskers s4 = num_whiskers s3)
    by now apply (f_equal num_whiskers) in Heq.
  assert (Es : whisking_status s4 = whisking_status s3)
    by now apply (f_equal whisking_status) in Heq.
  assert (Hfin : forall t,
            channel_globals t = channel_globals s4 ->
            whisking_status t = whisking_status s4 ->
            accel_steppers t = accel_steppers s4 ->
            0 <= num_whiskers t -> sampling_ready t = true).
  { intros t [= Hc Ho Hw Hn] Hst Hacc Hnonneg.
    apply sampling_ready_intro; try congruence; [ lia | ].
    intros i Hi.
    destruct (lookup_lt_is_Some_2 (whisker_col_id s3) (Z.to_nat i)) as [col Hcol]; [ lia | ].
    destruct (Ca _ _ Hcol) as [Hc0 Hlt].
    assert (Hdecl : 0 <= col < num_steppers s3) by (specialize (Cc ltac:(lia)); lia).
    exists col. eexists. rewrite Hc, Ec, Hst, Es, Bw, Hacc.
    split; [ exact Hcol | ]. split; [ exact Hc0 | ].
    split; [ simpl; lia | apply Hlo; exact Hdecl ]. }
  destruct (truthy debug); apply Hfin; try reflexivity; exact Hcount.
Qed.

(** ** What the run-time code writes *)

Lemma aset_Done {A} name (a a' : list A) (i : Z) (v : A) :
  aset name a i v = Done a' ->
  0 <= i < Z.of_nat (length a) /\ a' = <[Z.to_nat i := v]> a.
Proof.
  unfold aset. destruct (in_bounds a i) eqn:E; [ | discriminate ].
  apply in_bounds_spec in E. intros [= <-]. auto.
Qed.

Lemma deref_Done {A} name (a : list (option A)) (i : Z) (x : A) :
  deref name a i = Done x -> 0 <= i /\ a !! Z.to_nat i = Some (Some x).
Proof.
  unfold deref. intros H. apply bind_inv_Done in H as (p & [Hi Hp]%aget_Done & H).
  destruct p as [y|]; [ | discriminate ]. injection H as ->. auto.
Qed.

Lemma stepper_call_Done (i : Z) (c : call) (s s' : State) :
  stepper_call i c s = Done s' ->
  exists h,
    0 <= i /\ accel_steppers s !! Z.to_nat i = Some (Some h)
    /\ s' = set_accel_steppers (<[Z.to_nat i := Some (h ++ [c])]> (accel_steppers s)) s.
Proof.
  unfold stepper_call. intros H.
  apply bind_inv_Done in H as (h & [Hi Hh]%deref_Done & H).
  apply bind_inv_Done in H as (a & [_ ->]%aset_Done & H). injection H as <-.
  exists h. auto.
Qed.

Lemma for_range_updates (body : Z -> State -> outcome State) (n : nat) :
  (forall j t t', body j t = Done t' -> rtc update t t') ->
  forall i s s', for_range i n body s = Done s' -> rtc update s s'.
Proof.
  intros Hbody. induction n as [|n IH]; intros i s s' Hrun.
  - injection Hrun as <-. reflexivity.
  - cbn [for_range] in Hrun. apply bind_inv_Done in Hrun as (t & Ht & Hrest).
    etrans; [ exact (Hbody _ _ _ Ht) | exact (IH _ _ _ Hrest) ].
Qed.

Lemma drain_updates (step : ascii -> State -> outcome State) :
  (forall c t t', step c t = Done t' -> rtc update t t') ->
  forall input s s', drain step input s = Done s' -> rtc update s s'.
Proof.
  intros Hstep input. induction input as [|c input IH]; intros s s' Hrun.
  - injection Hrun as <-. reflexivity.
  - cbn [drain] in Hrun. apply bind_inv_Done in Hrun as (t & Ht & Hrest).
    etrans; [ exact (Hstep _ _ _ Ht) | exact (IH _ _ Hrest) ].
Qed.

Lemma stepper_call_updates (i : Z) (c : call) (s s' : State) :
  stepper_call i c s = Done s' -> issued s i c -> rtc update s s'.
Proof.
  intros (h & Hi & Hh & ->)%stepper_call_Done Hc. apply rtc_once.
  now apply update_call.
Qed.

Lemma line_update (s : State) (buf : list ascii) (index : Z) :
  length buf = length (user_command_buffer s) ->
  update s (set_user_command_buffer_index index (set_user_command_buffer buf s)).
Proof.
  intros Hlen.
  replace (set_user_command_buffer_index index (set_user_command_buffer buf s))
    with (set_argument_words (argument_words s)
            (set_user_command_buffer_index index (set_user_command_buffer buf s)))
    by (destruct s; reflexivity).
  now apply update_line.
Qed.

Lemma edit_char_updates (c : ascii) (s s' : State) :
  edit_char c s = Done s' -> rtc update s s'.
Proof.
  unfold edit_char. intros H.
  destruct (((c =? BS)%char || (c =? DEL)%char) && (0 <? user_command_buffer_index s)).
  - injection H as <-. apply rtc_once.
    replace (set_user_command_buffer_index _ s)
      with (set_user_command_buffer_index (to_uint8 (user_command_buffer_index s - 1))
              (set_user_command_buffer (user_command_buffer s) s))
      by (destruct s; reflexivity).
    now apply line_update.
  - destruct ((code " " <=? code c) && (user_command_buffer_index s <? 64 - 1)).
    + apply bind_inv_Done in H as (buf & [_ ->]%aset_Done & H). injection H as <-.
      apply rtc_once, line_update. now rewrite length_insert.
    + injection H as <-. reflexivity.
Qed.

Lemma parse_length (buf buf' : list ascii) (maxArgs : Z) (words : list (option Z)) :
  2 <= maxArgs <= 256 -> parse buf maxArgs = Done (buf', words) -> length buf' = length buf.
Proof.
  intros Hmax Hp. pose proof (parse_spec buf maxArgs Hmax) as Hs. rewrite Hp in Hs. tauto.
Qed.

Lemma store_words_Done (table words table' : list (option Z)) :
  store_words table words = Done table' ->
  (length words <= length table)%nat /\ table' = words ++ drop (length words) table.
Proof.
  unfold store_words. destruct (length words <=? length table)%nat eqn:E; [ | discriminate ].
  apply Nat.leb_le in E. intros [= <-]. auto.
Qed.

Lemma end_of_line_updates (s s' : State) :
  end_of_line s = Done s' -> rtc update s s'.
Proof.
  unfold end_of_line. intros H.
  apply bind_inv_Done in H as (buf & [_ ->]%aset_Done & H).
  apply bind_inv_Done in H as ([buf' words] & Hp & H).
  apply parse_length in Hp; [ | vm_compute; split; discriminate ].
  apply bind_inv_Done in H as (table & [Hle ->]%store_words_Done & H). injection H as <-.
  apply rtc_once.
  replace (set_argument_words _ (set_user_command_buffer buf' s))
    with (set_argument_words (words ++ drop (length words) (argument_words s))
            (set_user_command_buffer_index (user_command_buffer_index s)
               (set_user_command_buffer buf' s)))
    by (destruct s; reflexivity).
  apply update_line.
  - now rewrite Hp, length_insert.
  - rewrite length_app, length_drop. lia.
Qed.

Lemma cmd_set_prot_updates (sid steps : Z) (s s' : State) :
  cmd_set_prot sid steps s = Done s' -> rtc update s s'.
Proof.
  unfold cmd_set_prot. intros H.
  destruct ((steps <? MAX_STEPS) && (1 <? steps)) eqn:G;
    [ | injection H as <-; reflexivity ].
  apply andb_true_iff in G as [G1%Z.ltb_lt G2%Z.ltb_lt].
  assert (Hbody : forall i t t',
            (a ← aset "prot_steps" (prot_steps t) i steps; Done (set_prot_steps a t)) = Done t' ->
            rtc update t t').
  { intros i t t' Hb. apply bind_inv_Done in Hb as (a & [Hi ->]%aset_Done & Hb).
    injection Hb as <-. apply rtc_once. apply update_prot; [ exact Hi | lia ]. }
  destruct (sid =? ALL_FLAG).
  - exact (for_range_updates _ _ Hbody _ _ _ H).
  - exact (Hbody _ _ _ H).
Qed.

Lemma cmd_set_ret_updates (sid steps : Z) (s s' : State) :
  cmd_set_ret sid steps s = Done s' -> rtc update s s'.
Proof.
  unfold cmd_set_ret. intros H.
  destruct ((steps <? MAX_STEPS) && (1 <? steps)) eqn:G;
    [ | injection H as <-; reflexivity ].
  apply andb_true_iff in G as [G1%Z.ltb_lt G2%Z.ltb_lt].
  assert (Hbody : forall i t t',
            (a ← aset "ret_steps" (ret_steps t) i steps; Done (set_ret_steps a t)) = Done t' ->
            rtc update t t').
  { intros i t t' Hb. apply bind_inv_Done in Hb as (a & [Hi ->]%aset_Done & Hb).
    injection Hb as <-. apply rtc_once. apply update_ret; [ exact Hi | lia ]. }
  destruct (sid =? ALL_FLAG).
  - exact (for_range_updates _ _ Hbody _ _ _ H).
  - exact (Hbody _ _ _ H).
Qed.

Lemma cmd_set_speed_updates (sid speed : Z) (s s' : State) :
  cmd_set_speed sid speed s = Done s' -> rtc update s s'.
Proof.
  unfold cmd_set_speed. intros H.
  assert (Hbody : forall i t t',
            stepper_call i (SetMaxSpeed speed) t = Done t' -> rtc update t t')
    by (intros i t t' Hb; exact (stepper_call_updates _ _ _ _ Hb I)).
  destruct (sid =? ALL_FLAG).
  - exact (for_range_updates _ _ Hbody _ _ _ H).
  - exact (Hbody _ _ _ H).
Qed.

Lemma cmd_set_accel_updates (sid accel : Z) (s s' : State) :
  cmd_set_accel sid accel s = Done s' -> rtc update s s'.
Proof.
  unfold cmd_set_accel. intros H.
  assert (Hbody : forall i t t',
            stepper_call i (SetAcceleration accel) t = Done t' -> rtc update t t')
    by (intros i t t' Hb; exact (stepper_call_updates _ _ _ _ Hb I)).
  destruct (sid =? ALL_FLAG).
  - exact (for_range_updates _ _ Hbody _ _ _ H).
  - exact (Hbody _ _ _ H).
Qed.

Lemma phase_update (s : State) (a v : Z) (w : list Z) :
  aset "whisking_status" (whisking_status s) a v = Done w ->
  v = 2 \/ v = 1 ->
  update s (set_whisking_status w s).
Proof.
  intros [Hi ->]%aset_Done Hv.
  destruct (lookup_lt_is_Some_2 (whisking_status s) (Z.to_nat a)) as [old Hold]; [ lia | ].
  apply (update_phase s a old v); [ lia | exact Hold | tauto ].
Qed.

Lemma cmd_whisk_updates (sid : Z) (s s' : State) :
  cmd_whisk sid s = Done s' -> rtc update s s'.
Proof.
  unfold cmd_whisk. intros H.
  assert (Hbody : forall i t t',
            (w ← aset "whisking_status" (whisking_status t) i 2;
             let t := set_whisking_status w t in
             target ← aget "prot_steps" (prot_steps t) i;
             stepper_call i (MoveTo target) t) = Done t' ->
            rtc update t t').
  { intros i t t' Hb. apply bind_inv_Done in Hb as (w & Hw & Hb). cbv zeta in Hb.
    apply bind_inv_Done in Hb as (target & [_ Ht]%aget_Done & Hb).
    etrans; [ apply rtc_once, (phase_update _ _ _ _ Hw); auto | ].
    apply (stepper_call_updates _ _ _ _ Hb). left. exact Ht. }
  destruct (sid =? ALL_FLAG).
  - exact (for_range_updates _ _ Hbody _ _ _ H).
  - exact (Hbody _ _ _ H).
Qed.

Lemma cmd_halt_whisk_updates (sid : Z) (s s' : State) :
  cmd_halt_whisk sid s = Done s' -> rtc update s s'.
Proof.
  unfold cmd_halt_whisk. intros H.
  assert (Hbody : forall i t t',
            (t ← stepper_call i Stop t;
             w ← aset "whisking_status" (whisking_status t) i 1;
             Done (set_whisking_status w t)) = Done t' ->
            rtc update t t').
  { intros i t t' Hb. apply bind_inv_Done in Hb as (t1 & H1 & Hb).
    apply bind_inv_Done in Hb as (w & Hw & Hb). injection Hb as <-.
    etrans; [ exact (stepper_call_updates _ _ _ _ H1 I) | ].
    apply rtc_once, (phase_update _ _ _ _ Hw). auto. }
  destruct (sid =? ALL_FLAG).
  - exact (for_range_updates _ _ Hbody _ _ _ H).
  - exact (Hbody _ _ _ H).
Qed.

Lemma cmd_retract_updates (sid : Z) (s s' : State) :
  cmd_retract sid s = Done s' -> rtc update s s'.
Proof.
  unfold cmd_retract. intros H.
  assert (Hbody : forall i t t',
            (target ← aget "ret_steps" (ret_steps t) i;
             t ← stepper_call i (MoveTo target) t;
             w ← aset "whisking_status" (whisking_status t) i 1;
             Done (set_whisking_status w t)) = Done t' ->
            rtc update t t').
  { intros i t t' Hb. apply bind_inv_Done in Hb as (target & [_ Ht]%aget_Done & Hb).
    apply bind_inv_Done in Hb as (t1 & H1 & Hb).
    apply bind_inv_Done in Hb as (w & Hw & Hb). injection Hb as <-.
    etrans; [ apply (stepper_call_updates _ _ _ _ H1); right; exact Ht | ].
    apply rtc_once, (phase_update _ _ _ _ Hw). auto. }
  destruct (sid =? ALL_FLAG).
  - exact (for_range_updates _ _ Hbody _ _ _ H).
  - exact (Hbody _ _ _ H).
Qed.

Lemma home_stepper_loop_updates (env : Env) (fuel : nat) (a : Z) :
  forall s s', home_stepper_loop env fuel a s = Done s' -> rtc update s s'.
Proof.
  induction fuel as [|fuel IH]; intros s s' H; [ discriminate | ].
  cbn [home_stepper_loop] in H.
  apply bind_inv_Done in H as (pin & _ & H).
  destruct (digitalRead env pin (trace s)); [ | injection H as <-; reflexivity ].
  apply bind_inv_Done in H as (left & _ & H).
  apply bind_inv_Done in H as (m & [Ha Hm]%deref_Done & H).
  apply IH in H. etrans; [ | exact H ].
  etrans; [ | apply rtc_once, update_delay ].
  apply rtc_once. destruct (truthy left); apply (update_step s a m); auto.
Qed.

Lemma home_stepper_updates (env : Env) (fuel : nat) (a : Z) (s s' : State) :
  home_stepper env fuel a s = Done s' -> rtc update s s'.
Proof.
  unfold home_stepper. intros H. apply bind_inv_Done in H as (s1 & H1 & H).
  etrans; [ exact (home_stepper_loop_updates _ _ _ _ _ H1) | ].
  now apply (stepper_call_updates _ _ _ _ H).
Qed.

Lemma cmd_home_stepper_updates (env : Env) (fuel : nat) (sid : Z) (s s' : State) :
  cmd_home_stepper env fuel sid s = Done s' -> rtc update s s'.
Proof.
  unfold cmd_home_stepper. intros H.
  destruct (sid =? ALL_FLAG).
  - apply (for_range_updates _ _ (home_stepper_updates env fuel) _ _ _ H).
  - exact (home_stepper_updates _ _ _ _ _ H).
Qed.

Lemma run_command_updates (env : Env) (fuel : nat) (s s' : State) :
  run_command env fuel s = Done s' -> rtc update s s'.
Proof.
  unfold run_command. intros H. apply bind_inv_Done in H as (w & _ & H).
  repeat match type of H with
         | (if ?b then _ else _) = _ => destruct b
         | (_ ≫= _) = Done _ => apply bind_inv_Done in H as (? & _ & H)
         end;
    eauto using cmd_set_prot_updates, cmd_set_ret_updates, cmd_set_speed_updates,
      cmd_set_accel_updates, cmd_whisk_updates, cmd_home_stepper_updates,
      cmd_halt_whisk_updates, cmd_retract_updates.
  - unfold cmd_set_sampling in H. injection H as <-. apply rtc_once, update_sampling.
  - injection H as <-. reflexivity.
Qed.

Lemma loop_char_updates (env : Env) (fuel : nat) (c : ascii) (s s' : State) :
  loop_char env fuel c s = Done s' -> rtc update s s'.
Proof.
  unfold loop_char. intros H. destruct (c =? CR)%char.
  - apply bind_inv_Done in H as (s1 & H1 & H).
    apply bind_inv_Done in H as (s2 & H2 & H). injection H as <-.
    etrans; [ exact (end_of_line_updates _ _ H1) | ].
    etrans; [ exact (run_command_updates _ _ _ _ H2) | ].
    apply rtc_once.
    replace (set_user_command_buffer_index 0 s2)
      with (set_user_command_buffer_index 0
              (set_user_command_buffer (user_command_buffer s2) s2))
      by (destruct s2; reflexivity).
    now apply line_update.
  - exact (edit_char_updates _ _ _ H).
Qed.

Lemma onestep_updates (i : Z) (dir : direction) (s s' : State) :
  onestep i dir INTERLEAVE s = Done s' -> rtc update s s'.
Proof.
  unfold onestep. intros H. apply bind_inv_Done in H as (m & [Hi Hm]%deref_Done & H).
  injection H as <-. apply rtc_once, (update_step s i m); auto.
Qed.

Lemma stepper_run_updates (env : Env) (i : Z) (s s' : State) :
  stepper_run env i s = Done s' -> rtc update s s'.
Proof.
  unfold stepper_run. intros H.
  apply bind_inv_Done in H as (h & [Hi Hh]%deref_Done & H).
  apply bind_inv_Done in H as (s1 & H1 & H).
  etrans; [ exact (stepper_call_updates _ _ _ _ H1 I) | ].
  destruct (runSpeed env h (trace s)) as [dir|]; [ | injection H as <-; reflexivity ].
  assert (Hslot : 0 <= i < 16).
  { destruct (Z_lt_ge_dec i 16) as [Hlt|Hge]; [ lia | ].
    unfold callbacks in H. rewrite !aget_out in H by (simpl; lia). discriminate. }
  rewrite callbacks_slot in H by exact Hslot. cbn [mbind outcome_bind] in H.
  destruct dir; exact (onestep_updates _ _ _ _ H).
Qed.

Lemma advance_axis_updates (env : Env) (i : Z) (s s' : State) :
  advance_axis env i s = Done s' -> rtc update s s'.
Proof.
  unfold advance_axis. intros H.
  apply bind_inv_Done in H as (status & [Hi Hst]%aget_Done & H).
  apply bind_inv_Done in H as (s1 & H1 & H).
  etrans; [ | exact (stepper_run_updates _ _ _ _ H) ].
  destruct (truthy status) eqn:Et; [ | injection H1 as <-; reflexivity ].
  apply bind_inv_Done in H1 as (h & _ & H1).
  destruct (distanceToGo env h =? 0); [ | injection H1 as <-; reflexivity ].
  apply bind_inv_Done in H1 as (w & [_ ->]%aset_Done & H1). cbv zeta in H1.
  apply bind_inv_Done in H1 as (status' & _ & H1).
  etrans.
  { apply rtc_once, (update_phase s i status (to_int (status - 1)) Hi Hst).
    right. right. split; [ | reflexivity ].
    intros ->. discriminate. }
  destruct (truthy status').
  - apply bind_inv_Done in H1 as (target & [_ Ht]%aget_Done & H1).
    apply (stepper_call_updates _ _ _ _ H1). right. exact Ht.
  - injection H1 as <-. reflexivity.
Qed.

(** Every change a pass of [loop] makes to the state is one of the writes
    listed in [update]. *)
Lemma loop_updates (env : Env) (fuel : nat) (input : list ascii) (s s' : State) :
  loop env fuel input s = Done s' -> rtc update s s'.
Proof.
  unfold loop. intros H. apply bind_inv_Done in H as (s1 & H1 & H).
  etrans; [ exact (drain_updates _ (loop_char_updates env fuel) _ _ _ H1) | ].
  exact (for_range_updates _ _ (advance_axis_updates env) _ _ _ H).
Qed.

Lemma passes_updates (env : Env) (fuel : nat) (inputs : list (list ascii)) :
  forall s s', passes env fuel inputs s = Done s' -> rtc update s s'.
Proof.
  induction inputs as [|input rest IH]; intros s s' H.
  - injection H as <-. reflexivity.
  - cbn [passes] in H. apply bind_inv_Done in H as (s1 & H1 & H).
    etrans; [ exact (loop_updates _ _ _ _ _ H1) | exact (IH _ _ H) ].
Qed.

Lemma updates_invariant (P : State -> Prop) :
  (forall s s', update s s' -> P s -> P s') ->
  forall s s', rtc update s s' -> P s -> P s'.
Proof. intros Hstep s s' Hrun. induction Hrun; eauto. Qed.

(** ** Invariants of the run-time code *)

Lemma update_keeps_topology (s s' : State) :
  update s s' -> topology s' = topology s /\ scratch s' = scratch s.
Proof. intros []; split; reflexivity. Qed.

Lemma update_trace (s s' : State) :
  update s s' ->
  trace s' = trace s \/ exists e, trace s' = trace s ++ [e] /\ motor_call e = true.
Proof.
  intros [| | | | |a m dir style Ha Hm [->| ->]| |]; try (left; reflexivity); right;
    eexists; (split; [ reflexivity | ]); reflexivity.
Qed.

Lemma update_phases (s s' : State) : update s s' -> phases_in_range s -> phases_in_range s'.
Proof.
  unfold phases_in_range.
  intros [a v Ha Hv|a v Ha Hv|a old v Ha Hold Hv|a h c Ha Hh Hc|v|a m dir style Ha Hm Hsty| |
          buf index words Hb Hw];
    try exact id.
  intros Hall. cbn [whisking_status set_whisking_status].
  apply Forall_insert; [ exact Hall | ].
  destruct Hv as [->|[->|[Hne ->]]]; try lia.
  pose proof (Forall_lookup_1 _ _ _ _ Hall Hold) as Hrange. cbv beta in Hrange.
  rewrite to_int_small by (unfold INT_MIN, INT_MAX; lia). lia.
Qed.

Lemma update_travel (s s' : State) : update s s' -> travel_bounded s -> travel_bounded s'.
Proof.
  unfold travel_bounded, moves_within_travel, within_travel.
  intros [a v Ha Hv|a v Ha Hv|a old v Ha Hold Hv|a h c Ha Hh Hc|v|a m dir style Ha Hm Hsty| |
          buf index words Hb Hw];
    try exact id; intros (Hp & Hr & Hm).
  - split; [ | split; assumption ].
    cbn [prot_steps set_prot_steps]. apply Forall_insert; [ exact Hp | lia ].
  - split; [ exact Hp | split; [ | exact Hm ] ].
    cbn [ret_steps set_ret_steps]. apply Forall_insert; [ exact Hr | lia ].
  - split; [ exact Hp | split; [ exact Hr | ] ].
    cbn [accel_steppers set_accel_steppers]. intros b h' t Hb Hin.
    destruct (decide (b = Z.to_nat a)) as [->|Hne].
    + rewrite list_lookup_insert_eq in Hb by (apply lookup_lt_Some in Hh; exact Hh).
      injection Hb as <-. apply in_app_or in Hin as [Hin|[->|[]]].
      * exact (Hm _ _ _ Hh Hin).
      * destruct Hc as [Hc|Hc].
        -- exact (Forall_lookup_1 _ _ _ _ Hp Hc).
        -- exact (Forall_lookup_1 _ _ _ _ Hr Hc).
    + rewrite list_lookup_insert_ne in Hb by congruence. exact (Hm _ _ _ Hb Hin).
Qed.

Lemma update_shaped (s s' : State) : update s s' -> shaped s -> shaped s'.
Proof.
  intros [a v Ha Hv|a v Ha Hv|a old v Ha Hold Hv|a h c Ha Hh Hc|v|a m dir style Ha Hm Hsty| |
          buf index words Hb Hw]
    [Hp Hr Hl Hw' Hm' Hacc Hn Hd Hu]; split;
    cbn [prot_steps ret_steps is_left whisking_status steppers accel_steppers num_steppers
         set_prot_steps set_ret_steps set_whisking_status set_accel_steppers set_sampling
         emit set_trace set_argument_words set_user_command_buffer_index
         set_user_command_buffer];
    rewrite ?length_insert; try assumption.
  - intros i Hi. destruct (Z.eq_dec i a) as [->|Hne].
    + rewrite list_lookup_insert_eq by (apply lookup_lt_Some in Hh; exact Hh). eauto.
    + rewrite list_lookup_insert_ne by lia. apply Hd. exact Hi.
  - intros i Hi. destruct (Z.eq_dec i a) as [->|Hne].
    + destruct (Hu a Hi) as [Hnone _]. congruence.
    + rewrite list_lookup_insert_ne by lia. apply Hu. exact Hi.
Qed.

Lemma update_sampling_ready (s s' : State) :
  update s s' -> sampling_ready s = true -> sampling_ready s' = true.
Proof.
  intros Hup Hready.
  destruct (sampling_ready_spec s Hready) as (Hc & Ho & Hn & Hall).
  destruct (update_keeps_topology _ _ Hup) as [[= _ Ecol _ _ _ _ Enw _] [= Eob _ _]].
  apply sampling_ready_intro; [ congruence | congruence | lia | ].
  intros i Hi. rewrite Enw in Hi.
  destruct (Hall i Hi)
    as (col & status & h & pin & Hcol & Hc0 & Hst%lookup_lt_Some & Hh%history_spec & _).
  rewrite Ecol.
  destruct Hup
    as [a v Ha Hv|a v Ha Hv|a old v Ha Hold Hv|a h' c Ha Hh' Hc'|v|a m dir Ha Hm| |
        buf index words Hb Hw];
    cbn [whisking_status accel_steppers
         set_prot_steps set_ret_steps set_whisking_status set_accel_steppers set_sampling
         emit set_trace set_argument_words set_user_command_buffer_index
         set_user_command_buffer];
    rewrite ?length_insert; try (exists col, h; split; [ exact Hcol | ]; split; [ exact Hc0 | ];
                                 split; [ lia | exact Hh ]).
  destruct (Z.eq_dec col a) as [->|Hne].
  - exists a, (h' ++ [c]). split; [ exact Hcol | ]. split; [ exact Hc0 | ]. split; [ lia | ].
    apply list_lookup_insert_eq. apply lookup_lt_Some in Hh. exact Hh.
  - exists col, h. split; [ exact Hcol | ]. split; [ exact Hc0 | ]. split; [ lia | ].
    rewrite list_lookup_insert_ne by lia. exact Hh.
Qed.

(** Bring-up hands every declared axis a fresh [AccelStepper] on which it
    has set the default speed and acceleration, and nothing else. *)
Lemma setup_histories (bursts : list (list ascii)) (s : State) :
  setup bursts init_state = Done s ->
  forall a h, accel_steppers s !! a = Some (Some h) ->
    h = [SetMaxSpeed default_speed; SetAcceleration default_accel].
Proof.
  unfold setup. cbv zeta. intros H.
  apply bind_inv_Done in H as (s1 & H1 & H).
  apply bind_inv_Done in H as (s2 & H2 & H).
  apply bind_inv_Done in H as (s3 & H3 & H).
  apply bind_inv_Done in H as (s4 & H4 & H). injection H as <-.
  apply setup_wait_brought_up in H1;
    [ | cbn [fst]; apply (brought_up_globals init_state);
        [ reflexivity | exact init_state_brought_up ] ].
  unfold for_upto in H2, H3.
  apply (for_range_keeps axis_globals) in H2;
    [ | intros j t t' Hb; apply bind_inv_Done in Hb as (pin & _ & Hb); now injection Hb as <- ].
  apply (for_range_keeps axis_globals) in H3;
    [ | intros j t t' Hb; apply bind_inv_Done in Hb as (pin & _ & Hb); now injection Hb as <- ].
  apply (brought_up_globals _ _ H2) in H1. apply (brought_up_globals _ _ H3) in H1.
  destruct (initializeSteppers_spec s3 H1) as (s4' & H4' & Heq & Hlen & Hlo & Hhi).
  rewrite H4 in H4'. injection H4' as <-.
  destruct H1 as [_ _ _ _ _ _ Bn _].
  assert (Hfin : forall t, accel_steppers t = accel_steppers s4 ->
            forall a h, accel_steppers t !! a = Some (Some h) ->
              h = [SetMaxSpeed default_speed; SetAcceleration default_accel]).
  { intros t -> a h Hh. pose proof (lookup_lt_Some _ _ _ Hh) as Ha. rewrite Hlen in Ha.
    destruct (Z_lt_ge_dec (Z.of_nat a) (num_steppers s3)) as [Hlt|Hge].
    - specialize (Hlo (Z.of_nat a) ltac:(lia)). rewrite Nat2Z.id in Hlo. congruence.
    - specialize (Hhi (Z.of_nat a) ltac:(lia)). rewrite Nat2Z.id in Hhi. congruence. }
  apply Hfin. destruct (truthy debug); reflexivity.
Qed.

Lemma power_on_Done (env : Env) (fuel : nat) (bursts inputs : list (list ascii)) (s : State) :
  power_on env fuel bursts inputs = Done s ->
  exists s0, setup bursts init_state = Done s0 /\ rtc update s0 s.
Proof.
  unfold power_on. intros H. apply bind_inv_Done in H as (s0 & H0 & H).
  exists s0. split; [ exact H0 | exact (passes_updates _ _ _ _ _ H) ].
Qed.

(** X1.  What bring-up registered cannot be changed at run time: whatever
    characters arrive, the passes of [loop] that return leave the
    orientation flags, the channel table, the shields, the motors, the
    three counts and the sampling period as they were, and do not touch the
    scratch globals of the sampling interrupt. *)
Theorem passes_keep_topology
  (env : Env) (fuel : nat) (inputs : list (list ascii)) (s s' : State) :
  passes env fuel inputs s = Done s' ->
  topology s' = topology s /\ scratch s' = scratch s.
Proof.
  intros H%passes_updates.
  induction H as [s|s t u Hst _ [IH1 IH2]]; [ auto | ].
  destruct (update_keeps_topology _ _ Hst) as [E1 E2]. split; congruence.
Qed.

(** X2.  The run-time code never answers: the only board calls of the
    passes of [loop] are the single steps and the 25 ms pauses of homing
    and the interleaved steps that [run] makes through the callbacks of the
    axes.  Nothing is written to the serial port, whatever the command and
    whether it was understood or not. *)
Theorem loop_is_silent
  (env : Env) (fuel : nat) (inputs : list (list ascii)) (s s' : State) :
  passes env fuel inputs s = Done s' ->
  exists calls,
    trace s' = trace s ++ calls
    /\ forallb motor_call calls = true
    /\ existsb serial_call calls = false.
Proof.
  intros H%passes_updates.
  induction H as [s|s t u Hst _ (calls & Eu & Hcalls & Hser)].
  - exists []. split; [ now rewrite app_nil_r | split; reflexivity ].
  - destruct (update_trace _ _ Hst) as [E|(e & E & He)]; rewrite E in Eu.
    + exists calls. auto.
    + exists (e :: calls). rewrite <- app_assoc in Eu. split; [ exact Eu | ].
      cbn [forallb existsb]. rewrite He, Hcalls, Hser. split; [ reflexivity | ].
      destruct e as [| | | | | | | | | |motor dir []| |]; try discriminate; reflexivity.
Qed.

(** X3.  From reset on, the phase of every axis is 0, 1 or 2: the commands
    store 2 or 1 and the main cycle counts a phase down only while it is
    not 0. *)
Theorem phases_stay_in_range
  (env : Env) (fuel : nat) (bursts inputs : list (list ascii)) (s : State) :
  power_on env fuel bursts inputs = Done s -> phases_in_range s.
Proof.
  intros (s0 & H0 & Hrun)%power_on_Done.
  apply (updates_invariant _ update_phases _ _ Hrun).
  destruct (setup_well_formed _ _ H0) as (_ & _ & _ & Hw).
  unfold phases_in_range. rewrite Hw.
  change (whisking_status init_state) with (replicate 16 0).
  apply Forall_replicate. lia.
Qed.

(** X4.  From reset on, every target in the tables and every move ever
    requested of an [AccelStepper] lies in 0 .. [MAX_STEPS] - 1: the
    tables start at 133, 22 and 0, [set_prot] and [set_ret] store only
    values between 2 and 199, and each [moveTo] takes its target from the
    tables. *)
Theorem travel_stays_bounded
  (env : Env) (fuel : nat) (bursts inputs : list (list ascii)) (s : State) :
  power_on env fuel bursts inputs = Done s -> travel_bounded s.
Proof.
  intros (s0 & H0 & Hrun)%power_on_Done.
  apply (updates_invariant _ update_travel _ _ Hrun).
  destruct (setup_well_formed _ _ H0) as (_ & Hp & Hr & _).
  pose proof (setup_histories _ _ H0) as Hh.
  unfold travel_bounded. rewrite Hp, Hr. split; [ | split ].
  - change (prot_steps init_state) with (default_prot :: replicate 15 0).
    constructor; [ | apply Forall_replicate ]; unfold within_travel; vm_compute;
      intuition discriminate.
  - change (ret_steps init_state) with (default_ret :: replicate 15 0).
    constructor; [ | apply Forall_replicate ]; unfold within_travel; vm_compute;
      intuition discriminate.
  - intros a h t Ha Hin. rewrite (Hh _ _ Ha) in Hin.
    destruct Hin as [Hin|[Hin|[]]]; discriminate.
Qed.

(** X5.  Every state the firmware reaches from reset is well formed: the
    tables have their declared sizes, there are at most 16 axes, each
    declared axis has its [AccelStepper] and the unused slots hold null
    pointers.  The commands and the main cycle then find what they index. *)
Theorem reachable_well_formed
  (env : Env) (fuel : nat) (bursts inputs : list (list ascii)) (s : State) :
  power_on env fuel bursts inputs = Done s -> well_formed s = true.
Proof.
  intros (s0 & H0 & Hrun)%power_on_Done.
  apply well_formed_shaped.
  apply (updates_invariant _ update_shaped _ _ Hrun).
  apply well_formed_shaped. exact (proj1 (setup_well_formed _ _ H0)).
Qed.

(** X6.  In every state reached from reset the sampling interrupt
    returns: each channel it reads is bound to an axis that has an
    [AccelStepper], whatever commands were received since bring-up. *)
Theorem sampling_interrupt_returns
  (env env' : Env) (fuel : nat) (bursts inputs : list (list ascii)) (s : State) :
  power_on env fuel bursts inputs = Done s ->
  exists s', timerIsr env' s = Done s'.
Proof.
  intros (s0 & H0 & Hrun)%power_on_Done.
  unfold timerIsr. destruct (truthy (sampling s)); [ | eauto ].
  destruct (Z_lt_ge_dec (num_whiskers s) 0) as [Hneg|Hpos].
  - exists s. unfold for_upto. now rewrite Z2Nat.nonpos by lia.
  - assert (Hready : sampling_ready s = true).
    { apply (updates_invariant (fun t => sampling_ready t = true) update_sampling_ready
               _ _ Hrun).
      apply (setup_sampling_ready _ _ H0).
      assert (E : topology s = topology s0).
      { clear -Hrun. induction Hrun as [s|s t u Hst _ IH]; [ reflexivity | ].
        rewrite IH. exact (proj1 (update_keeps_topology _ _ Hst)). }
      injection E as _ _ _ _ _ _ E _. lia. }
    destruct (sampling_ready_spec s Hready) as (_ & Hob & Hn & _).
    destruct (sample_channels env' s (Z.to_nat (num_whiskers s)) Hready 0 s)
      as (s' & Hs' & _); [ apply sampled_refl | exact Hob | lia | lia | ].
    exists s'. exact Hs'.
Qed.

Lemma passes_keep_topology_witness :
  exists s',
    passes Bench.env 5 Session.inputs Scenario.two_axes = Done s'
    /\ topology s' = topology Scenario.two_axes.
Proof.
  eexists. split; [ vm_compute; reflexivity | ].
  apply (passes_keep_topology Bench.env 5 Session.inputs Scenario.two_axes).
  vm_compute. reflexivity.
Defined.

Lemma loop_is_silent_witness :
  exists s',
    passes Bench.env 5 Session.inputs Scenario.two_axes = Done s'
    /\ exists calls,
         trace s' = trace Scenario.two_axes ++ calls
         /\ forallb motor_call calls = true
         /\ existsb serial_call calls = false.
Proof.
  eexists. split; [ vm_compute; reflexivity | ].
  apply (loop_is_silent Bench.env 5 Session.inputs Scenario.two_axes).
  vm_compute. reflexivity.
Defined.

Lemma phases_stay_in_range_witness :
  exists s,
    power_on Bench.env 5 Scenario.bring_up Session.inputs = Done s /\ phases_in_range s.
Proof.
  eexists. split; [ vm_compute; reflexivity | ].
  apply (phases_stay_in_range Bench.env 5 Scenario.bring_up Session.inputs).
  vm_compute. reflexivity.
Defined.

Lemma travel_stays_bounded_witness :
  exists s,
    power_on Bench.env 5 Scenario.bring_up Session.inputs = Done s /\ travel_bounded s.
Proof.
  eexists. split; [ vm_compute; reflexivity | ].
  apply (travel_stays_bounded Bench.env 5 Scenario.bring_up Session.inputs).
  vm_compute. reflexivity.
Defined.

Lemma reachable_well_formed_witness :
  exists s,
    power_on Bench.env 5 Scenario.bring_up Session.inputs = Done s /\ well_formed s = true.
Proof.
  eexists. split; [ vm_compute; reflexivity | ].
  apply (reachable_well_formed Bench.env 5 Scenario.bring_up Session.inputs).
  vm_compute. reflexivity.
Defined.

Lemma sampling_interrupt_returns_witness :
  exists s,
    power_on Bench.env 5 Scenario.bring_up Session.inputs = Done s
    /\ sampling s = 1
    /\ exists s', timerIsr Bench.env s = Done s'.
Proof.
  eexists. split; [ vm_compute; reflexivity | ]. split; [ reflexivity | ].
  apply (sampling_interrupt_returns Bench.env Bench.env 5 Scenario.bring_up Session.inputs).
  vm_compute. reflexivity.
Defined.

(** ** What parse makes of a line *)

Lemma aget_middle {A} name (pre rest : list A) (c : A) :
  aget name (pre ++ c :: rest) (Z.of_nat (length pre)) = Done c.
Proof.
  apply aget_lookup; [ lia | ]. rewrite Nat2Z.id. now apply list_lookup_middle.
Qed.

Lemma aset_middle {A} name (pre rest : list A) (c v : A) :
  aset name (pre ++ c :: rest) (Z.of_nat (length pre)) v = Done (pre ++ v :: rest).
Proof.
  rewrite aset_in by (rewrite length_app; simpl; lia).
  rewrite Nat2Z.id, insert_app_r_alt, Nat.sub_diag by lia. reflexivity.
Qed.

Lemma separator_not_word (c : ascii) : is_separator c = true -> word_char c = false.
Proof. unfold word_char. intros ->. now rewrite andb_false_r. Qed.

Lemma word_char_spec (c : ascii) :
  word_char c = true -> (c =? NUL)%char = false /\ is_separator c = false.
Proof.
  unfold word_char. intros [H1 H2]%andb_true_iff.
  split; [ now apply negb_true_iff in H1 | now apply negb_true_iff in H2 ].
Qed.

(** The first inner loop of [parse] over a run of separators that ends
    before a character of another kind. *)
Lemma blank_separators_run (run : list ascii) :
  forall (fuel : nat) (pre rest : list ascii) (c : ascii),
    forallb is_separator run = true -> is_separator c = false ->
    (length run < fuel)%nat ->
    blank_separators fuel (pre ++ run ++ c :: rest) (Z.of_nat (length pre))
    = Done (pre ++ replicate (length run) NUL ++ c :: rest,
            Z.of_nat (length pre) + Z.of_nat (length run)).
Proof.
  induction run as [|a run IH]; intros fuel pre rest c Hrun Hc Hfuel;
    (destruct fuel as [|fuel]; [ simpl in Hfuel; lia | ]); cbn [blank_separators].
  - cbn [app length replicate]. rewrite aget_middle. run. rewrite Hc, Z.add_0_r. reflexivity.
  - cbn [forallb] in Hrun. apply andb_true_iff in Hrun as [Ha Hrun].
    cbn [app]. rewrite aget_middle. run. rewrite Ha, aset_middle. run.
    specialize (IH fuel (pre ++ [NUL]) rest c Hrun Hc ltac:(simpl in Hfuel; lia)).
    rewrite length_app, <- !app_assoc in IH. cbn [length app] in IH.
    replace (Z.of_nat (length pre) + 1) with (Z.of_nat (length pre + 1)) by lia.
    rewrite IH. cbn [length replicate app]. f_equal. f_equal. lia.
Qed.

(** The second inner loop over a word that ends before a separator or the
    terminator. *)
Lemma skip_argument_word (w : list ascii) :
  forall (fuel : nat) (pre rest : list ascii) (c : ascii),
    forallb word_char w = true -> word_char c = false ->
    (length w < fuel)%nat ->
    skip_argument fuel (pre ++ w ++ c :: rest) (Z.of_nat (length pre))
    = Done (Z.of_nat (length pre) + Z.of_nat (length w)).
Proof.
  induction w as [|a w IH]; intros fuel pre rest c Hw Hc Hfuel;
    (destruct fuel as [|fuel]; [ simpl in Hfuel; lia | ]); cbn [skip_argument].
  - cbn [app length]. rewrite aget_middle. run.
    change (negb (c =? NUL)%char && negb (is_separator c)) with (word_char c).
    rewrite Hc, Z.add_0_r. reflexivity.
  - cbn [forallb] in Hw. apply andb_true_iff in Hw as [Ha Hw].
    cbn [app]. rewrite aget_middle. run.
    change (negb (a =? NUL)%char && negb (is_separator a)) with (word_char a). rewrite Ha.
    specialize (IH fuel (pre ++ [a]) rest c Hw Hc ltac:(simpl in Hfuel; lia)).
    rewrite length_app, <- !app_assoc in IH. cbn [length app] in IH.
    replace (Z.of_nat (length pre) + 1) with (Z.of_nat (length pre + 1)) by lia.
    rewrite IH. cbn [length]. f_equal. lia.
Qed.

(** A C string reads back the word it starts at. *)
Lemma cstr_word (w : list ascii) :
  forall (fuel : nat) (pre rest : list ascii),
    forallb word_char w = true -> (length w < fuel)%nat ->
    cstr fuel (pre ++ w ++ NUL :: rest) (Z.of_nat (length pre))
    = Done (string_of_list_ascii w).
Proof.
  induction w as [|a w IH]; intros fuel pre rest Hw Hfuel;
    (destruct fuel as [|fuel]; [ simpl in Hfuel; lia | ]); cbn [cstr].
  - cbn [app]. rewrite aget_middle. reflexivity.
  - cbn [forallb] in Hw. apply andb_true_iff in Hw as [Ha Hw].
    apply word_char_spec in Ha as [Ha _].
    cbn [app]. rewrite aget_middle. run. rewrite Ha.
    specialize (IH fuel (pre ++ [a]) rest Hw ltac:(simpl in Hfuel; lia)).
    rewrite length_app, <- !app_assoc in IH. cbn [length app] in IH.
    replace (Z.of_nat (length pre) + 1) with (Z.of_nat (length pre + 1)) by lia.
    rewrite IH. reflexivity.
Qed.

Lemma separator_not_nul (c : ascii) : is_separator c = true -> (c =? NUL)%char = false.
Proof.
  intros Hc. destruct (c =? NUL)%char eqn:E; [ | reflexivity ].
  apply Ascii.eqb_eq in E. subst c. discriminate.
Qed.

(** What follows a word of a well spaced line stops the second inner loop. *)
Lemma written_head (ws : list (list ascii * list ascii)) (tl : list ascii) :
  Forall spaced_word ws -> Forall (fun rw => rw.1 <> []) ws ->
  exists c rest, written ws ++ NUL :: tl = c :: rest /\ word_char c = false.
Proof.
  intros Hws Hruns. destruct ws as [|[r w] ws]; [ exists NUL, tl; auto | ].
  apply Forall_cons in Hws as [(Hr & _) _]. apply Forall_cons in Hruns as [Hne _].
  cbn [fst snd] in *. destruct r as [|b r]; [ contradiction | ].
  cbn [forallb] in Hr. apply andb_true_iff in Hr as [Hb _].
  exists b. eexists. split; [ reflexivity | now apply separator_not_word ].
Qed.

(** The outer loop of [parse] on a well spaced line: every run of
    separators is blanked, and the pointers stored are the starts of the
    words. *)
Lemma parse_loop_words (maxArgs : Z) (tl : list ascii) (ws : list (list ascii * list ascii)) :
  forall (fuel : nat) (pre : list ascii) (argCount : Z),
    well_spaced ws -> (length ws < fuel)%nat ->
    0 <= argCount -> argCount + Z.of_nat (length ws) <= maxArgs - 1 -> maxArgs - 1 <= 255 ->
    parse_loop fuel maxArgs (pre ++ written ws ++ NUL :: tl) (Z.of_nat (length pre)) argCount
    = Done (pre ++ blanked ws ++ NUL :: tl, map Some (starts (Z.of_nat (length pre)) ws)).
Proof.
  induction ws as [|[r w] ws IH]; intros fuel pre argCount [Hws Hruns] Hfuel Hc0 Hc1 Hmax;
    (destruct fuel as [|fuel]; [ simpl in Hfuel; lia | ]); cbn [parse_loop].
  - cbn [written blanked map concat app]. rewrite aget_middle. reflexivity.
  - apply Forall_cons in Hws as [(Hr & Hne & Hw) Hws]. cbn [fst snd tail] in *.
    assert (Hc2 : argCount + 1 + Z.of_nat (length ws) <= maxArgs - 1)
      by (cbn [length] in Hc1; lia).
    destruct w as [|a w]; [ contradiction | ].
    pose proof Hw as Hw'. cbn [forallb] in Hw'. apply andb_true_iff in Hw' as [Ha _].
    apply word_char_spec in Ha as [Hanul Hasep].
    set (rest := w ++ written ws ++ NUL :: tl).
    assert (Ebuf : pre ++ written ((r, a :: w) :: ws) ++ NUL :: tl = pre ++ r ++ a :: rest).
    { unfold written, rest. cbn [map concat fst snd]. now rewrite <- !app_assoc. }
    rewrite Ebuf.
    assert (Hhead : exists c, aget "user_command_buffer" (pre ++ r ++ a :: rest)
                                (Z.of_nat (length pre)) = Done c
                              /\ (c =? NUL)%char = false).
    { destruct r as [|b r]; cbn [app]; rewrite aget_middle.
      - eauto.
      - cbn [forallb] in Hr. apply andb_true_iff in Hr as [Hb _].
        exists b. split; [ reflexivity | now apply separator_not_nul ]. }
    destruct Hhead as (c & -> & Hcnul). run. rewrite Hcnul.
    rewrite blank_separators_run
      by (try assumption; rewrite !length_app; simpl; lia).
    run. rewrite to_uint8_small by lia.
    set (pre1 := pre ++ replicate (length r) NUL).
    assert (Hlen1 : Z.of_nat (length pre) + Z.of_nat (length r) = Z.of_nat (length pre1)).
    { unfold pre1. rewrite length_app, length_replicate. lia. }
    destruct (argCount + 1 =? maxArgs - 1) eqn:Hlast.
    + apply Z.eqb_eq in Hlast. destruct ws as [|rw ws]; [ | cbn [length] in Hc2; lia ].
      unfold rest, blanked, written. cbn [map concat starts fst snd app].
      rewrite !app_nil_r, <- !app_assoc. reflexivity.
    + destruct (written_head ws tl Hws Hruns) as (c' & rest' & Erest & Hstop).
      assert (Ebuf1 : pre ++ replicate (length r) NUL ++ a :: rest
                      = pre1 ++ (a :: w) ++ c' :: rest').
      { unfold pre1, rest. rewrite Erest, <- !app_assoc. reflexivity. }
      rewrite Ebuf1, Hlen1.
      rewrite skip_argument_word
        by (try assumption; unfold rest; rewrite !length_app; simpl;
            rewrite !length_app; lia).
      run.
      assert (Ebuf2 : pre1 ++ (a :: w) ++ c' :: rest'
                      = (pre1 ++ a :: w) ++ written ws ++ NUL :: tl).
      { rewrite <- Erest, <- !app_assoc. reflexivity. }
      assert (Hlen2 : Z.of_nat (length pre1) + Z.of_nat (length (a :: w))
                      = Z.of_nat (length (pre1 ++ a :: w))).
      { rewrite length_app. lia. }
      rewrite Ebuf2, Hlen2.
      rewrite IH; [ | split; [ exact Hws | now apply Forall_tail ]
                    | simpl in Hfuel; lia | lia | lia | lia ].
      run. f_equal. f_equal.
      * unfold blanked, pre1. cbn [map concat fst snd]. now rewrite <- !app_assoc.
      * cbn [map starts fst snd]. rewrite <- Hlen2, <- Hlen1. reflexivity.
Qed.

(** After a word of a blanked line comes a terminator. *)
Lemma blanked_head (ws : list (list ascii * list ascii)) (tl : list ascii) :
  Forall (fun rw => rw.1 <> []) ws ->
  exists rest, blanked ws ++ NUL :: tl = NUL :: rest.
Proof.
  intros Hruns. destruct ws as [|[r w] ws]; [ exists tl; reflexivity | ].
  apply Forall_cons in Hruns as [Hne _]. cbn [fst] in Hne.
  destruct r as [|b r]; [ contradiction | ].
  eexists. unfold blanked. cbn [map concat fst snd length replicate app]. reflexivity.
Qed.

Lemma written_length (ws : list (list ascii * list ascii)) :
  Forall spaced_word ws -> (length ws <= length (written ws))%nat.
Proof.
  induction 1 as [|[r w] ws (_ & Hne & _) _ IH]; [ simpl; lia | ].
  unfold written in *. cbn [map concat fst snd length] in *. rewrite !length_app.
  destruct w; [ contradiction | simpl; lia ].
Qed.

Lemma blanked_length (ws : list (list ascii * list ascii)) :
  length (blanked ws) = length (written ws).
Proof.
  induction ws as [|[r w] ws IH]; [ reflexivity | ].
  unfold blanked, written in *. cbn [map concat fst snd].
  rewrite !length_app, length_replicate, IH. reflexivity.
Qed.

(** Each pointer [parse] stored reads back the word it was stored for. *)
Lemma cstr_words (tl : list ascii) (ws : list (list ascii * list ascii)) :
  forall (fuel : nat) (pre : list ascii) (k : nat) (rw : list ascii * list ascii) (p : Z),
    well_spaced ws -> (length (written ws) < fuel)%nat ->
    ws !! k = Some rw -> starts (Z.of_nat (length pre)) ws !! k = Some p ->
    cstr fuel (pre ++ blanked ws ++ NUL :: tl) p = Done (string_of_list_ascii rw.2).
Proof.
  induction ws as [|[r w] ws IH]; intros fuel pre k rw p [Hws Hruns] Hfuel Hk Hp;
    [ discriminate | ].
  apply Forall_cons in Hws as [(Hr & Hne & Hw) Hws]. cbn [fst snd tail] in *.
  assert (Hlen : Z.of_nat (length pre) + Z.of_nat (length r)
                 = Z.of_nat (length (pre ++ replicate (length r) NUL)))
    by (rewrite length_app, length_replicate; lia).
  assert (Hfuel' : (length w + length (written ws) < fuel)%nat).
  { unfold written in *. cbn [map concat fst snd] in Hfuel.
    rewrite !length_app in Hfuel. lia. }
  destruct k as [|k]; cbn [starts fst snd] in Hp.
  - injection Hk as <-. injection Hp as <-. cbn [snd].
    destruct (blanked_head ws tl Hruns) as (rest & Erest).
    replace (pre ++ blanked ((r, w) :: ws) ++ NUL :: tl)
      with ((pre ++ replicate (length r) NUL) ++ w ++ NUL :: rest)
      by (unfold blanked in *; cbn [map concat fst snd];
          rewrite <- Erest, <- !app_assoc; reflexivity).
    rewrite Hlen. apply cstr_word; [ exact Hw | lia ].
  - replace (pre ++ blanked ((r, w) :: ws) ++ NUL :: tl)
      with ((pre ++ replicate (length r) NUL ++ w) ++ blanked ws ++ NUL :: tl)
      by (unfold blanked; cbn [map concat fst snd]; rewrite <- !app_assoc; reflexivity).
    apply (IH fuel _ k rw p); [ split; [ exact Hws | now apply Forall_tail ] | lia | exact Hk | ].
    replace (Z.of_nat (length (pre ++ replicate (length r) NUL ++ w)))
      with (Z.of_nat (length pre) + Z.of_nat (length r) + Z.of_nat (length w))
      by (rewrite !length_app, length_replicate; lia).
    exact Hp.
Qed.

(** [parse] on a well spaced line. *)
Lemma parse_written (ws : list (list ascii * list ascii)) (tl : list ascii) (maxArgs : Z) :
  well_spaced ws ->
  2 <= maxArgs <= 256 -> Z.of_nat (length ws) <= maxArgs - 1 ->
  parse (written ws ++ NUL :: tl) maxArgs
  = Done (blanked ws ++ NUL :: tl, map Some (starts 0 ws) ++ [None]).
Proof.
  intros Hws Hmax Hcount. pose proof (written_length ws (proj1 Hws)) as Hlen.
  unfold parse.
  pose proof (parse_loop_words maxArgs tl ws (S (length (written ws ++ NUL :: tl))) [] 0 Hws)
    as Hloop.
  cbn [app length] in Hloop. change (Z.of_nat 0) with 0 in Hloop.
  rewrite Hloop by (try lia; rewrite length_app; simpl; lia).
  reflexivity.
Qed.

(** X7.  [parse] on a line of words separated by runs of commas, spaces,
    tabs or line feeds, the run before the first word possibly empty, with
    no more than [maxArgs - 1] words: every separator is overwritten by the
    terminator, the entries stored are the offsets of the words in order
    and then the null end mark, and each stored pointer reads back, as a C
    string, exactly its word. *)
Theorem parse_splits_words
  (ws : list (list ascii * list ascii)) (tl : list ascii) (maxArgs : Z) :
  well_spaced ws ->
  2 <= maxArgs <= 256 -> Z.of_nat (length ws) <= maxArgs - 1 ->
  parse (written ws ++ NUL :: tl) maxArgs
  = Done (blanked ws ++ NUL :: tl, map Some (starts 0 ws) ++ [None])
  /\ forall k rw p,
       ws !! k = Some rw -> starts 0 ws !! k = Some p ->
       cstr (S (length (written ws ++ NUL :: tl))) (blanked ws ++ NUL :: tl) p
       = Done (string_of_list_ascii rw.2).
Proof.
  intros Hws Hmax Hcount. split; [ now apply parse_written | ].
  intros k rw p Hk Hp.
  apply (cstr_words tl ws _ [] k rw p Hws); [ | exact Hk | exact Hp ].
  rewrite length_app. simpl. lia.
Qed.

Lemma parse_splits_words_witness :
  exists buf',
    parse (Bench.chars "set_prot,  1 150" ++ [NUL; "x"%char]) 16
    = Done (buf', [Some 0; Some 11; Some 13; None]).
Proof.
  eexists.
  apply (parse_splits_words
           [ ([], Bench.chars "set_prot"); (Bench.chars ",  ", Bench.chars "1");
             (Bench.chars " ", Bench.chars "150") ] ["x"%char] 16).
  - split; repeat constructor; discriminate.
  - lia.
  - simpl. lia.
Defined.

(** ** The line editor *)

Lemma edited_refl (s : State) : edited s s.
Proof. unfold edited. destruct s; reflexivity. Qed.

Lemma edited_trans (s t u : State) : edited s t -> edited t u -> edited s u.
Proof. unfold edited. intros <- <-. destruct u; reflexivity. Qed.

(** One character that is no carriage return: the editor returns, within
    the buffer. *)
Lemma edit_char_in_bounds (c : ascii) (s : State) :
  length (user_command_buffer s) = 64%nat -> 0 <= user_command_buffer_index s <= 63 ->
  exists s',
    edit_char c s = Done s'
    /\ length (user_command_buffer s') = 64%nat
    /\ 0 <= user_command_buffer_index s' <= 63
    /\ edited s s'.
Proof.
  intros Hlen Hidx. unfold edit_char.
  destruct (((c =? BS)%char || (c =? DEL)%char) && (0 <? user_command_buffer_index s)) eqn:E1.
  - apply andb_true_iff in E1 as [_ Hpos%Z.ltb_lt].
    eexists. split; [ reflexivity | ]. cbn.
    rewrite to_uint8_small by lia.
    split; [ exact Hlen | ]. split; [ lia | ]. unfold edited. destruct s; reflexivity.
  - destruct ((code " " <=? code c) && (user_command_buffer_index s <? 64 - 1)) eqn:E2.
    + apply andb_true_iff in E2 as [_ Hroom%Z.ltb_lt].
      rewrite aset_in by lia. run. eexists. split; [ reflexivity | ]. cbn.
      rewrite to_uint8_small, length_insert by lia.
      split; [ exact Hlen | ]. split; [ lia | ]. unfold edited. destruct s; reflexivity.
    + exists s. split; [ reflexivity | ]. split; [ exact Hlen | ].
      split; [ exact Hidx | apply edited_refl ].
Qed.

(** X8.  The line editor cannot overrun the command buffer: whatever bytes
    arrive between two carriage returns, and however many, it returns with
    the index between 0 and 63 and the buffer at its 64 characters, and
    changes nothing but the buffer and the index. *)
Theorem line_editor_in_bounds (input : list ascii) :
  forall s : State,
    length (user_command_buffer s) = 64%nat -> 0 <= user_command_buffer_index s <= 63 ->
    exists s',
      drain edit_char input s = Done s'
      /\ length (user_command_buffer s') = 64%nat
      /\ 0 <= user_command_buffer_index s' <= 63
      /\ edited s s'.
Proof.
  induction input as [|c input IH]; intros s Hlen Hidx.
  - exists s. split; [ reflexivity | ]. split; [ exact Hlen | ].
    split; [ exact Hidx | apply edited_refl ].
  - destruct (edit_char_in_bounds c s Hlen Hidx) as (s1 & E1 & Hlen1 & Hidx1 & Hed1).
    destruct (IH s1 Hlen1 Hidx1) as (s' & E' & Hlen' & Hidx' & Hed').
    exists s'. cbn [drain]. rewrite E1. run.
    split; [ exact E' | ]. split; [ exact Hlen' | ]. split; [ exact Hidx' | ].
    exact (edited_trans _ _ _ Hed1 Hed').
Qed.

Lemma line_editor_in_bounds_witness :
  exists s',
    drain edit_char
      (Bench.chars "a line of more than sixty-three characters is cut by the editor: 0123456")
      Scenario.two_axes = Done s'
    /\ length (user_command_buffer s') = 64%nat
    /\ 0 <= user_command_buffer_index s' <= 63
    /\ edited Scenario.two_axes s'.
Proof.
  apply (line_editor_in_bounds _ Scenario.two_axes); [ reflexivity | ].
  change (user_command_buffer_index Scenario.two_axes) with 0. lia.
Defined.

Lemma edit_char_plain (c : ascii) (s : State) :
  c <> BS -> c <> DEL ->
  edit_char c s
  = if printable c && (user_command_buffer_index s <? 63) then
      buf ← aset "user_command_buffer" (user_command_buffer s) (user_command_buffer_index s) c;
      Done (set_user_command_buffer_index (to_uint8 (user_command_buffer_index s + 1))
              (set_user_command_buffer buf s))
    else Done s.
Proof.
  intros Hbs%Ascii.eqb_neq Hdel%Ascii.eqb_neq. unfold edit_char. now rewrite Hbs, Hdel.
Qed.

(** Characters typed on a line that holds [l], none of them a backspace or
    a delete: the printable ones are appended while there is room. *)
Lemma type_chars (text : list ascii) :
  forall (s : State) (l : list ascii),
    length (user_command_buffer s) = 64%nat ->
    user_command_buffer_index s = Z.of_nat (length l) ->
    take (length l) (user_command_buffer s) = l -> (length l <= 63)%nat ->
    Forall (fun c => c <> BS /\ c <> DEL) text ->
    exists s',
      drain edit_char text s = Done s'
      /\ length (user_command_buffer s') = 64%nat
      /\ user_command_buffer_index s'
         = Z.of_nat (length (take 63 (l ++ List.filter printable text)))
      /\ take (length (take 63 (l ++ List.filter printable text))) (user_command_buffer s')
         = take 63 (l ++ List.filter printable text)
      /\ edited s s'.
Proof.
  induction text as [|c text IH]; intros s l Hlen Hidx Hl Hroom Htext.
  - exists s. cbn [drain List.filter]. rewrite app_nil_r, firstn_all2 by lia.
    split; [ reflexivity | ]. split; [ exact Hlen | ]. split; [ exact Hidx | ].
    split; [ exact Hl | apply edited_refl ].
  - apply Forall_cons in Htext as [[Hbs Hdel] Htext].
    cbn [drain List.filter]. rewrite (edit_char_plain c s Hbs Hdel).
    destruct (printable c) eqn:Hc; cbn [andb].
    + destruct (user_command_buffer_index s <? 63) eqn:Hfull.
      * apply Z.ltb_lt in Hfull. rewrite aset_in by lia. run.
        rewrite to_uint8_small by lia.
        match goal with |- context [drain edit_char text ?t] => set (s1 := t) end.
        destruct (IH s1 (l ++ [c])) as (s' & E' & Hlen' & Hidx' & Hl' & Hed'); try assumption.
        { unfold s1. cbn. now rewrite length_insert. }
        { unfold s1. cbn. rewrite length_app. simpl. lia. }
        { unfold s1. cbn. rewrite length_app, Hidx, Nat2Z.id. cbn [length].
          rewrite Nat.add_1_r.
          erewrite take_S_r by (apply list_lookup_insert_eq; lia).
          rewrite take_insert_ge by lia. now rewrite Hl. }
        { rewrite length_app. simpl. lia. }
        rewrite <- app_assoc in Hidx', Hl'. cbn [app] in Hidx', Hl'.
        exists s'. split; [ exact E' | ]. split; [ exact Hlen' | ].
        split; [ exact Hidx' | ]. split; [ exact Hl' | ].
        apply (edited_trans _ s1); [ unfold edited, s1; destruct s; reflexivity | exact Hed' ].
      * apply Z.ltb_ge in Hfull. run.
        destruct (IH s l) as (s' & E' & Hlen' & Hidx' & Hl' & Hed'); try assumption.
        assert (Ecut : forall k, take 63 (l ++ k) = l).
        { intros k. rewrite take_app_le by lia. apply firstn_all2. lia. }
        rewrite Ecut in *. eauto 6.
    + run. destruct (IH s l) as (s' & E' & Hlen' & Hidx' & Hl' & Hed'); try assumption.
      eauto 6.
Qed.

(** X9.  What a line holds when the carriage return comes: of the
    characters typed since the last one (no backspace or delete among
    them), the control characters are dropped, and of the others the first
    63 are stored. *)
Theorem typed_line_is_cut (text : list ascii) (s : State) :
  length (user_command_buffer s) = 64%nat -> user_command_buffer_index s = 0 ->
  Forall (fun c => c <> BS /\ c <> DEL) text ->
  exists s',
    drain edit_char text s = Done s'
    /\ user_command_buffer_index s'
       = Z.of_nat (length (take 63 (List.filter printable text)))
    /\ take (length (take 63 (List.filter printable text))) (user_command_buffer s')
       = take 63 (List.filter printable text)
    /\ edited s s'.
Proof.
  intros Hlen Hidx Htext.
  destruct (type_chars text s [] Hlen Hidx eq_refl ltac:(simpl; lia) Htext)
    as (s' & E & _ & Hidx' & Hl' & Hed).
  exists s'. auto.
Qed.

Lemma typed_line_is_cut_witness :
  exists s',
    drain edit_char (Bench.chars "whisk" ++ [LF; TAB] ++ Bench.chars " 1") Scenario.two_axes
    = Done s'
    /\ user_command_buffer_index s' = 7
    /\ take 7 (user_command_buffer s') = Bench.chars "whisk 1".
Proof.
  destruct (typed_line_is_cut (Bench.chars "whisk" ++ [LF; TAB] ++ Bench.chars " 1")
              Scenario.two_axes) as (s' & E & Hidx & Hl & _).
  - reflexivity.
  - reflexivity.
  - repeat constructor; discriminate.
  - exists s'. split; [ exact E | ]. split; [ exact Hidx | exact Hl ].
Defined.

(** X10.  A backspace or a delete takes back the character typed before
    it: the index is as before and the line, closed by a carriage return,
    is parsed as if neither had been typed.  On a full line this fails:
    the character is dropped for want of room, and the backspace then
    removes the 63rd character. *)
Theorem backspace_takes_back (c b : ascii) (s : State) :
  length (user_command_buffer s) = 64%nat -> 0 <= user_command_buffer_index s <= 63 ->
  printable c = true -> c <> DEL -> b = BS \/ b = DEL ->
  exists s1 s2,
    edit_char c s = Done s1 /\ edit_char b s1 = Done s2
    /\ (user_command_buffer_index s < 63 ->
          user_command_buffer_index s2 = user_command_buffer_index s
          /\ end_of_line s2 = end_of_line s)
    /\ (user_command_buffer_index s = 63 ->
          s1 = s /\ user_command_buffer_index s2 = 62).
Proof.
  intros Hlen Hidx Hc Hdel Hb.
  assert (Hbs : c <> BS) by (intros ->; discriminate).
  assert (Eb : forall t, 0 < user_command_buffer_index t ->
            edit_char b t
            = Done (set_user_command_buffer_index (to_uint8 (user_command_buffer_index t - 1)) t)).
  { intros t Ht. unfold edit_char. rewrite (proj2 (Z.ltb_lt _ _) Ht).
    destruct Hb as [-> | ->]; reflexivity. }
  rewrite (edit_char_plain c s Hbs Hdel), Hc. cbn [andb].
  destruct (user_command_buffer_index s <? 63) eqn:Hroom.
  - apply Z.ltb_lt in Hroom. rewrite aset_in by lia. run.
    rewrite to_uint8_small by lia.
    eexists. eexists. split; [ reflexivity | ].
    rewrite Eb by (cbn [user_command_buffer_index set_user_command_buffer_index]; lia).
    cbn [user_command_buffer_index set_user_command_buffer_index set_user_command_buffer].
    replace (user_command_buffer_index s + 1 - 1) with (user_command_buffer_index s) by lia.
    rewrite to_uint8_small by lia.
    split; [ reflexivity | ]. split; [ | lia ]. intros _.
    split; [ destruct s; reflexivity | ].
    unfold end_of_line.
    replace (user_command_buffer_index (set_user_command_buffer_index _ _))
      with (user_command_buffer_index s) by (destruct s; reflexivity).
    replace (user_command_buffer (set_user_command_buffer_index _ _))
      with (<[Z.to_nat (user_command_buffer_index s) := c]> (user_command_buffer s))
      by (destruct s; reflexivity).
    replace (argument_words (set_user_command_buffer_index _ _))
      with (argument_words s) by (destruct s; reflexivity).
    rewrite !aset_in by (rewrite ?length_insert; lia).
    rewrite list_insert_insert_eq. run.
    reflexivity.
  - apply Z.ltb_ge in Hroom. exists s. eexists. split; [ reflexivity | ].
    rewrite Eb by lia. split; [ reflexivity | ]. split; [ lia | ].
    intros E. split; [ reflexivity | ].
    cbn [user_command_buffer_index set_user_command_buffer_index]. rewrite E. reflexivity.
Qed.

Lemma backspace_takes_back_witness :
  exists s1 s2,
    edit_char "x" (Scenario.typed "whisk 1") = Done s1 /\ edit_char BS s1 = Done s2
    /\ user_command_buffer_index s2 = 7
    /\ end_of_line s2 = end_of_line (Scenario.typed "whisk 1").
Proof.
  destruct (backspace_takes_back "x" BS (Scenario.typed "whisk 1"))
    as (s1 & s2 & E1 & E2 & Hroom & _).
  - reflexivity.
  - vm_compute. split; discriminate.
  - reflexivity.
  - discriminate.
  - left. reflexivity.
  - exists s1, s2. split; [ exact E1 | ]. split; [ exact E2 | ].
    apply Hroom. vm_compute. reflexivity.
Defined.

(** X11.  A carriage return on an empty line: [parse] stores nothing but
    the null end mark in entry 0, and both dispatchers hand that null
    pointer to [strcmp] as the command name. *)
Theorem empty_line_has_no_command (env : Env) (fuel : nat) (s : State) (flag : Z) :
  length (user_command_buffer s) = 64%nat -> length (argument_words s) = 8%nat ->
  user_command_buffer_index s = 0 ->
  (exists s', end_of_line s = Done s' /\ argument_words s' !! 0%nat = Some None)
  /\ loop_char env fuel CR s = Fault (NullPointer "argument_words" 0)
  /\ setup_char CR (s, flag) = Fault (NullPointer "argument_words" 0).
Proof.
  intros Hlen Hwords Hidx.
  destruct (user_command_buffer s) as [|c0 buf] eqn:Ebuf; [ discriminate | ].
  destruct (argument_words s) as [|w0 table] eqn:Etable; [ discriminate | ].
  assert (Hend : end_of_line s
                 = Done (set_argument_words (None :: table)
                           (set_user_command_buffer (NUL :: buf) s))).
  { unfold end_of_line. rewrite Ebuf, Etable, Hidx. reflexivity. }
  split; [ eexists; split; [ exact Hend | reflexivity ] | ].
  split.
  - unfold loop_char. change (CR =? CR)%char with true. cbv iota. rewrite Hend. reflexivity.
  - unfold setup_char. change (CR =? CR)%char with true. cbv iota. rewrite Hend. reflexivity.
Qed.

Lemma empty_line_has_no_command_witness :
  loop_char Bench.env 0 CR Scenario.two_axes = Fault (NullPointer "argument_words" 0).
Proof.
  apply (empty_line_has_no_command Bench.env 0 Scenario.two_axes 0); reflexivity.
Defined.

(** ** From the characters received to the words of the command *)

Lemma starts_length (ws : list (list ascii * list ascii)) :
  forall p, length (starts p ws) = length ws.
Proof. induction ws as [|rw ws IH]; intros p; simpl; auto. Qed.

Lemma filter_all {A} (f : A -> bool) (l : list A) :
  Forall (fun x => f x = true) l -> List.filter f l = l.
Proof. induction 1 as [|x l Hx _ IH]; simpl; [ reflexivity | now rewrite Hx, IH ]. Qed.

(** X12.  From the serial port to the arguments of a command.  A line of
    at most 7 words and at most 63 characters, every character printable,
    the words separated by runs of spaces or commas, is typed and closed by
    a carriage return: [argument_words[k]] then reads, as a C string, the
    k-th word of the line, and the entry after the last word is the null
    end mark. *)
Theorem typed_words_read_back (ws : list (list ascii * list ascii)) (s : State) :
  well_spaced ws -> (length ws <= 7)%nat -> (length (written ws) <= 63)%nat ->
  Forall (fun c => printable c = true /\ c <> DEL) (written ws) ->
  length (user_command_buffer s) = 64%nat -> length (argument_words s) = 8%nat ->
  user_command_buffer_index s = 0 ->
  exists s1 s2,
    drain edit_char (written ws) s = Done s1
    /\ end_of_line s1 = Done s2
    /\ (forall k rw, ws !! k = Some rw ->
          arg_text s2 (Z.of_nat k) = Done (string_of_list_ascii rw.2))
    /\ argument_words s2 !! length ws = Some None.
Proof.
  intros Hws Hcount Hfit Hchars Hlen Htable Hidx.
  destruct (type_chars (written ws) s [] Hlen Hidx eq_refl ltac:(simpl; lia))
    as (s1 & E1 & Hlen1 & Hidx1 & Hl1 & Hed1).
  { eapply Forall_impl; [ exact Hchars | ]. intros c [Hc Hdel]. split; [ | exact Hdel ].
    intros ->. discriminate. }
  cbn [app] in Hidx1, Hl1.
  rewrite filter_all in Hidx1, Hl1
    by (eapply Forall_impl; [ exact Hchars | ]; intros c [Hc _]; exact Hc).
  rewrite (take_ge (written ws) 63) in Hidx1, Hl1 by lia.
  assert (Etable : argument_words s1 = argument_words s)
    by (unfold edited in Hed1; rewrite <- Hed1; destruct s1; reflexivity).
  destruct (drop (length (written ws)) (user_command_buffer s1)) as [|c tl] eqn:Edrop.
  { apply (f_equal length) in Edrop. rewrite length_drop in Edrop. simpl in Edrop. lia. }
  assert (Ebuf : user_command_buffer s1 = written ws ++ c :: tl).
  { rewrite <- (take_drop (length (written ws)) (user_command_buffer s1)), Hl1, Edrop.
    reflexivity. }
  pose proof (parse_written ws tl 16 Hws ltac:(lia) ltac:(lia)) as Hparse.
  exists s1. eexists. split; [ exact E1 | ].
  unfold end_of_line. rewrite Hidx1, Ebuf, aset_middle. run.
  change (to_uint8 sizeof_argument_words) with 16. rewrite Hparse. run.
  unfold store_words.
  rewrite (proj2 (Nat.leb_le _ _))
    by (rewrite Etable, Htable, length_app, length_map, starts_length; simpl; lia).
  run. split; [ reflexivity | ].
  cbn [argument_words set_argument_words user_command_buffer set_user_command_buffer].
  split.
  - intros k rw Hk. unfold arg_text.
    cbn [argument_words set_argument_words user_command_buffer set_user_command_buffer].
    pose proof (lookup_lt_Some _ _ _ Hk) as Hklt.
    destruct (lookup_lt_is_Some_2 (starts 0 ws) k) as [p Hp];
      [ now rewrite starts_length | ].
    rewrite (deref_lookup _ _ _ p); [ | lia | ].
    + run. apply (cstr_words tl ws _ [] k rw p Hws); [ | exact Hk | exact Hp ].
      rewrite length_app, blanked_length. simpl. lia.
    + rewrite Nat2Z.id, <- app_assoc, lookup_app_l by (now rewrite length_map, starts_length).
      now rewrite list_lookup_fmap, Hp.
  - rewrite <- app_assoc. rewrite lookup_app_r by (rewrite length_map, starts_length; lia).
    rewrite length_map, starts_length, Nat.sub_diag. reflexivity.
Qed.

Lemma typed_words_read_back_witness :
  exists s1 s2,
    drain edit_char (Bench.chars "set_prot 1, 150") Scenario.two_axes = Done s1
    /\ end_of_line s1 = Done s2
    /\ arg_text s2 0 = Done "set_prot"%string
    /\ arg_text s2 1 = Done "1"%string
    /\ arg_text s2 2 = Done "150"%string
    /\ argument_words s2 !! 3%nat = Some None.
Proof.
  destruct (typed_words_read_back
              [ ([], Bench.chars "set_prot"); (Bench.chars " ", Bench.chars "1");
                (Bench.chars ", ", Bench.chars "150") ] Scenario.two_axes)
    as (s1 & s2 & E1 & E2 & Hwords & Hend).
  - split; repeat constructor; discriminate.
  - simpl. lia.
  - simpl. lia.
  - repeat constructor; discriminate.
  - reflexivity.
  - reflexivity.
  - reflexivity.
  - exists s1, s2. split; [ exact E1 | ]. split; [ exact E2 | ].
    split; [ exact (Hwords 0%nat _ eq_refl) | ].
    split; [ exact (Hwords 1%nat _ eq_refl) | ].
    split; [ exact (Hwords 2%nat _ eq_refl) | exact Hend ].
Defined.

(** ** retract, and new targets *)

(** X13.  The line [retract a] for a declared axis, whatever its phase
    was, every declared axis having its motor: processing the command
    issues [moveTo] with the retraction target of the axis and sets its
    phase to 1, touching nothing else.  The main cycle then issues no
    further move on the axis: after [k] passes the calls that followed the
    [moveTo] are [k] [run]s, and the phase is 1 until the first pass that
    finds the distance to go at zero, which sets it to 0. *)
Theorem retract_course (env : Env) (fuel : nat) (s : State) (a ret : Z)
    (h0 : AccelStepper) :
  well_formed s = true -> motorised s = true -> declared s a = true ->
  receives1 s "retract" a ->
  ret_steps s !! Z.to_nat a = Some ret ->
  history s a = Some h0 ->
  exists s1,
    run_command env fuel s = Done s1
    /\ phase s1 a = Some 1
    /\ history s1 a = Some (h0 ++ [MoveTo ret])
    /\ moved s s1
    /\ forall k, exists sk,
         cycles env k s1 = Done sk
         /\ history sk a = Some (h0 ++ MoveTo ret :: replicate k Run)
         /\ phase sk a = Some (if arrived env (h0 ++ [MoveTo ret]) k then 0 else 1).
Proof.
  intros Hwf%well_formed_shaped Hmot%motorised_motors Ha%declared_spec Hline
    Hret Hh%history_spec.
  rewrite (run_command_retract env fuel s a Hline).
  pose proof Hwf as [Hp Hr Hl Hw Hm Hacc Hn Hd Hu].
  set (s1 := set_whisking_status (<[Z.to_nat a := 1]> (whisking_status s))
               (set_accel_steppers
                  (<[Z.to_nat a := Some (h0 ++ [MoveTo ret])]> (accel_steppers s)) s)).
  assert (Hm1 : motors s1) by exact Hmot.
  assert (Hcmd : cmd_retract a s = Done s1).
  { unfold cmd_retract. rewrite (declared_not_all s a) by (lia || now apply declared_spec).
    rewrite (aget_lookup "ret_steps" _ _ ret) by (lia || assumption). run.
    rewrite (stepper_call_spec _ _ _ h0) by (lia || assumption). run.
    rewrite aset_in by (simpl; lia). reflexivity. }
  assert (Hmv : moved s s1) by (unfold moved, s1; destruct s; reflexivity).
  assert (Hs1 : shaped s1).
  { apply (shaped_moved s); try assumption; simpl; rewrite ?length_insert; try assumption.
    - intros i Hi. destruct (Z.eq_dec i a) as [->|Hne].
      + rewrite list_lookup_insert_eq by lia. eauto.
      + rewrite list_lookup_insert_ne by lia. apply Hd. lia.
    - intros i Hi. rewrite list_lookup_insert_ne by lia. apply Hu. lia. }
  assert (Hph : whisking_status s1 !! Z.to_nat a = Some 1).
  { simpl. apply list_lookup_insert_eq. lia. }
  assert (Hhi : accel_steppers s1 !! Z.to_nat a = Some (Some (h0 ++ [MoveTo ret]))).
  { simpl. apply list_lookup_insert_eq. lia. }
  exists s1. split; [ exact Hcmd | ]. split; [ exact Hph | ].
  split; [ now apply history_spec | ]. split; [ exact Hmv | ].
  intros k. destruct (cycles_spec env k s1 Hs1 Hm1) as (sk & Hck & _ & _ & _ & Hax).
  exists sk. split; [ exact Hck | ].
  destruct (Hax a 1 (h0 ++ [MoveTo ret]) ret) as [Hphk Hhk]; try assumption.
  rewrite axis_run_retracting in Hphk, Hhk. simpl fst in Hphk. simpl snd in Hhk.
  split.
  - apply history_spec. rewrite Hhk, <- app_assoc. reflexivity.
  - exact Hphk.
Qed.

Lemma retract_course_witness :
  well_formed (Scenario.closed "retract 1") = true
  /\ motorised (Scenario.closed "retract 1") = true
  /\ declared (Scenario.closed "retract 1") 1 = true
  /\ receives1 (Scenario.closed "retract 1") "retract" 1
  /\ exists s1,
       run_command Bench.env 0 (Scenario.closed "retract 1") = Done s1
       /\ phase s1 1 = Some 1
       /\ history s1 1
          = Some [SetMaxSpeed default_speed; SetAcceleration default_accel; MoveTo 0].
Proof.
  assert (Hline : receives1 (Scenario.closed "retract 1") "retract" 1)
    by (split; vm_compute; reflexivity).
  split; [ vm_compute; reflexivity | ]. split; [ vm_compute; reflexivity | ].
  split; [ vm_compute; reflexivity | ]. split; [ exact Hline | ].
  destruct (retract_course Bench.env 0 (Scenario.closed "retract 1") 1 0
              [SetMaxSpeed default_speed; SetAcceleration default_accel])
    as (s1 & Hcmd & Hph & Hh & _);
    [ vm_compute; reflexivity | vm_compute; reflexivity | vm_compute; reflexivity
    | exact Hline | vm_compute; reflexivity | vm_compute; reflexivity | ].
  exists s1. auto.
Defined.

Lemma set_target_spec (s : State) (a v : Z) :
  shaped s -> 0 <= a < num_steppers s -> 1 < v < MAX_STEPS ->
  cmd_set_prot a v s = Done (set_prot_steps (<[Z.to_nat a := v]> (prot_steps s)) s)
  /\ cmd_set_ret a v s = Done (set_ret_steps (<[Z.to_nat a := v]> (ret_steps s)) s).
Proof.
  intros [Hp Hr _ _ _ _ Hn _ _] Ha Hv. unfold cmd_set_prot, cmd_set_ret.
  rewrite target_guard_true by exact Hv.
  replace (a =? ALL_FLAG) with false by (symmetry; apply Z.eqb_neq; unfold ALL_FLAG; lia).
  rewrite !aset_in by lia. split; reflexivity.
Qed.

(** X14.  New targets are the ones whisked.  After [set_prot a prot] and
    [set_ret a ret] with both values between 2 and 199, every declared axis
    having its motor and the driver bringing the two moves of the whisk to
    their end, [whisk a] moves the axis to [prot] and the main cycle brings
    it back to [ret]: the calls on the axis are [moveTo(prot)], one [run]
    per pass, and the single [moveTo(ret)] of the pass where the phase goes
    from 2 to 1. *)
Theorem new_targets_are_whisked
  (env : Env) (s : State) (a prot ret : Z) (h0 : AccelStepper) :
  well_formed s = true -> motorised s = true -> declared s a = true ->
  whisk_completes env h0 prot ret ->
  1 < prot < MAX_STEPS -> 1 < ret < MAX_STEPS ->
  history s a = Some h0 ->
  exists s1 s2 s3,
    cmd_set_prot a prot s = Done s1
    /\ cmd_set_ret a ret s1 = Done s2
    /\ cmd_whisk a s2 = Done s3
    /\ exists n1 n2 : nat,
         forall k, exists sk,
           cycles env k s3 = Done sk
           /\ phase sk a = Some (whisk_phase n1 n2 k)
           /\ history sk a = Some (whisk_history h0 prot ret n1 k).
Proof.
  intros Hwf%well_formed_shaped Hmot%motorised_motors Ha%declared_spec Harr
    Hprot Hret Hh%history_spec.
  pose proof Hwf as [Hp Hr Hl Hw Hm Hacc Hn Hd Hu].
  set (s1 := set_prot_steps (<[Z.to_nat a := prot]> (prot_steps s)) s).
  assert (Hs1 : shaped s1) by (split; cbn; rewrite ?length_insert; assumption).
  set (s2 := set_ret_steps (<[Z.to_nat a := ret]> (ret_steps s1)) s1).
  assert (Hs2 : shaped s2) by (split; cbn; rewrite ?length_insert; assumption).
  assert (Hm2 : motors s2) by exact Hmot.
  destruct (whisk_course env s2 a prot ret h0 Hs2 Hm2 Ha Harr)
    as (s3 & Hcmd & _ & _ & n1 & n2 & Hall & _).
  { cbn. apply list_lookup_insert_eq. lia. }
  { cbn. apply list_lookup_insert_eq. lia. }
  { exact Hh. }
  exists s1, s2, s3.
  split; [ exact (proj1 (set_target_spec s a prot Hwf Ha Hprot)) | ].
  split; [ exact (proj2 (set_target_spec s1 a ret Hs1 Ha Hret)) | ].
  split; [ exact Hcmd | ]. exists n1, n2. exact Hall.
Qed.

Lemma new_targets_are_whisked_witness :
  exists s1 s2 s3,
    cmd_set_prot 1 150 Scenario.two_axes = Done s1
    /\ cmd_set_ret 1 30 s1 = Done s2
    /\ cmd_whisk 1 s2 = Done s3
    /\ history s3 1
       = Some [SetMaxSpeed default_speed; SetAcceleration default_accel; MoveTo 150].
Proof.
  destruct (new_targets_are_whisked Bench.env Scenario.two_axes 1 150 30
              [SetMaxSpeed default_speed; SetAcceleration default_accel])
    as (s1 & s2 & s3 & H1 & H2 & H3 & n1 & n2 & Hall).
  - reflexivity.
  - reflexivity.
  - reflexivity.
  - apply arrives_whisk_completes. exact bench_arrives.
  - unfold MAX_STEPS. lia.
  - unfold MAX_STEPS. lia.
  - reflexivity.
  - exists s1, s2, s3. split; [ exact H1 | ]. split; [ exact H2 | ]. split; [ exact H3 | ].
    destruct (Hall 0%nat) as (s0 & Hs0 & _ & Hh0). injection Hs0 as <-.
    rewrite Hh0. reflexivity.
Defined.

(** ** The stepping callbacks *)

(** X15.  The callbacks of axis [i], for each of the sixteen axes: the
    forward one takes one interleaved step forward on motor [i], the
    backward one one interleaved step backward on motor [i], and neither
    touches another motor.  On an axis whose motor pointer is null both
    dereference it. *)
Theorem callbacks_step_own_motor (i : Z) :
  0 <= i < MAX_STEPPERS ->
  exists forward backward,
    callbacks i = Done (forward, backward)
    /\ (forall s, forward s = onestep i FORWARD INTERLEAVE s)
    /\ (forall s, backward s = onestep i BACKWARD INTERLEAVE s)
    /\ (forall s m, steppers s !! Z.to_nat i = Some (Some m) ->
          forward s = Done (emit (Onestep i FORWARD INTERLEAVE) s)
          /\ backward s = Done (emit (Onestep i BACKWARD INTERLEAVE) s))
    /\ (forall s, steppers s !! Z.to_nat i = Some None ->
          forward s = Fault (NullPointer "steppers" i)
          /\ backward s = Fault (NullPointer "steppers" i)).
Proof.
  intros Hi. unfold MAX_STEPPERS in Hi.
  assert (Hone : forall dir s m, steppers s !! Z.to_nat i = Some (Some m) ->
            onestep i dir INTERLEAVE s = Done (emit (Onestep i dir INTERLEAVE) s)).
  { intros dir s m Hm. unfold onestep. now rewrite (deref_lookup _ _ _ m) by (lia || exact Hm). }
  assert (Hnull : forall dir s, steppers s !! Z.to_nat i = Some None ->
            onestep i dir INTERLEAVE s = Fault (NullPointer "steppers" i)).
  { intros dir s Hm. unfold onestep. now rewrite deref_null by (lia || exact Hm). }
  assert (Hcases : i = 0 \/ i = 1 \/ i = 2 \/ i = 3 \/ i = 4 \/ i = 5 \/ i = 6 \/ i = 7
                   \/ i = 8 \/ i = 9 \/ i = 10 \/ i = 11 \/ i = 12 \/ i = 13 \/ i = 14
                   \/ i = 15) by lia.
  repeat (destruct Hcases as [->|Hcases]); try subst i;
    (eexists; eexists; split; [ reflexivity | ]);
    (split; [ reflexivity | ]); (split; [ reflexivity | ]);
    (split; [ intros s m Hm; split; exact (Hone _ s m Hm)
            | intros s Hm; split; exact (Hnull _ s Hm) ]).
Qed.

Lemma callbacks_step_own_motor_witness :
  exists forward backward,
    callbacks 1 = Done (forward, backward)
    /\ forward Scenario.two_axes
       = Done (emit (Onestep 1 FORWARD INTERLEAVE) Scenario.two_axes)
    /\ backward Scenario.two_axes
       = Done (emit (Onestep 1 BACKWARD INTERLEAVE) Scenario.two_axes).
Proof.
  destruct (callbacks_step_own_motor 1) as (f & b & E & _ & _ & Hm & _).
  - unfold MAX_STEPPERS. lia.
  - exists f, b. split; [ exact E | ].
    exact (Hm Scenario.two_axes {| shield := 0; port := 2 |} eq_refl).
Defined.

(** ** Bring-up, command by command *)

Lemma edit_char_line (c : ascii) (s s' : State) :
  edit_char c s = Done s' -> line_written s s'.
Proof.
  unfold edit_char, line_written. intros H.
  destruct (((c =? BS)%char || (c =? DEL)%char) && (0 <? user_command_buffer_index s)).
  - injection H as <-.
    exists (user_command_buffer s), (to_uint8 (user_command_buffer_index s - 1)),
      (argument_words s).
    destruct s; reflexivity.
  - destruct ((code " " <=? code c) && (user_command_buffer_index s <? 64 - 1)).
    + apply bind_inv_Done in H as (buf & _ & H). injection H as <-.
      exists buf, (to_uint8 (user_command_buffer_index s + 1)), (argument_words s).
      destruct s; reflexivity.
    + injection H as <-. exists (user_command_buffer s), (user_command_buffer_index s),
        (argument_words s). destruct s; reflexivity.
Qed.

Lemma end_of_line_line (s s' : State) : end_of_line s = Done s' -> line_written s s'.
Proof.
  unfold end_of_line, line_written. intros H.
  apply bind_inv_Done in H as (buf & _ & H).
  apply bind_inv_Done in H as ([buf' words] & _ & H).
  apply bind_inv_Done in H as (table & _ & H). injection H as <-.
  exists buf', (user_command_buffer_index s), table. destruct s; reflexivity.
Qed.

(** What holds before bring-up reads its commands, and is kept by the
    line editor, by the [p] command and by the [s] command, holds when
    bring-up has read them. *)
Lemma setup_wait_invariant (P : State -> Prop) :
  (forall s s', line_written s s' -> P s -> P s') ->
  (forall s v, P s -> P (set_sampling_period v s)) ->
  (forall s s' sidx midx numw side,
     setup_shield sidx midx numw side s = Done s' -> P s -> P s') ->
  forall bursts sc s', setup_wait bursts sc = Done s' -> P (fst sc) -> P s'.
Proof.
  intros Hline Hperiod Hshield.
  assert (Hindex : forall s, P s -> P (set_user_command_buffer_index 0 s)).
  { intros s. apply Hline. exists (user_command_buffer s), 0, (argument_words s).
    destruct s; reflexivity. }
  assert (Hchar : forall c sc sc', setup_char c sc = Done sc' -> P (fst sc) -> P (fst sc')).
  { intros c [s flag] [s' flag']. unfold setup_char. cbn [fst]. intros H Hs.
    destruct (c =? CR)%char.
    - apply bind_inv_Done in H as (s1 & H1 & H).
      apply bind_inv_Done in H as ([s2 flag2] & H2 & H). injection H as <- <-.
      apply Hindex. apply end_of_line_line in H1. apply (Hline _ _ H1) in Hs.
      unfold setup_command in H2. apply bind_inv_Done in H2 as (w & _ & H2).
      destruct (w =? "s")%string.
      + apply bind_inv_Done in H2 as (sidx & _ & H2).
        apply bind_inv_Done in H2 as (midx & _ & H2).
        apply bind_inv_Done in H2 as (numw & _ & H2).
        apply bind_inv_Done in H2 as (side & _ & H2).
        apply bind_inv_Done in H2 as (s3 & H3 & H2). injection H2 as <- <-.
        exact (Hshield _ _ _ _ _ _ H3 Hs).
      + destruct (w =? "p")%string.
        * apply bind_inv_Done in H2 as (period & _ & H2). injection H2 as <- <-.
          now apply Hperiod.
        * destruct (w =? "c")%string; injection H2 as <- <-; exact Hs.
    - apply bind_inv_Done in H as (s1 & H1 & H). injection H as <- <-.
      exact (Hline _ _ (edit_char_line _ _ _ H1) Hs). }
  induction bursts as [|b bursts IH]; intros sc s' H Hs; cbn [setup_wait] in H.
  - destruct (truthy (snd sc)); [ now injection H as <- | discriminate ].
  - destruct (truthy (snd sc)); [ now injection H as <- | ].
    apply bind_inv_Done in H as (sc1 & H1 & H). apply (IH _ _ H).
    clear H IH. revert sc sc1 H1 Hs. induction b as [|c b IHb]; intros sc sc1 H1 Hs.
    + now injection H1 as <-.
    + cbn [drain] in H1. apply bind_inv_Done in H1 as (sc0 & H0 & H1).
      apply (IHb _ _ H1). exact (Hchar _ _ _ H0 Hs).
Qed.

(** One axis declared: the counts. *)
Lemma declare_axis_counts (m w side : Z) (s s' : State) :
  declare_axis m w side s = Done s' ->
  0 <= num_steppers s <= 16 -> length (is_left s) = 16%nat ->
  (motor_shields s', num_shields s', trace s', sampling_period s')
  = (motor_shields s, num_shields s, trace s, sampling_period s)
  /\ length (is_left s') = 16%nat
  /\ num_steppers s' = num_steppers s + counted m
  /\ num_steppers s' <= 16
  /\ num_whiskers s' = (if truthy m && truthy w then to_int (num_whiskers s + w)
                        else num_whiskers s)
  /\ (truthy m = true ->
        steppers s' !! Z.to_nat (num_steppers s) = Some (getStepper (num_shields s) m)
        /\ is_left s' !! Z.to_nat (num_steppers s) = Some side).
Proof.
  unfold declare_axis, counted. intros H Hn Hleft.
  destruct (truthy m);
    [ | injection H as <-; cbn [andb]; repeat split; try assumption; lia ].
  apply bind_inv_Done in H as (s1 & H1 & H).
  assert (G1 : (motor_shields s1, num_shields s1, trace s1, sampling_period s1,
                num_steppers s1, is_left s1, steppers s1)
               = (motor_shields s, num_shields s, trace s, sampling_period s,
                  num_steppers s, is_left s, steppers s)
               /\ num_whiskers s1
                  = if truthy w then to_int (num_whiskers s + w) else num_whiskers s).
  { destruct (truthy w); [ | now injection H1 as <- ].
    apply bind_inv_Done in H1 as (s0 & H0 & H1). injection H1 as <-.
    unfold for_upto in H0.
    apply (for_range_keeps
             (fun t => (motor_shields t, num_shields t, trace t, sampling_period t,
                        num_steppers t, is_left t, steppers t, num_whiskers t))) in H0;
      [ | intros j t t' Hb; apply bind_inv_Done in Hb as (a & _ & Hb);
          now injection Hb as <- ].
    injection H0 as Ems Ens Etr Esp En El Est Enw.
    cbn [motor_shields num_shields trace sampling_period num_steppers is_left steppers
         num_whiskers set_num_whiskers].
    rewrite Ems, Ens, Etr, Esp, En, El, Est, Enw. split; reflexivity. }
  destruct G1 as [[= Ems Ens Etr Esp En El Est] Ew].
  apply bind_inv_Done in H as (l & [Hl ->]%aset_Done & H). cbv zeta in H.
  apply bind_inv_Done in H as (a & [Ha ->]%aset_Done & H). injection H as <-.
  cbn [motor_shields num_shields trace sampling_period num_steppers num_whiskers steppers
       is_left set_num_steppers set_steppers set_is_left andb] in *.
  rewrite En, El in *. rewrite Est in Ha. rewrite length_insert in *.
  rewrite to_int_small by (unfold INT_MIN, INT_MAX; lia).
  rewrite Ems, Ens, Etr, Esp, Ew.
  split; [ reflexivity | ]. split; [ exact Hleft | ]. split; [ reflexivity | ].
  split; [ lia | ]. split; [ reflexivity | ]. intros _.
  split; apply list_lookup_insert_eq; rewrite ?length_insert, ?Est; lia.
Qed.

(** The [s] command: what it needs to return, and what it counts. *)
Lemma setup_shield_counts (sidx midx numw side : Z) (s s' : State) :
  setup_shield sidx midx numw side s = Done s' ->
  0 <= num_steppers s <= 16 -> length (is_left s) = 16%nat ->
  length (motor_shields s) = 16%nat ->
  exists address,
    motorShield_addresses !! Z.to_nat sidx = Some address
    /\ 0 <= sidx < 32 /\ 0 <= num_shields s < 16
    /\ motor_shields s' = <[Z.to_nat (num_shields s) := Some address]> (motor_shields s)
    /\ num_shields s' = num_shields s + 1
    /\ trace s' = trace s ++ [ShieldBegin address]
    /\ sampling_period s' = sampling_period s
    /\ num_steppers s'
       = num_steppers s + counted (Z.rem (Z.quot midx 10) 10) + counted (Z.rem midx 10)
    /\ num_steppers s' <= 16
    /\ length (is_left s') = 16%nat
    /\ num_whiskers s'
       = (let tens :=
            if truthy (Z.rem (Z.quot midx 10) 10) && truthy (Z.rem (Z.quot numw 10) 10)
            then to_int (num_whiskers s + Z.rem (Z.quot numw 10) 10)
            else num_whiskers s in
          if truthy (Z.rem midx 10) && truthy (Z.rem numw 10)
          then to_int (tens + Z.rem numw 10) else tens).
Proof.
  rewrite setup_shield_by_blocks. unfold setup_shield_blocks. intros H Hn Hleft Hlen.
  apply bind_inv_Done in H as (addr & Haddr & H).
  pose proof (aget_in_bounds _ _ _ _ Haddr) as Hsidx. apply aget_Done in Haddr as [_ Haddr].
  apply bind_inv_Done in H as (ms & [Hns ->]%aset_Done & H). cbv zeta in H.
  apply bind_inv_Done in H as (t1 & H1 & H).
  apply bind_inv_Done in H as (t2 & H2 & H). injection H as <-.
  apply declare_axis_counts in H1; [ | exact Hn | exact Hleft ].
  destruct H1 as ([= Ems1 Ens1 Etr1 Esp1] & Hleft1 & En1 & Hle1 & Ew1 & _).
  cbn [motor_shields num_shields trace sampling_period num_steppers num_whiskers
       emit set_trace set_motor_shields] in Ems1, Ens1, Etr1, Esp1, En1, Ew1.
  apply declare_axis_counts in H2;
    [ | unfold counted in En1; destruct (truthy _); lia | exact Hleft1 ].
  destruct H2 as ([= Ems2 Ens2 Etr2 Esp2] & Hleft2 & En2 & Hle2 & Ew2 & _).
  exists addr. split; [ exact Haddr | ]. split; [ exact Hsidx | ]. split; [ lia | ].
  cbn [motor_shields num_shields trace sampling_period num_steppers num_whiskers
       set_num_shields].
  rewrite Ems2, Ens2, Etr2, Esp2, En2, Ew2, Ems1, Ens1, Etr1, Esp1, En1, Ew1.
  rewrite to_int_small by (unfold INT_MIN, INT_MAX; lia).
  repeat split; try reflexivity; [ rewrite <- En1, <- En2; exact Hle2 | exact Hleft2 ].
Qed.

Lemma rem_digit (z : Z) : -9 <= Z.rem z 10 <= 9.
Proof. pose proof (Z.rem_bound_abs z 10 ltac:(lia)). lia. Qed.

(** X16.  What an [s] line registers, and what it needs to return.  The
    line adds one shield, one axis for each motor digit that is not 0, and
    the whisker digits of exactly those axes; the whisker digit of a motor
    digit 0 is not counted.  Nothing checks the limits: the line returns
    only if the address index is within 0 .. 31, fewer than 16 shields were
    registered before it and no more than 16 axes are after it, the
    accesses it makes being outside the arrays otherwise. *)
Theorem shield_line_counts (sidx midx numw side : Z) (s s' : State) :
  0 <= num_steppers s <= 16 -> length (is_left s) = 16%nat ->
  length (motor_shields s) = 16%nat -> -32000 <= num_whiskers s <= 32000 ->
  setup_shield sidx midx numw side s = Done s' ->
  0 <= sidx < 32 /\ 0 <= num_shields s < 16
  /\ num_shields s' = num_shields s + 1
  /\ num_steppers s'
     = num_steppers s + counted (Z.rem (Z.quot midx 10) 10) + counted (Z.rem midx 10)
  /\ num_steppers s' <= 16
  /\ num_whiskers s'
     = num_whiskers s
       + (if truthy (Z.rem (Z.quot midx 10) 10) then Z.rem (Z.quot numw 10) 10 else 0)
       + (if truthy (Z.rem midx 10) then Z.rem numw 10 else 0).
Proof.
  intros Hn Hleft Hlen Hw H.
  destruct (setup_shield_counts _ _ _ _ _ _ H Hn Hleft Hlen)
    as (addr & _ & Hsidx & Hns & _ & Ens & _ & _ & En & Hle & _ & Ew).
  split; [ exact Hsidx | ]. split; [ exact Hns | ]. split; [ exact Ens | ].
  split; [ exact En | ]. split; [ exact Hle | ].
  rewrite Ew. cbv zeta.
  pose proof (rem_digit (Z.quot numw 10)) as Ht. pose proof (rem_digit numw) as Ho.
  assert (Htruthy : forall z, truthy z = false -> z = 0).
  { intros z Hz. unfold truthy in Hz. apply negb_false_iff, Z.eqb_eq in Hz. exact Hz. }
  destruct (truthy (Z.rem (Z.quot midx 10) 10));
    destruct (truthy (Z.rem (Z.quot numw 10) 10)) eqn:E1;
    destruct (truthy (Z.rem midx 10));
    destruct (truthy (Z.rem numw 10)) eqn:E2; cbn [andb];
    try (apply Htruthy in E1); try (apply Htruthy in E2);
    rewrite ?(to_int_small (num_whiskers s + _)) by (unfold INT_MIN, INT_MAX; lia);
    rewrite ?to_int_small by (unfold INT_MIN, INT_MAX; lia); lia.
Qed.

Lemma shield_line_counts_witness :
  exists s',
    setup_shield 3 20 39 0 init_state = Done s'
    /\ num_shields s' = 1 /\ num_steppers s' = 1 /\ num_whiskers s' = 3.
Proof.
  eexists. split; [ vm_compute; reflexivity | ].
  destruct (shield_line_counts 3 20 39 0 init_state
              ltac:(let t := eval vm_compute in
                      (match setup_shield 3 20 39 0 init_state with
                       | Done t => t
                       | _ => init_state
                       end) in exact t))
    as (_ & _ & E1 & E2 & _ & E3).
  - vm_compute. split; discriminate.
  - reflexivity.
  - reflexivity.
  - vm_compute. split; discriminate.
  - vm_compute. reflexivity.
  - split; [ exact E1 | ]. split; [ exact E2 | exact E3 ].
Defined.

(** A loop that sets the mode of the pins of a table, entry by entry. *)
Lemma pin_loop (name : string) (table : list Z) (mode : pin_mode) (n : nat) :
  forall (i : nat) (s s' : State),
    for_range (Z.of_nat i) n
      (fun i s => pin ← aget name table i; Done (emit (PinMode pin mode) s)) s = Done s' ->
    s' = set_trace (trace s ++ map (fun pin => PinMode pin mode) (take n (drop i table))) s.
Proof.
  induction n as [|n IH]; intros i s s' H.
  - injection H as <-. cbn [take map]. rewrite app_nil_r. now rewrite set_trace_id.
  - cbn [for_range] in H. apply bind_inv_Done in H as (t & Ht & H).
    apply bind_inv_Done in Ht as (pin & [_ Hpin]%aget_Done & Ht). injection Ht as <-.
    rewrite Nat2Z.id in Hpin.
    replace (Z.of_nat i + 1) with (Z.of_nat (S i)) in H by lia.
    rewrite (IH _ _ _ H). rewrite (drop_S _ _ _ Hpin). cbn [take map].
    unfold emit. cbn [trace set_trace]. rewrite <- app_assoc. destruct s; reflexivity.
Qed.

Lemma initializeSteppers_keeps (s s' : State) :
  initializeSteppers s = Done s' -> set_accel_steppers [] s' = set_accel_steppers [] s.
Proof.
  unfold initializeSteppers, for_upto. intros H.
  apply (for_range_keeps (set_accel_steppers [])) in H; [ exact H | ].
  intros j t t' Hb. apply bind_inv_Done in Hb as (a & _ & Hb). cbv zeta in Hb.
  apply bind_inv_Done in Hb as (t1 & (h1 & _ & _ & ->)%stepper_call_Done & Hb).
  apply stepper_call_Done in Hb as (h2 & _ & _ & ->). destruct t; reflexivity.
Qed.

Lemma shields_begun_init :
  shields_begun prologue
    (set_num_whiskers 0
       (emit AnalogReferenceInternal1V1
          (emit (SerialPrintlnChar "!") (emit (Delay 250) (emit (SerialBegin BAUD) init_state))))).
Proof.
  split; [ reflexivity | ]. split; [ cbn; lia | ].
  exists []. split; reflexivity.
Qed.

Lemma shields_begun_wait (bursts : list (list ascii)) (sc : State * Z) (s' : State) :
  setup_wait bursts sc = Done s' ->
  shields_begun prologue (fst sc) /\ 0 <= num_steppers (fst sc) <= 16
  /\ length (is_left (fst sc)) = 16%nat ->
  shields_begun prologue s'.
Proof.
  intros H Hs.
  apply (setup_wait_invariant
           (fun s => shields_begun prologue s /\ 0 <= num_steppers s <= 16
                     /\ length (is_left s) = 16%nat)) in H; [ tauto | | | | exact Hs ].
  - intros s t (buf & index & words & ->). exact id.
  - intros s v. exact id.
  - intros s t sidx midx numw side Hcmd ((Hlen & Hns & addrs & Htake & Htrace) & Hn & Hleft).
    destruct (setup_shield_counts _ _ _ _ _ _ Hcmd Hn Hleft Hlen)
      as (addr & _ & _ & Hns' & Ems & Ens & Etr & _ & En & Hle & Hleft' & _).
    split; [ | split; [ | exact Hleft' ] ].
    + split; [ rewrite Ems, length_insert; exact Hlen | ]. split; [ lia | ].
      exists (addrs ++ [addr]). rewrite Ens, Ems, Etr, Htrace, !map_app, <- app_assoc.
      split; [ | reflexivity ].
      replace (Z.to_nat (num_shields s + 1)) with (S (Z.to_nat (num_shields s))) by lia.
      erewrite take_S_r by (apply list_lookup_insert_eq; lia).
      rewrite take_insert_ge by lia. rewrite Htake. reflexivity.
    + split; [ | exact Hle ]. rewrite En. unfold counted.
      destruct (truthy _), (truthy _); lia.
Qed.

(** X17.  The board calls of a bring-up that completes, in order: the
    serial port opened at [BAUD], a pause of 250 ms, the line [!], the
    analog reference; [begin] on every registered shield, in the order of
    registration; the first [num_whiskers] analog pins set as inputs, then
    the first [num_steppers] limit pins set as inputs with pull-up; the
    timer initialised with the sampling period and the handler attached.
    Nothing else is called. *)
Theorem setup_board_calls (bursts : list (list ascii)) (s : State) :
  setup bursts init_state = Done s ->
  exists addresses,
    take (Z.to_nat (num_shields s)) (motor_shields s) = map Some addresses
    /\ trace s
       = prologue
         ++ map ShieldBegin addresses
         ++ map (fun pin => PinMode pin INPUT) (take (Z.to_nat (num_whiskers s)) analogPins)
         ++ map (fun pin => PinMode pin INPUT_PULLUP)
              (take (Z.to_nat (num_steppers s)) limit_pins)
         ++ [TimerInitialize (sampling_period s); TimerAttachInterrupt].
Proof.
  unfold setup. cbv zeta. intros H.
  apply bind_inv_Done in H as (s1 & H1 & H).
  apply bind_inv_Done in H as (s2 & H2 & H).
  apply bind_inv_Done in H as (s3 & H3 & H).
  apply bind_inv_Done in H as (s4 & H4 & H). injection H as <-.
  apply shields_begun_wait in H1;
    [ | cbn [fst]; split; [ exact shields_begun_init | split; [ cbn; lia | reflexivity ] ] ].
  destruct H1 as (_ & _ & addrs & Htake & Htrace).
  unfold for_upto in H2, H3.
  apply (pin_loop _ _ _ _ 0%nat) in H2. apply (pin_loop _ _ _ _ 0%nat) in H3.
  apply initializeSteppers_keeps in H4.
  change (truthy debug) with false. cbv iota.
  apply (f_equal (fun t => (motor_shields t, num_shields t, num_whiskers t, num_steppers t,
                            sampling_period t, trace t))) in H4.
  cbn [motor_shields num_shields num_whiskers num_steppers sampling_period trace
       set_accel_steppers] in H4.
  injection H4 as Ems Ens Enw Enst Esp Etr.
  exists addrs.
  cbn [motor_shields num_shields num_whiskers num_steppers sampling_period trace emit
       set_trace].
  rewrite Ems, Ens, Enw, Enst, Etr, H3, H2.
  cbn [motor_shields num_shields num_whiskers num_steppers sampling_period trace set_trace].
  split; [ exact Htake | ].
  rewrite Htrace, drop_0, <- !app_assoc. reflexivity.
Qed.

Lemma setup_board_calls_witness :
  trace Scenario.two_axes
  = prologue
    ++ [ ShieldBegin 0x60;
         PinMode 54 INPUT; PinMode 55 INPUT; PinMode 56 INPUT; PinMode 57 INPUT;
         PinMode 22 INPUT_PULLUP; PinMode 24 INPUT_PULLUP;
         TimerInitialize 20000; TimerAttachInterrupt ].
Proof.
  destruct (setup_board_calls Scenario.bring_up Scenario.two_axes) as (addrs & Htake & Htrace).
  - vm_compute. reflexivity.
  - destruct addrs as [|a [|b addrs]]; try discriminate.
    injection Htake as <-. rewrite Htrace. reflexivity.
Defined.

(** One axis declared: the entries of the axes before it stay. *)
Lemma declare_axis_frame (m w side : Z) (s s' : State) :
  declare_axis m w side s = Done s' ->
  forall i, i <> Z.to_nat (num_steppers s) ->
    steppers s' !! i = steppers s !! i /\ is_left s' !! i = is_left s !! i.
Proof.
  unfold declare_axis. intros H i Hi.
  destruct (truthy m); [ | injection H as <-; auto ].
  apply bind_inv_Done in H as (s1 & H1 & H).
  assert (G1 : (num_steppers s1, is_left s1, steppers s1)
               = (num_steppers s, is_left s, steppers s)).
  { destruct (truthy w); [ | now injection H1 as <- ].
    apply bind_inv_Done in H1 as (s0 & H0 & H1). injection H1 as <-.
    unfold for_upto in H0.
    apply (for_range_keeps (fun t => (num_steppers t, is_left t, steppers t))) in H0;
      [ exact H0 | ].
    intros j t t' Hb. apply bind_inv_Done in Hb as (a & _ & Hb). now injection Hb as <-. }
  injection G1 as En El Est.
  apply bind_inv_Done in H as (l & [Hl ->]%aset_Done & H). cbv zeta in H.
  apply bind_inv_Done in H as (a & [Ha ->]%aset_Done & H). injection H as <-.
  cbn [num_steppers steppers is_left set_num_steppers set_steppers set_is_left].
  rewrite En, El, Est. split; apply list_lookup_insert_ne; congruence.
Qed.

(** X18.  The axes an [s] line registers.  The axis of the tens digits,
    when its motor digit is not 0, takes the next free slot, and the axis
    of the ones digits the slot after it (the same slot when there was no
    tens axis).  Each gets its side digit as orientation flag and the motor
    [getStepper] returns for its motor digit on the new shield: port 1 or
    2, and a null pointer for a digit from 3 to 9. *)
Theorem shield_line_registers (sidx midx numw side : Z) (s s' : State) :
  0 <= num_steppers s <= 16 -> length (is_left s) = 16%nat ->
  setup_shield sidx midx numw side s = Done s' ->
  let mten := Z.rem (Z.quot midx 10) 10 in
  let mone := Z.rem midx 10 in
  let first := Z.to_nat (num_steppers s) in
  let second := Z.to_nat (num_steppers s + counted mten) in
  (truthy mten = true ->
     steppers s' !! first = Some (getStepper (num_shields s) mten)
     /\ is_left s' !! first = Some (Z.rem (Z.quot side 10) 10))
  /\ (truthy mone = true ->
        steppers s' !! second = Some (getStepper (num_shields s) mone)
        /\ is_left s' !! second = Some (Z.rem side 10))
  /\ (forall digit, 1 <= digit <= 2 ->
        getStepper (num_shields s) digit
        = Some {| shield := num_shields s; port := digit |})
  /\ (forall digit, 3 <= digit <= 9 -> getStepper (num_shields s) digit = None).
Proof.
  intros Hn Hleft H. cbv zeta.
  rewrite setup_shield_by_blocks in H. unfold setup_shield_blocks in H.
  apply bind_inv_Done in H as (addr & _ & H).
  apply bind_inv_Done in H as (ms & _ & H). cbv zeta in H.
  apply bind_inv_Done in H as (t1 & H1 & H).
  apply bind_inv_Done in H as (t2 & H2 & H). injection H as <-.
  cbn [steppers is_left set_num_shields].
  pose proof (declare_axis_counts _ _ _ _ _ H1 Hn Hleft)
    as ([= _ Ens1 _ _] & Hleft1 & En1 & Hle1 & _ & Hreg1).
  cbn [num_steppers num_shields emit set_trace set_motor_shields] in En1, Ens1, Hreg1.
  assert (Hn1 : 0 <= num_steppers t1 <= 16)
    by (rewrite En1 in *; unfold counted in *; destruct (truthy _); lia).
  pose proof (declare_axis_counts _ _ _ _ _ H2 Hn1 Hleft1) as (_ & _ & _ & _ & _ & Hreg2).
  pose proof (declare_axis_frame _ _ _ _ _ H2) as Hframe.
  split; [ | split; [ | split ] ].
  - intros Hten. destruct (Hreg1 Hten) as [Hm Hl].
    destruct (Hframe (Z.to_nat (num_steppers s))) as [-> ->]; [ | auto ].
    rewrite En1. unfold counted. rewrite Hten. lia.
  - intros Hone. destruct (Hreg2 Hone) as [Hm Hl].
    rewrite <- En1, <- Ens1. auto.
  - intros digit Hdigit. unfold getStepper. rewrite to_uint8_small by lia.
    now rewrite (proj2 (Z.leb_le 1 digit)), (proj2 (Z.leb_le digit 2)) by lia.
  - intros digit Hdigit. unfold getStepper. rewrite to_uint8_small by lia.
    rewrite (proj2 (Z.leb_gt digit 2)) by lia. now rewrite andb_false_r.
Qed.

Lemma shield_line_registers_witness :
  exists s',
    setup_shield 0 23 11 10 init_state = Done s'
    /\ steppers s' !! 0%nat = Some (Some {| shield := 0; port := 2 |})
    /\ is_left s' !! 0%nat = Some 1
    /\ steppers s' !! 1%nat = Some None
    /\ is_left s' !! 1%nat = Some 0.
Proof.
  eexists. split; [ vm_compute; reflexivity | ].
  destruct (shield_line_registers 0 23 11 10 init_state
              ltac:(let t := eval vm_compute in
                      (match setup_shield 0 23 11 10 init_state with
                       | Done t => t
                       | _ => init_state
                       end) in exact t))
    as (Hten & Hone & _).
  - vm_compute. split; discriminate.
  - reflexivity.
  - vm_compute. reflexivity.
  - destruct (Hten eq_refl) as [E1 E2]. destruct (Hone eq_refl) as [E3 E4].
    split; [ exact E1 | ]. split; [ exact E2 | ]. split; [ exact E3 | exact E4 ].
Defined.

(** ** Axes left alone *)

(** X19.  An idle axis stays idle.  In the passes of [loop] that receive
    nothing, every declared axis having its motor, a declared axis in
    phase 0 is never asked to move: after [k] passes its phase is 0 and the
    calls made on it are [k] [run]s. *)
Theorem idle_axis_stays_idle (env : Env) (s : State) (a : Z) (h : AccelStepper) (k : nat) :
  well_formed s = true -> motorised s = true -> declared s a = true ->
  phase s a = Some 0 -> history s a = Some h ->
  exists sk,
    cycles env k s = Done sk
    /\ phase sk a = Some 0
    /\ history sk a = Some (h ++ replicate k Run).
Proof.
  intros Hwf%well_formed_shaped Hmot%motorised_motors Ha%declared_spec Hph Hh%history_spec.
  destruct (cycles_spec env k s Hwf Hmot) as (sk & Hck & _ & _ & _ & Hax).
  destruct Hwf as [_ Hr _ _ _ _ Hn _ _].
  destruct (lookup_lt_is_Some_2 (ret_steps s) (Z.to_nat a)) as [ret Hret]; [ lia | ].
  destruct (Hax a 0 h ret Ha Hph Hh Hret) as [Hphk Hhk].
  rewrite axis_run_idle in Hphk, Hhk.
  exists sk. split; [ exact Hck | ]. split; [ exact Hphk | now apply history_spec ].
Qed.

Lemma idle_axis_stays_idle_witness :
  exists sk,
    cycles Bench.env 3 Scenario.two_axes = Done sk
    /\ phase sk 0 = Some 0
    /\ history sk 0
       = Some [SetMaxSpeed default_speed; SetAcceleration default_accel; Run; Run; Run].
Proof.
  apply (idle_axis_stays_idle Bench.env Scenario.two_axes 0
           [SetMaxSpeed default_speed; SetAcceleration default_accel] 3); reflexivity.
Defined.

Lemma stepper_call_view (a : Z) (c : call) (s s' : State) (b : nat) :
  stepper_call a c s = Done s' -> Z.of_nat b <> a -> axis_view s' b = axis_view s b.
Proof.
  intros (h & Ha & _ & ->)%stepper_call_Done Hb. unfold axis_view.
  cbn [prot_steps ret_steps whisking_status accel_steppers set_accel_steppers].
  rewrite list_lookup_insert_ne by lia. reflexivity.
Qed.

Lemma home_stepper_loop_trace (env : Env) (fuel : nat) (a : Z) :
  forall s s', home_stepper_loop env fuel a s = Done s' -> set_trace (trace s) s' = s.
Proof.
  induction fuel as [|fuel IH]; intros s s' H; [ discriminate | ].
  cbn [home_stepper_loop] in H.
  apply bind_inv_Done in H as (pin & _ & H).
  destruct (digitalRead env pin (trace s)); [ | injection H as <-; apply set_trace_id ].
  apply bind_inv_Done in H as (left & _ & H).
  apply bind_inv_Done in H as (m & _ & H).
  apply IH in H. apply (f_equal (set_trace (trace s))) in H.
  etrans; [ | etrans; [ exact H | ] ].
  - destruct s'; reflexivity.
  - destruct (truthy left); destruct s; reflexivity.
Qed.

(** X20.  A command addressed to one axis leaves every other axis alone:
    for each of the eight per-axis commands, with an axis argument that is
    not the sentinel 999, the targets, the phase and the [AccelStepper] of
    every other slot are after the command what they were before it. *)
Theorem other_axes_untouched
  (env : Env) (fuel : nat) (c : axis_command) (a v : Z) (s s' : State) (b : nat) :
  a <> ALL_FLAG -> Z.of_nat b <> a ->
  axis_effect env fuel c a v s = Done s' ->
  axis_view s' b = axis_view s b.
Proof.
  intros Hall%Z.eqb_neq Hb H.
  assert (Hset : forall name (l l' : list Z) x,
            aset name l a x = Done l' -> l' !! b = l !! b).
  { intros name l l' x [Ha ->]%aset_Done. apply list_lookup_insert_ne. lia. }
  destruct c; cbn [axis_effect] in H;
    unfold cmd_set_prot, cmd_set_ret, cmd_set_speed, cmd_set_accel, cmd_whisk,
      cmd_home_stepper, cmd_halt_whisk, cmd_retract in H;
    rewrite Hall in H.
  - destruct ((v <? MAX_STEPS) && (1 <? v)); [ | now injection H as <- ].
    apply bind_inv_Done in H as (l & Hl & H). injection H as <-.
    unfold axis_view. cbn. now rewrite (Hset _ _ _ _ Hl).
  - destruct ((v <? MAX_STEPS) && (1 <? v)); [ | now injection H as <- ].
    apply bind_inv_Done in H as (l & Hl & H). injection H as <-.
    unfold axis_view. cbn. now rewrite (Hset _ _ _ _ Hl).
  - exact (stepper_call_view _ _ _ _ _ H Hb).
  - exact (stepper_call_view _ _ _ _ _ H Hb).
  - apply bind_inv_Done in H as (w & Hw & H). cbv zeta in H.
    apply bind_inv_Done in H as (target & _ & H).
    rewrite (stepper_call_view _ _ _ _ _ H Hb).
    unfold axis_view. cbn. now rewrite (Hset _ _ _ _ Hw).
  - unfold home_stepper in H. apply bind_inv_Done in H as (s1 & H1 & H).
    rewrite (stepper_call_view _ _ _ _ _ H Hb).
    apply home_stepper_loop_trace in H1. rewrite <- H1. destruct s1; reflexivity.
  - apply bind_inv_Done in H as (s1 & H1 & H).
    apply bind_inv_Done in H as (w & Hw & H). injection H as <-.
    rewrite <- (stepper_call_view _ _ _ _ _ H1 Hb).
    unfold axis_view. cbn. now rewrite (Hset _ _ _ _ Hw).
  - apply bind_inv_Done in H as (target & _ & H).
    apply bind_inv_Done in H as (s1 & H1 & H).
    apply bind_inv_Done in H as (w & Hw & H). injection H as <-.
    rewrite <- (stepper_call_view _ _ _ _ _ H1 Hb).
    unfold axis_view. cbn. now rewrite (Hset _ _ _ _ Hw).
Qed.

Lemma other_axes_untouched_witness :
  exists s',
    axis_effect Bench.env 5 HomeStepper 1 0 Scenario.two_axes = Done s'
    /\ axis_view s' 0 = axis_view Scenario.two_axes 0.
Proof.
  eexists. split; [ vm_compute; reflexivity | ].
  apply (other_axes_untouched Bench.env 5 HomeStepper 1 0 Scenario.two_axes).
  - discriminate.
  - discriminate.
  - vm_compute. reflexivity.
Defined.

(** ** After bring-up *)

(** X21.  What bring-up leaves behind each axis.  Every declared axis has
    a fresh [AccelStepper] on which exactly two calls were made, the
    default maximum speed and the default acceleration; the slots of the
    axes that were not declared hold null pointers.  No axis has been asked
    to move. *)
Theorem bring_up_sets_defaults (bursts : list (list ascii)) (s : State) :
  setup bursts init_state = Done s ->
  (forall a, declared s a = true ->
     history s a = Some [SetMaxSpeed default_speed; SetAcceleration default_accel]
     /\ phase s a = Some 0)
  /\ (forall a, num_steppers s <= a < MAX_STEPPERS ->
        accel_steppers s !! Z.to_nat a = Some None).
Proof.
  intros H. destruct (setup_well_formed _ _ H) as (Hwf%well_formed_shaped & _ & _ & Hw).
  pose proof (setup_histories _ _ H) as Hh.
  destruct Hwf as [_ _ _ _ _ _ Hn Hd Hu]. split.
  - intros a Ha%declared_spec. destruct (Hd a Ha) as [h Hha]. split.
    + apply history_spec. now rewrite Hha, (Hh _ _ Hha).
    + unfold phase. rewrite Hw. change (whisking_status init_state) with (replicate 16 0).
      apply lookup_replicate_2. lia.
  - intros a Ha. apply Hu. unfold MAX_STEPPERS in Ha. lia.
Qed.

Lemma bring_up_sets_defaults_witness :
  history Scenario.two_axes 1
  = Some [SetMaxSpeed default_speed; SetAcceleration default_accel]
  /\ phase Scenario.two_axes 1 = Some 0.
Proof.
  destruct (bring_up_sets_defaults Scenario.bring_up Scenario.two_axes) as [Hdecl _].
  - vm_compute. reflexivity.
  - apply Hdecl. reflexivity.
Defined.

Lemma atoi_range (text : string) (v : Z) : atoi text = Done v -> INT_MIN <= v <= INT_MAX.
Proof.
  unfold atoi. intros H.
  match type of H with
  | (if ?b then _ else _) = _ => destruct b eqn:E; [ | discriminate ]
  end.
  injection H as <-. apply andb_true_iff in E as [E1%Z.leb_le E2%Z.leb_le]. auto.
Qed.

(** X22.  The sampling period a [p] line can set.  The argument is read
    by [atoi], whose result is a 16 bit [int], and stored in an
    [unsigned long]: the period becomes the argument when that is 0 ..
    32767, and the argument plus 2^32 when it is negative.  No [p] line
    sets a period from 32768 to 4294934527 microseconds, so none between
    33 ms and 71 minutes. *)
Theorem sampling_period_range (s s' : State) (flag flag' : Z) :
  arg_text s 0 = Done "p"%string ->
  setup_command s flag = Done (s', flag') ->
  exists v,
    arg_int s 1 = Done v /\ INT_MIN <= v <= INT_MAX
    /\ sampling_period s' = (if v <? 0 then v + 2 ^ 32 else v)
    /\ ~ (32768 <= sampling_period s' <= 4294934527)
    /\ flag' = flag.
Proof.
  intros Hp H. unfold setup_command in H. rewrite Hp in H. cbn [mbind outcome_bind] in H.
  change ("p" =? "s")%string with false in H. change ("p" =? "p")%string with true in H.
  cbv iota in H. apply bind_inv_Done in H as (v & Hv & H). injection H as <- <-.
  assert (Hrange : INT_MIN <= v <= INT_MAX).
  { unfold arg_int in Hv. apply bind_inv_Done in Hv as (t & _ & Hv).
    exact (atoi_range _ _ Hv). }
  exists v. split; [ exact Hv | ]. split; [ exact Hrange | ].
  cbn [sampling_period set_sampling_period]. unfold to_ulong, INT_MIN, INT_MAX in *.
  assert (E : v mod 2 ^ 32 = if v <? 0 then v + 2 ^ 32 else v).
  { destruct (v <? 0) eqn:Hneg.
    - apply Z.ltb_lt in Hneg. rewrite <- (Z.mod_add v 1 (2 ^ 32)) by lia.
      apply Z.mod_small. lia.
    - apply Z.ltb_ge in Hneg. apply Z.mod_small. lia. }
  rewrite E. split; [ reflexivity | ]. split; [ | reflexivity ].
  destruct (v <? 0) eqn:Hneg; [ apply Z.ltb_lt in Hneg | apply Z.ltb_ge in Hneg ]; lia.
Qed.

Lemma sampling_period_range_witness :
  exists s1 s',
    end_of_line (Scenario.typed "p -1") = Done s1
    /\ setup_command s1 0 = Done (s', 0)
    /\ sampling_period s' = 4294967295.
Proof.
  let t := eval vm_compute in (end_of_line (Scenario.typed "p -1")) in
  match t with Done ?s => pose (s1 := s) end.
  let t := eval vm_compute in (setup_command s1 0) in
  match t with Done (?s, _) => pose (s' := s) end.
  exists s1, s'. split; [ vm_compute; reflexivity | ].
  split; [ vm_compute; reflexivity | ].
  destruct (sampling_period_range s1 s' 0 0) as (v & Hv & _ & Hsp & _).
  - vm_compute. reflexivity.
  - vm_compute. reflexivity.
  - vm_compute in Hv. injection Hv as <-. exact Hsp.
Defined.

(** ** Targets at start-up *)

Lemma stepper_call_targets (i : Z) (c : call) (s s' : State) :
  stepper_call i c s = Done s' -> targets s' = targets s.
Proof. intros (h & _ & _ & ->)%stepper_call_Done. reflexivity. Qed.

Lemma callbacks_Done (i : Z) (forward backward : State -> outcome State) :
  callbacks i = Done (forward, backward) ->
  0 <= i < 16
  /\ forward = onestep i FORWARD INTERLEAVE /\ backward = onestep i BACKWARD INTERLEAVE.
Proof.
  intros H.
  assert (Hslot : 0 <= i < 16).
  { destruct (Z_lt_ge_dec i 0) as [Hneg|Hpos];
      [ | destruct (Z_lt_ge_dec i 16) as [Hlt|Hge]; [ lia | ] ];
      unfold callbacks in H; rewrite !aget_out in H by (simpl; lia); discriminate. }
  rewrite callbacks_slot in H by exact Hslot. injection H as <- <-. auto.
Qed.

Lemma stepper_run_targets (env : Env) (i : Z) (s s' : State) :
  stepper_run env i s = Done s' -> targets s' = targets s.
Proof.
  unfold stepper_run. intros H.
  apply bind_inv_Done in H as (h & _ & H).
  apply bind_inv_Done in H as (s1 & H1%stepper_call_targets & H).
  rewrite <- H1.
  destruct (runSpeed env h (trace s)) as [dir|]; [ | now injection H as <- ].
  apply bind_inv_Done in H as ([forward backward] & (_ & -> & ->)%callbacks_Done & H).
  destruct dir; unfold onestep in H; apply bind_inv_Done in H as (m & _ & H);
    now injection H as <-.
Qed.

Lemma advance_axis_targets (env : Env) (i : Z) (s s' : State) :
  advance_axis env i s = Done s' -> targets s' = targets s.
Proof.
  unfold advance_axis. intros H.
  apply bind_inv_Done in H as (status & _ & H).
  apply bind_inv_Done in H as (s1 & H1 & H%stepper_run_targets).
  rewrite H. clear H.
  destruct (truthy status); [ | now injection H1 as <- ].
  apply bind_inv_Done in H1 as (h & _ & H1).
  destruct (distanceToGo env h =? 0); [ | now injection H1 as <- ].
  apply bind_inv_Done in H1 as (w & _ & H1). cbv zeta in H1.
  apply bind_inv_Done in H1 as (status' & _ & H1).
  destruct (truthy status').
  - apply bind_inv_Done in H1 as (target & _ & H1%stepper_call_targets). exact H1.
  - now injection H1 as <-.
Qed.

Lemma home_stepper_targets (env : Env) (fuel : nat) (a : Z) (s s' : State) :
  home_stepper env fuel a s = Done s' -> targets s' = targets s.
Proof.
  unfold home_stepper. intros H. apply bind_inv_Done in H as (s1 & H1 & H).
  rewrite (stepper_call_targets _ _ _ _ H).
  apply home_stepper_loop_trace in H1. rewrite <- H1. reflexivity.
Qed.

Lemma for_upto_targets (n : Z) (body : Z -> State -> outcome State) (s s' : State) :
  (forall j t t', body j t = Done t' -> targets t' = targets t) ->
  for_upto n body s = Done s' -> targets s' = targets s.
Proof. intros Hbody H. exact (for_range_keeps targets body _ Hbody _ _ _ H). Qed.

(** The commands other than [set_prot] and [set_ret] leave the targets as
    they are. *)
Lemma axis_effect_targets (env : Env) (fuel : nat) (c : axis_command) (sid v : Z)
    (s s' : State) :
  c <> SetProt -> c <> SetRet ->
  axis_effect env fuel c sid v s = Done s' -> targets s' = targets s.
Proof.
  intros Hp Hr H.
  assert (Hwhisk : forall i t t',
            (w ← aset "whisking_status" (whisking_status t) i 2;
             let t := set_whisking_status w t in
             target ← aget "prot_steps" (prot_steps t) i;
             stepper_call i (MoveTo target) t) = Done t' ->
            targets t' = targets t).
  { intros i t t' Hb. apply bind_inv_Done in Hb as (w & _ & Hb). cbv zeta in Hb.
    apply bind_inv_Done in Hb as (target & _ & Hb%stepper_call_targets). exact Hb. }
  assert (Hhalt : forall i t t',
            (t ← stepper_call i Stop t;
             w ← aset "whisking_status" (whisking_status t) i 1;
             Done (set_whisking_status w t)) = Done t' ->
            targets t' = targets t).
  { intros i t t' Hb. apply bind_inv_Done in Hb as (t1 & H1%stepper_call_targets & Hb).
    apply bind_inv_Done in Hb as (w & _ & Hb). injection Hb as <-. exact H1. }
  assert (Hretract : forall i t t',
            (target ← aget "ret_steps" (ret_steps t) i;
             t ← stepper_call i (MoveTo target) t;
             w ← aset "whisking_status" (whisking_status t) i 1;
             Done (set_whisking_status w t)) = Done t' ->
            targets t' = targets t).
  { intros i t t' Hb. apply bind_inv_Done in Hb as (target & _ & Hb).
    apply bind_inv_Done in Hb as (t1 & H1%stepper_call_targets & Hb).
    apply bind_inv_Done in Hb as (w & _ & Hb). injection Hb as <-. exact H1. }
  destruct c; try contradiction; cbn [axis_effect] in H;
    unfold cmd_set_speed, cmd_set_accel, cmd_whisk, cmd_home_stepper, cmd_halt_whisk,
      cmd_retract in H;
    destruct (sid =? ALL_FLAG);
    first
      [ exact (for_upto_targets _ _ _ _ (fun j t t' => stepper_call_targets j _ t t') H)
      | exact (stepper_call_targets _ _ _ _ H)
      | exact (for_upto_targets _ _ _ _ Hwhisk H) | exact (Hwhisk _ _ _ H)
      | exact (for_upto_targets _ _ _ _ (home_stepper_targets env fuel) H)
      | exact (home_stepper_targets _ _ _ _ _ H)
      | exact (for_upto_targets _ _ _ _ Hhalt H) | exact (Hhalt _ _ _ H)
      | exact (for_upto_targets _ _ _ _ Hretract H) | exact (Hretract _ _ _ H) ].
Qed.

Lemma run_command_targets (env : Env) (fuel : nat) (s s' : State) (w : string) :
  run_command env fuel s = Done s' ->
  arg_text s 0 = Done w -> sets_target w = false ->
  targets s' = targets s.
Proof.
  unfold run_command, sets_target. intros H Hw [Hp Hr]%orb_false_iff.
  rewrite Hw in H. cbn [mbind outcome_bind] in H. rewrite Hp, Hr in H.
  repeat match type of H with
         | (if ?b then _ else _) = _ => destruct b
         | (_ ≫= _) = Done _ => apply bind_inv_Done in H as (? & _ & H)
         end;
    try (injection H as <-; reflexivity).
  - exact (axis_effect_targets env fuel SetSpeed _ _ _ _ ltac:(discriminate)
             ltac:(discriminate) H).
  - exact (axis_effect_targets env fuel SetAccel _ _ _ _ ltac:(discriminate)
             ltac:(discriminate) H).
  - exact (axis_effect_targets env fuel Whisk _ 0 _ _ ltac:(discriminate)
             ltac:(discriminate) H).
  - exact (axis_effect_targets env fuel HomeStepper _ 0 _ _ ltac:(discriminate)
             ltac:(discriminate) H).
  - exact (axis_effect_targets env fuel HaltWhisk _ 0 _ _ ltac:(discriminate)
             ltac:(discriminate) H).
  - exact (axis_effect_targets env fuel Retract _ 0 _ _ ltac:(discriminate)
             ltac:(discriminate) H).
Qed.

Lemma end_of_line_targets (s s' : State) : end_of_line s = Done s' -> targets s' = targets s.
Proof.
  unfold end_of_line. intros H.
  apply bind_inv_Done in H as (buf & _ & H).
  apply bind_inv_Done in H as ([buf' words] & _ & H).
  apply bind_inv_Done in H as (table & _ & H). now injection H as <-.
Qed.

Lemma edit_char_targets (c : ascii) (s s' : State) :
  edit_char c s = Done s' -> targets s' = targets s.
Proof.
  unfold edit_char. intros H.
  destruct (((c =? BS)%char || (c =? DEL)%char) && (0 <? user_command_buffer_index s));
    [ now injection H as <- | ].
  destruct ((code " " <=? code c) && (user_command_buffer_index s <? 64 - 1));
    [ | now injection H as <- ].
  apply bind_inv_Done in H as (buf & _ & H). now injection H as <-.
Qed.

Lemma loop_char_targets (env : Env) (fuel : nat) (c : ascii) (s s' : State) :
  loop_char env fuel c s = Done s' ->
  existsb sets_target (if (c =? CR)%char then command_word s else []) = false ->
  targets s' = targets s.
Proof.
  unfold loop_char, command_word. intros H Hw. destruct (c =? CR)%char.
  - apply bind_inv_Done in H as (s1 & H1 & H).
    apply bind_inv_Done in H as (s2 & H2 & H). injection H as <-.
    rewrite H1 in Hw. cbn [mbind outcome_bind] in Hw.
    pose proof H2 as Hrun. unfold run_command in H2.
    apply bind_inv_Done in H2 as (w & Hw0 & _).
    rewrite Hw0 in Hw. cbn [existsb] in Hw. apply orb_false_iff in Hw as [Hw _].
    rewrite <- (end_of_line_targets _ _ H1).
    exact (run_command_targets env fuel s1 s2 w Hrun Hw0 Hw).
  - exact (edit_char_targets _ _ _ H).
Qed.

Lemma words_read_targets (env : Env) (fuel : nat) (input : list ascii) :
  forall s s',
    drain (loop_char env fuel) input s = Done s' ->
    existsb sets_target (words_read env fuel input s) = false ->
    targets s' = targets s.
Proof.
  induction input as [|c input IH]; intros s s' H Hw.
  - now injection H as <-.
  - cbn [drain] in H. apply bind_inv_Done in H as (t & Ht & H).
    cbn [words_read] in Hw. rewrite Ht in Hw.
    rewrite existsb_app in Hw. apply orb_false_iff in Hw as [Hw1 Hw2].
    rewrite (IH _ _ H Hw2). exact (loop_char_targets _ _ _ _ _ Ht Hw1).
Qed.

Lemma commands_read_targets (env : Env) (fuel : nat) (inputs : list (list ascii)) :
  forall s s',
    passes env fuel inputs s = Done s' ->
    existsb sets_target (commands_read env fuel inputs s) = false ->
    targets s' = targets s.
Proof.
  induction inputs as [|input rest IH]; intros s s' H Hw.
  - now injection H as <-.
  - cbn [passes] in H. apply bind_inv_Done in H as (t & Ht & H).
    cbn [commands_read] in Hw. rewrite Ht in Hw.
    rewrite existsb_app in Hw. apply orb_false_iff in Hw as [Hw1 Hw2].
    rewrite (IH _ _ H Hw2).
    unfold loop in Ht. apply bind_inv_Done in Ht as (t1 & H1 & Ht).
    rewrite (for_upto_targets _ _ _ _ (advance_axis_targets env) Ht).
    exact (words_read_targets _ _ _ _ _ H1 Hw1).
Qed.

(** C10.  The initialisers give axis 0 the protraction target 133 and the
    retraction target 22 and every other axis 0 and 0, and neither bring-up
    nor any line other than a [set_prot] or a [set_ret] touches the
    targets.  So in a state reached from reset by any bring-up and any
    passes of [loop], once the characters [text] of the pass under way have
    been read, none of the lines closed so far being a [set_prot] or a
    [set_ret]: the line [whisk a], for a declared axis other than 0, every
    declared axis having its motor, issues [moveTo(0)], and, the driver
    bringing the two moves to their end, the main cycle issues one more
    move on the axis, the retraction, again [moveTo(0)]. *)
Theorem default_targets_on_axis_0_only
  (env : Env) (fuel : nat) (bursts inputs : list (list ascii)) (text : list ascii)
  (s0 s1 s : State) (a : Z) (h0 : AccelStepper) :
  power_on env fuel bursts inputs = Done s0 ->
  drain (loop_char env fuel) text s0 = Done s1 ->
  existsb sets_target (commands_received env fuel bursts inputs
                         ++ words_read env fuel text s0) = false ->
  end_of_line s1 = Done s ->
  receives1 s "whisk" a ->
  declared s a = true -> a <> 0 ->
  motorised s = true ->
  history s a = Some h0 ->
  whisk_completes env h0 0 0 ->
  prot_steps init_state = 133 :: replicate 15 0
  /\ ret_steps init_state = 22 :: replicate 15 0
  /\ prot_steps s = prot_steps init_state
  /\ ret_steps s = ret_steps init_state
  /\ prot_steps s !! Z.to_nat a = Some 0
  /\ ret_steps s !! Z.to_nat a = Some 0
  /\ exists s2 (n1 n2 : nat),
       run_command env fuel s = Done s2
       /\ history s2 a = Some (h0 ++ [MoveTo 0])
       /\ forall k, exists sk,
            cycles env k s2 = Done sk
            /\ phase sk a = Some (whisk_phase n1 n2 k)
            /\ history sk a = Some (whisk_history h0 0 0 n1 k).
Proof.
  intros Hpower Htext Hwords Hparse Hline Ha%declared_spec Ha0 Hmot%motorised_motors
    Hh%history_spec Harr.
  unfold power_on in Hpower. apply bind_inv_Done in Hpower as (sb & Hsetup & Hpasses).
  unfold commands_received in Hwords. rewrite Hsetup in Hwords.
  rewrite existsb_app in Hwords. apply orb_false_iff in Hwords as [Hw1 Hw2].
  destruct (setup_well_formed bursts sb Hsetup) as (Hwf%well_formed_shaped & Hp & Hr & _).
  assert (Hs : shaped s).
  { apply (updates_invariant _ update_shaped sb); [ | exact Hwf ].
    etrans; [ exact (passes_updates _ _ _ _ _ Hpasses) | ].
    etrans; [ exact (drain_updates _ (loop_char_updates env fuel) _ _ _ Htext) | ].
    exact (end_of_line_updates _ _ Hparse). }
  assert (Ht : targets s = targets init_state).
  { rewrite (end_of_line_targets _ _ Hparse), (words_read_targets _ _ _ _ _ Htext Hw2),
      (commands_read_targets _ _ _ _ _ Hpasses Hw1).
    unfold targets. now rewrite Hp, Hr. }
  assert (Hps : prot_steps s = prot_steps init_state) by exact (f_equal fst Ht).
  assert (Hrs : ret_steps s = ret_steps init_state) by exact (f_equal snd Ht).
  pose proof Hs as [_ _ _ _ _ _ Hn Hd _].
  assert (Hpa : prot_steps s !! Z.to_nat a = Some 0).
  { rewrite Hps. change (prot_steps init_state) with ([133] ++ replicate 15 0).
    rewrite lookup_app_r by (simpl; lia). apply lookup_replicate_2. simpl. lia. }
  assert (Hra : ret_steps s !! Z.to_nat a = Some 0).
  { rewrite Hrs. change (ret_steps init_state) with ([22] ++ replicate 15 0).
    rewrite lookup_app_r by (simpl; lia). apply lookup_replicate_2. simpl. lia. }
  split; [ reflexivity | ]. split; [ reflexivity | ].
  split; [ exact Hps | ]. split; [ exact Hrs | ]. split; [ exact Hpa | ].
  split; [ exact Hra | ].
  rewrite (run_command_whisk env fuel s a Hline).
  destruct (whisk_course env s a 0 0 h0 Hs Hmot Ha Harr Hpa Hra Hh)
    as (s2 & Hcmd & _ & Hhi & n1 & n2 & Hall & _).
  exists s2, n1, n2. auto.
Qed.

Lemma default_targets_on_axis_0_only_witness :
  exists s0 s1 s,
    power_on Bench.env 5 Scenario.bring_up [Bench.line "home_stepper 999"; []] = Done s0
    /\ drain (loop_char Bench.env 5) (Bench.chars "whisk 1") s0 = Done s1
    /\ end_of_line s1 = Done s
    /\ receives1 s "whisk" 1
    /\ prot_steps s !! Z.to_nat 1 = Some 0
    /\ ret_steps s !! Z.to_nat 1 = Some 0
    /\ exists s2,
         run_command Bench.env 5 s = Done s2
         /\ history s2 1
            = Some ([SetMaxSpeed 1500; SetAcceleration 500; SetCurrentPosition 0; Run; Run]
                      ++ [MoveTo 0]).
Proof.
  pose (s0 := ltac:(let t := eval vm_compute in
                      (power_on Bench.env 5 Scenario.bring_up
                         [Bench.line "home_stepper 999"; []]) in
                    match t with Done ?s => exact s end) : State).
  pose (s1 := ltac:(let t := eval vm_compute in
                      (drain (loop_char Bench.env 5) (Bench.chars "whisk 1") s0) in
                    match t with Done ?s => exact s end) : State).
  pose (s := ltac:(let t := eval vm_compute in (end_of_line s1) in
                   match t with Done ?s => exact s end) : State).
  assert (Hline : receives1 s "whisk" 1) by (split; vm_compute; reflexivity).
  exists s0, s1, s.
  split; [ vm_compute; reflexivity | ].
  split; [ vm_compute; reflexivity | ].
  split; [ vm_compute; reflexivity | ].
  split; [ exact Hline | ].
  destruct (default_targets_on_axis_0_only Bench.env 5 Scenario.bring_up
              [Bench.line "home_stepper 999"; []] (Bench.chars "whisk 1") s0 s1 s 1
              [SetMaxSpeed 1500; SetAcceleration 500; SetCurrentPosition 0; Run; Run])
    as (_ & _ & _ & _ & Hp & Hr & s2 & n1 & n2 & Hcmd & Hh & _).
  - vm_compute. reflexivity.
  - vm_compute. reflexivity.
  - vm_compute. reflexivity.
  - vm_compute. reflexivity.
  - exact Hline.
  - vm_compute. reflexivity.
  - discriminate.
  - vm_compute. reflexivity.
  - vm_compute. reflexivity.
  - apply arrives_whisk_completes. exact bench_arrives.
  - split; [ exact Hp | ]. split; [ exact Hr | ]. exists s2. auto.
Defined.

(** [whisk 1] on the wire, straight after bring-up: both moves of the cycle
    go to 0, where the axis already is, and the axis is idle after two
    passes. *)
Example whisk_1_scenario :
  exists s1 s2,
    loop Bench.env 0 (Bench.line "whisk 1") Scenario.two_axes = Done s1
    /\ phase s1 1 = Some 1
    /\ history s1 1 = Some [SetMaxSpeed 1500; SetAcceleration 500; MoveTo 0; MoveTo 0; Run]
    /\ cycles Bench.env 1 s1 = Done s2
    /\ phase s2 1 = Some 0.
Proof.
  do 2 eexists. split; [ vm_compute; reflexivity | ].
  split; [ reflexivity | ]. split; [ reflexivity | ].
  split; [ vm_compute; reflexivity | reflexivity ].
Qed.

(** The same after [home_stepper 999] and an idle pass, and after a
    [set_prot] and a [set_ret] addressed to axis 0 alone: axis 1 is still
    sent to 0. *)
Example whisk_1_later_scenario :
  exists s1 s2 h,
    passes Bench.env 5
      [Bench.line "home_stepper 999"; Bench.line "set_prot 0 150" ++ Bench.line "set_ret 0 30"]
      Scenario.two_axes = Done s1
    /\ loop Bench.env 5 (Bench.line "whisk 1") s1 = Done s2
    /\ history s2 1 = Some h
    /\ List.filter is_move h = [MoveTo 0; MoveTo 0].
Proof.
  do 3 eexists. split; [ vm_compute; reflexivity | ].
  split; [ vm_compute; reflexivity | ].
  split; [ vm_compute; reflexivity | vm_compute; reflexivity ].
Qed.

(** ** The windows of the notebook *)

Lemma slice_before_last {A} (l : list A) (x : A) (n : nat) :
  Notebook.slice (l ++ [x]) (- Z.of_nat (S n)) (-1) = drop (length l - n) l.
Proof.
  unfold Notebook.slice, Notebook.clamp. rewrite length_app. cbn [length].
  rewrite (proj2 (Z.ltb_lt (- Z.of_nat (S n)) 0)) by lia.
  change (-1 <? 0) with true. cbv iota.
  replace (Z.to_nat (Z.max 0 (Z.min (Z.of_nat (length l + 1))
                                (- Z.of_nat (S n) + Z.of_nat (length l + 1)))))
    with (length l - n)%nat by lia.
  replace (Z.to_nat (Z.max 0 (Z.min (Z.of_nat (length l + 1))
                                (-1 + Z.of_nat (length l + 1)))
                     - Z.max 0 (Z.min (Z.of_nat (length l + 1))
                                  (- Z.of_nat (S n) + Z.of_nat (length l + 1)))))
    with (length l - (length l - n))%nat by lia.
  rewrite drop_app_le by lia.
  apply take_app_length'. rewrite length_drop. reflexivity.
Qed.

(** X23.  The windows of the notebook stop before the newest sample.
    With [x] the sample received last and [vals] those before it: the
    example that prints [whisker_vals[i][-11:-1]] prints the last 10 of
    [vals]; [update_plot] shows the whole log, [x] included, while fewer
    than 300 samples are held, and from then on the last 300 of [vals],
    [x] excluded.  When exactly 300 samples are held, 299 are shown. *)
Theorem notebook_windows_skip_newest (vals : list Z) (x : Z) :
  Notebook.printed_values (vals ++ [x]) = drop (length vals - 10) vals
  /\ ((length vals < 299)%nat -> Notebook.displayed (vals ++ [x]) = vals ++ [x])
  /\ ((299 <= length vals)%nat ->
        Notebook.displayed (vals ++ [x]) = drop (length vals - 300) vals
        /\ (length (Notebook.displayed (vals ++ [x])) <= 300)%nat
        /\ (length vals = 299%nat -> Notebook.displayed (vals ++ [x]) = vals)).
Proof.
  split; [ exact (slice_before_last vals x 10) | ].
  unfold Notebook.displayed, Notebook.disp_samples. rewrite length_app. cbn [length]. split.
  - intros Hfew. now rewrite (proj2 (Z.ltb_lt _ _)) by lia.
  - intros Hmany. rewrite (proj2 (Z.ltb_ge _ _)) by lia.
    change (Notebook.slice (vals ++ [x]) (-301) (-1))
      with (Notebook.slice (vals ++ [x]) (- Z.of_nat 301) (-1)).
    rewrite (slice_before_last vals x 300).
    split; [ reflexivity | ]. split; [ rewrite length_drop; lia | ].
    intros ->. reflexivity.
Qed.

Lemma notebook_windows_skip_newest_witness :
  Notebook.displayed (replicate 299 7 ++ [9]) = replicate 299 7.
Proof.
  destruct (notebook_windows_skip_newest (replicate 299 7) 9) as (_ & _ & Hmany).
  destruct Hmany as (_ & _ & Hexact).
  - rewrite length_replicate. lia.
  - apply Hexact. apply length_replicate.
Defined.
